(* ===== verification/_CoqProject ===== *)
-Q . S2P
Prelude.v
GoStd.v
GoNet.v
Pool.v
RawClient.v
Utils.v
GoCache.v
Dhcp4.v
Packets.v
Database.v
Handler.v
Interface.v
Scope.v
Lab.v
Discover.v
Request.v
System.v
Threads.v
Concurrent.v
Interleave.v
Parallel.v
Leaks.v
Server.v
Relay.v
Config.v
Regexp.v
Api.v
Dictionary.v
GoFloat.v
Ini.v
ConfigApi.v
Stats.v
Serverif.v
Main.v
Routes.v
Watchdog.v
