(* ===== verification/Prelude.v ===== *)
(** * A verification library for the godhcp standalone DHCP server

    The program is a DHCP server and relay in Go.  Listeners read datagrams and
    queue them, workers hand each to [ServeDHCP], which chooses a scope and
    works on its pool of addresses, its caches and the option overrides; a REST
    API reads and edits the same state.  Pure code is translated to functions,
    code with state to functions that take and return it, a call that may panic
    to [exec] below, a loop that may not end to a function with fuel that
    returns [None] when it runs out.  Machine integers are [Z] with their wraps
    written out; times are nanoseconds.

    Files, in order, with the code they model:

    - Prelude.v: this file; scopes, tactics, the hint database [godhcp], Go
      values, machine integers, [binary.BigEndian].
    - GoStd.v, GoNet.v: what the sources use of the Go library: strings,
      strconv, encoding/hex; [net.IP], its parser and printer, networks, MAC
      addresses, [SplitHostPort], [ParseCIDR].
    - Pool.v: src/pool/pool.go.  [DHCPPool] with every method, one atomic step
      each, since each holds the lock throughout.  [lease_table] is the
      specification, a partial map from indexes to owners.
    - RawClient.v: src/rawClient.go.  Checksums, headers, the two senders.
    - Utils.v: src/utils.go.  Conversions, shuffles, reserved ranges.
    - GoCache.v, Dhcp4.v: the packages fdurand/go-cache and krolaw/dhcp4, as
      type classes with laws, and for each an instance that meets the laws.
    - Packets.v: the getters and setters of krolaw/dhcp4 field by field, as a
      class of laws, met by the layout of Dhcp4.v.
    - Database.v: src/database.go.  The override table behind the class [SqlDB],
      its memo cache, conversion and application of overrides.
    - Handler.v: the types of src/config.go and src/server.go.  A goroutine that
      sleeps is a [timer]; [on_evicted] is the callback of the hardware cache.
    - Interface.v: src/interface.go.  [ServeDHCP] whole: [serve_relay],
      [select_network], [serve_discover], [serve_request], [serve_release] and
      [serve_decline], on the state [ctx] of one packet and [world] of an
      interface.  Pings, the clock, Go's random choices are the record [env].
    - Scope.v: the invariant [scope_ok] of a scope and [evolves], what a packet
      may do to it.
    - Lab.v: a concrete scope, packets and environment for witnesses.
    - Discover.v, Request.v: theorems on the handlers.
    - System.v: [step] and [run]: packets, waking goroutines, cache janitors and
      the passing of time, in any order.
    - Threads.v: programs cut at their atomic actions, and rely-guarantee
      specifications of them.
    - Concurrent.v: [ServeDHCP] again, as the thread [serve_t]: every method of
      the pool and of a cache, and every critical section, is one action.
    - Interleave.v: the specification of each handler among others.
    - Parallel.v: [pstep] and [prun]: any number of handlers, goroutines and
      purges, one action at a time, in any order.
    - Leaks.v: indexes that nothing frees any more.
    - Server.v: src/server.go and src/workers_pool.go.  [Serve], [doWork].
    - Relay.v: the packets of a relay, and an exchange of client, relay, server.
    - Config.v: src/config.go.  [readConfig], [AssignIP] and its regular
      expression.
    - Regexp.v: the regular expressions of the sources, with the order in which
      package regexp prefers matches.
    - Api.v: src/api.go, its types, leases and overrides, and
      [InterfaceScopeFromMac].
    - Dictionary.v: src/dictionary.go.  The table of options and its printers.
    - GoFloat.v: double-precision arithmetic as the statistics use it, over the
      Standard Library's executable specification of binary floats.
    - Ini.v: the package go-ini as a type class with laws, with an instance.
    - ConfigApi.v: src/api.go, [handleGetConfig] and [handleUpdateConfig], and
      the restart that reads what was posted.
    - Stats.v: src/api.go, [handleApiReq], [handleStats], [handleAllStats] and
      [handleDebug].
    - Serverif.v: src/serverif.go.  The sockets of the listeners over a table of
      descriptors, where any system call may fail; also [run] and [runUnicast]
      of src/interface.go and the raw sockets of src/rawClient.go.
    - Main.v: src/main.go.  [main_start] from the files on disk to a [server],
      the table of interfaces, and [work], the steps of queue and workers.
    - Routes.v: the route table of src/main.go and [serve_http], a request from
      its path to the handler and its effect on the server; the package
      gorilla/mux is a class whose law is that the first matching route wins.
    - Watchdog.v: the loop of src/main.go that tells systemd the server is alive.

    What the theorems show:

    - the pool refines the lease table, never hands an index out twice, picks
      uniformly or the least recently released index (Pool.v);
    - an OFFER on a silent network carries an address reserved for its client,
      comes after at most two rounds, and is followed by an ACK of the same
      address when asked for in time; an ACK goes only to the holder and is
      recorded in every cache; a packet never harms another client (Discover.v,
      Request.v, System.v), all for clients without a static assignment and with
      a hardware address other than 00:00:00:00:00:00 (see Conditions);
    - every run keeps every scope well formed, from any configuration that is
      read and has no negative lease time; in a tame run no two clients share an
      address (System.v, Config.v);
    - the workers in parallel: the thread of a handler run alone is [ServeDHCP]
      (Concurrent.v); in every interleaving the scopes stay well formed and an
      action touches only its own client, and while no goroutine frees an index
      the answers are backed by the pool and no two clients are told one address
      (Parallel.v);
    - a second OFFER to one client, after its entry expired or by a second
      worker, strands the first index, and no packet of another client and no
      goroutine ever brings it back (Leaks.v);
    - the states in which the code goes wrong: a goroutine that frees an index a
      client has leased again, so that two clients are acknowledged on one
      address, a client with the all-zero hardware address that is offered
      addresses nobody reserves, a DISCOVER that never ends or offers a held
      address after a ping reply, a client that gets no OFFER, a static address
      acknowledged to two clients (Discover.v, Request.v, System.v);
    - overrides: the memo cache agrees with the table unless a write falls
      between its two critical sections, precedence, exact widths, and which
      options of an override posted by the API are in the client's next reply
      (Database.v, Api.v);
    - datagrams pass the checks of a receiver that computes RFC 1071 sums on its
      own (RawClient.v) and go where they should (Server.v); a relay sends what
      it should, changes only the fields it should, and drops NAK, RELEASE and
      DECLINE; a client behind it gets what the scope of the relay's network
      answered (Relay.v);
    - a posted configuration comes back from the API and is what a restart
      reads; a value nobody checks can make the restart panic (ConfigApi.v);
    - the statistics of a running server are always answered and add up, show
      the configuration and every recorded lease; percentages are exact or one
      too small, and a single reserved address is reported as a fault
      (Stats.v, Dictionary.v, GoFloat.v);
    - listeners leak no descriptor whichever call fails (Serverif.v);
    - a server that starts is sound, its queue and workers stay bounded and
      serve every accepted job once and in order, and an interface that serves
      and relays is hidden from the API (Main.v);
    - the REST API as it is served: every call reaches its handler with its
      variables, no request breaks the invariants of the scopes or the override
      memo, GET changes nothing, an override that is posted comes back
      (Routes.v); static assignments are parsed as their regular expression says
      (Regexp.v); the watchdog is fed as often as the server answers
      (Watchdog.v).

    Conditions.  Three assumptions about packets and configurations come back in
    many theorems; each is a premise of the statement and named in its comment.
    The client's hardware address is not 00:00:00:00:00:00: the pool answers that
    address for an index nobody holds and for one outside the range, so the
    handlers take such a client for the holder of all of them
    ([Discover.zero_mac_unreserved] shows what follows).  The network is silent
    ([quiet]) where an address must not be given to two clients: after a ping
    reply the search goes on with index 0 without reserving it
    ([Discover.discover_offers_held_address]).  The client has no static
    assignment: a static address is acknowledged without asking the pool
    ([Request.static_ack_ignores_holder]).

    Fuel.  The [retry] loop of DISCOVER: two rounds are enough on a silent
    network ([discover_offers]), no number is when every address answers
    ([discover_diverges]).  [IPsFromRange]: one round per address of the range
    ([ExcludeIP_range]); the statistics count the reserved addresses again, with
    the fuel the configuration was read with ([stats_always_answered]).  The
    carry loop of the checksum: two rounds ([fold_carries_total]).

    Abstractions.  In Interface.v and System.v a handler runs at one instant; in
    Concurrent.v and Parallel.v it is interleaved with the others at its calls on
    shared state, where building the reply options, with the override memo, is
    one action ([override_cache_race] cuts it further).  The 32-bit truncations
    of Go's [int] do not arise (it has 64 bits).  The steps of [work] interleave
    listeners and workers, and each job is served whole.
    Logging, locks and the JSON text are left out; the order in which Go walks a
    map is a parameter.

    Not modelled: the HTTP server, the static web files and the notification
    socket of systemd, which are I/O; the text of log messages; the web
    interface. *)

From stdpp Require Export base gmap strings list numbers sorting.
From Stdlib Require Export Lia ZArith.

#[global] Open Scope Z_scope.

(** ** Hint databases and tactics of the development *)

Create HintDb godhcp discriminated.

(** Case analysis on every [match] and [if] left in the goal or the context,
    closing the contradictory branches. *)
Ltac split_matches :=
  repeat (case_match; simplify_eq/=; try done).

(** Turns boolean comparisons on [Z] into arithmetic facts. *)
Ltac zbool :=
  repeat match goal with
  | H : (_ <? _) = true |- _ => apply Z.ltb_lt in H
  | H : (_ <? _) = false |- _ => apply Z.ltb_ge in H
  | H : (_ <=? _) = true |- _ => apply Z.leb_le in H
  | H : (_ <=? _) = false |- _ => apply Z.leb_gt in H
  | H : (_ =? _) = true |- _ => apply Z.eqb_eq in H
  | H : (_ =? _) = false |- _ => apply Z.eqb_neq in H
  | H : (_ && _) = true |- _ => apply andb_true_iff in H; destruct H
  | H : (_ || _) = false |- _ => apply orb_false_iff in H; destruct H
  | H : negb _ = true |- _ => apply negb_true_iff in H
  | H : negb _ = false |- _ => apply negb_false_iff in H
  | H : String.eqb _ _ = true |- _ => apply String.eqb_eq in H
  | H : String.eqb _ _ = false |- _ => apply String.eqb_neq in H
  end.

(** Arithmetic with [/] and [mod] by constants. *)
Ltac zdiv := Z.div_mod_to_equations; lia.

(** ** Go values *)

(** An [error] is [nil] or a message. *)
Abbreviation error := (option string).

(** A call that may panic: [Panic] is the run-time panic of the Go program. *)
Inductive exec (A : Type) : Type :=
| Ret (a : A)
| Panic.
Arguments Ret {A} a.
Arguments Panic {A}.

Definition exec_bind {A B : Type} (m : exec A) (k : A -> exec B) : exec B :=
  match m with Ret a => k a | Panic => Panic end.

Declare Scope go_scope.
Delimit Scope go_scope with go.
Notation "x '<-!' m ';;' k" := (exec_bind m (fun x => k))
  (at level 100, m at next level, right associativity) : go_scope.

(** ** Machine integers *)

Definition u8 (z : Z) : Z := z mod 2 ^ 8.
Definition u16 (z : Z) : Z := z mod 2 ^ 16.
Definition u32 (z : Z) : Z := z mod 2 ^ 32.
Definition u64 (z : Z) : Z := z mod 2 ^ 64.
Definition MaxInt : Z := 2 ^ 63 - 1.
(** [int] is 64 bits wide: conversion of an unsigned value to [int]. *)
Definition i64 (z : Z) : Z := (z + 2 ^ 63) mod 2 ^ 64 - 2 ^ 63.

Definition is_u32 (z : Z) : Prop := 0 <= z < 2 ^ 32.
Definition is_u64 (z : Z) : Prop := 0 <= z < 2 ^ 64.

Lemma u8_range z : 0 <= u8 z < 256.
Proof. unfold u8. apply Z.mod_pos_bound. lia. Qed.

Lemma u16_range z : 0 <= u16 z < 65536.
Proof. unfold u16. apply Z.mod_pos_bound. lia. Qed.

Lemma u32_range z : is_u32 (u32 z).
Proof. unfold u32, is_u32. apply Z.mod_pos_bound. lia. Qed.

Lemma u16_small z : 0 <= z < 65536 -> u16 z = z.
Proof. intros. unfold u16. apply Z.mod_small. lia. Qed.

Lemma u32_small z : is_u32 z -> u32 z = z.
Proof. intros. unfold u32. by apply Z.mod_small. Qed.

#[export] Hint Resolve u8_range u16_range u32_range : godhcp.

(** ** Bytes and big-endian integers *)

(** A [[]byte] is a list of integers between 0 and 255. *)
Abbreviation bytes := (list Z).

Definition is_byte (b : Z) : Prop := 0 <= b < 256.
Definition is_bytes (l : bytes) : Prop := Forall is_byte l.

(** [binary.BigEndian.PutUint16] and the two-byte big-endian image. *)
Definition be16 (v : Z) : bytes := [u8 (Z.shiftr v 8); u8 v].

(** [binary.BigEndian.PutUint32]. *)
Definition be32 (v : Z) : bytes :=
  [u8 (Z.shiftr v 24); u8 (Z.shiftr v 16); u8 (Z.shiftr v 8); u8 v].

(** [binary.BigEndian.Uint32]: reads the first four bytes, panics when the
    slice is shorter. *)
Definition Uint32 (b : bytes) : exec Z :=
  match b with
  | b0 :: b1 :: b2 :: b3 :: _ =>
      Ret (Z.lor b3 (Z.lor (Z.shiftl b2 8) (Z.lor (Z.shiftl b1 16) (Z.shiftl b0 24))))
  | _ => Panic
  end.

Lemma lor_shift_add a b k :
  0 <= k -> 0 <= a < 2 ^ k -> 0 <= b -> Z.lor a (Z.shiftl b k) = a + b * 2 ^ k.
Proof.
  intros Hk Ha Hb. rewrite Z.shiftl_mul_pow2 by done.
  symmetry. rewrite Z.add_nocarry_lxor.
  - apply Z.bits_inj'. intros i Hi. rewrite Z.lxor_spec, Z.lor_spec.
    destruct (decide (i < k)).
    + rewrite Z.mul_pow2_bits_low by lia. by destruct (Z.testbit a i).
    + destruct (decide (a = 0)) as [->|]; [by rewrite Z.bits_0 | ].
      rewrite (Z.bits_above_log2 a i); [done | lia | ].
      apply Z.lt_le_trans with k; [ | lia]. apply Z.log2_lt_pow2; lia.
  - apply Z.bits_inj'. intros i Hi. rewrite Z.land_spec, Z.bits_0.
    destruct (decide (i < k)).
    + rewrite Z.mul_pow2_bits_low by lia. apply andb_false_r.
    + destruct (decide (a = 0)) as [->|]; [by rewrite Z.bits_0 | ].
      rewrite (Z.bits_above_log2 a i); [done | lia | ].
      apply Z.lt_le_trans with k; [ | lia]. apply Z.log2_lt_pow2; lia.
Qed.

(** Value of four bytes, without bit operations. *)
Lemma Uint32_val b0 b1 b2 b3 r :
  is_bytes [b0; b1; b2; b3] ->
  Uint32 (b0 :: b1 :: b2 :: b3 :: r) = Ret (b3 + b2 * 2 ^ 8 + b1 * 2 ^ 16 + b0 * 2 ^ 24).
Proof.
  intros H. unfold is_bytes in H. rewrite !Forall_cons in H.
  destruct H as (H0 & H1 & H2 & H3 & _). unfold is_byte in *. simpl. f_equal.
  assert (E1 : Z.lor (Z.shiftl b1 16) (Z.shiftl b0 24)
               = Z.shiftl (b1 + b0 * 2 ^ 8) 16).
  { replace 24 with (8 + 16) by lia. rewrite <- (Z.shiftl_shiftl b0 8 16) by lia.
    rewrite <- Z.shiftl_lor. f_equal. apply lor_shift_add; lia. }
  rewrite E1.
  assert (E2 : Z.lor (Z.shiftl b2 8) (Z.shiftl (b1 + b0 * 2 ^ 8) 16)
               = Z.shiftl (b2 + (b1 + b0 * 2 ^ 8) * 2 ^ 8) 8).
  { replace 16 with (8 + 8) by lia. rewrite <- (Z.shiftl_shiftl _ 8 8) by lia.
    rewrite <- Z.shiftl_lor. f_equal. apply lor_shift_add; lia. }
  rewrite E2, lor_shift_add by lia. lia.
Qed.

Lemma u8_is_byte z : is_byte (u8 z).
Proof. apply u8_range. Qed.

Lemma is_bytes_app a b : is_bytes a -> is_bytes b -> is_bytes (a ++ b).
Proof. apply Forall_app_2. Qed.

Lemma is_bytes_cons z b : is_byte z -> is_bytes b -> is_bytes (z :: b).
Proof. by constructor. Qed.

Lemma is_bytes_nil : is_bytes [].
Proof. constructor. Qed.

Lemma be32_bytes v : is_bytes (be32 v).
Proof. repeat constructor; apply u8_range. Qed.

Lemma be16_bytes v : is_bytes (be16 v).
Proof. repeat constructor; apply u8_range. Qed.

(** Decoding a big-endian image gives the value back. *)
Lemma Uint32_be32 v r : is_u32 v -> Uint32 (be32 v ++ r) = Ret v.
Proof.
  intros [H0 H1]. unfold be32. simpl app.
  rewrite Uint32_val by apply (be32_bytes v). f_equal.
  unfold u8. rewrite !Z.shiftr_div_pow2 by lia. zdiv.
Qed.

Lemma be32_inj a b : is_u32 a -> is_u32 b -> be32 a = be32 b -> a = b.
Proof.
  intros Ha Hb E. pose proof (Uint32_be32 a [] Ha) as H1. pose proof (Uint32_be32 b [] Hb) as H2.
  rewrite E in H1. congruence.
Qed.

Lemma be32_Uint32 b0 b1 b2 b3 v :
  is_bytes [b0; b1; b2; b3] -> Uint32 [b0; b1; b2; b3] = Ret v -> be32 v = [b0; b1; b2; b3].
Proof.
  intros Hb. rewrite Uint32_val by done. intros [= <-].
  unfold is_bytes in Hb. rewrite !Forall_cons in Hb.
  destruct Hb as (H0 & H1 & H2 & H3 & _). unfold is_byte in *.
  unfold be32, u8. rewrite !Z.shiftr_div_pow2 by lia.
  repeat f_equal; zdiv.
Qed.

Lemma be32_val b0 b1 b2 b3 v :
  is_bytes [b0; b1; b2; b3] -> v = b3 + b2 * 2 ^ 8 + b1 * 2 ^ 16 + b0 * 2 ^ 24 ->
  be32 v = [b0; b1; b2; b3].
Proof. intros Hb ->. apply be32_Uint32; [done | ]. by rewrite Uint32_val. Qed.

(** A 32-bit value and its four bytes. *)
Lemma be32_inv v :
  is_u32 v -> exists b0 b1 b2 b3, is_bytes [b0; b1; b2; b3] /\
    be32 v = [b0; b1; b2; b3] /\ v = b3 + b2 * 2 ^ 8 + b1 * 2 ^ 16 + b0 * 2 ^ 24.
Proof.
  intros Hv. pose proof (be32_bytes v) as Hb. pose proof (Uint32_be32 v [] Hv) as Hu.
  unfold be32 in *. do 4 eexists. split; [exact Hb | ]. split; [done | ].
  rewrite app_nil_r, Uint32_val in Hu by done. congruence.
Qed.

Lemma Uint32_range b v : is_bytes b -> Uint32 b = Ret v -> is_u32 v.
Proof.
  intros Hb. destruct b as [|b0 [|b1 [|b2 [|b3 r]]]]; try done.
  assert (Hb' : is_bytes [b0; b1; b2; b3]).
  { unfold is_bytes in *. rewrite !Forall_cons in Hb. naive_solver. }
  rewrite Uint32_val by done. intros [= <-].
  unfold is_bytes in Hb'. rewrite !Forall_cons in Hb'.
  unfold is_byte, is_u32 in *. lia.
Qed.

#[export] Hint Resolve u8_is_byte is_bytes_app is_bytes_cons is_bytes_nil be32_bytes be16_bytes : godhcp.

(** ** Sorting orders as Go's [sort.Slice] states them *)

Lemma Sorted_head_min {A : Type} (R : relation A) `{!Transitive R} x l y :
  Sorted R (x :: l) -> y ∈ l -> R x y.
Proof.
  intros Hs Hy. apply Sorted_StronglySorted in Hs; [ | done].
  inversion Hs as [ | ?? _ Hall]; subst.
  rewrite Forall_forall in Hall. auto.
Qed.
