(* ===== verification/GoStd.v ===== *)
(** * The parts of Go's standard library the server uses on strings

    [strings.Split], [strings.TrimSpace], [strings.ToLower], the replacer of
    [ConvertOptionToDHCP], [strconv.Itoa], [strconv.ParseUint], [strconv.Atoi],
    [encoding/hex].  A Go string is a sequence of bytes, here a [string];
    [ToLower] is the ASCII part of the Go function, which is all that MAC
    addresses contain. *)

From S2P Require Import Prelude.
From Stdlib Require Import Ascii.

(** ** Bytes of a string *)

Definition code (c : ascii) : Z := Z.of_N (N_of_ascii c).
Definition char (z : Z) : ascii := ascii_of_N (Z.to_N z).

Fixpoint bytes_of_string (s : string) : bytes :=
  match s with
  | EmptyString => []
  | String c s => code c :: bytes_of_string s
  end.

Fixpoint string_of_bytes (b : bytes) : string :=
  match b with
  | [] => EmptyString
  | z :: b => String (char z) (string_of_bytes b)
  end.

Lemma code_range c : 0 <= code c < 256.
Proof. unfold code. pose proof (N_ascii_bounded c). lia. Qed.

Lemma char_code c : char (code c) = c.
Proof. unfold char, code. rewrite N2Z.id. apply ascii_N_embedding. Qed.

Lemma code_char z : is_byte z -> code (char z) = z.
Proof. intros []. unfold char, code. rewrite N_ascii_embedding by lia. lia. Qed.

Lemma bytes_of_string_of_bytes b : is_bytes b -> bytes_of_string (string_of_bytes b) = b.
Proof. induction 1; simpl; [done | ]. by rewrite code_char, IHForall. Qed.

Lemma string_of_bytes_of_string s : string_of_bytes (bytes_of_string s) = s.
Proof. induction s; simpl; [done | ]. by rewrite char_code, IHs. Qed.

Lemma bytes_of_string_bytes s : is_bytes (bytes_of_string s).
Proof. induction s; constructor; [apply code_range | done]. Qed.

#[export] Hint Resolve bytes_of_string_bytes : godhcp.

(** Concatenation, [a + b] of Go. *)
Fixpoint sapp (a b : string) : string :=
  match a with
  | EmptyString => b
  | String c a => String c (sapp a b)
  end.
Infix "+s+" := sapp (at level 60, right associativity).

Lemma sapp_assoc a b c : (a +s+ b +s+ c = (a +s+ b) +s+ c)%string.
Proof. induction a; simpl; congruence. Qed.

Lemma bytes_of_string_app a b :
  bytes_of_string (a +s+ b)%string = bytes_of_string a ++ bytes_of_string b.
Proof. induction a; simpl; [done | ]. by rewrite IHa. Qed.

(** ** strings *)

(** [strings.Split] with a separator of one byte. *)
Fixpoint Split (s : string) (sep : ascii) : list string :=
  match s with
  | EmptyString => [EmptyString]
  | String c r =>
      if decide (c = sep) then EmptyString :: Split r sep
      else match Split r sep with
           | p :: ps => String c p :: ps
           | [] => [String c EmptyString]
           end
  end.

(** [strings.Join]. *)
Fixpoint Join (l : list string) (sep : string) : string :=
  match l with
  | [] => EmptyString
  | [s] => s
  | s :: l => (s +s+ sep +s+ Join l sep)%string
  end.

Fixpoint has_char (c : ascii) (s : string) : bool :=
  match s with
  | EmptyString => false
  | String a r => bool_decide (a = c) || has_char c r
  end.

Lemma Split_not_nil s sep : Split s sep <> [].
Proof. destruct s; simpl; [done | ]. case_decide; [done | ]. by destruct (Split s sep). Qed.

Lemma Split_no_sep s sep : has_char sep s = false -> Split s sep = [s].
Proof.
  induction s as [|c s IH]; simpl; [done | ]. intros H. zbool.
  apply bool_decide_eq_false in H. rewrite decide_False by done. by rewrite IH.
Qed.

Lemma Split_app_sep s r sep :
  has_char sep s = false -> Split (s +s+ String sep r)%string sep = s :: Split r sep.
Proof.
  induction s as [|c s IH]; simpl; intros H.
  - by rewrite decide_True.
  - zbool. apply bool_decide_eq_false in H. rewrite decide_False by done. by rewrite IH.
Qed.

(** Splitting what was joined with a separator the parts do not contain. *)
Lemma Split_Join l sep :
  l <> [] -> Forall (fun s => has_char sep s = false) l ->
  Split (Join l (String sep EmptyString)) sep = l.
Proof.
  intros Hne H. induction H as [|s l Hs Hl IH]; [done | ].
  destruct l as [|s' l].
  - by apply Split_no_sep.
  - change (Join (s :: s' :: l) (String sep "")) with
      (s +s+ (String sep "" +s+ Join (s' :: l) (String sep "")))%string.
    change (String sep "" +s+ ?x)%string with (String sep x).
    rewrite Split_app_sep by done. by rewrite IH.
Qed.

(** Joining what was split. *)
Lemma Join_Split s sep : Join (Split s sep) (String sep EmptyString) = s.
Proof.
  induction s as [|c s IH]; simpl; [done | ]. case_decide as H.
  - subst. destruct (Split s sep) eqn:E; [by apply Split_not_nil in E | ].
    change (Join ("" :: s0 :: l) (String sep "")) with
      (String sep (Join (s0 :: l) (String sep ""))). by rewrite IH.
  - destruct (Split s sep) as [|p ps] eqn:E; [by apply Split_not_nil in E | ].
    destruct ps; simpl in *; by rewrite <- IH.
Qed.

(** The UTF-8 encodings of the characters [unicode.IsSpace] accepts. *)
Definition spaces : list bytes :=
  [[9]; [10]; [11]; [12]; [13]; [32]; [194; 133]; [194; 160]; [225; 154; 128];
   [226; 128; 128]; [226; 128; 129]; [226; 128; 130]; [226; 128; 131]; [226; 128; 132];
   [226; 128; 133]; [226; 128; 134]; [226; 128; 135]; [226; 128; 136]; [226; 128; 137];
   [226; 128; 138]; [226; 128; 168]; [226; 128; 169]; [226; 128; 175]; [226; 129; 159];
   [227; 128; 128]].

Fixpoint strip_prefix (p b : bytes) : option bytes :=
  match p, b with
  | [], _ => Some b
  | x :: p, y :: b => if x =? y then strip_prefix p b else None
  | _ :: _, [] => None
  end.

Fixpoint strip_any (ps : list bytes) (b : bytes) : option bytes :=
  match ps with
  | [] => None
  | p :: ps => match strip_prefix p b with Some r => Some r | None => strip_any ps b end
  end.

(** A byte string of length [n] loses at most [n] spaces. *)
Fixpoint trim_left (ps : list bytes) (fuel : nat) (b : bytes) : bytes :=
  match fuel with
  | O => b
  | S fuel => match strip_any ps b with Some r => trim_left ps fuel r | None => b end
  end.

Definition TrimSpace (s : string) : string :=
  let b := bytes_of_string s in
  let b := trim_left spaces (length b) b in
  let b := rev (trim_left (map (@rev Z) spaces) (length b) (rev b)) in
  string_of_bytes b.

Definition lower_char (c : ascii) : ascii :=
  let z := code c in if (65 <=? z) && (z <=? 90) then char (z + 32) else c.

(** [strings.ToLower] on ASCII. *)
Fixpoint ToLower (s : string) : string :=
  match s with
  | EmptyString => EmptyString
  | String c s => String (lower_char c) (ToLower s)
  end.

Lemma lower_char_idem c : lower_char (lower_char c) = lower_char c.
Proof. destruct c as [[] [] [] [] [] [] [] []]; reflexivity. Qed.

Lemma ToLower_idem s : ToLower (ToLower s) = ToLower s.
Proof. induction s; simpl; [done | ]. by rewrite lower_char_idem, IHs. Qed.

Lemma ToLower_app a b : ToLower (a +s+ b)%string = (ToLower a +s+ ToLower b)%string.
Proof. induction a; simpl; congruence. Qed.

(** [strings.Count(s, ":")]. *)
Fixpoint count_char (c : ascii) (s : string) : Z :=
  match s with
  | EmptyString => 0
  | String a r => (if decide (a = c) then 1 else 0) + count_char c r
  end.

Lemma count_char_app c a b : count_char c (a +s+ b)%string = count_char c a + count_char c b.
Proof. induction a; simpl; [done | ]. rewrite IHa. lia. Qed.

Lemma count_char_nonneg c s : 0 <= count_char c s.
Proof. induction s; simpl; [lia | ]. case_decide; lia. Qed.

Definition HasPrefix (s p : string) : bool := String.prefix p s.

(** ** strconv *)

Definition is_digit (c : ascii) : bool := (48 <=? code c) && (code c <=? 57).
Definition digit (d : Z) : ascii := char (48 + d).

(** The digits of [n], most significant first, before [acc]. *)
Fixpoint fmt_digits (fuel : nat) (n : Z) (acc : string) : string :=
  match fuel with
  | O => acc
  | S fuel =>
      let acc := String (digit (n mod 10)) acc in
      if n <? 10 then acc else fmt_digits fuel (n / 10) acc
  end.

(** Decimal image of [n >= 0]; [log2 n + 1] bounds the number of digits. *)
Definition Utoa (n : Z) : string := fmt_digits (S (Z.to_nat (Z.log2 n))) n EmptyString.

Definition Itoa (n : Z) : string :=
  if n <? 0 then String "-"%char (Utoa (- n)) else Utoa n.

(** The digit loop of [strconv.ParseUint] in base 10. *)
Fixpoint parse_digits (s : string) (acc : Z) : option Z :=
  match s with
  | EmptyString => Some acc
  | String c r => if is_digit c then parse_digits r (acc * 10 + (code c - 48)) else None
  end.

(** [strconv.ParseUint(s, 10, bits)]; [None] is the non-nil error. *)
Definition ParseUint (s : string) (bits : Z) : option Z :=
  match s with
  | EmptyString => None
  | _ => match parse_digits s 0 with
         | Some v => if v <? 2 ^ bits then Some v else None
         | None => None
         end
  end.

(** [strconv.Atoi] with its error dropped: 0 on a syntax error, the nearest
    bound of [int] when out of range. *)
Definition Atoi (s : string) : Z :=
  let clamp z := Z.max (- 2 ^ 63) (Z.min MaxInt z) in
  let go r neg :=
    match r with
    | EmptyString => 0
    | _ => match parse_digits r 0 with
           | Some v => clamp (if neg : bool then - v else v)
           | None => 0
           end
    end in
  match s with
  | String "-" r => go r true
  | String "+" r => go r false
  | _ => go s false
  end.

Lemma digit_code d : 0 <= d < 10 -> code (digit d) = 48 + d.
Proof. intros. unfold digit. apply code_char. unfold is_byte. lia. Qed.

Lemma digit_is_digit d : 0 <= d < 10 -> is_digit (digit d) = true.
Proof. intros. unfold is_digit. rewrite digit_code by done. lia. Qed.

Lemma parse_fmt_digits fuel n s :
  0 <= n < 2 ^ Z.of_nat fuel -> (0 < fuel)%nat ->
  parse_digits (fmt_digits fuel n s) 0 = parse_digits s n.
Proof.
  revert n s. induction fuel as [|fuel IH]; intros n s Hn Hf; [lia | ].
  assert (Hd : 0 <= n mod 10 < 10) by (apply Z.mod_pos_bound; lia).
  cbn [fmt_digits]. destruct (n <? 10) eqn:E; zbool.
  - cbn [parse_digits]. rewrite digit_is_digit, digit_code by done. f_equal. zdiv.
  - rewrite Nat2Z.inj_succ, Z.pow_succ_r in Hn by lia.
    assert (fuel <> O) by (intros ->; simpl in Hn; lia).
    rewrite IH by (split; [zdiv | zdiv] || lia). cbn [parse_digits].
    rewrite digit_is_digit, digit_code by done. f_equal. zdiv.
Qed.

Lemma fmt_digits_not_empty fuel n s : s <> EmptyString -> fmt_digits fuel n s <> EmptyString.
Proof.
  revert n s. induction fuel; intros n s Hs; simpl; [done | ].
  case_match; [done | by apply IHfuel].
Qed.

Lemma Utoa_not_empty n : Utoa n <> EmptyString.
Proof. unfold Utoa. cbn [fmt_digits]. case_match; [done | ]. by apply fmt_digits_not_empty. Qed.

Lemma parse_digits_Utoa n : 0 <= n -> parse_digits (Utoa n) 0 = Some n.
Proof.
  intros Hn. unfold Utoa. rewrite parse_fmt_digits; [done | | lia].
  rewrite Nat2Z.inj_succ, Z2Nat.id by apply Z.log2_nonneg. split; [lia | ].
  destruct (decide (n = 0)) as [->|]; [reflexivity | ]. apply Z.log2_spec. lia.
Qed.

(** Parsing a printed number gives it back. *)
Lemma ParseUint_Utoa n bits : 0 <= n < 2 ^ bits -> ParseUint (Utoa n) bits = Some n.
Proof.
  intros Hn. unfold ParseUint.
  destruct (Utoa n) eqn:E; [by apply Utoa_not_empty in E | ]. rewrite <- E.
  rewrite parse_digits_Utoa by lia. by rewrite (proj2 (Z.ltb_lt _ _)) by lia.
Qed.

Lemma Utoa_head n c r : 0 <= n -> Utoa n = String c r -> is_digit c = true.
Proof.
  intros Hn E. pose proof (parse_digits_Utoa n Hn) as H. rewrite E in H. cbn [parse_digits] in H.
  by destruct (is_digit c).
Qed.

Lemma Atoi_Utoa n : 0 <= n <= MaxInt -> Atoi (Utoa n) = n.
Proof.
  intros Hn. pose proof (parse_digits_Utoa n ltac:(lia)) as Hp. unfold Atoi.
  destruct (Utoa n) as [|c r] eqn:E; [by apply Utoa_not_empty in E | ].
  pose proof (Utoa_head n c r ltac:(lia) E) as Hc. rewrite Hp.
  assert (Hz : Z.max (- 2 ^ 63) (Z.min MaxInt n) = n) by lia.
  destruct c as [[] [] [] [] [] [] [] []]; try done.
Qed.

(** ** encoding/hex *)

Definition hex_val (c : ascii) : option Z :=
  let z := code c in
  if (48 <=? z) && (z <=? 57) then Some (z - 48)
  else if (97 <=? z) && (z <=? 102) then Some (z - 97 + 10)
  else if (65 <=? z) && (z <=? 70) then Some (z - 65 + 10)
  else None.

(** [hex.DecodeString]; [None] is the error of an odd length or a bad byte. *)
Fixpoint DecodeString (s : string) : option bytes :=
  match s with
  | EmptyString => Some []
  | String a (String b r) =>
      match hex_val a, hex_val b, DecodeString r with
      | Some x, Some y, Some l => Some (x * 16 + y :: l)
      | _, _, _ => None
      end
  | String _ EmptyString => None
  end.

Definition hex_digit (d : Z) : ascii := if d <? 10 then char (48 + d) else char (97 + (d - 10)).

(** Two lower-case hexadecimal digits per byte. *)
Fixpoint EncodeToString (b : bytes) : string :=
  match b with
  | [] => EmptyString
  | z :: b => String (hex_digit (z / 16)) (String (hex_digit (z mod 16)) (EncodeToString b))
  end.

(** The replacer of [ConvertOptionToDHCP]: ["0x"], ["0X"], [":"], ["-"] and
    [" "] are dropped, scanning from the left without overlap. *)
Fixpoint hex_clean (s : string) : string :=
  match s with
  | EmptyString => EmptyString
  | String c r =>
      match c, r with
      | "0"%char, String "x" r' => hex_clean r'
      | "0"%char, String "X" r' => hex_clean r'
      | ":"%char, _ | "-"%char, _ | " "%char, _ => hex_clean r
      | _, _ => String c (hex_clean r)
      end
  end.

Lemma Forall_lt_256 (P : Z -> Prop) :
  Forall P (seqZ 0 256) -> forall z, is_byte z -> P z.
Proof. rewrite Forall_seqZ. unfold is_byte. intros H z Hz. apply H. lia. Qed.

(** Checks a computable statement byte by byte. *)
Ltac each_byte :=
  let l := eval vm_compute in (seqZ 0 256) in change (seqZ 0 256) with l;
  repeat (apply Forall_cons; split; [intros; reflexivity || lia | ]); apply Forall_nil.

Lemma hex_val_digit d : 0 <= d < 16 -> hex_val (hex_digit d) = Some d.
Proof.
  intros H. apply (Forall_lt_256 (fun d => d < 16 -> hex_val (hex_digit d) = Some d));
    [ | unfold is_byte; lia | lia].
  by each_byte.
Qed.

(** Decoding what was encoded. *)
Lemma DecodeString_Encode b : is_bytes b -> DecodeString (EncodeToString b) = Some b.
Proof.
  induction 1 as [|z b Hz Hb IH]; [done | ]. cbn [EncodeToString DecodeString].
  unfold is_byte in Hz. rewrite !hex_val_digit, IH by zdiv. repeat f_equal. zdiv.
Qed.
