(* ===== verification/GoNet.v ===== *)
(** * The parts of Go's package net the server uses

    [net.IP] is a byte slice, here a list of bytes with [nil] as the empty
    list: [To4], [Equal], [String], [ParseIP] (both families, as in
    [net/netip]), [IPNet.Contains], [IPNet.String], [ParseCIDR],
    [HardwareAddr.String]. *)

From S2P Require Import Prelude GoStd.
From Stdlib Require Import Ascii.

(** ** Addresses *)

Abbreviation IP := bytes.
Abbreviation HardwareAddr := bytes.

Definition v4InV6Prefix : bytes := [0; 0; 0; 0; 0; 0; 0; 0; 0; 0; 255; 255].

(** [net.IPv4(a, b, c, d)], the 16-byte form. *)
Definition IPv4 (a b c d : Z) : IP := v4InV6Prefix ++ [a; b; c; d].

Definition IPv4zero : IP := IPv4 0 0 0 0.
Definition IPv4bcast : IP := IPv4 255 255 255 255.

Definition To4 (ip : IP) : IP :=
  if decide (length ip = 4%nat) then ip
  else if decide (length ip = 16%nat) then
    if decide (take 12 ip = v4InV6Prefix) then drop 12 ip else []
  else [].

Definition IP_Equal (ip x : IP) : bool :=
  if decide (length ip = length x) then bool_decide (ip = x)
  else if decide (length ip = 4%nat /\ length x = 16%nat) then
    bool_decide (take 12 x = v4InV6Prefix) && bool_decide (ip = drop 12 x)
  else if decide (length ip = 16%nat /\ length x = 4%nat) then
    bool_decide (take 12 ip = v4InV6Prefix) && bool_decide (drop 12 ip = x)
  else false.

(** ** Printing *)

Definition hex_byte (z : Z) : string :=
  String (hex_digit (z / 16)) (String (hex_digit (z mod 16)) EmptyString).

(** A 16-bit group without leading zeros. *)
Definition hex_group_str (v : Z) : string :=
  let d n := String (hex_digit (Z.land (Z.shiftr v n) 15)) EmptyString in
  (if v <? 16 then d 0
   else if v <? 256 then d 4 +s+ d 0
   else if v <? 4096 then d 8 +s+ d 4 +s+ d 0
   else d 12 +s+ d 8 +s+ d 4 +s+ d 0).

Fixpoint groups (ip : bytes) : list Z :=
  match ip with
  | a :: b :: r => (a * 256 + b) :: groups r
  | _ => []
  end.

Fixpoint zero_run (g : list Z) : nat :=
  match g with
  | z :: g => if z =? 0 then S (zero_run g) else O
  | [] => O
  end.

(** The first longest run of at least two zero groups: start and length. *)
Fixpoint longest_run (g : list Z) (i : nat) (best : option (nat * nat)) : option (nat * nat) :=
  match g with
  | [] => best
  | _ :: g' =>
      let l := zero_run g in
      let better := match best with Some (_, bl) => bl <? l | None => true end%nat in
      longest_run g' (S i) (if (2 <=? l)%nat && better then Some (i, l) else best)
  end.

Definition v6_string (ip : bytes) : string :=
  let g := groups ip in
  let show l := Join (map hex_group_str l) ":" in
  match longest_run g 0 None with
  | Some (s, l) => (show (take s g) +s+ "::" +s+ show (drop (s + l) g))%string
  | None => show g
  end.

Definition v4_string (ip : bytes) : string := Join (map Utoa ip) ".".

Definition IP_String (ip : IP) : string :=
  match ip with
  | [] => "<nil>"
  | _ =>
      if decide (length ip = 4%nat \/ length ip = 16%nat) then
        match To4 ip with
        | [] => v6_string ip
        | p4 => v4_string p4
        end
      else ("?" +s+ EncodeToString ip)%string
  end.

Definition HardwareAddr_String (a : HardwareAddr) : string := Join (map hex_byte a) ":".

(** ** Parsing *)

(** [netip.parseIPv4Fields]; [nodig] holds at the start and after a dot. *)
Fixpoint parse_v4 (s : string) (nodig : bool) (val digLen : Z) (fields : bytes) : option bytes :=
  match s with
  | EmptyString => if decide (length fields = 3%nat) then Some (fields ++ [val]) else None
  | String c r =>
      if is_digit c then
        if (digLen =? 1) && (val =? 0) then None
        else
          let val := val * 10 + (code c - 48) in
          if 255 <? val then None else parse_v4 r false val (digLen + 1) fields
      else if decide (c = "."%char) then
        if nodig || String.eqb r EmptyString then None
        else if decide (length fields = 3%nat) then None
        else parse_v4 r true 0 0 (fields ++ [val])
      else None
  end.

Fixpoint hex_group (s : string) (off : nat) (acc : Z) : option (nat * Z * string) :=
  match s with
  | EmptyString => Some (off, acc, EmptyString)
  | String c r =>
      match hex_val c with
      | Some d => if (3 <? off)%nat then None else hex_group r (S off) (acc * 16 + d)
      | None => Some (off, acc, s)
      end
  end.

(** The group loop of [netip.parseIPv6]: it runs while fewer than 16 bytes are
    filled and each round fills two, so 8 rounds are exact. *)
Fixpoint v6_loop (rounds : nat) (s : string) (ip : bytes) (ell : option nat)
    : option (bytes * option nat * string) :=
  match rounds with
  | O => Some (ip, ell, s)
  | S rounds =>
      match hex_group s 0 0 with
      | None | Some (O, _, _) => None
      | Some (_, acc, rest) =>
          let ip' := ip ++ [acc / 256; acc mod 256] in
          match rest with
          | String "." _ =>
              if bool_decide (ell = None) && negb (bool_decide (length ip = 12%nat)) then None
              else if (16 <? length ip + 4)%nat then None
              else match parse_v4 s true 0 0 [] with
                   | Some f => Some (ip ++ f, ell, EmptyString)
                   | None => None
                   end
          | EmptyString => Some (ip', ell, EmptyString)
          | String ":" EmptyString => None
          | String ":" (String ":" r2) =>
              match ell, r2 with
              | Some _, _ => None
              | None, EmptyString => Some (ip', Some (length ip'), EmptyString)
              | None, _ => v6_loop rounds r2 ip' (Some (length ip'))
              end
          | String ":" r1 => v6_loop rounds r1 ip' ell
          | String _ _ => None
          end
      end
  end.

Definition v6_finish (r : option (bytes * option nat * string)) : option bytes :=
  match r with
  | Some (ip, ell, EmptyString) =>
      if (length ip <? 16)%nat then
        match ell with
        | Some e => Some (take e ip ++ replicate (16 - length ip) 0 ++ drop e ip)
        | None => None
        end
      else match ell with Some _ => None | None => Some ip end
  | _ => None
  end.

(** [netip.parseIPv6] on a string without zone. *)
Definition parse_v6 (s : string) : option bytes :=
  match s with
  | String ":" (String ":" EmptyString) => Some (replicate 16 0)
  | String ":" (String ":" r) => v6_finish (v6_loop 8 r [] (Some O))
  | _ => v6_finish (v6_loop 8 s [] None)
  end.

Inductive addr := Addr4 (b : bytes) | Addr6 (b : bytes).

(** [netip.ParseAddr] followed by the test for a zone: the first of ['.'],
    [':'] and ['%'] chooses the family, and a ['%'] anywhere after a [':'] is a
    zone, which both callers refuse. *)
Fixpoint first_sep (s : string) : option ascii :=
  match s with
  | EmptyString => None
  | String c r =>
      if decide (c = "."%char \/ c = ":"%char \/ c = "%"%char) then Some c else first_sep r
  end.

Definition ParseAddr (s : string) : option addr :=
  match first_sep s with
  | Some "."%char => Addr4 <$> parse_v4 s true 0 0 []
  | Some ":"%char => if has_char "%" s then None else Addr6 <$> parse_v6 s
  | _ => None
  end.

Definition As16 (a : addr) : IP :=
  match a with Addr4 b => v4InV6Prefix ++ b | Addr6 b => b end.

Definition BitLen (a : addr) : Z := match a with Addr4 _ => 32 | Addr6 _ => 128 end.

(** [net.ParseIP]; the empty list is [nil]. *)
Definition ParseIP (s : string) : IP :=
  match ParseAddr s with Some a => As16 a | None => [] end.

(** ** Networks *)

Record IPNet := mkIPNet { net_IP : IP; net_Mask : bytes }.

Definition networkNumberAndMask (n : IPNet) : IP * bytes :=
  let ip := match To4 (net_IP n) with [] => net_IP n | p4 => p4 end in
  if decide (length ip = 4%nat) then
    if decide (length (net_Mask n) = 4%nat) then (ip, net_Mask n)
    else if decide (length (net_Mask n) = 16%nat) then (ip, drop 12 (net_Mask n))
    else ([], [])
  else if decide (length ip = 16%nat) then
    if decide (length (net_Mask n) = 16%nat) then (ip, net_Mask n) else ([], [])
  else ([], []).

Fixpoint masked_eq (a m b : bytes) : bool :=
  match a, m, b with
  | x :: a, k :: m, y :: b => (Z.land x k =? Z.land y k) && masked_eq a m b
  | _, _, _ => true
  end.

Definition Contains (n : IPNet) (ip : IP) : bool :=
  let '(nn, m) := networkNumberAndMask n in
  let ip := match To4 ip with [] => ip | p4 => p4 end in
  if decide (length ip = length nn) then masked_eq nn m ip else false.

(** [v&0x80 != 0] eight times at most. *)
Fixpoint leading_ones (fuel : nat) (v n : Z) : Z * Z :=
  match fuel with
  | O => (v, n)
  | S fuel => if Z.land v 128 =? 0 then (v, n) else leading_ones fuel (u8 (Z.shiftl v 1)) (n + 1)
  end.

Fixpoint simpleMaskLength (mask : bytes) (n : Z) : Z :=
  match mask with
  | [] => n
  | v :: r =>
      if v =? 255 then simpleMaskLength r (n + 8)
      else
        let '(v, n) := leading_ones 8 v n in
        if negb (v =? 0) then -1
        else if forallb (Z.eqb 0) r then n else -1
  end.

Definition IPNet_String (n : IPNet) : string :=
  let '(nn, m) := networkNumberAndMask n in
  match nn, m with
  | [], _ | _, [] => "<nil>"
  | _, _ =>
      let l := simpleMaskLength m 0 in
      if l =? -1 then (IP_String nn +s+ "/" +s+ EncodeToString m)%string
      else (IP_String nn +s+ "/" +s+ Utoa l)%string
  end.

(** [net.ParseCIDR]: the address and its network, [None] on an error. *)
Definition CIDRMask (ones bits : Z) : bytes :=
  map (fun i => u8 (255 - Z.shiftr 255 (Z.max 0 (Z.min 8 (ones - 8 * i))))) (seqZ 0 (bits / 8)).

Fixpoint mask_bytes (ip m : bytes) : bytes :=
  match ip, m with x :: ip, k :: m => Z.land x k :: mask_bytes ip m | _, _ => [] end.

(** [dtoi]: a decimal prefix length. *)
Definition prefix_length (s : string) : option Z :=
  match s with EmptyString => None | _ => parse_digits s 0 end.

Definition ParseCIDR (s : string) : option (IP * IPNet) :=
  match Split s "/" with
  | addr :: mask :: rest =>
      match ParseAddr addr, prefix_length (Join (mask :: rest) "/") with
      | Some a, Some n =>
          if n <=? BitLen a then
            let m := CIDRMask n (BitLen a) in
            let ip := match a with Addr4 b => b | Addr6 b => b end in
            Some (As16 a, mkIPNet (mask_bytes ip m) m)
          else None
      | _, _ => None
      end
  | _ => None
  end.

(** [IPMask.Size]: leading ones and length in bits. *)
Definition Mask_Size (m : bytes) : Z * Z :=
  let ones := simpleMaskLength m 0 in
  if ones =? -1 then (0, 0) else (ones, 8 * Z.of_nat (length m)).

(** The text before and after the first [c]. *)
Fixpoint cut_at (c : ascii) (s : string) : option (string * string) :=
  match s with
  | EmptyString => None
  | String x r =>
      if Ascii.eqb x c then Some (EmptyString, r)
      else match cut_at c r with Some (a, b) => Some (String x a, b) | None => None end
  end.

(** [net.SplitHostPort] with its error dropped: both parts are then empty. *)
Definition SplitHostPort (hostport : string) : string * string :=
  let parts := Split hostport ":" in
  let fail := (EmptyString, EmptyString) in
  if (length parts =? 1)%nat then fail
  else
    match hostport with
    | String "[" rest =>
        match cut_at "]" rest with
        | Some (host, String ":" port) =>
            if has_char ":" port || has_char "[" rest || has_char "]" port then fail else (host, port)
        | _ => fail
        end
    | _ =>
        let host := Join (removelast parts) ":" in
        if has_char ":" host || has_char "[" hostport || has_char "]" hostport then fail
        else (host, List.last parts EmptyString)
    end.

(** ** Lemmas *)

Lemma To4_v4 ip : length ip = 4%nat -> To4 ip = ip.
Proof. intros H. unfold To4. by rewrite decide_True. Qed.

Lemma To4_mapped b : length b = 4%nat -> To4 (v4InV6Prefix ++ b) = b.
Proof. do 5 (destruct b as [|? b]; try done). Qed.

Lemma To4_length ip : To4 ip = [] \/ length (To4 ip) = 4%nat.
Proof.
  unfold To4. repeat case_decide; auto. right. rewrite length_drop. lia.
Qed.

Lemma To4_idem ip : To4 (To4 ip) = To4 ip.
Proof. destruct (To4_length ip) as [-> | H]; [done | by apply To4_v4]. Qed.

Lemma To4_bytes ip : is_bytes ip -> is_bytes (To4 ip).
Proof.
  intros H. unfold To4, is_bytes in *. repeat case_decide; auto using Forall_nil_2, Forall_drop.
Qed.

Lemma IP_Equal_refl ip : IP_Equal ip ip = true.
Proof. unfold IP_Equal. rewrite decide_True by done. by apply bool_decide_eq_true. Qed.

Lemma IP_Equal_same_len a b :
  length a = length b -> IP_Equal a b = true <-> a = b.
Proof. intros H. unfold IP_Equal. rewrite decide_True by done. apply bool_decide_eq_true. Qed.

Lemma IP_Equal_sym a b : IP_Equal a b = IP_Equal b a.
Proof.
  unfold IP_Equal. repeat case_decide; try lia; try done;
    first [by apply bool_decide_ext | f_equal; by apply bool_decide_ext].
Qed.

(** A four-byte address equals a 16-byte one exactly when it is its [To4]. *)
Lemma IP_Equal_mapped a b :
  length a = 4%nat -> length b = 4%nat -> IP_Equal a (v4InV6Prefix ++ b) = true <-> a = b.
Proof.
  intros Ha Hb. unfold IP_Equal. rewrite decide_False by (rewrite length_app; simpl; lia).
  rewrite decide_True by (rewrite length_app; simpl; lia).
  rewrite andb_true_iff, !bool_decide_eq_true. split.
  - intros [_ ->]. done.
  - intros ->. done.
Qed.

Lemma To4_cases ip :
  To4 ip <> [] ->
  (length ip = 4%nat /\ To4 ip = ip) \/
  (length (To4 ip) = 4%nat /\ ip = v4InV6Prefix ++ To4 ip).
Proof.
  unfold To4. repeat case_decide; try done; [by left | ]. intros _. right. split.
  - rewrite length_drop. lia.
  - rewrite <- (take_drop 12 ip) at 1. congruence.
Qed.

(** On IPv4 addresses, in either form, [Equal] compares the four bytes. *)
Lemma IP_Equal_To4 a b :
  To4 a <> [] -> To4 b <> [] -> IP_Equal a b = true <-> To4 a = To4 b.
Proof.
  intros Ha Hb. destruct (To4_cases a Ha) as [[La Ea]|[La Ea]], (To4_cases b Hb) as [[Lb Eb]|[Lb Eb]].
  - rewrite Ea, Eb. apply IP_Equal_same_len. congruence.
  - rewrite Ea, Eb at 1. by apply IP_Equal_mapped.
  - rewrite IP_Equal_sym, Eb, Ea at 1. rewrite IP_Equal_mapped by done. naive_solver.
  - rewrite Ea, Eb at 1. rewrite IP_Equal_same_len by (rewrite !length_app; congruence).
    split; [intros E; apply app_inj_1 in E; tauto | congruence].
Qed.

Lemma IPv4zero_Equal ip :
  length ip = 4%nat -> IP_Equal ip IPv4zero = true <-> ip = [0; 0; 0; 0].
Proof. intros H. by apply (IP_Equal_mapped ip [0; 0; 0; 0]). Qed.

(** *** Dotted decimal *)

(** Printing an octet puts the parser past its digits. *)
Lemma parse_v4_octet b s f :
  is_byte b ->
  parse_v4 (Utoa b +s+ s) true 0 0 f
  = parse_v4 s false b (Z.of_nat (String.length (Utoa b))) f.
Proof.
  revert b s f.
  assert (H : Forall (fun b => forall s f, parse_v4 (Utoa b +s+ s) true 0 0 f
    = parse_v4 s false b (Z.of_nat (String.length (Utoa b))) f) (seqZ 0 256)).
  { by each_byte. }
  intros b s f Hb. by apply (Forall_lt_256 _ H).
Qed.

Lemma sapp_nil_r s : s +s+ "" = s.
Proof. induction s; simpl; congruence. Qed.

Lemma sapp_assoc' a b c : (a +s+ b) +s+ c = a +s+ (b +s+ c).
Proof. by rewrite sapp_assoc. Qed.

Lemma parse_v4_dot s b dl f :
  (length f < 3)%nat -> s <> EmptyString ->
  parse_v4 (String "." s) false b dl f = parse_v4 s true 0 0 (f ++ [b]).
Proof.
  intros Hf Hs. cbn [parse_v4].
  change (is_digit ".") with false. cbn iota. rewrite decide_True by done.
  apply String.eqb_neq in Hs. rewrite Hs. simpl. by rewrite decide_False by lia.
Qed.

Lemma Utoa_app_not_empty n s : Utoa n +s+ s <> EmptyString.
Proof. destruct (Utoa n) eqn:E; [by apply Utoa_not_empty in E | done]. Qed.

Lemma parse_v4_string a b c d :
  is_bytes [a; b; c; d] -> parse_v4 (v4_string [a; b; c; d]) true 0 0 [] = Some [a; b; c; d].
Proof.
  intros H. unfold is_bytes in H. rewrite !Forall_cons in H. destruct H as (Ha & Hb & Hc & Hd & _).
  unfold v4_string. cbn [map Join sapp].
  rewrite parse_v4_octet, parse_v4_dot by (done || apply Utoa_app_not_empty || (simpl; lia)).

  rewrite parse_v4_octet, parse_v4_dot by (done || apply Utoa_app_not_empty || (simpl; lia)).
  rewrite parse_v4_octet, parse_v4_dot by (done || apply Utoa_not_empty || (simpl; lia)).
  rewrite <- (sapp_nil_r (Utoa d)), parse_v4_octet by done. done.
Qed.

Fixpoint all_chars (P : ascii -> bool) (s : string) : bool :=
  match s with
  | EmptyString => true
  | String c r => P c && all_chars P r
  end.

Lemma all_chars_app P a b : all_chars P (a +s+ b) = all_chars P a && all_chars P b.
Proof. induction a; simpl; [done | ]. rewrite IHa. by rewrite andb_assoc. Qed.

Lemma fmt_digits_all fuel n s :
  all_chars is_digit s = true -> all_chars is_digit (fmt_digits fuel n s) = true.
Proof.
  revert n s. induction fuel as [|fuel IH]; intros n s Hs; [done | ]. cbn [fmt_digits].
  assert (Hd : is_digit (digit (n mod 10)) = true)
    by (apply digit_is_digit; apply Z.mod_pos_bound; lia).
  case_match; [ | apply IH]; cbn [all_chars]; by rewrite Hd, Hs.
Qed.

Lemma Utoa_digits n : all_chars is_digit (Utoa n) = true.
Proof. apply fmt_digits_all. done. Qed.

Lemma digits_no_char c s :
  is_digit c = false -> all_chars is_digit s = true -> has_char c s = false.
Proof.
  intros Hc. induction s as [|a s IH]; simpl; [done | ]. intros H. zbool.
  rewrite bool_decide_eq_false_2 by (intros ->; congruence). simpl. auto.
Qed.

Lemma first_sep_v4 a r : first_sep (Utoa a +s+ String "." r) = Some "."%char.
Proof.
  pose proof (Utoa_digits a) as H. revert H. generalize (Utoa a) as s.
  induction s as [|c s IH]; simpl; [done | ]. intros H. zbool.
  rewrite decide_False; [by apply IH | ]. intros [-> | [-> | ->]]; done.
Qed.

(** Parsing the printed form of an IPv4 address gives its 16-byte form. *)
Lemma ParseIP_String ip :
  length ip = 4%nat -> is_bytes ip -> ParseIP (IP_String ip) = v4InV6Prefix ++ ip.
Proof.
  intros Hl Hb. destruct ip as [|a [|b [|c [|d [|]]]]]; try done.
  unfold IP_String. rewrite decide_True by auto. rewrite To4_v4 by done.
  unfold ParseIP, ParseAddr.
  replace (first_sep (v4_string [a; b; c; d])) with (Some "."%char).
  - by rewrite parse_v4_string.
  - unfold v4_string. cbn [map Join]. symmetry. apply first_sep_v4.
Qed.

Lemma IP_String_mapped b : length b = 4%nat -> IP_String (v4InV6Prefix ++ b) = IP_String b.
Proof. do 5 (destruct b as [|? b]; try done). Qed.

(** The printed form of an IPv4 address has digits and dots only. *)
Lemma IP_String_no_char c ip :
  length ip = 4%nat -> is_digit c = false -> c <> "."%char -> has_char c (IP_String ip) = false.
Proof.
  intros Hl Hc Hd. destruct ip as [|x [|y [|z [|w [|]]]]]; try done.
  unfold IP_String. rewrite decide_True by auto. rewrite To4_v4 by done.
  unfold v4_string. cbn [map Join sapp].
  assert (Happ : forall a b, has_char c (a +s+ b) = has_char c a || has_char c b).
  { induction a as [|h a IH]; intros b; simpl; [done | ]. by rewrite IH, orb_assoc. }
  assert (HU : forall n, has_char c (Utoa n) = false) by (intros; by apply digits_no_char, Utoa_digits).
  rewrite !Happ. cbn [has_char]. rewrite !Happ. cbn [has_char]. rewrite !Happ. cbn [has_char].
  rewrite !HU. by rewrite bool_decide_eq_false_2.
Qed.

Lemma IP_String_inj a b :
  length a = 4%nat -> length b = 4%nat -> is_bytes a -> is_bytes b ->
  IP_String a = IP_String b -> a = b.
Proof.
  intros Ha Hb Ba Bb E. apply (f_equal ParseIP) in E.
  rewrite !ParseIP_String in E by done. by apply app_inj_1 in E as [_ ?].
Qed.

(** *** Hardware addresses *)

Lemma hex_byte_bytes z : is_byte z -> DecodeString (hex_byte z) = Some [z].
Proof. intros H. apply (DecodeString_Encode [z]). by constructor. Qed.

Lemma hex_byte_no_colon z : is_byte z -> has_char ":" (hex_byte z) = false.
Proof.
  apply (Forall_lt_256 (fun z => has_char ":" (hex_byte z) = false)). by each_byte.
Qed.

Lemma hex_byte_lower z : is_byte z -> ToLower (hex_byte z) = hex_byte z.
Proof.
  apply (Forall_lt_256 (fun z => ToLower (hex_byte z) = hex_byte z)).
  by each_byte.
Qed.

Lemma hex_byte_inj a b : is_byte a -> is_byte b -> hex_byte a = hex_byte b -> a = b.
Proof.
  intros Ha Hb E. apply (f_equal DecodeString) in E.
  rewrite !hex_byte_bytes in E by done. congruence.
Qed.

(** The printed form is lower case and determines the address. *)
Lemma HardwareAddr_String_lower a :
  is_bytes a -> ToLower (HardwareAddr_String a) = HardwareAddr_String a.
Proof.
  unfold HardwareAddr_String. induction 1 as [|z a Hz Ha IH]; [done | ].
  destruct a as [|y a]; [by apply hex_byte_lower | ].
  change (map hex_byte (z :: y :: a)) with (hex_byte z :: map hex_byte (y :: a)).
  change (Join (hex_byte z :: map hex_byte (y :: a)) ":")
    with (hex_byte z +s+ (":" +s+ Join (map hex_byte (y :: a)) ":")).
  by rewrite !ToLower_app, IH, hex_byte_lower.
Qed.

Lemma HardwareAddr_String_inj a b :
  a <> [] -> b <> [] -> is_bytes a -> is_bytes b ->
  HardwareAddr_String a = HardwareAddr_String b -> a = b.
Proof.
  intros Na Nb Ha Hb E. apply (f_equal (fun s => Split s ":")) in E.
  unfold HardwareAddr_String in E.
  assert (Hsep : forall l, is_bytes l ->
    Forall (fun s => has_char ":" s = false) (map hex_byte l)).
  { induction 1; constructor; [by apply hex_byte_no_colon | done]. }
  rewrite !Split_Join in E; auto; [ | by destruct b | by destruct a].
  clear Na Nb. revert b Hb E. induction Ha as [|x a Hx Ha IH]; intros [|y b] Hb E; try done.
  apply Forall_cons in Hb as [Hy Hb]. injection E as E1 E2.
  f_equal; [ | by apply IH]. apply hex_byte_inj; [done.. | ]. unfold hex_byte. congruence.
Qed.

(** Parsed addresses are bytes. *)
Lemma parse_v4_bytes s nodig val dl fields b :
  is_byte val -> is_bytes fields -> parse_v4 s nodig val dl fields = Some b ->
  is_bytes b /\ length b = 4%nat.
Proof.
  revert nodig val dl fields. induction s as [|c s IH]; intros nodig val dl fields Hv Hf; cbn [parse_v4].
  - case_decide as Hl; [ | done]. intros [= <-]. split; [ | rewrite length_app; simpl; lia].
    apply is_bytes_app; [done | ]. apply is_bytes_cons; [done | apply is_bytes_nil].
  - destruct (is_digit c) eqn:D.
    + destruct ((dl =? 1) && (val =? 0)); [done | ].
      destruct (255 <? val * 10 + (code c - 48)) eqn:B; [done | ]. zbool. apply IH; [ | done].
      unfold is_digit in D. zbool. unfold is_byte in *. lia.
    + case_decide; [ | done]. destruct (nodig || String.eqb s EmptyString); [done | ].
      case_decide; [done | ]. apply IH; [unfold is_byte; lia | ].
      apply is_bytes_app; [done | ]. apply is_bytes_cons; [done | apply is_bytes_nil].
Qed.

Lemma hex_val_range c d : hex_val c = Some d -> 0 <= d < 16.
Proof. unfold hex_val. repeat case_match; intros [= <-]; zbool; lia. Qed.

Lemma hex_group_range s off acc n v r :
  0 <= acc < 16 ^ Z.of_nat off -> (off <= 4)%nat -> hex_group s off acc = Some (n, v, r) -> 0 <= v < 65536.
Proof.
  revert off acc. induction s as [|c s IH]; intros off acc Ha Ho; cbn [hex_group].
  - intros [= <- <- <-]. destruct off as [|[|[|[|[|?]]]]]; simpl in Ha; lia.
  - destruct (hex_val c) as [d|] eqn:D.
    + destruct (3 <? off)%nat eqn:O3; [done | ]. apply Nat.ltb_ge in O3.
      apply hex_val_range in D. apply IH; [ | lia].
      rewrite Nat2Z.inj_succ, Z.pow_succ_r by lia. lia.
    + intros [= <- <- <-]. destruct off as [|[|[|[|[|?]]]]]; simpl in Ha; lia.
Qed.

Lemma v6_loop_bytes rounds s ip ell ip' ell' r :
  is_bytes ip -> v6_loop rounds s ip ell = Some (ip', ell', r) -> is_bytes ip'.
Proof.
  revert s ip ell. induction rounds as [|rounds IH]; intros s ip ell Hip; cbn [v6_loop].
  { by intros [= <- <- <-]. }
  destruct (hex_group s 0 0) as [[[n acc] rest]|] eqn:G; [ | done]. destruct n as [|n]; [done | ].
  apply hex_group_range in G; [ | simpl; lia | lia].
  assert (Hip' : is_bytes (ip ++ [acc / 256; acc mod 256])).
  { apply is_bytes_app; [done | ]. repeat (apply is_bytes_cons; [unfold is_byte; zdiv | ]). apply is_bytes_nil. }
  set (ip1 := ip ++ _) in *. clearbody ip1.
  destruct rest as [|c rest]; [by intros [= <- <- <-] | ].
  destruct (ascii_dec c ".") as [->|Hd].
  { split_matches; try done. intros [= <- <- <-]. apply is_bytes_app; [done | ].
    eapply parse_v4_bytes; [ | | eassumption]; [unfold is_byte; lia | apply is_bytes_nil]. }
  destruct (ascii_dec c ":") as [->|Hc].
  - destruct rest as [|c2 rest]; [done | ]. destruct (ascii_dec c2 ":") as [->|Hc2].
    + destruct ell; [done | ]. destruct rest; [by intros [= <- <- <-] | by apply IH].
    + destruct c2 as [[] [] [] [] [] [] [] []]; try by apply IH. done.
  - destruct c as [[] [] [] [] [] [] [] []]; try done.
Qed.

Lemma v6_finish_bytes rounds s ell b :
  v6_finish (v6_loop rounds s [] ell) = Some b -> is_bytes b.
Proof.
  destruct (v6_loop rounds s [] ell) as [[[ip ell'] r]|] eqn:L; [ | done].
  apply v6_loop_bytes in L; [ | apply is_bytes_nil]. unfold v6_finish, is_bytes in *.
  destruct r; [ | done]. destruct (length ip <? 16)%nat; destruct ell'; try done; intros [= <-]; [ | done].
  apply Forall_app. split; [by apply Forall_take | ]. apply Forall_app. split; [ | by apply Forall_drop].
  apply Forall_replicate. unfold is_byte. lia.
Qed.

Lemma parse_v6_bytes s b : parse_v6 s = Some b -> is_bytes b.
Proof.
  intros Hs.
  assert (H' : b = replicate 16 0 \/ exists r ell, v6_finish (v6_loop 8 r [] ell) = Some b).
  { revert Hs. unfold parse_v6. repeat case_match; intros Hs; eauto. injection Hs as <-. by left. }
  destruct H' as [-> | (r & ell & H')]; [ | by eapply v6_finish_bytes].
  apply Forall_replicate. unfold is_byte. lia.
Qed.

Lemma ParseIP_bytes s : is_bytes (ParseIP s).
Proof.
  unfold ParseIP. destruct (ParseAddr s) as [a|] eqn:P; [ | apply is_bytes_nil].
  assert (H : match a with Addr4 b => is_bytes b | Addr6 b => is_bytes b end).
  { revert P. unfold ParseAddr. destruct (first_sep s) as [c|]; [ | done].
    destruct c as [[] [] [] [] [] [] [] []]; try done.
    - destruct (parse_v4 s true 0 0 []) eqn:V; [ | done]. intros [= <-].
      eapply parse_v4_bytes; [ | | exact V]; [unfold is_byte; lia | apply is_bytes_nil].
    - destruct (has_char "%" s); [done | ]. destruct (parse_v6 s) eqn:V; [ | done].
      intros [= <-]. by eapply parse_v6_bytes. }
  destruct a; simpl; [ | done]. repeat (apply is_bytes_cons; [unfold is_byte; lia | ]). done.
Qed.
