(* ===== verification/Pool.v ===== *)
(** * The address pool: src/pool/pool.go

    [DHCPPool] tracks which indexes of the range are free, which MAC address
    holds a reserved index and when an index was last released.  Every method
    of the Go type holds [dp.lock] from its first to its last statement, so an
    operation is one atomic transition here.  The Go runtime's freedom (map
    iteration order, [rand.Intn], the unstable [sort.Slice]) is the record
    [choice], one per call; [choice_ok] is what the language specification and
    the package documentation promise of it. *)

From S2P Require Import Prelude.

(** ** Data *)

Definition FreeMac : string := "00:00:00:00:00:00".
Definition FakeMac : string := "ff:ff:ff:ff:ff:ff".

Record DHCPPool := mkDHCPPool {
  free : gmap Z bool;
  mac : gmap Z string;
  capacity : Z;
  released : gmap Z Z;
  algorithm : Z
}.

Definition set_free (f : gmap Z bool) (dp : DHCPPool) : DHCPPool :=
  mkDHCPPool f (mac dp) (capacity dp) (released dp) (algorithm dp).
Definition set_mac (m : gmap Z string) (dp : DHCPPool) : DHCPPool :=
  mkDHCPPool (free dp) m (capacity dp) (released dp) (algorithm dp).
Definition set_released (r : gmap Z Z) (dp : DHCPPool) : DHCPPool :=
  mkDHCPPool (free dp) (mac dp) (capacity dp) r (algorithm dp).

(** The local type [kv] of [GetFreeIPIndex]. *)
Record kv := mkKv { Key : Z; Value : Z }.

(** What one call may observe of the Go runtime. *)
Record choice := mkChoice {
  range_free : gmap Z bool -> list Z;
  range_released : gmap Z Z -> list (Z * Z);
  Intn : Z -> Z;
  sort_Slice : list kv -> list kv
}.

Definition kv_le (a b : kv) : Prop := Value a <= Value b.

Record choice_ok (c : choice) : Prop := {
  range_free_perm : forall m, range_free c m ≡ₚ (map_to_list m).*1;
  range_released_perm : forall m, range_released c m ≡ₚ map_to_list m;
  Intn_range : forall n, 0 < n -> 0 <= Intn c n < n;
  sort_Slice_perm : forall l, sort_Slice c l ≡ₚ l;
  sort_Slice_sorted : forall l, Sorted kv_le (sort_Slice c l)
}.

(** ** Operations *)

(** [clock i] is [time.Now().UnixNano()] as read by iteration [i]. *)
Definition new_iter (clock : Z -> Z) (d : DHCPPool) (i : Z) : DHCPPool :=
  set_released (<[i := clock i]> (released d)) (set_free (<[i := true]> (free d)) d).

Definition NewDHCPPool (clock : Z -> Z) (capacity algorithm : Z) : DHCPPool :=
  foldl (new_iter clock) (mkDHCPPool ∅ ∅ capacity ∅ algorithm) (seqZ 0 capacity).

Definition IndexInPool (dp : DHCPPool) (index : Z) : bool := index <? capacity dp.

Definition ReserveIPIndex (dp : DHCPPool) (index : Z) (m : string)
    : DHCPPool * (error * string) :=
  if capacity dp <=? index then
    (dp, (Some "Trying to reserve an IP that is outside the capacity of this pool", FreeMac))
  else
    match free dp !! index with
    | Some _ =>
        let dp := set_free (delete index (free dp)) dp in
        let dp := set_mac (<[index := m]> (mac dp)) dp in
        (dp, (None, m))
    | None => (dp, (Some "IP is already reserved", FreeMac))
    end.

(** [now] is the clock read by the call. *)
Definition FreeIPIndex (now : Z) (dp : DHCPPool) (index : Z) : DHCPPool * error :=
  if negb (IndexInPool dp index) then
    (dp, Some "Trying to free an IP that is outside the capacity of this pool")
  else
    match free dp !! index with
    | Some _ => (dp, Some "IP is already free")
    | None =>
        let dp := set_free (<[index := true]> (free dp)) dp in
        let dp := set_released (<[index := now]> (released dp)) dp in
        let dp := set_mac (delete index (mac dp)) dp in
        (dp, None)
    end.

Definition IsFreeIPAtIndex (dp : DHCPPool) (index : Z) : bool :=
  if negb (IndexInPool dp index) then false
  else match free dp !! index with Some _ => true | None => false end.

(** [dp.mac[index]] of an absent key is the empty string. *)
Definition GetMACIndex (dp : DHCPPool) (index : Z) : Z * string * error :=
  if negb (IndexInPool dp index) then
    (index, FreeMac, Some "The index is not part of the pool")
  else
    match free dp !! index with
    | Some _ => (index, FreeMac, Some "Index is free")
    | None => (index, default "" (mac dp !! index), None)
    end.

(** [for k, v := range dp.released]: the entries whose key is free. *)
Fixpoint collect_free (f : gmap Z bool) (entries : list (Z * Z)) : list kv :=
  match entries with
  | [] => []
  | (k, v) :: rest =>
      match f !! k with
      | Some _ => mkKv k v :: collect_free f rest
      | None => collect_free f rest
      end
  end.

(** [for available = range dp.free { if index == 0 { break }; index-- }] *)
Fixpoint walk_free (order : list Z) (index available : Z) : Z :=
  match order with
  | [] => available
  | k :: rest => if index =? 0 then k else walk_free rest (index - 1) k
  end.

(** The index picked when the pool is not full. *)
Definition pick_available (c : choice) (dp : DHCPPool) : Z :=
  if algorithm dp =? 2 then
    match sort_Slice c (collect_free (free dp) (range_released c (released dp))) with
    | e :: _ => Key e
    | [] => 0
    end
  else walk_free (range_free c (free dp)) (Intn c (Z.of_nat (size (free dp)))) 0.

Definition GetFreeIPIndex (c : choice) (dp : DHCPPool) (m : string)
    : DHCPPool * (Z * string * error) :=
  if Z.of_nat (size (free dp)) =? 0 then
    (dp, (0, FreeMac, Some "DHCP pool is full"))
  else
    let available := pick_available c dp in
    let dp := set_free (delete available (free dp)) dp in
    let dp := set_mac (<[available := m]> (mac dp)) dp in
    (dp, (available, m, None)).

Definition FreeIPsRemaining (dp : DHCPPool) : Z := Z.of_nat (size (free dp)).

Definition Capacity (dp : DHCPPool) : Z := capacity dp.

(** ** The invariant *)

(** Free and held indexes partition the range [0, capacity). *)
Record pool_wf (dp : DHCPPool) : Prop := {
  wf_free : forall i, is_Some (free dp !! i) -> 0 <= i < capacity dp;
  wf_mac : forall i, is_Some (mac dp !! i) <-> 0 <= i < capacity dp /\ free dp !! i = None;
  wf_released : forall i, is_Some (released dp !! i) <-> 0 <= i < capacity dp
}.

(** ** The abstract specification

    A pool promises to be a partial map from the indexes of a range to their
    owners: an index may be taken only while it has no owner. *)

Record lease_table := mkTable { table_size : Z; owner : gmap Z string }.

Definition table_of (dp : DHCPPool) : lease_table := mkTable (capacity dp) (mac dp).

Definition vacant (t : lease_table) (i : Z) : Prop :=
  0 <= i < table_size t /\ owner t !! i = None.

Definition take (t : lease_table) (i : Z) (m : string) : lease_table :=
  mkTable (table_size t) (<[i := m]> (owner t)).
Definition drop_owner (t : lease_table) (i : Z) : lease_table :=
  mkTable (table_size t) (delete i (owner t)).

Inductive pool_op :=
| OpReserve (index : Z) (m : string)
| OpFree (now index : Z)
| OpGetFree (c : choice) (m : string).

Inductive pool_resp :=
| RespReserve (e : error) (m : string)
| RespFree (e : error)
| RespGetFree (index : Z) (m : string) (e : error).

Inductive table_step : lease_table -> pool_op -> pool_resp -> lease_table -> Prop :=
| step_reserve_ok t i m :
    vacant t i -> table_step t (OpReserve i m) (RespReserve None m) (take t i m)
| step_reserve_err t i m e :
    ~ vacant t i -> table_step t (OpReserve i m) (RespReserve (Some e) FreeMac) t
| step_free_ok t now i m :
    0 <= i < table_size t -> owner t !! i = Some m ->
    table_step t (OpFree now i) (RespFree None) (drop_owner t i)
| step_free_err t now i e :
    owner t !! i = None -> table_step t (OpFree now i) (RespFree (Some e)) t
| step_get_ok t c i m :
    vacant t i -> table_step t (OpGetFree c m) (RespGetFree i m None) (take t i m)
| step_get_err t c m e :
    (forall i, ~ vacant t i) ->
    table_step t (OpGetFree c m) (RespGetFree 0 FreeMac (Some e)) t.

(** One atomic method call on the concrete pool. *)
Definition pool_call (dp : DHCPPool) (op : pool_op) : DHCPPool * pool_resp :=
  match op with
  | OpReserve i m => let '(dp', (e, m')) := ReserveIPIndex dp i m in (dp', RespReserve e m')
  | OpFree now i => let '(dp', e) := FreeIPIndex now dp i in (dp', RespFree e)
  | OpGetFree c m => let '(dp', (i, m', e)) := GetFreeIPIndex c dp m in (dp', RespGetFree i m' e)
  end.

(** Indexes are [uint64] values and the runtime keeps its promises. *)
Definition op_ok (op : pool_op) : Prop :=
  match op with
  | OpReserve i _ | OpFree _ i => 0 <= i
  | OpGetFree c _ => choice_ok c
  end.

(** A sequence of calls, with the responses in order. *)
Fixpoint pool_run (dp : DHCPPool) (ops : list pool_op) : DHCPPool * list pool_resp :=
  match ops with
  | [] => (dp, [])
  | op :: ops =>
      let '(dp, r) := pool_call dp op in
      let '(dp, rs) := pool_run dp ops in
      (dp, r :: rs)
  end.

(** ** A runtime for concrete executions *)

#[export] Instance kv_le_dec a b : Decision (kv_le a b).
Proof. unfold kv_le. apply _. Defined.

#[export] Instance kv_le_total : Total kv_le.
Proof. intros a b. unfold kv_le. lia. Qed.

(** Maps iterate in the order of [map_to_list], [Intn] returns [r mod n]. *)
Definition fixed_choice (r : Z) : choice :=
  mkChoice (fun m => (map_to_list m).*1) map_to_list (fun n => r mod n) (merge_sort kv_le).

Lemma fixed_choice_ok r : choice_ok (fixed_choice r).
Proof.
  split; simpl; intros.
  - done.
  - done.
  - by apply Z.mod_pos_bound.
  - apply merge_sort_Permutation.
  - apply (Sorted_merge_sort kv_le).
Qed.

#[export] Hint Resolve fixed_choice_ok : godhcp.

(** ** Lemmas on the loops *)

Lemma new_iter_foldl clock l d i :
  let d' := foldl (new_iter clock) d l in
  (is_Some (free d' !! i) <-> i ∈ l \/ is_Some (free d !! i)) /\
  (is_Some (released d' !! i) <-> i ∈ l \/ is_Some (released d !! i)) /\
  mac d' = mac d /\ capacity d' = capacity d /\ algorithm d' = algorithm d.
Proof.
  revert d. induction l as [|a l IH]; intros d; simpl; [set_solver | ].
  destruct (IH (new_iter clock d a)) as (H1 & H2 & H3 & H4 & H5).
  rewrite H1, H2, H3, H4, H5. simpl.
  rewrite elem_of_cons, !lookup_insert_is_Some. repeat split; try done;
    destruct (decide (a = i)); naive_solver.
Qed.

Lemma collect_free_elem f entries e :
  e ∈ collect_free f entries <-> (Key e, Value e) ∈ entries /\ is_Some (f !! Key e).
Proof.
  induction entries as [|[k v] rest IH]; simpl; [set_solver | ].
  destruct (f !! k) eqn:E; rewrite ?elem_of_cons, IH.
  - split.
    + intros [-> | [? ?]]; simpl; [ | naive_solver].
      split; [by left | by rewrite E].
    + intros [[[= <- <-] | ?] ?]; [left; by destruct e | by right].
  - split; [naive_solver | ].
    intros [[[= <- <-] | ?] Hs]; [ | naive_solver].
    rewrite E in Hs. by destruct Hs.
Qed.

Lemma walk_free_elem order index available :
  0 <= index < Z.of_nat (length order) -> walk_free order index available ∈ order.
Proof.
  revert index available.
  induction order as [|k rest IH]; intros index available Hi; simpl in *; [lia | ].
  destruct (index =? 0) eqn:E; zbool; [set_solver | ].
  apply elem_of_cons. right. apply IH. lia.
Qed.

(** Walking [index] steps lands exactly on entry [index] of the iteration. *)
Lemma walk_free_nth order index available :
  0 <= index < Z.of_nat (length order) ->
  order !! Z.to_nat index = Some (walk_free order index available).
Proof.
  revert index available.
  induction order as [|k rest IH]; intros index available Hi; simpl in *; [lia | ].
  destruct (index =? 0) eqn:E; zbool; [by subst | ].
  replace (Z.to_nat index) with (S (Z.to_nat (index - 1))) by lia.
  simpl. apply IH. lia.
Qed.

Lemma range_free_elem c m i :
  choice_ok c -> i ∈ range_free c m <-> is_Some (m !! i).
Proof.
  intros Hc. rewrite (range_free_perm c Hc m). rewrite list_elem_of_fmap. split.
  - intros ([k v] & -> & Hin). apply elem_of_map_to_list in Hin. simpl. eauto.
  - intros [v Hv]. exists (i, v). by rewrite elem_of_map_to_list.
Qed.

Lemma range_free_length c m : choice_ok c -> length (range_free c m) = size m.
Proof.
  intros Hc. rewrite (range_free_perm c Hc m), length_fmap. apply length_map_to_list.
Qed.

Lemma sorted_free_entry c dp e l :
  choice_ok c ->
  sort_Slice c (collect_free (free dp) (range_released c (released dp))) = e :: l ->
  released dp !! Key e = Some (Value e) /\ is_Some (free dp !! Key e).
Proof.
  intros Hc E.
  assert (Hin : e ∈ collect_free (free dp) (range_released c (released dp))).
  { rewrite <- (sort_Slice_perm c Hc). rewrite E. set_solver. }
  apply collect_free_elem in Hin as [Hin Hf]. split; [ | done].
  rewrite (range_released_perm c Hc) in Hin. by apply elem_of_map_to_list in Hin.
Qed.

Lemma free_entry_sorted c dp i t :
  choice_ok c -> is_Some (free dp !! i) -> released dp !! i = Some t ->
  mkKv i t ∈ sort_Slice c (collect_free (free dp) (range_released c (released dp))).
Proof.
  intros Hc Hf Hr. rewrite (sort_Slice_perm c Hc). apply collect_free_elem. simpl.
  split; [ | done]. rewrite (range_released_perm c Hc). by apply elem_of_map_to_list.
Qed.

(** The picked index is free. *)
Lemma pick_available_free c dp :
  choice_ok c -> pool_wf dp -> size (free dp) <> 0%nat ->
  is_Some (free dp !! pick_available c dp).
Proof.
  intros Hc Hwf Hs. unfold pick_available. destruct (algorithm dp =? 2).
  - destruct (map_choose (free dp)) as (i & b & Hi).
    { intros E. by rewrite E, map_size_empty in Hs. }
    destruct (proj2 (wf_released dp Hwf i)) as [t Ht]; [by eapply wf_free | ].
    pose proof (free_entry_sorted c dp i t Hc (mk_is_Some _ _ Hi) Ht) as Hin.
    destruct (sort_Slice _ _) as [|e l] eqn:E; [set_solver | ].
    by apply (sorted_free_entry c dp e l).
  - apply (range_free_elem c); [done | ]. apply walk_free_elem.
    rewrite range_free_length by done. apply Intn_range; [done | lia].
Qed.

(** Removing a free index and giving it an owner keeps the invariant. *)
Lemma assign_wf dp i m :
  pool_wf dp -> is_Some (free dp !! i) ->
  pool_wf (set_mac (<[i := m]> (mac dp)) (set_free (delete i (free dp)) dp)).
Proof.
  intros [Hf Hm Hr] Hi. split; simpl; [ | | done].
  - intros j [b Hj]. apply lookup_delete_Some in Hj as [_ Hj]. eauto.
  - intros j. rewrite lookup_insert_is_Some, Hm. destruct (decide (i = j)) as [<-|Hne].
    + rewrite lookup_delete_eq. naive_solver.
    + rewrite lookup_delete_ne by done. naive_solver.
Qed.

Lemma free_iff_vacant dp i :
  pool_wf dp -> is_Some (free dp !! i) <-> vacant (table_of dp) i.
Proof.
  intros [Hf Hm _]. unfold vacant, table_of. simpl. specialize (Hm i). split.
  - intros H. split; [by apply Hf | ].
    destruct (mac dp !! i) eqn:E; [ | done].
    destruct H as [b Hb]. rewrite Hb in Hm. naive_solver.
  - intros [Hi E]. destruct (free dp !! i) eqn:F; [done | ].
    rewrite E in Hm. destruct Hm as [_ Hm]. destruct Hm; done.
Qed.

Lemma size_free_0 dp :
  pool_wf dp -> size (free dp) = 0%nat <-> (forall i, ~ vacant (table_of dp) i).
Proof.
  intros Hwf. rewrite map_size_empty_iff. split.
  - intros E i Hv. apply free_iff_vacant in Hv; [ | done].
    rewrite E, lookup_empty in Hv. by destruct Hv.
  - intros H. apply map_empty. intros i.
    destruct (free dp !! i) eqn:E; [ | done]. exfalso.
    apply (H i), free_iff_vacant; [done | by rewrite E].
Qed.

Lemma NewDHCPPool_fields clock cap algo :
  mac (NewDHCPPool clock cap algo) = ∅ /\
  capacity (NewDHCPPool clock cap algo) = cap /\
  algorithm (NewDHCPPool clock cap algo) = algo.
Proof.
  unfold NewDHCPPool.
  destruct (new_iter_foldl clock (seqZ 0 cap) (mkDHCPPool ∅ ∅ cap ∅ algo) 0)
    as (_ & _ & H1 & H2 & H3).
  by rewrite H1, H2, H3.
Qed.

Lemma NewDHCPPool_wf clock cap algo : pool_wf (NewDHCPPool clock cap algo).
Proof.
  pose proof (NewDHCPPool_fields clock cap algo) as (E1 & E2 & _).
  assert (H : forall i,
    (is_Some (free (NewDHCPPool clock cap algo) !! i) <-> 0 <= i < cap) /\
    (is_Some (released (NewDHCPPool clock cap algo) !! i) <-> 0 <= i < cap)).
  { intros i. unfold NewDHCPPool.
    destruct (new_iter_foldl clock (seqZ 0 cap) (mkDHCPPool ∅ ∅ cap ∅ algo) i)
      as (H1 & H2 & _). simpl in *.
    rewrite H1, H2, !elem_of_seqZ, !lookup_empty, Z.add_0_l.
    pose proof (@is_Some_None bool). pose proof (@is_Some_None Z). tauto. }
  split; intros i; rewrite ?E1, ?E2; destruct (H i) as [Hf Hr]; try tauto.
  rewrite lookup_empty, eq_None_not_Some. pose proof (@is_Some_None string). tauto.
Qed.

Lemma ReserveIPIndex_wf dp i m : pool_wf dp -> pool_wf (ReserveIPIndex dp i m).1.
Proof.
  intros H. unfold ReserveIPIndex. split_matches. by apply assign_wf.
Qed.

(** The effect of a reservation, entry by entry. *)
Lemma ReserveIPIndex_lookup dp i m j :
  pool_wf dp ->
  free (ReserveIPIndex dp i m).1 !! j = (if decide (i = j) then None else free dp !! j) /\
  mac (ReserveIPIndex dp i m).1 !! j =
    (if decide (i = j /\ is_Some (free dp !! j)) then Some m else mac dp !! j).
Proof.
  intros Hwf. unfold ReserveIPIndex.
  assert (Hnone : free dp !! i = None ->
    free dp !! j = (if decide (i = j) then None else free dp !! j) /\
    mac dp !! j = (if decide (i = j /\ is_Some (free dp !! j)) then Some m else mac dp !! j)).
  { intros F. split; case_decide as Hd; try done; [by subst | ].
    destruct Hd as [<- Hd]. rewrite F in Hd. by destruct Hd. }
  destruct (capacity dp <=? i) eqn:E; zbool; simpl.
  - apply Hnone, eq_None_not_Some. intros Hs. apply (wf_free dp Hwf) in Hs. lia.
  - destruct (free dp !! i) eqn:F; simpl; [ | by apply Hnone].
    rewrite lookup_delete, lookup_insert. split; [done | ].
    destruct (decide (i = j)) as [<-|Hne].
    + rewrite decide_True; [done | by rewrite F].
    + by rewrite decide_False by tauto.
Qed.

Lemma FreeIPIndex_wf now dp i :
  0 <= i -> pool_wf dp -> pool_wf (FreeIPIndex now dp i).1.
Proof.
  intros Hi H. unfold FreeIPIndex, IndexInPool. split_matches. zbool.
  destruct H as [Hf Hm Hr]. split; simpl; intros j.
  - rewrite lookup_insert_is_Some. intros [<- | [_ ?]]; [lia | eauto].
  - destruct (decide (i = j)) as [<-|Hne].
    + rewrite lookup_delete_eq, lookup_insert_eq. split; [by intros [? ?] | naive_solver].
    + rewrite lookup_delete_ne, lookup_insert_ne by done. apply Hm.
  - rewrite lookup_insert_is_Some, Hr. destruct (decide (i = j)); naive_solver lia.
Qed.

Lemma GetFreeIPIndex_wf c dp m :
  choice_ok c -> pool_wf dp -> pool_wf (GetFreeIPIndex c dp m).1.
Proof.
  intros Hc H. unfold GetFreeIPIndex. destruct (Z.of_nat (size (free dp)) =? 0) eqn:E; [done | ].
  zbool. apply (assign_wf dp); [done | ]. apply pick_available_free; [done.. | lia].
Qed.

#[export] Hint Resolve NewDHCPPool_wf ReserveIPIndex_wf FreeIPIndex_wf GetFreeIPIndex_wf : godhcp.

Lemma pool_call_wf dp op : op_ok op -> pool_wf dp -> pool_wf (pool_call dp op).1.
Proof.
  intros Hop Hwf. destruct op as [i m|now i|c m]; simpl in *.
  - pose proof (ReserveIPIndex_wf dp i m Hwf). by destruct (ReserveIPIndex dp i m) as [? [? ?]].
  - pose proof (FreeIPIndex_wf now dp i Hop Hwf). by destruct (FreeIPIndex now dp i).
  - pose proof (GetFreeIPIndex_wf c dp m Hop Hwf). by destruct (GetFreeIPIndex c dp m) as [? [[? ?] ?]].
Qed.

Lemma pool_run_wf_from dp ops :
  Forall op_ok ops -> pool_wf dp -> pool_wf (pool_run dp ops).1.
Proof.
  intros Hops. revert dp.
  induction Hops as [|op ops Hop Hops IH]; intros dp Hwf; simpl; [done | ].
  pose proof (pool_call_wf dp op Hop Hwf) as H.
  destruct (pool_call dp op) as [dp1 r]. simpl in H. specialize (IH dp1 H).
  by destruct (pool_run dp1 ops).
Qed.

Lemma ReserveIPIndex_capacity dp i m : capacity (ReserveIPIndex dp i m).1 = capacity dp.
Proof. unfold ReserveIPIndex. by split_matches. Qed.

Lemma FreeIPIndex_capacity now dp i : capacity (FreeIPIndex now dp i).1 = capacity dp.
Proof. unfold FreeIPIndex. by split_matches. Qed.

Lemma GetFreeIPIndex_capacity c dp m : capacity (GetFreeIPIndex c dp m).1 = capacity dp.
Proof. unfold GetFreeIPIndex. by split_matches. Qed.

#[export] Hint Rewrite ReserveIPIndex_capacity FreeIPIndex_capacity GetFreeIPIndex_capacity : godhcp.

Lemma pool_call_capacity dp op : capacity (pool_call dp op).1 = capacity dp.
Proof.
  destruct op; simpl; unfold ReserveIPIndex, FreeIPIndex, GetFreeIPIndex; by split_matches.
Qed.

Lemma pool_run_capacity dp ops : capacity (pool_run dp ops).1 = capacity dp.
Proof.
  revert dp. induction ops as [|o ops IH]; intros dp; [done | ]. simpl.
  pose proof (pool_call_capacity dp o) as Hc.
  destruct (pool_call dp o) as [d1 r]. specialize (IH d1). simpl in *.
  destruct (pool_run d1 ops). simpl in *. congruence.
Qed.

(** ** Properties *)

(** From a fresh pool, every sequence of calls keeps the
    indexes partitioned into free and held ones. *)
Theorem pool_run_wf clock cap algo ops :
  Forall op_ok ops -> pool_wf (pool_run (NewDHCPPool clock cap algo) ops).1.
Proof. intros Hops. apply pool_run_wf_from; [done | apply NewDHCPPool_wf]. Qed.

(** Each call of the concrete pool is a step of the lease table. *)
Lemma pool_call_refines dp op :
  op_ok op -> pool_wf dp ->
  table_step (table_of dp) op (pool_call dp op).2 (table_of (pool_call dp op).1).
Proof.
  intros Hop Hwf. destruct op as [i m|now i|c m]; simpl in *.
  - unfold ReserveIPIndex. destruct (capacity dp <=? i) eqn:E; zbool.
    + constructor. unfold vacant. simpl. lia.
    + destruct (free dp !! i) eqn:F; simpl.
      * apply (step_reserve_ok (table_of dp)). apply free_iff_vacant; [done | by rewrite F].
      * constructor. rewrite <- free_iff_vacant by done. rewrite F. apply is_Some_None.
  - unfold FreeIPIndex, IndexInPool. destruct (i <? capacity dp) eqn:E; zbool; simpl.
    + destruct (free dp !! i) eqn:F; simpl.
      * constructor. simpl. apply (free_iff_vacant dp i Hwf). by rewrite F.
      * destruct (proj2 (wf_mac dp Hwf i)) as [m Hm]; [done | ].
        by apply (step_free_ok (table_of dp) now i m).
    + constructor. simpl. apply eq_None_not_Some. rewrite (wf_mac dp Hwf i). lia.
  - unfold GetFreeIPIndex. destruct (Z.of_nat (size (free dp)) =? 0) eqn:E; zbool; simpl.
    + constructor. apply size_free_0; [done | lia].
    + apply (step_get_ok (table_of dp)). apply free_iff_vacant; [done | ].
      apply pick_available_free; [done.. | lia].
Qed.

Inductive table_run : lease_table -> list pool_op -> list pool_resp -> lease_table -> Prop :=
| run_nil t : table_run t [] [] t
| run_cons t t' t'' op ops r rs :
    table_step t op r t' -> table_run t' ops rs t'' -> table_run t (op :: ops) (r :: rs) t''.

Lemma pool_run_refines dp ops :
  Forall op_ok ops -> pool_wf dp ->
  table_run (table_of dp) ops (pool_run dp ops).2 (table_of (pool_run dp ops).1).
Proof.
  intros Hops. revert dp. induction Hops as [|op ops Hop Hops IH]; intros dp Hwf; simpl.
  - constructor.
  - pose proof (pool_call_refines dp op Hop Hwf) as Hr.
    pose proof (pool_call_wf dp op Hop Hwf) as Hw.
    destruct (pool_call dp op) as [dp1 r]. simpl in *. specialize (IH dp1 Hw).
    destruct (pool_run dp1 ops). simpl in *. by econstructor.
Qed.

(** C11: the pool refines its specification: the responses of any sequence of
    calls on a fresh pool are the responses of a lease table that starts empty,
    an index being taken only while it has no owner and dropped only when it
    has one.  In particular "full" is answered only when no index is vacant. *)
Theorem pool_refines_table clock cap algo ops :
  Forall op_ok ops ->
  let dp := NewDHCPPool clock cap algo in
  table_run (mkTable cap ∅) ops (pool_run dp ops).2 (table_of (pool_run dp ops).1).
Proof.
  intros Hops dp. destruct (NewDHCPPool_fields clock cap algo) as (E1 & E2 & _).
  replace (mkTable cap ∅) with (table_of dp) by (unfold table_of, dp; by rewrite E1, E2).
  apply pool_run_refines; [done | apply NewDHCPPool_wf].
Qed.

Definition frees (i : Z) (op : pool_op) : Prop :=
  match op with OpFree _ j => j = i | _ => False end.

(** Some response of the sequence hands out index [i]. *)
Definition hands_out (i : Z) (r : pool_resp) : Prop :=
  match r with RespGetFree j _ None => j = i | _ => False end.

Lemma table_step_keeps t op r t' i m :
  table_step t op r t' -> ~ frees i op -> owner t !! i = Some m ->
  owner t' !! i = Some m /\ ~ hands_out i r.
Proof.
  intros Hs Hf Hi. destruct Hs as [t j m' Hv|t j m' e Hv|t now j m' Hj Ho|t now j e Ho|t c j m' Hv|t c m' e Hv];
    unfold vacant in *; simpl in *.
  - split; [ | done]. rewrite lookup_insert_ne; [done | ]. intros ->. naive_solver.
  - tauto.
  - split; [by rewrite lookup_delete_ne | tauto].
  - tauto.
  - split; [rewrite lookup_insert_ne; [done | ] | ]; intros ->; naive_solver.
  - tauto.
Qed.

Lemma table_run_keeps t ops rs t' i m :
  table_run t ops rs t' -> Forall (fun op => ~ frees i op) ops -> owner t !! i = Some m ->
  owner t' !! i = Some m /\ Forall (fun r => ~ hands_out i r) rs.
Proof.
  induction 1 as [|t t1 t2 op ops r rs Hs Hr IH]; intros Hf Hi; [done | ].
  apply Forall_cons in Hf as [Hf Hfs].
  destruct (table_step_keeps _ _ _ _ _ _ Hs Hf Hi) as [Hi' Hr'].
  destruct (IH Hfs Hi') as [? ?]. split; [done | by constructor].
Qed.

(** C12: an index held by a MAC address stays with it, and [GetFreeIPIndex]
    does not hand it out, until somebody frees that index. *)
Theorem no_double_allocation dp ops i m :
  pool_wf dp -> Forall op_ok ops -> Forall (fun op => ~ frees i op) ops ->
  mac dp !! i = Some m ->
  mac (pool_run dp ops).1 !! i = Some m /\
  Forall (fun r => ~ hands_out i r) (pool_run dp ops).2.
Proof.
  intros Hwf Hops Hf Hi.
  pose proof (pool_run_refines dp ops Hops Hwf) as Hrun.
  by apply (table_run_keeps (table_of dp) ops _ _ i m Hrun Hf).
Qed.

(** With [algorithm] 2 the index handed out is free and none of the other
    free indexes was released earlier (least recently used first). *)
Theorem GetFreeIPIndex_lru c dp m dp' i t :
  choice_ok c -> pool_wf dp -> algorithm dp = 2 ->
  GetFreeIPIndex c dp m = (dp', (i, m, None)) -> released dp !! i = Some t ->
  is_Some (free dp !! i) /\
  (forall j t', is_Some (free dp !! j) -> released dp !! j = Some t' -> t <= t').
Proof.
  intros Hc Hwf Halg HG Ht. unfold GetFreeIPIndex in HG.
  destruct (Z.of_nat (size (free dp)) =? 0) eqn:E; zbool; simplify_eq.
  split; [apply pick_available_free; [done.. | lia] | ].
  intros j t' Hj Ht'. pose proof (free_entry_sorted c dp j t' Hc Hj Ht') as Hin.
  unfold pick_available in Ht. rewrite Halg in Ht. simpl in Ht.
  pose proof (sort_Slice_sorted c Hc (collect_free (free dp) (range_released c (released dp)))) as Hs.
  destruct (sort_Slice c _) as [|e l] eqn:El; [set_solver | ].
  destruct (sorted_free_entry c dp e l Hc El) as [He _].
  assert (Value e = t) as <- by congruence.
  apply elem_of_cons in Hin as [<- | Hin]; [done | ].
  assert (Transitive kv_le) by (intros ???; unfold kv_le; lia).
  by apply (Sorted_head_min kv_le e l (mkKv j t')).
Qed.

(** With any other algorithm the pick is uniform in [rand.Intn]: each free
    index is the pick of exactly one value of the generator. *)
Theorem pick_available_uniform c dp i :
  choice_ok c -> algorithm dp <> 2 -> is_Some (free dp !! i) ->
  exists r, 0 <= r < FreeIPsRemaining dp /\
    forall n, 0 <= n < FreeIPsRemaining dp ->
      pick_available (mkChoice (range_free c) (range_released c) (fun _ => n) (sort_Slice c)) dp = i
      <-> n = r.
Proof.
  intros Hc Halg Hi. apply Z.eqb_neq in Halg.
  pose proof (range_free_length c (free dp) Hc) as Hlen.
  apply (range_free_elem c _ i Hc) in Hi. apply list_elem_of_lookup in Hi as [k Hk].
  pose proof (lookup_lt_Some _ _ _ Hk). unfold FreeIPsRemaining.
  exists (Z.of_nat k). split; [lia | ]. intros n Hn.
  unfold pick_available. simpl. rewrite Halg.
  pose proof (walk_free_nth (range_free c (free dp)) n 0 ltac:(lia)) as Hw. split.
  - intros E. rewrite E in Hw.
    assert (Hnd : NoDup (range_free c (free dp))).
    { rewrite (range_free_perm c Hc). apply NoDup_fst_map_to_list. }
    pose proof (NoDup_lookup _ _ _ _ Hnd Hw Hk). lia.
  - intros ->. rewrite Nat2Z.id in Hw. congruence.
Qed.

Lemma size_free_mac dp :
  pool_wf dp -> Z.of_nat (size (free dp)) + Z.of_nat (size (mac dp)) = Z.max 0 (capacity dp).
Proof.
  intros Hwf. rewrite <- !size_dom.
  assert (Hd : dom (free dp) ## dom (mac dp)).
  { intros i. rewrite !elem_of_dom. intros Hf Hm. apply (wf_mac dp Hwf) in Hm.
    destruct Hm as [_ Hm]. rewrite Hm in Hf. by destruct Hf. }
  assert (E : dom (free dp) ∪ dom (mac dp) = list_to_set (seqZ 0 (capacity dp))).
  { apply set_eq. intros i. rewrite elem_of_union, !elem_of_dom, elem_of_list_to_set, elem_of_seqZ.
    rewrite (wf_mac dp Hwf). pose proof (wf_free dp Hwf i). split; [naive_solver lia | ].
    intros ?. destruct (free dp !! i) eqn:F; [by left | right; split; [lia | done]]. }
  rewrite <- Nat2Z.inj_add, <- size_union by done. rewrite E.
  rewrite size_list_to_set by apply NoDup_seqZ. rewrite length_seqZ. lia.
Qed.

(** Free and held indexes always add up to the capacity, so
    [FreeIPsRemaining] is the capacity less the number of held indexes. *)
Theorem FreeIPsRemaining_accounting clock cap algo ops :
  Forall op_ok ops -> 0 <= cap ->
  let dp := (pool_run (NewDHCPPool clock cap algo) ops).1 in
  FreeIPsRemaining dp = cap - Z.of_nat (size (mac dp)).
Proof.
  intros Hops Hcap dp.
  assert (Hwf : pool_wf dp) by (apply pool_run_wf_from; [done | apply NewDHCPPool_wf]).
  assert (Ecap : capacity dp = cap).
  { unfold dp. rewrite pool_run_capacity. apply NewDHCPPool_fields. }
  pose proof (size_free_mac dp Hwf). unfold FreeIPsRemaining. lia.
Qed.

(** ** Witnesses *)

Definition w_mac : string := "00:11:22:33:44:55".
Definition w_mac2 : string := "66:77:88:99:aa:bb".
Definition w_clock (i : Z) : Z := 1000 + i.
Definition w_ops : list pool_op :=
  [OpReserve 3 w_mac; OpGetFree (fixed_choice 7) w_mac2; OpFree 2000 3;
   OpReserve 9 w_mac; OpGetFree (fixed_choice 1) w_mac].

Lemma w_ops_ok : Forall op_ok w_ops.
Proof.
  repeat (apply Forall_cons; split; [first [apply fixed_choice_ok | simpl; lia] | ]).
  apply Forall_nil; done.
Qed.

Lemma pool_refines_table_witness :
  table_run (mkTable 5 ∅) w_ops (pool_run (NewDHCPPool w_clock 5 1) w_ops).2
    (table_of (pool_run (NewDHCPPool w_clock 5 1) w_ops).1).
Proof. apply (pool_refines_table w_clock 5 1 w_ops). exact w_ops_ok. Defined.

Definition w_held : DHCPPool := (ReserveIPIndex (NewDHCPPool w_clock 5 2) 2 w_mac).1.

Lemma no_double_allocation_witness :
  mac (pool_run w_held w_ops).1 !! 2 = Some w_mac /\
  Forall (fun r => ~ hands_out 2 r) (pool_run w_held w_ops).2.
Proof.
  apply (no_double_allocation w_held w_ops 2 w_mac).
  - apply ReserveIPIndex_wf, NewDHCPPool_wf.
  - exact w_ops_ok.
  - repeat (apply Forall_cons; split; [simpl; lia | ]). apply Forall_nil; done.
  - vm_compute. reflexivity.
Defined.

(** Index 1 was released again later than the others were first made free. *)
Definition w_lru : DHCPPool :=
  (FreeIPIndex 5000 (ReserveIPIndex (NewDHCPPool w_clock 3 2) 0 w_mac).1 0).1.

Lemma GetFreeIPIndex_lru_witness :
  (GetFreeIPIndex (fixed_choice 0) w_lru w_mac).2 = (1, w_mac, None) /\
  (forall j t', is_Some (free w_lru !! j) -> released w_lru !! j = Some t' -> 1001 <= t').
Proof.
  split; [vm_compute; reflexivity | ].
  apply (GetFreeIPIndex_lru (fixed_choice 0) w_lru w_mac
           (GetFreeIPIndex (fixed_choice 0) w_lru w_mac).1 1 1001).
  - apply fixed_choice_ok.
  - apply FreeIPIndex_wf; [lia | ]. apply ReserveIPIndex_wf, NewDHCPPool_wf.
  - vm_compute. reflexivity.
  - vm_compute. reflexivity.
  - vm_compute. reflexivity.
Defined.

Lemma pick_available_uniform_witness :
  exists r, 0 <= r < FreeIPsRemaining (NewDHCPPool w_clock 5 1) /\
    forall n, 0 <= n < FreeIPsRemaining (NewDHCPPool w_clock 5 1) ->
      pick_available (mkChoice (range_free (fixed_choice 0)) (range_released (fixed_choice 0))
        (fun _ => n) (sort_Slice (fixed_choice 0))) (NewDHCPPool w_clock 5 1) = 4 <-> n = r.
Proof.
  apply (pick_available_uniform (fixed_choice 0) (NewDHCPPool w_clock 5 1) 4).
  - apply fixed_choice_ok.
  - vm_compute. discriminate.
  - exists true. vm_compute. reflexivity.
Defined.

