(* ===== verification/RawClient.v ===== *)
(** * Building IPv4/UDP datagrams: src/rawClient.go

    The headers are records with the fields of the Go structs,
    [binary.Write(.., binary.BigEndian, ..)] is their serialization, and the
    two senders are functions from their arguments to what they hand to the
    socket.  The Ethernet frame is marshalled by a third-party package, a
    parameter here; sockets are outside the model and appear as the outcome of
    [syscall.Socket].  What is sent is checked against a receiver written after
    RFC 1071 and RFC 768, independently of the code. *)

From S2P Require Import Prelude GoNet.

(** ** Headers *)

Definition UDP_HEADER_LEN : Z := 8.

Record udphdr := mkUdp { udp_src : Z; udp_dst : Z; udp_ulen : Z; udp_csum : Z }.

Record pseudohdr := mkPseudo {
  ph_ipsrc : bytes; ph_ipdst : bytes; ph_zero : Z; ph_ipproto : Z; ph_plen : Z
}.

Record iphdr := mkIp {
  ip_vhl : Z; ip_tos : Z; ip_iplen : Z; ip_id : Z; ip_off : Z; ip_ttl : Z; ip_proto : Z;
  ip_csum : Z; ip_src : bytes; ip_dst : bytes
}.

(** [binary.Write] of each struct, field by field in declaration order. *)
Definition write_udphdr (u : udphdr) : bytes :=
  be16 (udp_src u) ++ be16 (udp_dst u) ++ be16 (udp_ulen u) ++ be16 (udp_csum u).

Definition write_pseudohdr (p : pseudohdr) : bytes :=
  ph_ipsrc p ++ ph_ipdst p ++ [u8 (ph_zero p)] ++ [u8 (ph_ipproto p)] ++ be16 (ph_plen p).

Definition write_iphdr (h : iphdr) : bytes :=
  [u8 (ip_vhl h)] ++ [u8 (ip_tos h)] ++ be16 (ip_iplen h) ++ be16 (ip_id h) ++ be16 (ip_off h) ++
  [u8 (ip_ttl h)] ++ [u8 (ip_proto h)] ++ be16 (ip_csum h) ++ ip_src h ++ ip_dst h.

(** ** The Internet checksum *)

(** The two summing statements of [checksum]: 16-bit words, then an odd byte;
    [sum] is a [uint32]. *)
Fixpoint sum_words (buf : bytes) (sum : Z) : Z :=
  match buf with
  | b0 :: b1 :: r => sum_words r (u32 (sum + Z.lor (Z.shiftl b0 8) b1))
  | [b0] => u32 (sum + Z.shiftl b0 8)
  | [] => sum
  end.

(** [for sum > 0xffff { sum = (sum >> 16) + (sum & 0xffff) }] *)
Fixpoint fold_carries (fuel : nat) (sum : Z) : option Z :=
  if 65535 <? sum then
    match fuel with
    | O => None
    | S fuel => fold_carries fuel (u32 (Z.shiftr sum 16 + Z.land sum 65535))
    end
  else Some sum.

(** Two rounds are enough for any [uint32]: [fold_carries_total]. *)
Definition checksum (buf : bytes) : Z :=
  let sum := default 0 (fold_carries 2 (sum_words buf 0)) in
  let csum := 65535 - u16 sum in
  if csum =? 0 then 65535 else csum.

Definition set_udp_csum (c : Z) (u : udphdr) : udphdr := mkUdp (udp_src u) (udp_dst u) (udp_ulen u) c.
Definition set_ip_csum (c : Z) (h : iphdr) : iphdr :=
  mkIp (ip_vhl h) (ip_tos h) (ip_iplen h) (ip_id h) (ip_off h) (ip_ttl h) (ip_proto h) c (ip_src h) (ip_dst h).

(** The method [udphdr.checksum]. *)
Definition udphdr_checksum (u : udphdr) (ip : iphdr) (payload : bytes) : udphdr :=
  let u := set_udp_csum 0 u in
  let phdr := mkPseudo (ip_src ip) (ip_dst ip) 0 (ip_proto ip) (udp_ulen u) in
  set_udp_csum (checksum (write_pseudohdr phdr ++ write_udphdr u ++ payload)) u.

(** The method [iphdr.checksum]. *)
Definition iphdr_checksum (h : iphdr) : iphdr :=
  let h := set_ip_csum 0 h in set_ip_csum (checksum (write_iphdr h)) h.

(** ** Sending *)

(** [copy(a[:], ip.To4())] into a zeroed [[4]byte]. *)
Definition copy4 (ip : IP) : bytes := match To4 ip with [] => [0; 0; 0; 0] | p4 => p4 end.

(** The header and payload both senders build. *)
Definition build_packet (dhcp : bytes) (dstIP srcIP : IP) (udpsrc udpdst : Z) : bytes :=
  let udp := mkUdp (u16 udpsrc) (u16 udpdst) 0 0 in
  let udplen := 8 + Z.of_nat (length dhcp) in
  let ip := mkIp 69 0 0 0 0 128 (u8 17) 0 (copy4 srcIP) (copy4 dstIP) in
  let udp := mkUdp (udp_src udp) (udp_dst udp) (u16 udplen) (udp_csum udp) in
  let udp := udphdr_checksum udp ip dhcp in
  let totalLen := 20 + udplen in
  let ip := mkIp (ip_vhl ip) (ip_tos ip) (u16 totalLen) (ip_id ip) (ip_off ip) (ip_ttl ip) (ip_proto ip)
                 (ip_csum ip) (ip_src ip) (ip_dst ip) in
  let ip := iphdr_checksum ip in
  write_iphdr ip ++ (write_udphdr udp ++ dhcp).

(** [sendUnicastDHCP]: what is given to [syscall.Sendto] (packet, address,
    port), [None] when [syscall.Socket] fails. *)
Definition sendUnicastDHCP (socket_ok : bool) (dhcp : bytes) (dstIP srcIP giAddr : IP)
    (udpsrc udpdst : Z) : option (bytes * bytes * Z) :=
  if socket_ok then
    let dstIP :=
      if negb (IP_Equal dstIP giAddr) then
        if negb (IP_Equal giAddr IPv4zero) then giAddr else dstIP
      else dstIP in
    Some (build_packet dhcp dstIP srcIP udpsrc udpdst, copy4 dstIP, udpdst)
  else None.

Section Ethernet.

(** [ethernet.Frame.MarshalBinary] with destination, source, EtherType and
    payload; [None] is its error. *)
Context (MarshalBinary : bytes -> bytes -> Z -> bytes -> option bytes).

Definition EtherTypeIPv4 : Z := 2048.

(** [RawClient.sendDHCP]: the frame given to [WriteTo] and its target.  [hw] is
    the hardware address of the client's interface. *)
Definition sendDHCP (hw target : HardwareAddr) (dhcp : bytes) (dstIP srcIP : IP)
    : option (bytes * HardwareAddr) :=
  match MarshalBinary target hw EtherTypeIPv4 (build_packet dhcp dstIP srcIP 67 68) with
  | Some fb => Some (fb, target)
  | None => None
  end.

End Ethernet.

(** ** What a receiver checks *)

(** RFC 1071, as a receiver computes it and independently of [checksum]: the
    data as big-endian 16-bit words, an odd last byte padded with a zero byte,
    added one by one in one's complement arithmetic, where the carry out of the
    top bit is added back at the bottom. *)
Fixpoint rfc_words (buf : bytes) : list Z :=
  match buf with
  | b0 :: b1 :: r => b0 * 256 + b1 :: rfc_words r
  | [b0] => [b0 * 256 + 0]
  | [] => []
  end.

Definition ones_add (a b : Z) : Z := let s := a + b in if s <? 65536 then s else s - 65536 + 1.

Definition rfc_sum (buf : bytes) : Z := foldl ones_add 0 (rfc_words buf).

(** RFC 768: the bytes the UDP checksum of an IPv4 packet without options
    covers: the pseudo header, made of the source and the destination address
    of the IP header, a zero byte, protocol 17 and the length of the UDP
    datagram, then the datagram. *)
Definition udp_covered (packet : bytes) : bytes :=
  let datagram := drop 20 packet in
  let len := Z.of_nat (length datagram) in
  take 4 (drop 12 packet) ++ take 4 (drop 16 packet) ++ [0; 17; len / 256; len mod 256] ++ datagram.

(** The sum as an unbounded integer. *)
Fixpoint words (buf : bytes) : Z :=
  match buf with
  | b0 :: b1 :: r => b0 * 256 + b1 + words r
  | [b0] => b0 * 256
  | [] => 0
  end.

(** ** Lemmas *)

(** Induction two bytes at a time. *)
Lemma pair_ind (P : bytes -> Prop) :
  P [] -> (forall a, P [a]) -> (forall a b l, P l -> P (a :: b :: l)) -> forall l, P l.
Proof.
  intros H0 H1 H2 l. assert (H : P l /\ forall a, P (a :: l)); [ | tauto].
  induction l as [|b l [IH1 IH2]]; split; auto.
Qed.

Lemma words_app a b : Nat.even (length a) = true -> words (a ++ b) = words a + words b.
Proof.
  induction a as [|x|x y a IH] using pair_ind; simpl; intros H; [done | done | ].
  rewrite IH by done. lia.
Qed.

Lemma words_bounds l : is_bytes l -> 0 <= words l <= 65535 * ((Z.of_nat (length l) + 1) / 2).
Proof.
  unfold is_bytes, is_byte. induction l as [|x|x y l IH] using pair_ind; intros H.
  - cbn [words length]. zdiv.
  - rewrite Forall_singleton in H. cbn [words length]. zdiv.
  - rewrite !Forall_cons in H. destruct H as (Hx & Hy & H). specialize (IH H).
    cbn [words length]. zdiv.
Qed.

Lemma word_lor b0 b1 : is_byte b0 -> is_byte b1 -> Z.lor (Z.shiftl b0 8) b1 = b0 * 256 + b1.
Proof.
  intros [] []. rewrite Z.lor_comm, lor_shift_add by lia. lia.
Qed.

(** While the total stays below 2^32 the [uint32] accumulator does not wrap. *)
Lemma sum_words_exact l s :
  is_bytes l -> 0 <= s -> s + words l < 2 ^ 32 -> sum_words l s = s + words l.
Proof.
  unfold is_bytes. revert s. induction l as [|x|x y l IH] using pair_ind; intros s H Hs Hb.
  - simpl. lia.
  - rewrite Forall_singleton in H. unfold is_byte in H. cbn [sum_words words] in *.
    rewrite Z.shiftl_mul_pow2 by lia. rewrite u32_small; unfold is_u32; lia.
  - rewrite !Forall_cons in H. destruct H as (Hx & Hy & H). cbn [sum_words words] in *.
    pose proof (words_bounds l H). rewrite word_lor by done. unfold is_byte in *.
    rewrite u32_small by (unfold is_u32; lia). rewrite IH by (done || lia). lia.
Qed.

Lemma fold_step s :
  is_u32 s -> u32 (Z.shiftr s 16 + Z.land s 65535) = s / 65536 + s mod 65536.
Proof.
  intros Hs. change 65535 with (Z.ones 16). rewrite Z.land_ones, Z.shiftr_div_pow2 by lia.
  change (2 ^ 16) with 65536. apply u32_small. unfold is_u32 in *. zdiv.
Qed.

(** The carry loop ends within two rounds, keeps the residue modulo 65535 and
    does not turn a positive sum into zero. *)
Lemma fold_carries_total s :
  is_u32 s ->
  exists r, fold_carries 2 s = Some r /\ 0 <= r <= 65535 /\
    r mod 65535 = s mod 65535 /\ (0 < s -> 0 < r).
Proof.
  intros Hs. cbn [fold_carries].
  destruct (65535 <? s) eqn:E0; zbool; [ | exists s; unfold is_u32 in Hs; repeat split; lia].
  rewrite fold_step by done.
  set (s1 := s / 65536 + s mod 65536).
  assert (H1 : 0 < s1 <= 131070 /\ s1 mod 65535 = s mod 65535)
    by (unfold s1, is_u32 in *; split; zdiv).
  destruct (65535 <? s1) eqn:E1; zbool; [ | exists s1; repeat split; lia].
  rewrite fold_step by (unfold is_u32; lia).
  set (s2 := s1 / 65536 + s1 mod 65536).
  assert (H2 : 0 < s2 <= 65535 /\ s2 mod 65535 = s1 mod 65535)
    by (unfold s2; split; zdiv).
  rewrite (proj2 (Z.ltb_ge _ _)) by lia. exists s2. repeat split; lia.
Qed.

Lemma words_be16 v : 0 <= v < 65536 -> words (be16 v) = v.
Proof. intros H. simpl. unfold u8. rewrite Z.shiftr_div_pow2 by lia. zdiv. Qed.

(** The inserted value completes the sum to a multiple of 65535. *)
Lemma checksum_completes l :
  is_bytes l -> words l < 2 ^ 32 ->
  1 <= checksum l <= 65535 /\ (words l + checksum l) mod 65535 = 0.
Proof.
  intros Hb Hw. pose proof (words_bounds l Hb) as Hlb.
  unfold checksum. rewrite sum_words_exact by (done || lia). rewrite Z.add_0_l.
  destruct (fold_carries_total (words l)) as (r & E & Hr & Hm & _); [unfold is_u32; lia | ].
  rewrite E. simpl. rewrite u16_small by lia. case_match; zbool; zdiv.
Qed.

(** One addition of a receiver keeps the residue modulo 65535, stays on 16
    bits, and gives zero only for two zeros. *)
Lemma ones_add_spec a b :
  0 <= a <= 65535 -> 0 <= b <= 65535 ->
  0 <= ones_add a b <= 65535 /\ ones_add a b mod 65535 = (a + b) mod 65535 /\
  (0 < a + b -> 0 < ones_add a b).
Proof.
  intros Ha Hb. unfold ones_add. cbv zeta. case_match; zbool; [repeat split; lia | ].
  repeat split; [lia | lia | | lia]. replace (a + b) with (a + b - 65536 + 1 + 1 * 65535) at 2 by lia.
  by rewrite Z_mod_plus_full.
Qed.

(** A receiver's sum and the unbounded sum agree modulo 65535. *)
Lemma rfc_fold l a :
  is_bytes l -> 0 <= a <= 65535 ->
  0 <= foldl ones_add a (rfc_words l) <= 65535 /\
  foldl ones_add a (rfc_words l) mod 65535 = (a + words l) mod 65535 /\
  (0 < a + words l -> 0 < foldl ones_add a (rfc_words l)).
Proof.
  unfold is_bytes. revert a. induction l as [|x|x y l IH] using pair_ind; intros a H Ha.
  - simpl. rewrite Z.add_0_r. repeat split; lia.
  - rewrite Forall_singleton in H. unfold is_byte in H. cbn [rfc_words foldl words].
    rewrite Z.add_0_r. apply ones_add_spec; lia.
  - rewrite !Forall_cons in H. destruct H as (Hx & Hy & H). unfold is_byte in Hx, Hy.
    cbn [rfc_words foldl words]. pose proof (words_bounds l H) as Hw.
    destruct (ones_add_spec a (x * 256 + y)) as (H1 & H2 & H3); [lia.. | ].
    destruct (IH (ones_add a (x * 256 + y)) H H1) as (H4 & H5 & H6).
    split; [done | split; [ | intros; apply H6; lia]].
    rewrite H5. rewrite <- Z.add_mod_idemp_l, H2, Z.add_mod_idemp_l by lia. f_equal. lia.
Qed.

Lemma rfc_sum_complete l :
  is_bytes l -> 0 < words l -> words l mod 65535 = 0 -> rfc_sum l = 65535.
Proof.
  intros Hb Hw Hm. unfold rfc_sum.
  destruct (rfc_fold l 0 Hb) as (H1 & H2 & H3); [lia | ].
  rewrite Z.add_0_l in *. specialize (H3 Hw). rewrite Hm in H2. zdiv.
Qed.

(** Replacing a zero 16-bit field at an even offset by the checksum. *)
Lemma insert_checksum_verifies a b :
  Nat.even (length a) = true -> is_bytes a -> is_bytes b ->
  Z.of_nat (length a) + Z.of_nat (length b) + 2 <= 131070 ->
  rfc_sum (a ++ be16 (checksum (a ++ be16 0 ++ b)) ++ b) = 65535.
Proof.
  intros He Ha Hb Hl.
  set (l0 := a ++ be16 0 ++ b).
  assert (Hb0 : is_bytes l0) by (unfold l0; auto with godhcp).
  assert (E0 : words l0 = words a + words b).
  { unfold l0. rewrite !words_app by done. rewrite words_be16 by lia. lia. }
  pose proof (words_bounds l0 Hb0) as Hw. unfold l0 in Hw at 3.
  rewrite !length_app in Hw. change (length (be16 0)) with 2%nat in Hw.
  destruct (checksum_completes l0 Hb0) as [Hc Hm]; [zdiv | ].
  assert (E : words (a ++ be16 (checksum l0) ++ b) = words l0 + checksum l0).
  { rewrite !words_app by done. rewrite words_be16, E0 by lia. lia. }
  apply rfc_sum_complete.
  - auto with godhcp.
  - rewrite E. zdiv.
  - by rewrite E.
Qed.

Lemma copy4_length ip : length (copy4 ip) = 4%nat.
Proof. unfold copy4. destruct (To4_length ip) as [-> | H]; [done | ]. by destruct (To4 ip). Qed.

Lemma copy4_bytes ip : is_bytes ip -> is_bytes (copy4 ip).
Proof.
  intros H. apply To4_bytes in H. unfold copy4. destruct (To4 ip); [ | done].
  repeat constructor; unfold is_byte; lia.
Qed.

#[export] Hint Resolve copy4_length copy4_bytes : godhcp.

(** ** Properties *)

(** The header the sender writes for the given addresses, with its checksum. *)
Lemma iphdr_checksum_verifies h :
  length (ip_src h) = 4%nat -> length (ip_dst h) = 4%nat ->
  is_bytes (ip_src h) -> is_bytes (ip_dst h) ->
  rfc_sum (write_iphdr (iphdr_checksum h)) = 65535.
Proof.
  intros Hls Hld Hs Hd. unfold iphdr_checksum.
  set (h0 := set_ip_csum 0 h).
  set (a := [u8 (ip_vhl h); u8 (ip_tos h)] ++ be16 (ip_iplen h) ++ be16 (ip_id h) ++
            be16 (ip_off h) ++ [u8 (ip_ttl h); u8 (ip_proto h)]).
  assert (Ha : is_bytes a) by (unfold a; auto 10 with godhcp).
  assert (E : forall c, write_iphdr (set_ip_csum c h0) = a ++ be16 c ++ (ip_src h ++ ip_dst h)).
  { intros c. unfold write_iphdr, a. simpl. by rewrite <- ?app_assoc. }
  change h0 with (set_ip_csum 0 h0) at 1. rewrite !E.
  apply insert_checksum_verifies; [done.. | auto with godhcp | ].
  rewrite length_app, Hls, Hld. simpl. lia.
Qed.

(** Every IPv4 header sent passes the receiver's check: its 16-bit words
    add up to all ones in one's complement arithmetic. *)
Lemma ip_header_verifies dhcp dstIP srcIP udpsrc udpdst :
  is_bytes srcIP -> is_bytes dstIP ->
  rfc_sum (take 20 (build_packet dhcp dstIP srcIP udpsrc udpdst)) = 65535.
Proof.
  intros Hs Hd. unfold build_packet. cbv zeta.
  rewrite take_app_length'.
  - apply iphdr_checksum_verifies; simpl; auto with godhcp.
  - unfold write_iphdr. rewrite !length_app. simpl. by rewrite !copy4_length.
Qed.

(** The addresses are at their offsets in the IP header. *)
Lemma packet_addresses dhcp dstIP srcIP udpsrc udpdst :
  take 4 (drop 16 (build_packet dhcp dstIP srcIP udpsrc udpdst)) = copy4 dstIP /\
  take 4 (drop 12 (build_packet dhcp dstIP srcIP udpsrc udpdst)) = copy4 srcIP.
Proof.
  unfold build_packet. cbv zeta. unfold write_iphdr. simpl.
  pose proof (copy4_length srcIP). pose proof (copy4_length dstIP).
  destruct (copy4 srcIP) as [|s0 [|s1 [|s2 [|s3 [|]]]]]; try done.
  destruct (copy4 dstIP) as [|t0 [|t1 [|t2 [|t3 [|]]]]]; done.
Qed.

(** What follows the IP header. *)
Lemma packet_datagram dhcp dstIP srcIP udpsrc udpdst :
  exists c, drop 20 (build_packet dhcp dstIP srcIP udpsrc udpdst) =
    be16 (u16 udpsrc) ++ be16 (u16 udpdst) ++ be16 (u16 (8 + Z.of_nat (length dhcp))) ++ be16 c ++ dhcp /\
  c = checksum (write_pseudohdr (mkPseudo (copy4 srcIP) (copy4 dstIP) 0 17 (u16 (8 + Z.of_nat (length dhcp)))) ++
        be16 (u16 udpsrc) ++ be16 (u16 udpdst) ++ be16 (u16 (8 + Z.of_nat (length dhcp))) ++ be16 0 ++ dhcp).
Proof.
  unfold build_packet. cbv zeta.
  rewrite drop_app_length' by (unfold write_iphdr; rewrite !length_app; simpl; by rewrite !copy4_length).
  eexists. split; [done | ]. unfold udphdr_checksum, write_udphdr. simpl. done.
Qed.

(** C35: every datagram sent passes the checks of a receiver that computes the
    Internet checksum by RFC 1071 on its own ([rfc_sum]: one's complement addition of
    the big-endian words, an odd last byte padded with zero): the IP header adds up to
    all ones, and so do the pseudo header the receiver makes from the packet it got
    (RFC 768) and the UDP datagram, of odd or even length, for payloads a UDP datagram
    can carry. *)
Theorem udp_datagram_verifies dhcp dstIP srcIP udpsrc udpdst :
  is_bytes srcIP -> is_bytes dstIP -> is_bytes dhcp -> Z.of_nat (length dhcp) <= 65527 ->
  let packet := build_packet dhcp dstIP srcIP udpsrc udpdst in
  rfc_sum (take 20 packet) = 65535 /\ rfc_sum (udp_covered packet) = 65535.
Proof.
  intros Hs Hd Hp Hl packet. split; [by apply ip_header_verifies | ].
  unfold udp_covered, packet. destruct (packet_addresses dhcp dstIP srcIP udpsrc udpdst) as [-> ->].
  destruct (packet_datagram dhcp dstIP srcIP udpsrc udpdst) as (c & -> & Ec).
  set (ulen := 8 + Z.of_nat (length dhcp)) in *.
  rewrite (u16_small ulen) in Ec |- * by (unfold ulen; lia).
  cbv zeta. rewrite !length_app. cbn [length be16].
  replace (Z.of_nat (2 + (2 + (2 + (2 + length dhcp))))) with ulen by (unfold ulen; lia).
  set (a := copy4 srcIP ++ copy4 dstIP ++ [0; 17; ulen / 256; ulen mod 256] ++
            be16 (u16 udpsrc) ++ be16 (u16 udpdst) ++ be16 ulen).
  assert (Hu : be16 ulen = [ulen / 256; ulen mod 256]).
  { unfold be16, u8. rewrite Z.shiftr_div_pow2 by lia. change (2 ^ 8) with 256.
    rewrite (Z.mod_small (ulen / 256)); [done | zdiv]. }
  assert (Ha : is_bytes a).
  { unfold a. change [0; 17; ulen / 256; ulen mod 256] with ([0; 17] ++ [ulen / 256; ulen mod 256]).
    rewrite <- Hu. assert (is_byte 0 /\ is_byte 17) as [] by (unfold is_byte; lia).
    auto 15 with godhcp. }
  assert (Hla : length a = 18%nat) by (unfold a; rewrite !length_app, !copy4_length; done).
  replace c with (checksum (a ++ be16 0 ++ dhcp)).
  - match goal with |- rfc_sum ?l = _ =>
      replace l with (a ++ be16 (checksum (a ++ be16 0 ++ dhcp)) ++ dhcp) end;
      [ | unfold a at 1; by rewrite <- !app_assoc].
    apply insert_checksum_verifies; [by rewrite Hla | done.. | ]. rewrite Hla. lia.
  - rewrite Ec. unfold write_pseudohdr, a. cbn [ph_ipsrc ph_ipdst ph_zero ph_ipproto ph_plen].
    change (u8 0) with 0. change (u8 17) with 17. rewrite Hu. f_equal. by rewrite <- !app_assoc.
Qed.

(** The address a reply of [sendUnicastDHCP] goes to: the relay agent when the
    packet carries one, the given address otherwise. *)
Definition unicast_target (dstIP giAddr : IP) : IP :=
  if IP_Equal giAddr IPv4zero then dstIP else giAddr.

(** What is sent depends only on the target. *)
Lemma sendUnicastDHCP_unicast dhcp dstIP srcIP giAddr udpsrc udpdst :
  To4 dstIP <> [] -> length giAddr = 4%nat ->
  sendUnicastDHCP true dhcp dstIP srcIP giAddr udpsrc udpdst =
    Some (build_packet dhcp (unicast_target dstIP giAddr) srcIP udpsrc udpdst,
          copy4 (unicast_target dstIP giAddr), udpdst).
Proof.
  intros Hd Hg. unfold sendUnicastDHCP, unicast_target.
  destruct (IP_Equal dstIP giAddr) eqn:E; simpl; [ | by destruct (IP_Equal giAddr IPv4zero)].
  destruct (IP_Equal giAddr IPv4zero); [done | ].
  assert (Ec : copy4 dstIP = copy4 giAddr).
  { unfold copy4. apply IP_Equal_To4 in E; [by rewrite E | done | ].
    rewrite To4_v4 by done. by destruct giAddr. }
  unfold build_packet. by rewrite Ec.
Qed.

(** [sendUnicastDHCP] addresses the datagram, in its IP header and in the
    socket address alike, to the relay agent address unless that is 0.0.0.0,
    and to the requested port. *)
Theorem sendUnicastDHCP_target dhcp dstIP srcIP giAddr udpsrc udpdst :
  To4 dstIP <> [] -> length giAddr = 4%nat ->
  let target := unicast_target dstIP giAddr in
  sendUnicastDHCP true dhcp dstIP srcIP giAddr udpsrc udpdst
    = Some (build_packet dhcp target srcIP udpsrc udpdst, copy4 target, udpdst) /\
  take 4 (drop 16 (build_packet dhcp target srcIP udpsrc udpdst)) = copy4 target /\
  take 4 (drop 12 (build_packet dhcp target srcIP udpsrc udpdst)) = copy4 srcIP.
Proof.
  intros Hd Hg target. split; [ | apply packet_addresses].
  by apply sendUnicastDHCP_unicast.
Qed.

(** ** Witnesses *)

Definition w_dhcp : bytes := [2; 1; 6; 0; 222; 173; 190; 239; 255].

Ltac concrete_bytes :=
  repeat (apply is_bytes_cons; [unfold is_byte; lia | ]); apply is_bytes_nil.

Lemma udp_datagram_verifies_witness :
  let packet := build_packet w_dhcp [192; 168; 1; 20] [192; 168; 1; 1] 67 68 in
  rfc_sum (take 20 packet) = 65535 /\ rfc_sum (udp_covered packet) = 65535.
Proof.
  apply (udp_datagram_verifies w_dhcp [192; 168; 1; 20] [192; 168; 1; 1] 67 68);
    [concrete_bytes | concrete_bytes | concrete_bytes | simpl; lia].
Defined.

Lemma sendUnicastDHCP_target_witness :
  sendUnicastDHCP true w_dhcp (IPv4 192 168 1 20) [192; 168; 1; 1] [10; 0; 0; 1] 67 68
  = Some (build_packet w_dhcp [10; 0; 0; 1] [192; 168; 1; 1] 67 68, [10; 0; 0; 1], 68).
Proof.
  apply (sendUnicastDHCP_target w_dhcp (IPv4 192 168 1 20) [192; 168; 1; 1] [10; 0; 0; 1] 67 68).
  - vm_compute. discriminate.
  - reflexivity.
Defined.

