(* ===== verification/Utils.v ===== *)
(** * Helpers: src/utils.go

    Conversions between integer widths, the shuffles of DNS and router lists,
    reserved address ranges and the exclusion of addresses from the pool.  The
    random generators and [sharedutils.Inc] (third party) are parameters. *)

From S2P Require Import Prelude GoStd GoNet Pool.
From Stdlib Require Import Ascii.

(** ** Conversions *)

Definition safeUint64ToInt (val : Z) : Z := if MaxInt <? val then MaxInt else i64 val.

Definition safeIntToUint64 (val : Z) : Z := if val <? 0 then 0 else u64 val.

Definition safeUint32ToUint64 (val : Z) : Z := u64 val.

(** ** Address tests *)

Definition IsIPv4 (address : IP) : bool := count_char ":" (IP_String address) <? 2.
Definition IsIPv6 (address : IP) : bool := 2 <=? count_char ":" (IP_String address).

Definition setOptionServerIdentifier (srvIP handlerIP : IP) : IP :=
  if IP_Equal srvIP handlerIP || IP_Equal srvIP IPv4zero || IP_Equal srvIP IPv4bcast
  then handlerIP else srvIP.

(** ** Shuffles *)

(** [array[i], array[j] = array[j], array[i]]; out of range panics in Go, and
    the loop below stays in range. *)
Definition swap {A : Type} (i j : nat) (l : list A) : list A :=
  match l !! i, l !! j with
  | Some x, Some y => <[i := y]> (<[j := x]> l)
  | _, _ => l
  end.

(** [rnd k n] is the [k]-th value [random.Intn(n)] of the generator. *)
Fixpoint shuffle_loop {A : Type} (rnd : nat -> Z -> Z) (k i : nat) (array : list A) : list A :=
  match i with
  | O => array
  | S i' =>
      let j := rnd k (Z.of_nat (i + 1)) in
      shuffle_loop rnd (S k) i' (swap i (Z.to_nat j) array)
  end.

(** [for i := len(array) - 1; i > 0; i--] *)
Definition shuffle {A : Type} (rnd : nat -> Z -> Z) (array : list A) : list A :=
  shuffle_loop rnd 0 (length array - 1) array.

Section Shuffles.

(** [gen seed] is the stream of [rand.New(rand.NewSource(seed))]; [now] the
    clock read by the call. *)
Context (gen : Z -> nat -> Z -> Z) (now : Z).

Definition Shuffle (addresses : string) : bytes :=
  let array := map (fun adresse => To4 (ParseIP adresse)) (Split addresses ",") in
  mjoin (shuffle (gen now) array).

Definition ShuffleNetIP (array : list IP) (randSrc : Z) : bytes :=
  let randSrc := if randSrc =? 0 then now else randSrc in
  mjoin (shuffle (gen randSrc) array).

(** [for len(a) >= 4 { ...; a = a[4:] }] *)
Fixpoint chunks4 (a : bytes) : list IP :=
  match a with
  | a0 :: a1 :: a2 :: a3 :: r => To4 (IPv4 a0 a1 a2 a3) :: chunks4 r
  | _ => []
  end.

Definition ShuffleIP (a : bytes) (randSrc : Z) : bytes := ShuffleNetIP (chunks4 a) randSrc.

(** [dns] and [gateway] are the values of the keys of the section. *)
Definition ShuffleDNS (dns : string) : bytes := Shuffle dns.

Definition ShuffleGateway (gateway : string) : bytes := To4 (ParseIP gateway).

End Shuffles.

(** ** Reserved ranges *)

Section Ranges.

(** [sharedutils.Inc], which increments an address in place. *)
Context (Inc : IP -> IP).

(** The loop of [IPsFromRange] from [start] to [end]; [None] when [fuel] rounds
    were not enough. *)
Fixpoint range_loop (fuel : nat) (start stop : IP) (iplist : list IP) : option (list IP) :=
  match fuel with
  | O => None
  | S fuel =>
      let iplist := iplist ++ [ParseIP (IP_String start)] in
      if IP_Equal start stop then Some iplist
      else range_loop fuel (Inc start) stop iplist
  end.

Fixpoint ranges_loop (fuel : nat) (iprange : list string) (iplist : list IP)
    : option (list IP) :=
  match iprange with
  | [] => Some iplist
  | rangeip :: rest =>
      match Split rangeip "-" with
      | [] => ranges_loop fuel rest iplist
      | [ip0] => ranges_loop fuel rest (iplist ++ [ParseIP ip0])
      | ip0 :: ip1 :: _ =>
          match range_loop fuel (ParseIP ip0) (ParseIP ip1) iplist with
          | Some iplist => ranges_loop fuel rest iplist
          | None => None
          end
      end
  end.

Definition IPsFromRange (fuel : nat) (ip_range : string) : option (list IP * Z) :=
  match ranges_loop fuel (Split ip_range ",") [] with
  | Some iplist => Some (iplist, Z.of_nat (length iplist))
  | None => None
  end.

(** The loop of [ExcludeIP]; a [nil] address is the empty list. *)
Fixpoint exclude_loop (start : IP) (available : DHCPPool) (excludeIPs : list IP)
    : exec DHCPPool :=
  match excludeIPs with
  | [] => Ret available
  | [] :: rest => exclude_loop start available rest
  | excludeIP :: rest =>
      exec_bind (Uint32 (To4 excludeIP)) (fun a =>
      exec_bind (Uint32 (To4 start)) (fun b =>
        let position := u32 (a - b) in
        exclude_loop start (ReserveIPIndex available (u64 position) FakeMac).1 rest))
  end.

Definition ExcludeIP (fuel : nat) (start : IP) (available : DHCPPool) (ip_range : string)
    : option (exec DHCPPool) :=
  match IPsFromRange fuel ip_range with
  | Some (excludeIPs, _) => Some (exclude_loop start available excludeIPs)
  | None => None
  end.

End Ranges.

(** What the server relies on: the slice keeps its length, and an IPv4 address
    in 16-byte form is followed by the next one. *)
Class IncLaws (Inc : IP -> IP) : Prop := {
  Inc_length : forall ip, length (Inc ip) = length ip;
  Inc_v4 : forall n, 0 <= n -> n + 1 < 2 ^ 32 ->
    Inc (v4InV6Prefix ++ be32 n) = v4InV6Prefix ++ be32 (n + 1)
}.

(** ** Conversions are exact where they can be and saturate elsewhere *)

Lemma i64_small z : 0 <= z <= MaxInt -> i64 z = z.
Proof. unfold i64, MaxInt. intros. rewrite Z.mod_small; lia. Qed.

Lemma safeUint64ToInt_min v : 0 <= v -> safeUint64ToInt v = Z.min v MaxInt.
Proof. intros H. unfold safeUint64ToInt. case_match; zbool; [ | rewrite i64_small]; lia. Qed.

Lemma safeIntToUint64_max v : v <= MaxInt -> safeIntToUint64 v = Z.max 0 v.
Proof.
  unfold safeIntToUint64, MaxInt, u64. intros H. case_match; zbool; [lia | ].
  rewrite Z.mod_small; lia.
Qed.

Lemma safeUint32ToUint64_id v : is_u32 v -> safeUint32ToUint64 v = v.
Proof. unfold safeUint32ToUint64, is_u32, u64. intros. apply Z.mod_small. lia. Qed.

(** ** Shuffles only reorder *)

Lemma swap_length {A : Type} i j (l : list A) : length (swap i j l) = length l.
Proof. unfold swap. split_matches. by rewrite !length_insert. Qed.

Lemma swap_perm {A : Type} i j (l : list A) : swap i j l ≡ₚ l.
Proof.
  unfold swap. destruct (l !! i) as [x|] eqn:Ei; [ | done]. destruct (l !! j) as [y|] eqn:Ej; [ | done].
  pose proof (lookup_lt_Some _ _ _ Ei). pose proof (lookup_lt_Some _ _ _ Ej).
  apply Permutation_inj. split; [by rewrite !length_insert | ].
  exists (fun k => if decide (k = i) then j else if decide (k = j) then i else k). split.
  - intros a b. repeat case_decide; naive_solver.
  - intros k. destruct (decide (k = i)) as [->|Hi].
    + rewrite list_lookup_insert_eq by (rewrite length_insert; lia). done.
    + rewrite list_lookup_insert_ne by done. destruct (decide (k = j)) as [->|Hj].
      * rewrite list_lookup_insert_eq by lia. done.
      * by rewrite list_lookup_insert_ne.
Qed.

Lemma shuffle_loop_perm {A : Type} rnd k i (l : list A) : shuffle_loop rnd k i l ≡ₚ l.
Proof.
  revert k l. induction i as [|i IH]; intros k l; simpl; [done | ].
  rewrite IH. apply swap_perm.
Qed.

Lemma shuffle_perm {A : Type} rnd (l : list A) : shuffle rnd l ≡ₚ l.
Proof. apply shuffle_loop_perm. Qed.

Lemma chunks4_elems a : Forall (fun c => length c = 4%nat) (chunks4 a).
Proof.
  assert (H : forall n a, (length a <= n)%nat -> Forall (fun c => length c = 4%nat) (chunks4 a)).
  { clear. induction n as [|n IH]; intros a Hn.
    - by destruct a; [constructor | simpl in Hn; lia].
    - destruct a as [|a0 [|a1 [|a2 [|a3 r]]]]; simpl in *; try constructor; [done | apply IH; lia]. }
  by apply (H (length a)).
Qed.

Lemma chunks4_join (l : list IP) : Forall (fun c => length c = 4%nat) l -> chunks4 (mjoin l) = l.
Proof.
  induction 1 as [|c l Hc Hl IH]; [done | ].
  destruct c as [|c0 [|c1 [|c2 [|c3 [|]]]]]; try done.
  simpl. f_equal. exact IH.
Qed.

Lemma join4_length (l : list IP) : Forall (fun c => length c = 4%nat) l -> length (mjoin l) = (4 * length l)%nat.
Proof. induction 1 as [|c l Hc Hl IH]; [done | ]. simpl. rewrite length_app, IH, Hc. lia. Qed.

Lemma chunks4_length a : length (chunks4 a) = (length a / 4)%nat.
Proof.
  assert (H : forall n a, (length a <= n)%nat -> length (chunks4 a) = (length a / 4)%nat).
  { clear. induction n as [|n IH]; intros a Hn.
    - by destruct a; [ | simpl in Hn; lia].
    - destruct a as [|a0 [|a1 [|a2 [|a3 r]]]]; try done. cbn [chunks4 length] in *.
      rewrite IH by lia. replace (S (S (S (S (length r))))) with (length r + 1 * 4)%nat by lia.
      rewrite Nat.div_add by lia. lia. }
  by apply (H (length a)).
Qed.

(** [ShuffleIP] reorders the addresses of an option and changes nothing
    else: the result holds the same four-byte addresses, each as often, for any
    generator, seed and clock; a trailing fragment of an address is dropped. *)
Theorem ShuffleIP_reorders gen now a randSrc :
  chunks4 (ShuffleIP gen now a randSrc) ≡ₚ chunks4 a /\
  length (ShuffleIP gen now a randSrc) = (4 * (length a / 4))%nat.
Proof.
  unfold ShuffleIP, ShuffleNetIP.
  set (l := shuffle _ (chunks4 a)).
  assert (Hp : l ≡ₚ chunks4 a) by apply shuffle_perm.
  assert (Hl : Forall (fun c => length c = 4%nat) l) by (rewrite Hp; apply chunks4_elems).
  rewrite chunks4_join, join4_length by done. split; [done | ].
  by rewrite Hp, chunks4_length.
Qed.

(** ** Address tests *)

Lemma digits_no_colon s : all_chars is_digit s = true -> count_char ":" s = 0.
Proof.
  induction s as [|c s IH]; simpl; [done | ]. intros H. zbool.
  rewrite decide_False by (intros ->; done). rewrite IH; done.
Qed.

Lemma v4_string_no_colon ip : count_char ":" (v4_string ip) = 0.
Proof.
  unfold v4_string. induction ip as [|a ip IH]; [done | ].
  destruct ip as [|b ip]; [apply digits_no_colon, Utoa_digits | ].
  change (map Utoa (a :: b :: ip)) with (Utoa a :: map Utoa (b :: ip)).
  change (Join (Utoa a :: map Utoa (b :: ip)) ".") with
    (Utoa a +s+ ("." +s+ Join (map Utoa (b :: ip)) ".")).
  rewrite !count_char_app, IH, digits_no_colon by apply Utoa_digits. done.
Qed.

(** An IPv4 address, in either form, is classified as IPv4. *)
Lemma IsIPv4_To4 ip : To4 ip <> [] -> IsIPv4 ip = true /\ IsIPv6 ip = false.
Proof.
  intros H. unfold IsIPv4, IsIPv6, IP_String.
  assert (Hl : length ip = 4%nat \/ length ip = 16%nat)
    by (unfold To4 in H; repeat case_decide; tauto).
  destruct ip as [|z ip]; [done | ]. rewrite decide_True by done.
  destruct (To4 (z :: ip)) eqn:E; [done | ]. by rewrite v4_string_no_colon.
Qed.

(** ** Reserved ranges *)

Lemma range_loop_v4 Inc `{!IncLaws Inc} fuel a b iplist :
  is_u32 a -> is_u32 b -> a <= b -> b - a < Z.of_nat fuel ->
  range_loop Inc fuel (v4InV6Prefix ++ be32 a) (v4InV6Prefix ++ be32 b) iplist
  = Some (iplist ++ map (fun n => v4InV6Prefix ++ be32 n) (seqZ a (b - a + 1))).
Proof.
  revert a iplist. induction fuel as [|fuel IH]; intros a iplist Ha Hb Hab Hf; [lia | ].
  cbn [range_loop]. rewrite IP_String_mapped, ParseIP_String by auto with godhcp.
  rewrite seqZ_cons by lia. cbn [map].
  destruct (decide (a = b)) as [<-|Hne].
  - rewrite IP_Equal_refl. rewrite seqZ_nil by lia. done.
  - assert (E : IP_Equal (v4InV6Prefix ++ be32 a) (v4InV6Prefix ++ be32 b) = false).
    { apply not_true_is_false. rewrite IP_Equal_same_len by done.
      intros E%app_inv_head. by apply be32_inj in E. }
    rewrite E, Inc_v4 by (unfold is_u32 in *; lia).
    rewrite IH by (unfold is_u32 in *; lia). rewrite <- app_assoc. simpl.
    repeat f_equal; lia.
Qed.

(** The string ["a-b"] of two IPv4 addresses. *)
Definition range_string (a b : Z) : string :=
  IP_String (be32 a) +s+ String "-" (IP_String (be32 b)).

Lemma has_char_app c a b : has_char c (a +s+ b) = has_char c a || has_char c b.
Proof. induction a as [|h a IH]; simpl; [done | ]. by rewrite IH, orb_assoc. Qed.

Lemma IPsFromRange_v4 Inc `{!IncLaws Inc} fuel a b :
  is_u32 a -> is_u32 b -> a <= b -> b - a < Z.of_nat fuel ->
  IPsFromRange Inc fuel (range_string a b)
  = Some (map (fun n => v4InV6Prefix ++ be32 n) (seqZ a (b - a + 1)), b - a + 1).
Proof.
  intros Ha Hb Hab Hf. unfold IPsFromRange, range_string.
  rewrite Split_no_sep.
  - cbn [ranges_loop]. rewrite Split_app_sep, Split_no_sep by (by apply IP_String_no_char).
    rewrite !ParseIP_String by auto with godhcp.
    rewrite range_loop_v4 by done. simpl. rewrite length_map, length_seqZ.
    repeat f_equal. lia.
  - rewrite has_char_app. cbn [has_char]. by rewrite !IP_String_no_char.
Qed.

Lemma exclude_loop_v4 start dp s l :
  pool_wf dp -> To4 start = be32 s -> is_u32 s -> Forall (fun n => s <= n < 2 ^ 32) l ->
  exists dp',
    exclude_loop start dp (map (fun n => v4InV6Prefix ++ be32 n) l) = Ret dp' /\ pool_wf dp' /\
    capacity dp' = capacity dp /\
    forall j,
      free dp' !! j = (if decide (j + s ∈ l) then None else free dp !! j) /\
      mac dp' !! j =
        (if decide (j + s ∈ l /\ is_Some (free dp !! j)) then Some FakeMac else mac dp !! j).
Proof.
  intros Hwf Hs Hsr Hl. revert dp Hwf. induction Hl as [|n l Hn Hl IH]; intros dp Hwf.
  { exists dp. do 3 (split; [done | ]). intros j. split; rewrite decide_False; set_solver. }
  set (dp1 := (ReserveIPIndex dp (n - s) FakeMac).1).
  assert (Hwf1 : pool_wf dp1) by (by apply ReserveIPIndex_wf).
  destruct (IH dp1 Hwf1) as (dp' & Hrun & Hwf' & Hcap & Hj).
  exists dp'. cbn [map exclude_loop].
  rewrite (To4_mapped (be32 n)), Hs by done.
  rewrite <- (app_nil_r (be32 n)), <- (app_nil_r (be32 s)).
  rewrite !Uint32_be32 by (done || unfold is_u32 in *; lia). cbn [exec_bind].
  rewrite u32_small by (unfold is_u32 in *; lia).
  replace (u64 (n - s)) with (n - s) by (unfold u64, is_u32 in *; rewrite Z.mod_small; lia).
  split; [exact Hrun | ]. split; [done | ]. split.
  { rewrite Hcap. apply ReserveIPIndex_capacity. }
  intros j. destruct (Hj j) as [-> ->].
  destruct (ReserveIPIndex_lookup dp (n - s) FakeMac j Hwf) as [Hf Hm].
  fold dp1 in Hf, Hm. rewrite Hf, Hm.
  assert (Hc : j + s ∈ n :: l <-> n - s = j \/ j + s ∈ l) 
    by (rewrite elem_of_cons; split; (intros [?|?]; [left; lia | by right])).
  split; repeat case_decide; try done; try (exfalso; naive_solver); naive_solver.
Qed.

(** C36: reserving the range ["a-b"] of a pool that starts at [s] takes exactly
    the indexes from [a - s] to [b - s] out of the pool: they are no longer
    free, those that were free are held by the fake MAC address, every other
    entry is unchanged; [b - a + 1] rounds of the loop are enough. *)
Theorem ExcludeIP_range Inc `{!IncLaws Inc} fuel start dp s a b :
  pool_wf dp -> To4 start = be32 s -> is_u32 s -> is_u32 a -> is_u32 b ->
  s <= a -> a <= b -> b - a < Z.of_nat fuel ->
  exists dp',
    ExcludeIP Inc fuel start dp (range_string a b) = Some (Ret dp') /\ pool_wf dp' /\
    forall j,
      free dp' !! j = (if decide (a - s <= j <= b - s) then None else free dp !! j) /\
      mac dp' !! j =
        (if decide (a - s <= j <= b - s /\ is_Some (free dp !! j)) then Some FakeMac else mac dp !! j).
Proof.
  intros Hwf Hs Hsr Ha Hb Hsa Hab Hf.
  destruct (exclude_loop_v4 start dp s (seqZ a (b - a + 1))) as (dp' & Hrun & Hwf' & _ & Hj); try done.
  { apply Forall_seqZ. unfold is_u32 in *. lia. }
  exists dp'. unfold ExcludeIP. rewrite IPsFromRange_v4, Hrun by done.
  do 2 (split; [done | ]). intros j. destruct (Hj j) as [-> ->].
  assert (Hin : j + s ∈ seqZ a (b - a + 1) <-> a - s <= j <= b - s) by (rewrite elem_of_seqZ; lia).
  split; repeat case_decide; try done; naive_solver.
Qed.

(** A range whose first bound does not parse while the second does keeps
    the loop of [IPsFromRange] running for ever: no number of rounds is enough,
    because incrementing a [nil] address leaves it [nil]. *)
Theorem IPsFromRange_diverges Inc `{!IncLaws Inc} fuel s0 s1 :
  has_char "-" s0 = false -> has_char "," s0 = false ->
  has_char "-" s1 = false -> has_char "," s1 = false ->
  ParseIP s0 = [] -> ParseIP s1 <> [] ->
  IPsFromRange Inc fuel (s0 +s+ String "-" s1) = None.
Proof.
  intros H0 H0' H1 H1' E0 E1. unfold IPsFromRange. rewrite Split_no_sep.
  - cbn [ranges_loop]. rewrite Split_app_sep, Split_no_sep by done. rewrite E0.
    assert (Hloop : forall n l, range_loop Inc n [] (ParseIP s1) l = None).
    { induction n as [|n IH]; intros l; cbn [range_loop]; [done | ].
      assert (EI : Inc [] = []) by (apply nil_length_inv, Inc_length).
      rewrite EI, IH. replace (IP_Equal [] (ParseIP s1)) with false; [done | ].
      symmetry. apply not_true_is_false. unfold IP_Equal.
      destruct (ParseIP s1) as [|z l']; [done | ]. simpl.
      repeat (case_decide; [lia || done | ]). done. }
    by rewrite Hloop.
  - rewrite has_char_app. cbn [has_char]. by rewrite H0', H1'.
Qed.

(** An IPv6 address in [ip_reserved] panics: [To4] is [nil] and
    [binary.BigEndian.Uint32] reads past its end. *)
Theorem ExcludeIP_v6_panics Inc fuel start dp s :
  has_char "-" s = false -> has_char "," s = false ->
  ParseIP s <> [] -> To4 (ParseIP s) = [] ->
  ExcludeIP Inc fuel start dp s = Some Panic.
Proof.
  intros Hd Hc Hne H4. unfold ExcludeIP, IPsFromRange. rewrite Split_no_sep by done.
  cbn [ranges_loop]. rewrite Split_no_sep by done. simpl.
  destruct (ParseIP s); [done | ]. simpl. by rewrite H4.
Qed.

(** ** An increment for concrete executions *)

Fixpoint inc_le (l : bytes) : bytes :=
  match l with
  | [] => []
  | b :: r => if b =? 255 then 0 :: inc_le r else (b + 1) :: r
  end.

Definition inc_bytes (ip : IP) : IP := rev (inc_le (rev ip)).

Lemma inc_le_length l : length (inc_le l) = length l.
Proof. induction l as [|b l IH]; simpl; [done | ]. case_match; simpl; congruence. Qed.

Lemma inc_bytes_laws : IncLaws inc_bytes.
Proof.
  split.
  - intros ip. unfold inc_bytes. by rewrite length_rev, inc_le_length, length_rev.
  - intros n H0 H1.
    destruct (be32_inv n) as (b0 & b1 & b2 & b3 & Hb & -> & En); [unfold is_u32; lia | ].
    unfold is_bytes in Hb. rewrite !Forall_cons in Hb. destruct Hb as (B0 & B1 & B2 & B3 & _).
    unfold is_byte in *.
    assert (Hgoal : forall c0 c1 c2 c3, is_bytes [c0; c1; c2; c3] ->
      n + 1 = c3 + c2 * 2 ^ 8 + c1 * 2 ^ 16 + c0 * 2 ^ 24 ->
      v4InV6Prefix ++ [c0; c1; c2; c3] = v4InV6Prefix ++ be32 (n + 1)).
    { intros. f_equal. symmetry. by apply be32_val. }
    unfold inc_bytes. cbn [app v4InV6Prefix rev inc_le].
    repeat (case_match; zbool; cbn [rev app inc_le]);
      try (apply Hgoal; [repeat (apply is_bytes_cons; [unfold is_byte; lia | ]); apply is_bytes_nil | lia]);
      lia.
Qed.

(** ** Witnesses *)

Definition w_start : IP := [192; 168; 1; 10].
Definition w_pool : DHCPPool := NewDHCPPool (fun _ => 0) 20 1.
#[local] Existing Instance inc_bytes_laws.

Lemma ExcludeIP_range_witness :
  exists dp',
    ExcludeIP inc_bytes 5 w_start w_pool "192.168.1.12-192.168.1.14" = Some (Ret dp') /\ pool_wf dp' /\
    forall j,
      free dp' !! j = (if decide (2 <= j <= 4) then None else free w_pool !! j) /\
      mac dp' !! j =
        (if decide (2 <= j <= 4 /\ is_Some (free w_pool !! j)) then Some FakeMac else mac w_pool !! j).
Proof.
  apply (ExcludeIP_range inc_bytes 5 w_start w_pool 3232235786 3232235788 3232235790).
  - apply NewDHCPPool_wf.
  - vm_compute. reflexivity.
  - unfold is_u32. lia.
  - unfold is_u32. lia.
  - unfold is_u32. lia.
  - lia.
  - lia.
  - lia.
Defined.

Lemma IPsFromRange_diverges_witness :
  IPsFromRange inc_bytes 1000 "192.168.1.-192.168.1.20" = None.
Proof.
  apply (IPsFromRange_diverges inc_bytes 1000 "192.168.1." "192.168.1.20");
    try (vm_compute; reflexivity). vm_compute. discriminate.
Defined.

