(* ===== verification/GoCache.v ===== *)
(** * The expiring caches: github.com/fdurand/go-cache

    A third-party package, so an interface: [GoCache] has the operations the
    server calls and [GoCacheLaws] what its documentation promises of them.
    Times and durations are nanoseconds.  [Delete] and [DeleteExpired] return,
    beside the new cache, the pairs handed to the [OnEvicted] callback.  A
    cache of expiring items over [gmap] shows that the laws can be met. *)

From S2P Require Import Prelude.

Definition Second : Z := 1000000000.
Definition Minute : Z := 60 * Second.

Class GoCache (V : Type) := {
  cache : Type;
  New : Z -> Z -> cache;
  Get : Z -> cache -> string -> option V;
  GetWithExpiration : Z -> cache -> string -> option (V * Z);
  SetItem : Z -> cache -> string -> V -> Z -> cache;
  Replace : Z -> cache -> string -> V -> Z -> cache * error;
  Delete : cache -> string -> cache * list (string * V);
  DeleteExpired : Z -> cache -> cache * list (string * V);
  Items : Z -> cache -> gmap string (V * Z)
}.
Arguments cache V {_}.

Class GoCacheLaws (V : Type) `{!GoCache V} : Prop := {
  get_new : forall t d c k, Get t (New d c) k = None;
  get_set_eq : forall now t c k v d,
    0 < d -> t <= now + d -> Get t (SetItem now c k v d) k = Some v;
  get_set_expired : forall now t c k v d,
    0 < d -> now + d < t -> Get t (SetItem now c k v d) k = None;
  get_set_ne : forall now t c k k' v d,
    k <> k' -> Get t (SetItem now c k v d) k' = Get t c k';
  replace_found : forall now c k v v' d,
    Get now c k = Some v' -> Replace now c k v d = (SetItem now c k v d, None);
  replace_missing : forall now c k v d,
    Get now c k = None -> exists e, Replace now c k v d = (c, Some e);
  get_delete_eq : forall t c k, Get t (Delete c k).1 k = None;
  get_delete_ne : forall t c k k', k <> k' -> Get t (Delete c k).1 k' = Get t c k';
  delete_evicts : forall t c k v, Get t c k = Some v -> (Delete c k).2 = [(k, v)];
  delete_evicts_stored : forall c k p,
    p ∈ (Delete c k).2 -> p.1 = k /\ exists t, Get t c k = Some p.2;
  get_delete_expired : forall now t c k,
    now <= t -> Get t (DeleteExpired now c).1 k = Get t c k;
  get_delete_expired_stored : forall now t c k v,
    Get t (DeleteExpired now c).1 k = Some v -> Get t c k = Some v;
  delete_expired_evicts : forall now c p,
    p ∈ (DeleteExpired now c).2 -> Get now c p.1 = None /\ exists t, Get t c p.1 = Some p.2;
  get_with_expiration_eq : forall t c k, fst <$> GetWithExpiration t c k = Get t c k;
  get_with_expiration_set : forall now t c k v d,
    0 < d -> t <= now + d -> GetWithExpiration t (SetItem now c k v d) k = Some (v, now + d);
  items_get : forall t c k, fst <$> Items t c !! k = Get t c k;
  items_set : forall now t c k v d,
    0 < d -> t <= now + d -> Items t (SetItem now c k v d) !! k = Some (v, now + d)
}.

#[export] Hint Rewrite @get_new @get_delete_eq using (apply _) : godhcp.

(** ** Expiring items over a finite map *)

Section MapCache.

Context {V : Type}.

Definition live (t : Z) (it : V * Z) : bool := t <=? it.2.

Definition mc_get (t : Z) (c : gmap string (V * Z)) (k : string) : option (V * Z) :=
  match c !! k with
  | Some it => if live t it then Some it else None
  | None => None
  end.

#[export] Instance map_cache : GoCache V := {|
  cache := gmap string (V * Z);
  New := fun _ _ => ∅;
  Get := fun t c k => fst <$> mc_get t c k;
  GetWithExpiration := mc_get;
  SetItem := fun now c k v d => <[k := (v, now + d)]> c;
  Replace := fun now c k v d =>
    match mc_get now c k with
    | Some _ => (<[k := (v, now + d)]> c, None)
    | None => (c, Some ("Item doesn't exist"%string))
    end;
  Delete := fun c k =>
    (delete k c, match c !! k with Some it => [(k, it.1)] | None => [] end);
  DeleteExpired := fun now c =>
    (filter (fun kv => live now kv.2 = true) c,
     (fun kv : string * (V * Z) => (kv.1, kv.2.1)) <$>
       map_to_list (filter (fun kv => live now kv.2 = false) c));
  Items := fun t c => filter (fun kv => live t kv.2 = true) c
|}.

Lemma map_filter_live (P : string * (V * Z) -> Prop) `{!forall x, Decision (P x)}
    (c : gmap string (V * Z)) k :
  filter P c !! k = match c !! k with Some it => if decide (P (k, it)) then Some it else None | None => None end.
Proof.
  destruct (c !! k) as [it|] eqn:E.
  - case_decide.
    + by apply map_lookup_filter_Some.
    + apply map_lookup_filter_None. right. intros it' E'. congruence.
  - apply map_lookup_filter_None. by left.
Qed.

#[export] Instance map_cache_laws : GoCacheLaws V.
Proof.
  split; unfold Get, GetWithExpiration, SetItem, Replace, Delete, DeleteExpired, Items, New;
    simpl; unfold mc_get; intros.
  - by rewrite lookup_empty.
  - rewrite lookup_insert_eq. unfold live. simpl. by rewrite (proj2 (Z.leb_le _ _)) by lia.
  - rewrite lookup_insert_eq. unfold live. simpl. by rewrite (proj2 (Z.leb_gt _ _)) by lia.
  - by rewrite lookup_insert_ne.
  - by split_matches.
  - split_matches; eauto.
  - by rewrite lookup_delete_eq.
  - by rewrite lookup_delete_ne.
  - by split_matches.
  - destruct (c !! k) as [it|] eqn:E; [ | set_solver].
    apply list_elem_of_singleton in H as ->. split; [done | ]. exists it.2.
    unfold live. by rewrite Z.leb_refl.
  - rewrite map_filter_live. destruct (c !! k) as [it|]; [ | done]. unfold live. simpl.
    case_decide as Hd; [done | ]. destruct (now <=? it.2) eqn:E; [done | ]. zbool.
    by rewrite (proj2 (Z.leb_gt _ _)) by lia.
  - rewrite map_filter_live in H. destruct (c !! k) as [it|]; [ | done]. by case_decide.
  - apply list_elem_of_fmap in H as ([k it] & -> & Hin). apply elem_of_map_to_list in Hin.
    apply map_lookup_filter_Some in Hin as [Hk Hl]. simpl in *. rewrite Hk, Hl.
    split; [done | ]. exists it.2. unfold live. by rewrite Z.leb_refl.
  - done.
  - rewrite lookup_insert_eq. unfold live. simpl. by rewrite (proj2 (Z.leb_le _ _)) by lia.
  - rewrite map_filter_live. destruct (c !! k) as [it|]; [ | done]. simpl.
    case_decide as Hd; [by rewrite Hd | ]. by destruct (live t it).
  - rewrite map_filter_live, lookup_insert_eq. unfold live. simpl.
    by rewrite decide_True by (apply Z.leb_le; lia).
Qed.

End MapCache.
