(* ===== verification/Dhcp4.v ===== *)
(** * DHCP packets and address arithmetic: github.com/krolaw/dhcp4

    A third-party package, so an interface: [Dhcp4] has the operations the
    server calls, [Dhcp4Laws] what their documentation promises.  A packet is
    its bytes, [dhcp.Options] a map from option codes to values.  A packet
    layout after RFC 2131 shows that the laws can be met. *)

From S2P Require Import Prelude GoStd GoNet.

(** ** Constants *)

(** [dhcp.OpCode] and [dhcp.MessageType]. *)
Definition BootRequest : Z := 1.
Definition BootReply : Z := 2.

Definition Discover : Z := 1.
Definition Offer : Z := 2.
Definition Request : Z := 3.
Definition Decline : Z := 4.
Definition ACK : Z := 5.
Definition NAK : Z := 6.
Definition Release : Z := 7.
Definition Inform : Z := 8.

(** [dhcp.OptionCode], RFC 2132. *)
Definition OptionSubnetMask : Z := 1.
Definition OptionRouter : Z := 3.
Definition OptionDomainNameServer : Z := 6.
Definition OptionHostName : Z := 12.
Definition OptionDomainName : Z := 15.
Definition OptionRequestedIPAddress : Z := 50.
Definition OptionDHCPMessageType : Z := 53.
Definition OptionServerIdentifier : Z := 54.
Definition OptionParameterRequestList : Z := 55.

Abbreviation Packet := bytes.
Abbreviation Options := (gmap Z bytes).

(** ** The interface *)

Class Dhcp4 := {
  ParseOptions : Packet -> Options;
  HLen : Packet -> Z;
  XId : Packet -> bytes;
  Secs : Packet -> bytes;
  Flags : Packet -> bytes;
  CIAddr : Packet -> IP;
  YIAddr : Packet -> IP;
  SIAddr : Packet -> IP;
  GIAddr : Packet -> IP;
  CHAddr : Packet -> HardwareAddr;
  File : Packet -> bytes;
  NewPacket : Z -> Packet;
  SetXId : bytes -> Packet -> Packet;
  SetSecs : bytes -> Packet -> Packet;
  SetFlags : bytes -> Packet -> Packet;
  SetBroadcast : bool -> Packet -> Packet;
  SetCIAddr : IP -> Packet -> Packet;
  SetYIAddr : IP -> Packet -> Packet;
  SetSIAddr : IP -> Packet -> Packet;
  SetGIAddr : IP -> Packet -> Packet;
  SetCHAddr : HardwareAddr -> Packet -> Packet;
  SetFile : bytes -> Packet -> Packet;
  AddOption : Z -> bytes -> Packet -> Packet;
  (** request, message type, server identifier, offered address, lease
      duration and ordered options *)
  ReplyPacket : Packet -> Z -> IP -> IP -> Z -> list (Z * bytes) -> Packet;
  (** options to send, given the client's parameter request list or [nil] *)
  SelectOrderOrAll : Options -> option bytes -> list (Z * bytes);
  MessageType_String : Z -> string;
  IPRange : IP -> IP -> exec Z;
  IPAdd : IP -> Z -> exec IP
}.

(** A datagram [Serve] accepts holds the fixed part of a DHCP packet. *)
Definition packet_ok (p : Packet) : Prop := (240 <= length p)%nat /\ is_bytes p.

Class Dhcp4Laws `{!Dhcp4} : Prop := {
  CIAddr_length : forall p, packet_ok p -> length (CIAddr p) = 4%nat;
  GIAddr_length : forall p, packet_ok p -> length (GIAddr p) = 4%nat;
  CIAddr_bytes : forall p, packet_ok p -> is_bytes (CIAddr p);
  GIAddr_bytes : forall p, packet_ok p -> is_bytes (GIAddr p);
  CHAddr_bytes : forall p, packet_ok p -> is_bytes (CHAddr p);
  XId_length : forall p, packet_ok p -> length (XId p) = 4%nat;
  ParseOptions_bytes : forall p k v, packet_ok p -> ParseOptions p !! k = Some v -> is_bytes v;
  (** how many addresses the range from start to stop has, both included *)
  IPRange_spec : forall start stop a b,
    To4 start = be32 a -> To4 stop = be32 b -> is_u32 a -> is_u32 b ->
    IPRange start stop = Ret (b - a + 1);
  (** a copy of start, n addresses further *)
  IPAdd_spec : forall start a n,
    To4 start = be32 a -> is_u32 a -> 0 <= n -> is_u32 (a + n) ->
    IPAdd start n = Ret (be32 (a + n));
  (** without an order all options, in any order *)
  select_all : forall o k v, (k, v) ∈ SelectOrderOrAll o None <-> o !! k = Some v;
  (** the options of the list that are present *)
  select_order : forall o l k v, (k, v) ∈ SelectOrderOrAll o (Some l) <-> k ∈ l /\ o !! k = Some v
}.

(** ** A packet layout *)

Module Wire.

Definition field (off n : nat) (p : bytes) : bytes := take n (drop off p).
Definition put (off : nat) (v p : bytes) : bytes := take off p ++ v ++ drop (off + length v) p.

(** Options after the magic cookie, up to the end marker. *)
Fixpoint parse_options (fuel : nat) (b : bytes) (acc : Options) : Options :=
  match fuel, b with
  | S fuel, k :: r =>
      if k =? 255 then acc
      else if k =? 0 then parse_options fuel r acc
      else match r with
           | n :: r =>
               let n := Z.to_nat n in
               if (length r <? n)%nat then acc
               else parse_options fuel (drop n r) (<[k := take n r]> acc)
           | [] => acc
           end
  | _, _ => acc
  end.

Definition add_option (k : Z) (v : bytes) (p : bytes) : bytes :=
  removelast p ++ [k; Z.of_nat (length v)] ++ v ++ [255].

Definition fixed_part (op : Z) : bytes :=
  [op; 1; 6; 0] ++ replicate 232 0 ++ [99; 130; 83; 99; 255].

Definition select (order : option bytes) (o : Options) : list (Z * bytes) :=
  match order with
  | Some l => omap (fun k => (fun v => (k, v)) <$> o !! k) l
  | None => map_to_list o
  end.

Definition ch_addr (p : bytes) : bytes := field 28 (Z.to_nat (Z.min 16 (default 0 (p !! 2%nat)))) p.
Definition set_ch_addr (hw p : bytes) : bytes := put 2 [Z.of_nat (length hw)] (put 28 hw p).

(** Text fields end at their first zero byte. *)
Fixpoint trim_null (b : bytes) : bytes :=
  match b with [] => [] | c :: r => if c =? 0 then [] else c :: trim_null r end.
Definition set_file (f p : bytes) : bytes := put 108 (f ++ if (length f <? 128)%nat then [0] else []) p.

(** The highest bit of the flags. *)
Definition set_broadcast (b : bool) (p : bytes) : bytes :=
  let low := Z.land (default 0 (p !! 10%nat)) 127 in put 10 [if b then low + 128 else low] p.

#[export] Instance wire : Dhcp4 := {|
  ParseOptions p := parse_options (length p) (drop 240 p) ∅;
  HLen p := default 0 (p !! 2%nat);
  XId := field 4 4;
  Secs := field 8 2;
  Flags := field 10 2;
  CIAddr := field 12 4;
  YIAddr := field 16 4;
  SIAddr := field 20 4;
  GIAddr := field 24 4;
  CHAddr := ch_addr;
  File p := trim_null (field 108 128 p);
  NewPacket := fixed_part;
  SetXId := put 4;
  SetSecs := put 8;
  SetFlags := put 10;
  SetBroadcast := set_broadcast;
  SetCIAddr ip := put 12 (To4 ip);
  SetYIAddr ip := put 16 (To4 ip);
  SetSIAddr ip := put 20 (To4 ip);
  SetGIAddr ip := put 24 (To4 ip);
  SetCHAddr := set_ch_addr;
  SetFile := set_file;
  AddOption := add_option;
  ReplyPacket p mt ip yi lease opts :=
    let q := fixed_part BootReply in
    let q := put 4 (field 4 4 p) q in
    let q := put 10 (field 10 2 p) q in
    let q := put 16 (To4 yi) q in
    let q := put 24 (field 24 4 p) q in
    let q := set_ch_addr (ch_addr p) q in
    let q := add_option OptionDHCPMessageType [mt] q in
    let q := add_option OptionServerIdentifier ip q in
    let q := if 0 <? lease then add_option 51 (be32 (lease / 1000000000)) q else q in
    foldl (fun q kv => add_option kv.1 kv.2 q) q opts;
  SelectOrderOrAll o order := select order o;
  MessageType_String mt :=
    default "?"%string (["?"; "Discover"; "Offer"; "Request"; "Decline"; "ACK"; "NAK"; "Release"; "Inform"]%string
                 !! Z.to_nat mt);
  IPRange start stop :=
    exec_bind (Uint32 (To4 stop)) (fun b =>
    exec_bind (Uint32 (To4 start)) (fun a => Ret (b - a + 1)));
  IPAdd start n := exec_bind (Uint32 (To4 start)) (fun a => Ret (be32 (u32 (a + n))))
|}.

Lemma field_length off n p : (off + n <= length p)%nat -> length (field off n p) = n.
Proof. intros. unfold field. rewrite length_take, length_drop. lia. Qed.

Lemma field_bytes off n p : is_bytes p -> is_bytes (field off n p).
Proof. intros. unfold field, is_bytes. by apply Forall_take, Forall_drop. Qed.

Lemma parse_options_bytes fuel b acc k v :
  is_bytes b -> (forall k v, acc !! k = Some v -> is_bytes v) ->
  parse_options fuel b acc !! k = Some v -> is_bytes v.
Proof.
  revert b acc. induction fuel as [|fuel IH]; intros b acc Hb Hacc; simpl; [apply Hacc | ].
  destruct b as [|z b]; [apply Hacc | ]. unfold is_bytes in *. apply Forall_cons in Hb as [_ Hb].
  destruct (z =? 255); [apply Hacc | ]. destruct (z =? 0); [by apply IH | ].
  destruct b as [|n r]; [apply Hacc | ]. apply Forall_cons in Hb as [_ Hr].
  case_match; [apply Hacc | ]. apply IH; [by apply Forall_drop | ].
  intros k' v'. rewrite lookup_insert. case_decide; [ | apply Hacc].
  intros [= <-]. by apply Forall_take.
Qed.

#[export] Instance wire_laws : Dhcp4Laws.
Proof.
  split; simpl.
  - intros p [Hp _]. apply field_length. lia.
  - intros p [Hp _]. apply field_length. lia.
  - intros p [_ Hb]. by apply field_bytes.
  - intros p [_ Hb]. by apply field_bytes.
  - intros p [_ Hb]. by apply field_bytes.
  - intros p [Hp _]. apply field_length. lia.
  - intros p k v [_ Hb]. apply parse_options_bytes; [by apply Forall_drop | ].
    intros k' v'. by rewrite lookup_empty.
  - intros start stop a b Ha Hb Ra Rb. rewrite Ha, Hb.
    rewrite <- (app_nil_r (be32 a)), <- (app_nil_r (be32 b)), !Uint32_be32 by done. done.
  - intros start a n Ha Ra Hn Rn. rewrite Ha, <- (app_nil_r (be32 a)), Uint32_be32 by done.
    simpl exec_bind. by rewrite u32_small.
  - intros o k v. apply elem_of_map_to_list.
  - intros o l k v. rewrite list_elem_of_omap. split.
    + intros (k' & Hk' & H). destruct (o !! k') as [v'|] eqn:E; [ | done]. by injection H as -> ->.
    + intros [Hk H]. exists k. by rewrite H.
Qed.

End Wire.
