(* ===== verification/Packets.v ===== *)
(** * The fields of a packet

    [Packet] of krolaw/dhcp4 is an array of bytes with a getter and a setter for
    each field.  [PacketLaws] states what the documentation promises of them: a
    setter changes its own field and no other, options are added to the ones
    there are, a reply answers its request.  [header] is the value of the fixed
    fields; the layout of Dhcp4.v meets the laws. *)

From S2P Require Import Prelude GoStd GoNet Dhcp4.

Record header := mkHeader {
  hd_op : Z;
  hd_xid : bytes;
  hd_secs : bytes;
  hd_flags : bytes;
  hd_ci : IP;
  hd_yi : IP;
  hd_si : IP;
  hd_gi : IP;
  hd_ch : HardwareAddr;
  hd_file : bytes
}.

Definition zero2 : bytes := [0; 0].
Definition zero4 : bytes := [0; 0; 0; 0].

(** [flags] without its broadcast bit. *)
Definition unicast (flags : bytes) : bytes :=
  match flags with a :: r => Z.land a 127 :: r | [] => [] end.

(** [copy(field, ip.To4())] into four zero bytes. *)
Definition addr4 (ip : IP) : IP := match To4 ip with [] => zero4 | a => a end.

Lemma addr4_v4 ip : length ip = 4%nat -> addr4 ip = ip.
Proof. intros H. unfold addr4. rewrite To4_v4 by done. by destruct ip. Qed.

(** ** Laws *)

(** [grown p]: [p] comes from [NewPacket] by setters and [AddOption], so that it
    ends with the end option. *)
Class PacketFields := { OpCode : Packet -> Z; grown : Packet -> Prop }.

Section Laws.

Context {D4 : Dhcp4} {PF : PacketFields}.

Definition header_of (p : Packet) : header :=
  mkHeader (OpCode p) (XId p) (Secs p) (Flags p) (CIAddr p) (YIAddr p) (SIAddr p) (GIAddr p) (CHAddr p) (File p).

(** [q] is [p] with its fixed fields changed by [f] and the same options. *)
Definition updated (f : header -> header) (p q : Packet) : Prop :=
  grown q /\ header_of q = f (header_of p) /\ ParseOptions q = ParseOptions p.

Definition option_ok (k : Z) (v : bytes) : Prop := 0 < k < 255 /\ (length v <= 255)%nat.

Class PacketLaws : Prop := {
  Secs_length : forall p, packet_ok p -> length (Secs p) = 2%nat;
  Flags_length : forall p, packet_ok p -> length (Flags p) = 2%nat;
  YIAddr_length : forall p, packet_ok p -> length (YIAddr p) = 4%nat;
  SIAddr_length : forall p, packet_ok p -> length (SIAddr p) = 4%nat;
  CHAddr_length : forall p, packet_ok p -> (length (CHAddr p) <= 16)%nat;
  File_text : forall p, packet_ok p -> (length (File p) <= 128)%nat /\ Forall (fun b => b <> 0) (File p);
  ParseOptions_ok : forall p k v, packet_ok p -> ParseOptions p !! k = Some v -> option_ok k v;
  NewPacket_spec : forall op, grown (NewPacket op) /\ ParseOptions (NewPacket op) = ∅ /\
    header_of (NewPacket op) = mkHeader op zero4 zero2 zero2 zero4 zero4 zero4 zero4 (CHAddr (NewPacket op)) [];
  SetXId_spec : forall p x, grown p -> length x = 4%nat ->
    updated (fun h => mkHeader (hd_op h) x (hd_secs h) (hd_flags h) (hd_ci h) (hd_yi h) (hd_si h) (hd_gi h)
      (hd_ch h) (hd_file h)) p (SetXId x p);
  SetSecs_spec : forall p x, grown p -> length x = 2%nat ->
    updated (fun h => mkHeader (hd_op h) (hd_xid h) x (hd_flags h) (hd_ci h) (hd_yi h) (hd_si h) (hd_gi h)
      (hd_ch h) (hd_file h)) p (SetSecs x p);
  SetFlags_spec : forall p x, grown p -> length x = 2%nat ->
    updated (fun h => mkHeader (hd_op h) (hd_xid h) (hd_secs h) x (hd_ci h) (hd_yi h) (hd_si h) (hd_gi h)
      (hd_ch h) (hd_file h)) p (SetFlags x p);
  SetBroadcast_false : forall p, grown p ->
    updated (fun h => mkHeader (hd_op h) (hd_xid h) (hd_secs h) (unicast (hd_flags h)) (hd_ci h) (hd_yi h) (hd_si h)
      (hd_gi h) (hd_ch h) (hd_file h)) p (SetBroadcast false p);
  SetCIAddr_spec : forall p x, grown p -> length (To4 x) = 4%nat ->
    updated (fun h => mkHeader (hd_op h) (hd_xid h) (hd_secs h) (hd_flags h) (To4 x) (hd_yi h) (hd_si h) (hd_gi h)
      (hd_ch h) (hd_file h)) p (SetCIAddr x p);
  SetYIAddr_spec : forall p x, grown p -> length (To4 x) = 4%nat ->
    updated (fun h => mkHeader (hd_op h) (hd_xid h) (hd_secs h) (hd_flags h) (hd_ci h) (To4 x) (hd_si h) (hd_gi h)
      (hd_ch h) (hd_file h)) p (SetYIAddr x p);
  SetSIAddr_spec : forall p x, grown p -> length (To4 x) = 4%nat ->
    updated (fun h => mkHeader (hd_op h) (hd_xid h) (hd_secs h) (hd_flags h) (hd_ci h) (hd_yi h) (To4 x) (hd_gi h)
      (hd_ch h) (hd_file h)) p (SetSIAddr x p);
  SetGIAddr_spec : forall p x, grown p -> length (To4 x) = 4%nat ->
    updated (fun h => mkHeader (hd_op h) (hd_xid h) (hd_secs h) (hd_flags h) (hd_ci h) (hd_yi h) (hd_si h) (To4 x)
      (hd_ch h) (hd_file h)) p (SetGIAddr x p);
  SetCHAddr_spec : forall p x, grown p -> (length x <= 16)%nat ->
    updated (fun h => mkHeader (hd_op h) (hd_xid h) (hd_secs h) (hd_flags h) (hd_ci h) (hd_yi h) (hd_si h) (hd_gi h)
      x (hd_file h)) p (SetCHAddr x p);
  SetFile_spec : forall p x, grown p -> (length x <= 128)%nat -> Forall (fun b => b <> 0) x ->
    updated (fun h => mkHeader (hd_op h) (hd_xid h) (hd_secs h) (hd_flags h) (hd_ci h) (hd_yi h) (hd_si h) (hd_gi h)
      (hd_ch h) x) p (SetFile x p);
  AddOption_spec : forall p k v, grown p -> option_ok k v ->
    grown (AddOption k v p) /\ header_of (AddOption k v p) = header_of p /\
    ParseOptions (AddOption k v p) = <[k := v]> (ParseOptions p);
  (** a reply is associated to its request *)
  ReplyPacket_spec : forall p mt sid yi lease opts, packet_ok p ->
    header_of (ReplyPacket p mt sid yi lease opts) =
      mkHeader BootReply (XId p) zero2 (Flags p) zero4 (addr4 yi) zero4 (GIAddr p) (CHAddr p) []
}.

End Laws.

(** ** The layout of Dhcp4.v meets the laws *)

Module WireFields.

Import Wire.

Lemma field_put_same off v p :
  (off + length v <= length p)%nat -> field off (length v) (put off v p) = v.
Proof.
  intros H. unfold field, put. rewrite drop_app_ge by (rewrite length_take; lia).
  rewrite length_take, Nat.min_l, Nat.sub_diag by lia. by rewrite drop_0, take_app_length.
Qed.

Lemma put_length off v p : (off + length v <= length p)%nat -> length (put off v p) = length p.
Proof. intros H. unfold put. rewrite !length_app, length_take, length_drop. lia. Qed.

Lemma put_lookup_other off v p i :
  (off + length v <= length p)%nat -> (i < off \/ off + length v <= i)%nat -> put off v p !! i = p !! i.
Proof.
  intros Hl [Hi|Hi]; unfold put.
  - by rewrite lookup_app_l, lookup_take_lt by (rewrite ?length_take; lia).
  - rewrite lookup_app_r, length_take, Nat.min_l by (rewrite ?length_take; lia).
    rewrite lookup_app_r, lookup_drop by lia. f_equal. lia.
Qed.

Lemma field_put_other off n off' v p :
  (off' + length v <= length p)%nat -> (off + n <= off' \/ off' + length v <= off)%nat ->
  field off n (put off' v p) = field off n p.
Proof.
  intros Hl Hd. apply list_eq. intros i. unfold field. destruct (decide (i < n)%nat) as [Hi|Hi].
  - rewrite !lookup_take_lt, !lookup_drop by done. apply put_lookup_other; lia.
  - by rewrite !lookup_take_ge by lia.
Qed.

Lemma drop_put off v p n :
  (off + length v <= n)%nat -> (n <= length p)%nat -> drop n (put off v p) = drop n p.
Proof.
  intros Hn Hl. apply list_eq. intros i. rewrite !lookup_drop. apply put_lookup_other; lia.
Qed.

(** The options a packet ends with. *)
Definition enc (l : list (Z * bytes)) : bytes := mjoin (map (fun kv => kv.1 :: Z.of_nat (length kv.2) :: kv.2) l).

Definition wire_grown (p : bytes) : Prop := exists l,
  Forall (fun kv => option_ok kv.1 kv.2) l /\ (240 <= length p)%nat /\ drop 240 p = enc l ++ [255].

#[export] Instance wire_fields : PacketFields := {|
  OpCode p := default 0 (p !! 0%nat);
  grown := wire_grown
|}.

Lemma grown_length p : wire_grown p -> (241 <= length p)%nat.
Proof.
  intros (l & _ & H & E). apply (f_equal length) in E. rewrite length_drop, length_app in E. simpl in E. lia.
Qed.

Lemma grown_put p off v : (off + length v <= 240)%nat -> wire_grown p -> wire_grown (put off v p).
Proof.
  intros Hv (l & Hl & Hp & E). exists l. split; [done | ].
  by rewrite put_length, drop_put by lia.
Qed.

Lemma options_put p off v :
  (off + length v <= 240)%nat -> (240 <= length p)%nat -> ParseOptions (put off v p) = ParseOptions p.
Proof. intros Hv Hp. simpl. by rewrite put_length, drop_put by lia. Qed.

Lemma enc_cons k v l : enc ((k, v) :: l) = k :: Z.of_nat (length v) :: v ++ enc l.
Proof. done. Qed.

(** Parsing the encoded options of any number. *)
Lemma parse_enc l fuel acc :
  Forall (fun kv => option_ok kv.1 kv.2) l -> (length (enc l ++ [255%Z]) <= fuel)%nat ->
  parse_options fuel (enc l ++ [255]) acc = foldl (fun m kv => <[kv.1 := kv.2]> m) acc l.
Proof.
  intros Hl. revert fuel acc. induction Hl as [|[k v] l [Hk Hv] Hl IH]; intros fuel acc Hf.
  - destruct fuel; [simpl in Hf; lia | done].
  - destruct fuel as [|fuel]; [simpl in Hf; lia | ]. rewrite enc_cons in Hf |- *.
    cbn [app parse_options length] in Hf |- *. rewrite <- app_assoc in Hf |- *.
    cbn [fst snd] in Hk, Hv. destruct (Z.eqb_spec k 255) as [|_]; [lia | ]. destruct (Z.eqb_spec k 0) as [|_]; [lia | ].
    rewrite Nat2Z.id. destruct (Nat.ltb_spec (length (v ++ enc l ++ [255])) (length v)) as [Hlt|_];
      [rewrite length_app in Hlt; lia | ].
    rewrite drop_app_length, take_app_length. cbn [foldl fst snd].
    apply IH. rewrite length_app in Hf. lia.
Qed.

Lemma grown_options p l :
  Forall (fun kv => option_ok kv.1 kv.2) l -> drop 240 p = enc l ++ [255] ->
  ParseOptions p = foldl (fun m kv => <[kv.1 := kv.2]> m) (∅ : Options) l.
Proof.
  intros Hl E. simpl. rewrite E. apply parse_enc; [done | ]. rewrite <- E, length_drop. lia.
Qed.

Lemma enc_snoc l k v : enc (l ++ [(k, v)]) = enc l ++ k :: Z.of_nat (length v) :: v.
Proof. unfold enc. rewrite map_app, join_app. simpl. by rewrite app_nil_r. Qed.

Lemma ch_put p off v :
  (off + length v <= length p)%nat ->
  (off + length v <= 2 \/ (3 <= off /\ off + length v <= 28) \/ 44 <= off)%nat -> ch_addr (put off v p) = ch_addr p.
Proof. intros Hl Hd. unfold ch_addr. rewrite put_lookup_other by lia. apply field_put_other; lia. Qed.

Lemma own_ch p hw : (44 <= length p)%nat -> (length hw <= 16)%nat -> ch_addr (set_ch_addr hw p) = hw.
Proof.
  intros Hp Hl. unfold ch_addr, set_ch_addr.
  assert (E : put 2 [Z.of_nat (length hw)] (put 28 hw p) !! 2%nat = Some (Z.of_nat (length hw))).
  { unfold put at 1. rewrite lookup_app_r by (rewrite length_take, put_length; lia).
    by rewrite length_take, put_length, Nat.min_l by lia. }
  rewrite E. replace (Z.to_nat (Z.min 16 (default 0 (Some (Z.of_nat (length hw)))))) with (length hw) by (simpl; lia).
  rewrite field_put_other by (rewrite ?put_length; simpl; lia). apply field_put_same. lia.
Qed.

Lemma trim_text f r : Forall (fun b => b <> 0) f -> trim_null (f ++ 0 :: r) = f.
Proof.
  induction 1 as [|b f Hb Hf IH]; [done | ]. cbn [app trim_null].
  destruct (Z.eqb_spec b 0) as [|_]; [done | ]. by rewrite IH.
Qed.

Lemma trim_full f : Forall (fun b => b <> 0) f -> trim_null f = f.
Proof.
  induction 1 as [|b f Hb Hf IH]; [done | ]. cbn [trim_null].
  destruct (Z.eqb_spec b 0) as [|_]; [done | ]. by rewrite IH.
Qed.

Lemma trim_null_text f : (length (trim_null f) <= length f)%nat /\ Forall (fun b => b <> 0) (trim_null f).
Proof.
  induction f as [|b f [IH1 IH2]]; cbn [trim_null]; [split; [lia | done] | ].
  destruct (Z.eqb_spec b 0) as [|Hb]; cbn [length]; split; [lia | done | lia | by constructor].
Qed.

Lemma own_file p f : (236 <= length p)%nat -> (length f <= 128)%nat -> Forall (fun b => b <> 0) f ->
  trim_null (field 108 128 (set_file f p)) = f.
Proof.
  intros Hp Hl Hf. unfold set_file. destruct (Nat.ltb_spec (length f) 128) as [Hlt|Hge].
  - assert (E : field 108 128 (put 108 (f ++ [0]) p) = f ++ 0 :: field (109 + length f) (127 - length f) p).
    { unfold field, put. rewrite drop_app_ge, length_take, Nat.min_l by (rewrite ?length_take; lia).
      rewrite Nat.sub_diag, drop_0. rewrite <- app_assoc, take_app_ge by lia. f_equal. cbn [app].
      destruct (128 - length f)%nat as [|m] eqn:E; [lia | ]. cbn [take]. do 2 f_equal; [ | f_equal; rewrite length_app; simpl]; lia. }
    rewrite E. by apply trim_text.
  - rewrite app_nil_r. assert (E : length f = 128%nat) by lia. rewrite <- E at 1.
    rewrite field_put_same by lia. by apply trim_full.
Qed.

#[local] Arguments field : simpl never.
#[local] Arguments put : simpl never.

(** The fields a setter does not touch. *)
Ltac other_fields :=
  repeat first [ rewrite field_put_other by (rewrite ?put_length; simpl; lia)
               | rewrite ch_put by (rewrite ?put_length; simpl; lia)
               | rewrite put_lookup_other by (rewrite ?put_length; simpl; lia) ].

(** A setter that overwrites one field: [field_put_same] for its own. *)
Ltac setter Hp :=
  pose proof (grown_length _ Hp);
  split; [by apply grown_put; [simpl; lia | ] | split; [ | apply options_put; simpl; lia]];
  unfold header_of; cbn -[field put ch_addr]; f_equal; other_fields; try done.

Lemma put_own off n v p : length v = n -> (off + n <= length p)%nat -> field off n (put off v p) = v.
Proof. intros <- H. by apply field_put_same. Qed.

Lemma wire_set_ch p x : wire_grown p -> (length x <= 16)%nat ->
  updated (fun h => mkHeader (hd_op h) (hd_xid h) (hd_secs h) (hd_flags h) (hd_ci h) (hd_yi h) (hd_si h) (hd_gi h)
      x (hd_file h)) p (SetCHAddr x p).
Proof.
  intros Hp Hx. pose proof (grown_length _ Hp) as Hl. simpl. unfold set_ch_addr. split; [ | split].
  - apply grown_put; [simpl; lia | ]. by apply grown_put; [lia | ].
  - unfold header_of; cbn -[field put ch_addr]. f_equal; other_fields; try done.
    apply own_ch; lia.
  - rewrite !options_put by (rewrite ?put_length; simpl; lia). done.
Qed.

Lemma wire_set_file p x : wire_grown p -> (length x <= 128)%nat -> Forall (fun b => b <> 0) x ->
  updated (fun h => mkHeader (hd_op h) (hd_xid h) (hd_secs h) (hd_flags h) (hd_ci h) (hd_yi h) (hd_si h) (hd_gi h)
      (hd_ch h) x) p (SetFile x p).
Proof.
  intros Hp Hx Hf. pose proof (grown_length _ Hp) as Hl. simpl.
  assert (Hv : (length (x ++ (if (length x <? 128)%nat then [0%Z] else []))%list <= 128)%nat).
  { rewrite length_app. destruct (Nat.ltb_spec (length x) 128); simpl; lia. }
  pose proof (own_file p x ltac:(lia) Hx Hf) as E. unfold set_file in *.
  set (v := (x ++ _)%list) in *. split; [by apply grown_put; [lia | ] | split].
  - unfold header_of; cbn -[field put ch_addr]. f_equal; other_fields; done.
  - apply options_put; lia.
Qed.

Lemma wire_clear p : wire_grown p ->
  updated (fun h => mkHeader (hd_op h) (hd_xid h) (hd_secs h) (unicast (hd_flags h)) (hd_ci h) (hd_yi h) (hd_si h)
      (hd_gi h) (hd_ch h) (hd_file h)) p (SetBroadcast false p).
Proof.
  intros Hp. simpl. unfold set_broadcast. setter Hp.
  destruct (lookup_lt_is_Some_2 p 10%nat ltac:(lia)) as [a Ha].
  destruct (lookup_lt_is_Some_2 p 11%nat ltac:(lia)) as [b Hb].
  assert (E : field 10 2 p = [a; b]).
  { unfold field. by rewrite (drop_S _ a _ Ha), (drop_S _ b _ Hb). }
  rewrite E, Ha. cbn [unicast default].
  apply list_eq. intros [|[|i]].
  - unfold field, put. rewrite lookup_take_lt, lookup_drop by lia.
    rewrite lookup_app_r by (rewrite length_take; lia). by rewrite length_take, Nat.min_l by lia.
  - unfold field. rewrite lookup_take_lt, lookup_drop by lia. by rewrite put_lookup_other by (simpl; lia).
  - unfold field. by rewrite lookup_take_ge by lia.
Qed.

(** The header is in the first 240 bytes. *)
Lemma lookup_prefix (p q : bytes) i : take 240 p = take 240 q -> (i < 240)%nat -> p !! i = q !! i.
Proof. intros E Hi. by rewrite <- (lookup_take_lt p 240 i), E, lookup_take_lt by done. Qed.

Lemma field_prefix p q off n : take 240 p = take 240 q -> (off + n <= 240)%nat -> field off n p = field off n q.
Proof.
  intros E Hn. apply list_eq. intros i. unfold field. destruct (decide (i < n)%nat) as [Hi|Hi].
  - rewrite !lookup_take_lt, !lookup_drop by done. apply lookup_prefix; [done | lia].
  - by rewrite !lookup_take_ge by lia.
Qed.

Lemma header_prefix p q : take 240 p = take 240 q -> header_of p = header_of q.
Proof.
  intros E. unfold header_of. cbn -[field ch_addr].
  assert (Hc : ch_addr p = ch_addr q).
  { unfold ch_addr. rewrite (lookup_prefix p q 2) by (done || lia). apply field_prefix; [done | lia]. }
  rewrite (lookup_prefix p q 0), Hc by (done || lia).
  by rewrite !(fun off n => field_prefix p q off n E) by lia.
Qed.

Lemma removelast_take {A} (l : list A) : removelast l = take (length l - 1) l.
Proof. rewrite removelast_firstn_len. f_equal. lia. Qed.

Lemma add_option_header p k v : (241 <= length p)%nat ->
  header_of (add_option k v p) = header_of p /\ (241 <= length (add_option k v p))%nat.
Proof.
  intros Hp. unfold add_option. rewrite removelast_take. split.
  - apply header_prefix. rewrite take_app_le, take_take, Nat.min_l by (rewrite ?length_take; lia). done.
  - rewrite !length_app, length_take. simpl. lia.
Qed.

Lemma add_options_header opts p : (241 <= length p)%nat ->
  header_of (foldl (fun q kv => add_option kv.1 kv.2 q) p opts) = header_of p.
Proof.
  revert p. induction opts as [|[k v] opts IH]; intros p Hp; [done | ]. cbn [foldl fst snd].
  destruct (add_option_header p k v Hp) as [E Hl]. by rewrite IH, E.
Qed.

Lemma wire_add_option p k v : wire_grown p -> option_ok k v ->
  wire_grown (add_option k v p) /\ header_of (add_option k v p) = header_of p /\
  ParseOptions (add_option k v p) = <[k := v]> (ParseOptions p).
Proof.
  intros Hp Hk. pose proof (grown_length p Hp) as Hlen. destruct Hp as (l & Hl & H240 & E).
  destruct (add_option_header p k v Hlen) as [Hh Hlen'].
  assert (Hl' : Forall (fun kv => option_ok kv.1 kv.2) (l ++ [(k, v)])) by (apply Forall_app; by rewrite Forall_singleton).
  assert (E' : drop 240 (add_option k v p) = enc (l ++ [(k, v)]) ++ [255]).
  { unfold add_option. assert (Er : removelast p = take 240 p ++ enc l).
    { rewrite <- (take_drop 240 p) at 1. by rewrite E, app_assoc, removelast_last. }
    rewrite Er.
    rewrite <- app_assoc, drop_app_ge by (rewrite length_take; lia).
    rewrite length_take, Nat.min_l, Nat.sub_diag, drop_0 by lia.
    rewrite enc_snoc, <- app_assoc. done. }
  split; [exists (l ++ [(k, v)]); split; [done | split; [lia | done]] | split; [done | ]].
  rewrite (grown_options _ _ Hl' E'), (grown_options _ _ Hl E), foldl_app. done.
Qed.

Lemma parse_options_ok fuel b acc k v :
  is_bytes b -> (forall k v, acc !! k = Some v -> option_ok k v) ->
  parse_options fuel b acc !! k = Some v -> option_ok k v.
Proof.
  revert b acc. induction fuel as [|fuel IH]; intros b acc Hb Hacc; simpl; [apply Hacc | ].
  destruct b as [|z b]; [apply Hacc | ]. unfold is_bytes in *. apply Forall_cons in Hb as [Hz Hb].
  destruct (Z.eqb_spec z 255) as [|Hz1]; [apply Hacc | ]. destruct (Z.eqb_spec z 0) as [|Hz0]; [by apply IH | ].
  destruct b as [|n r]; [apply Hacc | ]. apply Forall_cons in Hb as [Hn Hr].
  case_match; [apply Hacc | ]. apply IH; [by apply Forall_drop | ].
  intros k' v'. rewrite lookup_insert. case_decide as Hd; [ | apply Hacc].
  intros [= <-]. subst k'. unfold is_byte in *. split; [lia | ]. rewrite length_take. lia.
Qed.

Lemma wire_new op : wire_grown (NewPacket op) /\ ParseOptions (NewPacket op) = ∅ /\
    header_of (NewPacket op) = mkHeader op zero4 zero2 zero2 zero4 zero4 zero4 zero4 (CHAddr (NewPacket op)) [].
Proof. split; [exists []; split; [done | split; [simpl; lia | done]] | split; done]. Qed.

Ltac set_one := intros p x Hp Hx; simpl; setter Hp; apply put_own; [done | lia].

Lemma wire_set_xid p x : wire_grown p -> length x = 4%nat ->
  updated (fun h => mkHeader (hd_op h) x (hd_secs h) (hd_flags h) (hd_ci h) (hd_yi h) (hd_si h) (hd_gi h)
      (hd_ch h) (hd_file h)) p (SetXId x p).
Proof. revert p x. set_one. Qed.

Lemma wire_set_flags p x : wire_grown p -> length x = 2%nat ->
  updated (fun h => mkHeader (hd_op h) (hd_xid h) (hd_secs h) x (hd_ci h) (hd_yi h) (hd_si h) (hd_gi h)
      (hd_ch h) (hd_file h)) p (SetFlags x p).
Proof. revert p x. set_one. Qed.

Lemma wire_set_yi p x : wire_grown p -> length (To4 x) = 4%nat ->
  updated (fun h => mkHeader (hd_op h) (hd_xid h) (hd_secs h) (hd_flags h) (hd_ci h) (To4 x) (hd_si h) (hd_gi h)
      (hd_ch h) (hd_file h)) p (SetYIAddr x p).
Proof. revert p x. set_one. Qed.

Lemma wire_set_gi p x : wire_grown p -> length (To4 x) = 4%nat ->
  updated (fun h => mkHeader (hd_op h) (hd_xid h) (hd_secs h) (hd_flags h) (hd_ci h) (hd_yi h) (hd_si h) (To4 x)
      (hd_ch h) (hd_file h)) p (SetGIAddr x p).
Proof. revert p x. set_one. Qed.

Lemma field_ok p off n : packet_ok p -> (off + n <= 240)%nat -> length (field off n p) = n.
Proof. intros [Hp _] Hn. apply field_length. lia. Qed.

Lemma ch_ok p : packet_ok p -> (length (ch_addr p) <= 16)%nat.
Proof. intros _. unfold ch_addr, field. rewrite length_take. lia. Qed.

Lemma put_nothing off p : put off [] p = p.
Proof. unfold put. cbn [app length]. by rewrite Nat.add_0_r, take_drop. Qed.

(** [SetYIAddr] on a packet whose field is zero. *)
Lemma wire_set_yi_any p h yi : wire_grown p -> header_of p = h -> hd_yi h = zero4 ->
  wire_grown (SetYIAddr yi p) /\ header_of (SetYIAddr yi p) =
    mkHeader (hd_op h) (hd_xid h) (hd_secs h) (hd_flags h) (hd_ci h) (addr4 yi) (hd_si h) (hd_gi h) (hd_ch h) (hd_file h).
Proof.
  intros Hp <- Hy. unfold addr4. destruct (To4_length yi) as [E|E].
  - cbn [SetYIAddr wire]. rewrite E, put_nothing. split; [done | ]. rewrite <- Hy. done.
  - destruct (wire_set_yi p yi Hp E) as (G & H & _). split; [exact G | ]. rewrite H.
    by destruct (To4 yi).
Qed.

Lemma wire_reply p mt sid yi lease opts : packet_ok p ->
  header_of (ReplyPacket p mt sid yi lease opts) =
    mkHeader BootReply (XId p) zero2 (Flags p) zero4 (addr4 yi) zero4 (GIAddr p) (CHAddr p) [].
Proof.
  intros Hp. destruct (wire_new BootReply) as (G0 & _ & H0).
  destruct (wire_set_xid (NewPacket BootReply) (XId p) G0 (field_ok p 4 4 Hp ltac:(lia))) as (G1 & H1 & _).
  destruct (wire_set_flags _ (Flags p) G1 (field_ok p 10 2 Hp ltac:(lia))) as (G2 & H2 & _).
  rewrite H1, H0 in H2. cbn [hd_op hd_xid hd_secs hd_flags hd_ci hd_yi hd_si hd_gi hd_ch hd_file] in H2.
  destruct (wire_set_yi_any _ _ yi G2 H2 eq_refl) as (G3 & H3).
  cbn [hd_op hd_xid hd_secs hd_flags hd_ci hd_yi hd_si hd_gi hd_ch hd_file] in H3.
  assert (Hg : To4 (GIAddr p) = GIAddr p) by (apply To4_v4; exact (field_ok p 24 4 Hp ltac:(lia))).
  assert (Hg4 : length (To4 (GIAddr p)) = 4%nat) by (rewrite Hg; exact (field_ok p 24 4 Hp ltac:(lia))).
  destruct (wire_set_gi _ (GIAddr p) G3 Hg4) as (G4 & H4 & _).
  assert (Hc : (length (CHAddr p) <= 16)%nat) by exact (ch_ok p Hp).
  destruct (wire_set_ch _ (CHAddr p) G4 Hc) as (G5 & H5 & _).
  rewrite H4, H3, Hg in H5. cbn [hd_op hd_xid hd_secs hd_flags hd_ci hd_yi hd_si hd_gi hd_file] in H5.
  rewrite <- H5. apply grown_length in G5. clear - G5 Hg. revert G5.
  cbn [ReplyPacket SetCHAddr SetGIAddr SetYIAddr SetFlags SetXId NewPacket XId Flags CHAddr GIAddr wire] in Hg |- *.
  rewrite Hg.
  set (q := set_ch_addr _ _). intros G5. clearbody q.
  destruct (add_option_header q OptionDHCPMessageType [mt] G5) as [E1 L1].
  destruct (add_option_header _ OptionServerIdentifier sid L1) as [E2 L2].
  destruct (add_option_header _ 51 (be32 (lease / 1000000000)) L2) as [E3 L3].
  rewrite add_options_header by (by destruct (0 <? lease)). destruct (0 <? lease); congruence.
Qed.

#[export] Instance wire_packet_laws : PacketLaws.
Proof.
  split.
  - intros p Hp. apply (field_ok p 8 2 Hp). lia.
  - intros p Hp. apply (field_ok p 10 2 Hp). lia.
  - intros p Hp. apply (field_ok p 16 4 Hp). lia.
  - intros p Hp. apply (field_ok p 20 4 Hp). lia.
  - apply ch_ok.
  - intros p Hp. destruct (trim_null_text (field 108 128 p)) as [H1 H2]. split; [ | done].
    rewrite field_ok in H1 by (done || lia). exact H1.
  - intros p k v [_ Hb]. apply parse_options_ok; [by apply Forall_drop | ].
    intros k' v'. by rewrite lookup_empty.
  - apply wire_new.
  - apply wire_set_xid.
  - set_one.
  - apply wire_set_flags.
  - apply wire_clear.
  - set_one.
  - apply wire_set_yi.
  - set_one.
  - apply wire_set_gi.
  - apply wire_set_ch.
  - apply wire_set_file.
  - apply wire_add_option.
  - apply wire_reply.
Qed.

End WireFields.
