(* ===== verification/Database.v ===== *)
(** * Option overrides: src/database.go

    Overrides of DHCP options per network or MAC address, stored in SQLite and
    memoized in [overrideCache].  The SQL engine is third party: [SqlDB] has the
    four statements of the source and [SqlDBLaws] what they mean.  The text of
    the [options] column is produced and read by [JSONCodec]. *)

From S2P Require Import Prelude GoStd GoNet Dhcp4.
From Stdlib Require Import Ascii.

(** ** Data *)

Record DHCPOption := mkDHCPOption {
  OptionCode : Z;
  OptionValue : string;
  OptionType : string
}.

Record OptionOverride := mkOverride {
  ID : Z;
  Type_ : string;
  Target : string;
  ov_Options : list DHCPOption;
  CreatedAt : Z;
  UpdatedAt : Z
}.

(** A row of the table [dhcp_option_overrides]. *)
Record row := mkRow {
  row_id : Z; row_type : string; row_target : string; row_options : string;
  row_created_at : Z; row_updated_at : Z
}.

(** ** The SQL engine *)

Inductive query_row :=
| QRow (r : row)
| QNoRows
| QErr (e : string).

(** [db.Exec] of the DELETE: its error, or the outcome of [RowsAffected]. *)
Inductive delete_result :=
| ExecErr (e : string)
| ExecOk (rows : Z + string).

Class SqlDB := {
  sqldb : Type;
  (** INSERT .. ON CONFLICT(type, target) DO UPDATE, at the given time *)
  sql_upsert : Z -> sqldb -> string -> string -> string -> sqldb * error;
  (** SELECT .. WHERE type = ? AND target = ? *)
  sql_select : sqldb -> string -> string -> query_row;
  (** DELETE .. WHERE type = ? AND target = ? *)
  sql_delete : sqldb -> string -> string -> sqldb * delete_result;
  (** SELECT .. ORDER BY ..; an empty type selects every row *)
  sql_list : sqldb -> string -> list row + string
}.

Class SqlDBLaws `{!SqlDB} : Prop := {
  upsert_select : forall now d ty tg js d',
    sql_upsert now d ty tg js = (d', None) ->
    exists r, sql_select d' ty tg = QRow r /\
      row_type r = ty /\ row_target r = tg /\ row_options r = js;
  upsert_other : forall now d ty tg js ty' tg',
    (ty, tg) <> (ty', tg') ->
    sql_select (sql_upsert now d ty tg js).1 ty' tg' = sql_select d ty' tg';
  upsert_failed : forall now d ty tg js d' e,
    sql_upsert now d ty tg js = (d', Some e) -> d' = d;
  (** CHECK(type IN ('network', 'mac')) *)
  upsert_check : forall now d ty tg js,
    ty <> "network"%string -> ty <> "mac"%string -> (sql_upsert now d ty tg js).2 <> None;
  delete_select : forall d ty tg d' rows,
    sql_delete d ty tg = (d', ExecOk rows) -> sql_select d' ty tg = QNoRows;
  delete_rows : forall d ty tg d' rows,
    sql_delete d ty tg = (d', ExecOk rows) ->
    exists n, rows = inl n /\ (n = 0 <-> sql_select d ty tg = QNoRows);
  delete_other : forall d ty tg ty' tg',
    (ty, tg) <> (ty', tg') ->
    sql_select (sql_delete d ty tg).1 ty' tg' = sql_select d ty' tg';
  delete_failed : forall d ty tg d' e, sql_delete d ty tg = (d', ExecErr e) -> d' = d;
  list_rows : forall d ty l r,
    sql_list d ty = inl l ->
    (r ∈ l <-> sql_select d (row_type r) (row_target r) = QRow r /\
               (ty = ""%string \/ row_type r = ty))
}.

(** ** JSON text of an option list *)

(** [inr] is the error text. *)
Class JSONCodec := {
  Marshal : list DHCPOption -> string + string;
  Unmarshal : string -> list DHCPOption + string
}.

(** [encoding/json] replaces invalid UTF-8; ASCII text survives. *)
Definition ascii_text (s : string) : bool := all_chars (fun c => code c <? 128) s.
Definition ascii_option (o : DHCPOption) : Prop :=
  ascii_text (OptionValue o) = true /\ ascii_text (OptionType o) = true.

Class JSONLaws `{!JSONCodec} : Prop :=
  json_roundtrip : forall l, Forall ascii_option l ->
    exists s, Marshal l = inl s /\ Unmarshal s = inl l.

(** ** Conversion of one option *)

(** The errors of [ConvertOptionToDHCP], with the text they quote. *)
Inductive conv_error :=
| InvalidIP (s : string)
| NotIPv4 (s : string)
| InvalidUint (bits : Z) (s : string)
| InvalidHex (s : string)
| UnsupportedType (s : string).

(** The loop of the case ["ips"]. *)
Fixpoint convert_ips (ipList : list string) (result : bytes) : bytes + conv_error :=
  match ipList with
  | [] => inl result
  | ipStr :: rest =>
      match ParseIP (TrimSpace ipStr) with
      | [] => inr (InvalidIP ipStr)
      | ip => match To4 ip with
              | [] => inr (NotIPv4 ipStr)
              | ip4 => convert_ips rest (result ++ ip4)
              end
      end
  end.

Definition ConvertOptionToDHCP (option : DHCPOption) : (Z * bytes) + conv_error :=
  let code := u8 (OptionCode option) in
  let value := OptionValue option in
  if String.eqb (OptionType option) "ip" then
    match ParseIP value with
    | [] => inr (InvalidIP value)
    | ip => match To4 ip with
            | [] => inr (NotIPv4 value)
            | ip4 => inl (code, ip4)
            end
    end
  else if String.eqb (OptionType option) "ips" then
    match convert_ips (Split value ",") [] with
    | inl result => inl (code, result)
    | inr e => inr e
    end
  else if String.eqb (OptionType option) "string" then inl (code, bytes_of_string value)
  else if String.eqb (OptionType option) "uint32" then
    match ParseUint value 32 with
    | None => inr (InvalidUint 32 value)
    | Some val => inl (code, be32 (u32 val))
    end
  else if String.eqb (OptionType option) "uint16" then
    match ParseUint value 16 with
    | None => inr (InvalidUint 16 value)
    | Some val => inl (code, be16 (u16 val))
    end
  else if String.eqb (OptionType option) "uint8" then
    match ParseUint value 8 with
    | None => inr (InvalidUint 8 value)
    | Some val => inl (code, [u8 val])
    end
  else if String.eqb (OptionType option) "hex" then
    match DecodeString (hex_clean value) with
    | None => inr (InvalidHex value)
    | Some decoded => inl (code, decoded)
    end
  else inr (UnsupportedType (OptionType option)).

(** ** The override store *)

Section Store.

Context {SQL : SqlDB} {JSON : JSONCodec}.

(** The package variables [db] and [overrideCache]; a cached [None] is the
    negative entry. *)
Record store := mkStore {
  db : sqldb;
  overrideCache : gmap string (option OptionOverride)
}.

Definition NUL : ascii := "000"%char.

Definition overrideCacheKey (overrideType target : string) : string :=
  overrideType +s+ String NUL target.

Definition invalidateOverrideCache (st : store) (overrideType target : string) : store :=
  mkStore (db st) (delete (overrideCacheKey overrideType target) (overrideCache st)).

Definition GetOptionOverride (st : store) (overrideType target : string)
    : option OptionOverride * error :=
  match sql_select (db st) overrideType target with
  | QNoRows => (None, None)
  | QErr e => (None, Some ("failed to get option override: " +s+ e))
  | QRow r =>
      match Unmarshal (row_options r) with
      | inr e => (None, Some ("failed to unmarshal options: " +s+ e))
      | inl opts =>
          (Some (mkOverride (row_id r) (row_type r) (row_target r) opts
                   (row_created_at r) (row_updated_at r)), None)
      end
  end.

(** The last critical section of [cachedGetOptionOverride]. *)
Definition cache_store (st : store) (overrideType target : string)
    (override : option OptionOverride) : store :=
  mkStore (db st) (<[overrideCacheKey overrideType target := override]> (overrideCache st)).

Definition cachedGetOptionOverride (st : store) (overrideType target : string)
    : store * (option OptionOverride * error) :=
  match overrideCache st !! overrideCacheKey overrideType target with
  | Some cached => (st, (cached, None))
  | None =>
      match GetOptionOverride st overrideType target with
      | (_, Some e) => (st, (None, Some e))
      | (override, None) => (cache_store st overrideType target override, (override, None))
      end
  end.

(** [opened] is what [sql.Open] gives, [schema] the execution of the CREATE
    statements. *)
Definition InitDatabase (opened : sqldb + string) (schema : sqldb -> sqldb * error) (st : store)
    : store * error :=
  match opened with
  | inr e => (st, Some ("failed to open database: " +s+ e))
  | inl d =>
      match schema d with
      | (d', Some e) => (mkStore d' (overrideCache st), Some ("failed to create schema: " +s+ e))
      | (d', None) => (mkStore d' ∅, None)
      end
  end.

Definition SaveOptionOverride (now : Z) (st : store) (overrideType target : string)
    (options : list DHCPOption) : store * error :=
  match Marshal options with
  | inr e => (st, Some ("failed to marshal options: " +s+ e))
  | inl optionsJSON =>
      match sql_upsert now (db st) overrideType target optionsJSON with
      | (d, Some e) => (mkStore d (overrideCache st), Some ("failed to save option override: " +s+ e))
      | (d, None) =>
          (invalidateOverrideCache (mkStore d (overrideCache st)) overrideType target, None)
      end
  end.

Definition ErrNoRows : string := "sql: no rows in result set".

Definition DeleteOptionOverride (st : store) (overrideType target : string) : store * error :=
  match sql_delete (db st) overrideType target with
  | (d, ExecErr e) => (mkStore d (overrideCache st), Some ("failed to delete option override: " +s+ e))
  | (d, ExecOk (inr e)) => (mkStore d (overrideCache st), Some ("failed to get rows affected: " +s+ e))
  | (d, ExecOk (inl rowsAffected)) =>
      if rowsAffected =? 0 then (mkStore d (overrideCache st), Some ErrNoRows)
      else (invalidateOverrideCache (mkStore d (overrideCache st)) overrideType target, None)
  end.

(** [for rows.Next()] *)
Fixpoint scan_rows (rows : list row) (overrides : list OptionOverride)
    : list OptionOverride * error :=
  match rows with
  | [] => (overrides, None)
  | r :: rest =>
      match Unmarshal (row_options r) with
      | inr e => ([], Some ("failed to unmarshal options: " +s+ e))
      | inl opts =>
          scan_rows rest (overrides ++
            [mkOverride (row_id r) (row_type r) (row_target r) opts
               (row_created_at r) (row_updated_at r)])
      end
  end.

Definition ListOptionOverrides (st : store) (overrideType : string)
    : list OptionOverride * error :=
  match sql_list (db st) overrideType with
  | inr e => ([], Some ("failed to list option overrides: " +s+ e))
  | inl rows => scan_rows rows []
  end.

(** The loop over the options of one override. *)
Fixpoint apply_options (result : Options) (opts : list DHCPOption) : Options :=
  match opts with
  | [] => result
  | opt :: rest =>
      match ConvertOptionToDHCP opt with
      | inr _ => apply_options result rest
      | inl (code, value) => apply_options (<[code := value]> result) rest
      end
  end.

(** One level of [ApplyOptionOverrides]. *)
Definition apply_level (st : store) (overrideType target : string) (result : Options)
    : store * Options :=
  if String.eqb target "" then (st, result)
  else
    let '(st, (override, err)) := cachedGetOptionOverride st overrideType target in
    match err, override with
    | None, Some o => (st, apply_options result (ov_Options o))
    | _, _ => (st, result)
    end.

Definition ApplyOptionOverrides (st : store) (options : Options) (networkIP mac : string)
    : store * Options :=
  let result := options in
  let '(st, result) := apply_level st "network" networkIP result in
  apply_level st "mac" mac result.

End Store.

(** ** Lemmas on keys *)

Lemma sapp_sep_inj c a a' b b' :
  has_char c a = false -> has_char c a' = false ->
  a +s+ String c b = a' +s+ String c b' -> a = a' /\ b = b'.
Proof.
  revert a'. induction a as [|x a IH]; intros [|x' a'] Ha Ha' E; simpl in *; zbool; simplify_eq.
  - done.
  - by rewrite bool_decide_eq_true_2 in *.
  - by rewrite bool_decide_eq_true_2 in *.
  - destruct (IH a') as [-> ->]; done.
Qed.

(** The two override types the server uses. *)
Definition override_type (ty : string) : Prop := ty = "network"%string \/ ty = "mac"%string.

Lemma override_type_no_nul ty : override_type ty -> has_char NUL ty = false.
Proof. by intros [-> | ->]. Qed.

Lemma overrideCacheKey_inj ty ty' tg tg' :
  override_type ty -> override_type ty' ->
  overrideCacheKey ty tg = overrideCacheKey ty' tg' -> (ty, tg) = (ty', tg').
Proof.
  intros H H' E. apply sapp_sep_inj in E as [-> ->]; [done | by apply override_type_no_nul..].
Qed.

(** ** The memo cache agrees with the database *)

Section Coherence.

Context {SQL : SqlDB} {SQLL : SqlDBLaws} {JSON : JSONCodec}.

Definition cache_coherent (st : store) : Prop :=
  forall ty tg o, override_type ty ->
    overrideCache st !! overrideCacheKey ty tg = Some o -> GetOptionOverride st ty tg = (o, None).

Inductive store_op :=
| OpCachedGet (ty tg : string)
| OpSave (now : Z) (ty tg : string) (opts : list DHCPOption)
| OpDelete (ty tg : string).

Definition op_type (op : store_op) : string :=
  match op with OpCachedGet ty _ | OpSave _ ty _ _ | OpDelete ty _ => ty end.

Definition store_call (st : store) (op : store_op) : store :=
  match op with
  | OpCachedGet ty tg => (cachedGetOptionOverride st ty tg).1
  | OpSave now ty tg opts => (SaveOptionOverride now st ty tg opts).1
  | OpDelete ty tg => (DeleteOptionOverride st ty tg).1
  end.

(** A write to one target leaves the other targets' overrides alone. *)
Lemma GetOptionOverride_ext st d cache ty tg :
  sql_select d ty tg = sql_select (db st) ty tg ->
  GetOptionOverride (mkStore d cache) ty tg = GetOptionOverride st ty tg.
Proof. unfold GetOptionOverride. simpl. by intros ->. Qed.

(** Dropping the entry of a target written to keeps the cache coherent. *)
Lemma invalidate_coherent st d ty tg :
  override_type ty -> cache_coherent st ->
  (forall ty' tg', (ty, tg) <> (ty', tg') -> sql_select d ty' tg' = sql_select (db st) ty' tg') ->
  cache_coherent (invalidateOverrideCache (mkStore d (overrideCache st)) ty tg).
Proof.
  intros Hty Hc Hd ty' tg' o Hty' Hl. simpl in Hl. apply lookup_delete_Some in Hl as [Hne Hl].
  unfold invalidateOverrideCache. simpl. rewrite GetOptionOverride_ext with (st := st).
  - by apply Hc.
  - apply Hd. intros E. apply Hne. congruence.
Qed.

Lemma unchanged_coherent st d :
  cache_coherent st -> (forall ty tg, sql_select d ty tg = sql_select (db st) ty tg) ->
  cache_coherent (mkStore d (overrideCache st)).
Proof.
  intros Hc Hd ty tg o Hty Hl. rewrite GetOptionOverride_ext with (st := st); [by apply Hc | done].
Qed.

Lemma cachedGet_coherent st ty tg :
  override_type ty -> cache_coherent st -> cache_coherent (cachedGetOptionOverride st ty tg).1.
Proof.
  intros Hty Hc. unfold cachedGetOptionOverride. case_match; [done | ].
  destruct (GetOptionOverride st ty tg) as [o [e|]] eqn:E; [done | ].
  intros ty' tg' o' Hty' Hl. simpl in Hl. unfold cache_store. simpl.
  rewrite GetOptionOverride_ext with (st := st) by done.
  rewrite lookup_insert in Hl. case_decide as Hk; [ | by apply Hc].
  apply overrideCacheKey_inj in Hk; [ | done..]. simplify_eq. done.
Qed.

Lemma Save_coherent now st ty tg opts :
  override_type ty -> cache_coherent st -> cache_coherent (SaveOptionOverride now st ty tg opts).1.
Proof.
  intros Hty Hc. unfold SaveOptionOverride. case_match; [ | done].
  destruct (sql_upsert now (db st) ty tg s) as [d [e|]] eqn:E; simpl.
  - apply unchanged_coherent; [done | ]. apply upsert_failed in E. by subst.
  - apply invalidate_coherent; [done.. | ]. intros ty' tg' Hne.
    pose proof (upsert_other now (db st) ty tg s ty' tg' Hne) as Ho. by rewrite E in Ho.
Qed.

Lemma delete_unaffected st ty tg d :
  sql_delete (db st) ty tg = (d, ExecOk (inl 0)) ->
  forall ty' tg', sql_select d ty' tg' = sql_select (db st) ty' tg'.
Proof.
  intros E ty' tg'. destruct (decide ((ty, tg) = (ty', tg'))) as [[= <- <-]|Hne].
  - rewrite (delete_select _ _ _ _ _ E). destruct (delete_rows _ _ _ _ _ E) as (n & Hn & Hz).
    symmetry. apply Hz. congruence.
  - pose proof (delete_other (db st) ty tg ty' tg' Hne) as Ho. by rewrite E in Ho.
Qed.

Lemma Delete_coherent st ty tg :
  override_type ty -> cache_coherent st -> cache_coherent (DeleteOptionOverride st ty tg).1.
Proof.
  intros Hty Hc. unfold DeleteOptionOverride.
  destruct (sql_delete (db st) ty tg) as [d [e|[n|e]]] eqn:E; simpl.
  - apply unchanged_coherent; [done | ]. apply delete_failed in E. by subst.
  - destruct (n =? 0) eqn:En; zbool; simpl.
    + subst. apply unchanged_coherent; [done | ]. by apply (delete_unaffected st ty tg).
    + apply invalidate_coherent; [done.. | ]. intros ty' tg' Hne.
      pose proof (delete_other (db st) ty tg ty' tg' Hne) as Ho. by rewrite E in Ho.
  - destruct (delete_rows _ _ _ _ _ E) as (n & ? & _). done.
Qed.

Lemma store_call_coherent st op :
  override_type (op_type op) -> cache_coherent st -> cache_coherent (store_call st op).
Proof.
  destruct op; simpl; [apply cachedGet_coherent | apply Save_coherent | apply Delete_coherent].
Qed.

Lemma cached_agrees st ty tg :
  override_type ty -> cache_coherent st ->
  (cachedGetOptionOverride st ty tg).2 = GetOptionOverride st ty tg \/
  exists e, GetOptionOverride st ty tg = (None, Some e) /\
            (cachedGetOptionOverride st ty tg).2 = (None, Some e).
Proof.
  intros Hty Hc. unfold cachedGetOptionOverride.
  destruct (overrideCache st !! _) as [o|] eqn:El; simpl; [left; symmetry; by apply Hc | ].
  unfold GetOptionOverride. split_matches; eauto.
Qed.

(** C38: after [InitDatabase] and any sequence of reads, saves and deletes run
    one after the other, the memoized lookup used for every packet returns what
    the database holds. *)
Theorem override_cache_coherent d schema d' st0 ops ty tg :
  schema d = (d', None) -> Forall (fun op => override_type (op_type op)) ops -> override_type ty ->
  let st := foldl store_call (InitDatabase (inl d) schema st0).1 ops in
  (cachedGetOptionOverride st ty tg).2 = GetOptionOverride st ty tg.
Proof.
  intros Hs Hops Hty st.
  assert (Hc : cache_coherent st).
  { unfold st. unfold InitDatabase. rewrite Hs. simpl.
    assert (Hinit : cache_coherent (mkStore d' ∅)) by (intros ???? Hl; simpl in Hl; by rewrite lookup_empty in Hl).
    clear st. revert Hinit. generalize (mkStore d' ∅) as s.
    induction Hops as [|op ops Hop Hops IH]; intros s Hc; simpl; [done | ].
    by apply IH, store_call_coherent. }
  destruct (cached_agrees st ty tg Hty Hc) as [H|(e & H1 & H2)]; congruence.
Qed.

Context {JSONL : JSONLaws}.

Lemma Save_ok_shape now st ty tg opts st' :
  Forall ascii_option opts -> SaveOptionOverride now st ty tg opts = (st', None) ->
  exists o, GetOptionOverride st' ty tg = (Some o, None) /\
    Type_ o = ty /\ Target o = tg /\ ov_Options o = opts /\
    overrideCache st' = delete (overrideCacheKey ty tg) (overrideCache st).
Proof.
  intros Ha. unfold SaveOptionOverride. destruct (json_roundtrip opts Ha) as (s & -> & Hu).
  destruct (sql_upsert now (db st) ty tg s) as [d [e|]] eqn:E; [done | ]. intros [= <-].
  destruct (upsert_select _ _ _ _ _ _ E) as (r & Hr & Ht & Hg & Ho).
  unfold GetOptionOverride. simpl. rewrite Hr, Ho, Hu. eexists. split; [done | ]. simpl. done.
Qed.

(** A saved override is what the next lookup of the same target returns,
    cached or not, with its options, and lookups of other targets still return
    what they did. *)
Theorem save_then_get now st ty tg opts st' :
  override_type ty -> Forall ascii_option opts ->
  SaveOptionOverride now st ty tg opts = (st', None) ->
  (exists o, GetOptionOverride st' ty tg = (Some o, None) /\
    (cachedGetOptionOverride st' ty tg).2 = (Some o, None) /\
    Type_ o = ty /\ Target o = tg /\ ov_Options o = opts) /\
  (forall ty' tg', (ty, tg) <> (ty', tg') ->
     GetOptionOverride st' ty' tg' = GetOptionOverride st ty' tg').
Proof.
  intros Hty Ha Hs. split.
  - destruct (Save_ok_shape now st ty tg opts st' Ha Hs) as (o & Hg & H1 & H2 & H3 & H4).
    exists o. split; [done | ]. split; [ | done].
    unfold cachedGetOptionOverride. by rewrite H4, lookup_delete_eq, Hg.
  - intros ty' tg' Hne. unfold SaveOptionOverride in Hs.
    destruct (Marshal opts) as [s|]; [ | done].
    pose proof (upsert_other now (db st) ty tg s ty' tg' Hne) as Ho.
    destruct (sql_upsert now (db st) ty tg s) as [d [e|]] eqn:E; [done | ]. simplify_eq.
    unfold invalidateOverrideCache. simpl. by apply GetOptionOverride_ext.
Qed.

(** Deleting succeeds exactly when the target has a stored override; then
    the next lookups, cached or not, find none.  Otherwise [sql.ErrNoRows] is
    returned and nothing changes. *)
Theorem delete_override_spec st ty tg st' r :
  override_type ty -> cache_coherent st ->
  DeleteOptionOverride st ty tg = (st', r) -> (r = None \/ r = Some ErrNoRows) ->
  (r = None <-> sql_select (db st) ty tg <> QNoRows) /\
  GetOptionOverride st' ty tg = (None, None) /\
  (cachedGetOptionOverride st' ty tg).2 = (None, None).
Proof.
  intros Hty Hc Hd Hr.
  assert (Hc' : cache_coherent st').
  { pose proof (Delete_coherent st ty tg Hty Hc) as H. by rewrite Hd in H. }
  assert (Hg : GetOptionOverride st' ty tg = (None, None) /\ (r = None <-> sql_select (db st) ty tg <> QNoRows)).
  { unfold DeleteOptionOverride in Hd.
    destruct (sql_delete (db st) ty tg) as [d [e|[n|e]]] eqn:E.
    - simplify_eq. by destruct Hr.
    - pose proof (delete_select _ _ _ _ _ E) as Hsel.
      destruct (delete_rows _ _ _ _ _ E) as (n' & [= <-] & Hn).
      destruct (n =? 0) eqn:En; zbool; simplify_eq; unfold GetOptionOverride; simpl; rewrite Hsel;
        (split; [done | ]); naive_solver.
    - destruct (delete_rows _ _ _ _ _ E) as (n' & ? & _). done. }
  destruct Hg as [Hg Hiff]. do 2 (split; [done | ]).
  destruct (cached_agrees st' ty tg Hty Hc') as [H|(e & H1 & H2)]; congruence.
Qed.

(** *** Interleaving a reader with writers

    [cachedGetOptionOverride] releases its locks between looking the cache up,
    reading the database and storing the result; a writer may run in between. *)

Inductive reader :=
| RStart
| RMissed
| RFetched (o : option OptionOverride)
| RDone (r : option OptionOverride * error).

Inductive reader_step (ty tg : string) : store * reader -> store * reader -> Prop :=
| reader_hit st o :
    overrideCache st !! overrideCacheKey ty tg = Some o ->
    reader_step ty tg (st, RStart) (st, RDone (o, None))
| reader_miss st :
    overrideCache st !! overrideCacheKey ty tg = None ->
    reader_step ty tg (st, RStart) (st, RMissed)
| reader_error st o e :
    GetOptionOverride st ty tg = (o, Some e) ->
    reader_step ty tg (st, RMissed) (st, RDone (None, Some e))
| reader_fetch st o :
    GetOptionOverride st ty tg = (o, None) ->
    reader_step ty tg (st, RMissed) (st, RFetched o)
| reader_store st o :
    reader_step ty tg (st, RFetched o) (cache_store st ty tg o, RDone (o, None))
| other_save st st' rd now ty' tg' opts e :
    SaveOptionOverride now st ty' tg' opts = (st', e) ->
    reader_step ty tg (st, rd) (st', rd).

(** Without a writer the three sections are the function. *)
Lemma reader_alone st ty tg :
  rtc (reader_step ty tg) (st, RStart)
    ((cachedGetOptionOverride st ty tg).1, RDone (cachedGetOptionOverride st ty tg).2).
Proof.
  unfold cachedGetOptionOverride.
  destruct (overrideCache st !! _) as [o|] eqn:E; [by apply rtc_once, reader_hit | ].
  eapply rtc_l; [by apply reader_miss | ].
  destruct (GetOptionOverride st ty tg) as [o [e|]] eqn:G; simpl.
  - by eapply rtc_once, reader_error.
  - eapply rtc_l; [by apply reader_fetch | ]. apply rtc_once, reader_store.
Qed.

(** The memo cache is not coherent under concurrency.  When a save
    completes after a reader has read the database and before it stores its
    result, the reader stores the old override: from then on the memoized
    lookup answers the old one although the database has the new options. *)
Theorem override_cache_race now st ty tg old opts st1 :
  Forall ascii_option opts ->
  overrideCache st !! overrideCacheKey ty tg = None ->
  GetOptionOverride st ty tg = (old, None) ->
  SaveOptionOverride now st ty tg opts = (st1, None) ->
  exists st2,
    rtc (reader_step ty tg) (st, RStart) (st2, RDone (old, None)) /\
    (cachedGetOptionOverride st2 ty tg).2 = (old, None) /\
    exists new, GetOptionOverride st2 ty tg = (Some new, None) /\ ov_Options new = opts.
Proof.
  intros Ha Hmiss Hold Hs. exists (cache_store st1 ty tg old). split; [ | split].
  - eapply rtc_l; [by apply reader_miss | ]. eapply rtc_l; [by apply reader_fetch | ].
    eapply rtc_l; [by eapply other_save | ]. apply rtc_once, reader_store.
  - unfold cachedGetOptionOverride. simpl. by rewrite lookup_insert_eq.
  - destruct (Save_ok_shape now st ty tg opts st1 Ha Hs) as (o & Hg & _ & _ & Ho & _).
    exists o. split; [ | done]. rewrite <- Hg. by apply GetOptionOverride_ext.
Qed.

End Coherence.

(** ** Conversion *)

(** An unsigned override is encoded big-endian in exactly the width of its
    type, and refused when it does not fit. *)
Theorem convert_uint_exact c n :
  0 <= n ->
  let opt ty := mkDHCPOption c (Utoa n) ty in
  ConvertOptionToDHCP (opt "uint32"%string) =
    (if n <? 2 ^ 32 then inl (u8 c, be32 n) else inr (InvalidUint 32 (Utoa n))) /\
  ConvertOptionToDHCP (opt "uint16"%string) =
    (if n <? 2 ^ 16 then inl (u8 c, be16 n) else inr (InvalidUint 16 (Utoa n))) /\
  ConvertOptionToDHCP (opt "uint8"%string) =
    (if n <? 2 ^ 8 then inl (u8 c, [n]) else inr (InvalidUint 8 (Utoa n))).
Proof.
  intros Hn opt.
  assert (HP : forall bits, ParseUint (Utoa n) bits = if n <? 2 ^ bits then Some n else None).
  { intros bits. destruct (n <? 2 ^ bits) eqn:E; zbool; [by apply ParseUint_Utoa | ].
    pose proof (ParseUint_Utoa n (n + 1)) as Hp. unfold ParseUint in *.
    destruct (Utoa n) eqn:Eu; [by apply Utoa_not_empty in Eu | ].
    assert (Hlt : n < 2 ^ (n + 1)).
    { pose proof (Z.pow_gt_lin_r 2 (n + 1)). lia. }
    specialize (Hp ltac:(lia)). destruct (parse_digits _ 0) as [v|]; [ | done].
    destruct (v <? 2 ^ (n + 1)); simplify_eq.
    by rewrite (proj2 (Z.ltb_ge _ _)). }
  unfold ConvertOptionToDHCP, opt.
  cbn -[Z.ltb Z.pow be32 be16 u8 u16 u32 ParseUint Utoa]. rewrite !HP.
  repeat split.
  - destruct (n <? 2 ^ 32) eqn:E; zbool; [ | done]. by rewrite u32_small.
  - destruct (n <? 2 ^ 16) eqn:E; zbool; [ | done]. by rewrite u16_small by lia.
  - destruct (n <? 2 ^ 8) eqn:E; zbool; [ | done]. unfold u8 at 2. by rewrite Z.mod_small by lia.
Qed.

Lemma hex_clean_digit d s :
  0 <= d < 16 -> (forall r, s <> String "x" r) -> (forall r, s <> String "X" r) ->
  hex_clean (String (hex_digit d) s) = String (hex_digit d) (hex_clean s).
Proof.
  intros Hd Hx HX.
  assert (H0 : hex_clean (String "0" s) = String "0" (hex_clean s)).
  { destruct s as [|c s]; [done | ]. specialize (Hx s). specialize (HX s).
    destruct c as [[] [] [] [] [] [] [] []]; simpl; congruence. }
  assert (D : d = 0 \/ d = 1 \/ d = 2 \/ d = 3 \/ d = 4 \/ d = 5 \/ d = 6 \/ d = 7 \/ d = 8 \/
              d = 9 \/ d = 10 \/ d = 11 \/ d = 12 \/ d = 13 \/ d = 14 \/ d = 15) by lia.
  repeat destruct D as [-> | D]; subst; first [exact H0 | reflexivity].
Qed.

Lemma hex_digit_not_x d : 0 <= d < 16 -> hex_digit d <> "x"%char /\ hex_digit d <> "X"%char.
Proof.
  intros Hd.
  apply (Forall_lt_256 (fun d => d < 16 -> hex_digit d <> "x"%char /\ hex_digit d <> "X"%char));
    [ | unfold is_byte; lia | lia].
  let l := eval vm_compute in (seqZ 0 256) in change (seqZ 0 256) with l.
  repeat (apply Forall_cons; split; [intros; first [lia | done] | ]). by apply Forall_nil.
Qed.

(** Text that does not start with an x, as all hexadecimal text. *)
Definition no_x (s : string) : Prop := (forall r, s <> String "x" r) /\ (forall r, s <> String "X" r).

Lemma hex_clean_byte z s :
  is_byte z -> no_x s -> hex_clean (hex_byte z +s+ s) = hex_byte z +s+ hex_clean s.
Proof.
  intros Hz [Hx HX]. unfold hex_byte, is_byte in *. cbn [sapp].
  destruct (hex_digit_not_x (z mod 16)) as [N1 N2]; [apply Z.mod_pos_bound; lia | ].
  rewrite hex_clean_digit; [ | zdiv | congruence..].
  by rewrite hex_clean_digit by (zdiv || done).
Qed.

Lemma no_x_hex b s : is_bytes b -> no_x s -> no_x (EncodeToString b +s+ s).
Proof.
  intros Hb Hs. destruct Hb as [|z b Hz Hb]; [done | ]. simpl. unfold is_byte in Hz.
  destruct (hex_digit_not_x (z / 16)) as [N1 N2]; [zdiv | ]. split; congruence.
Qed.

Lemma hex_clean_encode b s :
  is_bytes b -> no_x s ->
  hex_clean (EncodeToString b +s+ s) = EncodeToString b +s+ hex_clean s.
Proof.
  induction 1 as [|z b Hz Hb IH]; intros Hs; [done | ].
  change (EncodeToString (z :: b)) with (hex_byte z +s+ EncodeToString b).
  rewrite <- !sapp_assoc. rewrite hex_clean_byte by (done || by apply no_x_hex).
  by rewrite IH.
Qed.

Lemma no_x_empty : no_x EmptyString.
Proof. by split. Qed.

Lemma hex_clean_colons a : is_bytes a -> hex_clean (HardwareAddr_String a) = EncodeToString a.
Proof.
  unfold HardwareAddr_String. induction 1 as [|z a Hz Ha IH]; [done | ].
  destruct a as [|y a].
  - change (Join (map hex_byte [z]) ":") with (hex_byte z).
    rewrite <- (sapp_nil_r (hex_byte z)). by rewrite hex_clean_byte by (done || apply no_x_empty).
  - change (Join (map hex_byte (z :: y :: a)) ":") with
      (hex_byte z +s+ String ":" (Join (map hex_byte (y :: a)) ":")).
    rewrite hex_clean_byte; [ | done | by split].
    change (hex_clean (String ":" ?x)) with (hex_clean x). by rewrite IH.
Qed.

(** The three notations of a hexadecimal override, ["deadbeef"],
    ["0xdeadbeef"] and ["de:ad:be:ef"], stand for the same bytes. *)
Theorem convert_hex_notations c b :
  is_bytes b ->
  let opt v := ConvertOptionToDHCP (mkDHCPOption c v "hex") in
  opt (EncodeToString b) = inl (u8 c, b) /\
  opt (String "0" (String "x" (EncodeToString b))) = inl (u8 c, b) /\
  opt (HardwareAddr_String b) = inl (u8 c, b).
Proof.
  intros Hb opt. unfold opt, ConvertOptionToDHCP. simpl.
  assert (E : hex_clean (EncodeToString b) = EncodeToString b).
  { rewrite <- (sapp_nil_r (EncodeToString b)) at 1.
    rewrite hex_clean_encode by (done || apply no_x_empty). apply sapp_nil_r. }
  rewrite E, hex_clean_colons, DecodeString_Encode by done. done.
Qed.

(** *** Lists of addresses *)

Definition addr_char (c : ascii) : bool := is_digit c || bool_decide (c = "."%char).

Lemma strip_any_addr z r ps :
  46 <= z <= 57 -> ps = spaces \/ ps = map (@rev Z) spaces -> strip_any ps (z :: r) = None.
Proof.
  intros Hz Hps.
  assert (D : z = 46 \/ z = 47 \/ z = 48 \/ z = 49 \/ z = 50 \/ z = 51 \/ z = 52 \/ z = 53 \/
              z = 54 \/ z = 55 \/ z = 56 \/ z = 57) by lia.
  destruct Hps as [-> | ->]; repeat destruct D as [-> | D]; subst; reflexivity.
Qed.

Lemma trim_left_addr ps fuel z r :
  46 <= z <= 57 -> ps = spaces \/ ps = map (@rev Z) spaces ->
  trim_left ps fuel (z :: r) = z :: r.
Proof. intros Hz Hps. destruct fuel; simpl; [done | ]. by rewrite strip_any_addr. Qed.

Lemma addr_bytes s : all_chars addr_char s = true -> Forall (fun z => 46 <= z <= 57) (bytes_of_string s).
Proof.
  induction s as [|c s IH]; simpl; intros H; [constructor | ]. zbool.
  constructor; [ | by apply IH].
  unfold addr_char, is_digit in H. apply orb_true_iff in H as [H|H]; zbool; [lia | ].
  apply bool_decide_eq_true in H as ->. vm_compute. split; discriminate.
Qed.

(** Trimming leaves text of digits and dots alone. *)
Lemma TrimSpace_addr s : all_chars addr_char s = true -> TrimSpace s = s.
Proof.
  intros H. apply addr_bytes in H. unfold TrimSpace.
  assert (Hl : forall ps fuel b, ps = spaces \/ ps = map (@rev Z) spaces ->
    Forall (fun z => 46 <= z <= 57) b -> trim_left ps fuel b = b).
  { intros ps fuel b Hps Hb. destruct Hb; [ | by apply trim_left_addr].
    destruct fuel; simpl; [done | ]. by destruct Hps as [-> | ->]. }
  rewrite (Hl spaces) by auto. rewrite (Hl (map (@rev Z) spaces)); [ | by right | ].
  - rewrite rev_involutive. apply string_of_bytes_of_string.
  - by apply Forall_rev.
Qed.

Lemma IP_String_addr ip : length ip = 4%nat -> all_chars addr_char (IP_String ip) = true.
Proof.
  intros Hl. destruct ip as [|x [|y [|z [|w [|]]]]]; try done.
  unfold IP_String. rewrite decide_True by auto. rewrite To4_v4 by done.
  assert (HU : forall n, all_chars addr_char (Utoa n) = true).
  { intros n. pose proof (Utoa_digits n) as H. revert H. generalize (Utoa n).
    induction s as [|c s IH]; simpl; [done | ]. intros H. zbool.
    unfold addr_char at 1. rewrite H. simpl. auto. }
  unfold v4_string. cbn [map Join sapp].
  repeat (rewrite all_chars_app || cbn [all_chars]). by rewrite !HU.
Qed.

Lemma convert_ips_v4 l result :
  Forall (fun ip => length ip = 4%nat /\ is_bytes ip) l ->
  convert_ips (map IP_String l) result = inl (result ++ mjoin l).
Proof.
  intros H. revert result. induction H as [|ip l [Hl Hb] H IH]; intros result; simpl.
  - by rewrite app_nil_r.
  - rewrite TrimSpace_addr by (by apply IP_String_addr). rewrite ParseIP_String by done.
    pose proof (To4_mapped ip Hl) as H4. destruct (v4InV6Prefix ++ ip) eqn:E; [done | ].
    rewrite H4. destruct ip as [|x ip]; [done | ]. rewrite IH. by rewrite <- app_assoc.
Qed.

(** A comma-separated list of IPv4 addresses is converted to the
    concatenation of their bytes, as DNS and router options need it. *)
Theorem convert_ips_roundtrip c l :
  l <> [] -> Forall (fun ip => length ip = 4%nat /\ is_bytes ip) l ->
  ConvertOptionToDHCP (mkDHCPOption c (Join (map IP_String l) ",") "ips") = inl (u8 c, mjoin l).
Proof.
  intros Hne Hl. unfold ConvertOptionToDHCP. simpl. rewrite Split_Join.
  - by rewrite convert_ips_v4.
  - by destruct l.
  - apply Forall_map. eapply Forall_impl; [exact Hl | ]. intros ip [Hip _].
    by apply IP_String_no_char.
Qed.

(** ** Precedence of overrides *)

(** The value the last convertible option of a list gives to code [k]. *)
Fixpoint overridden (opts : list DHCPOption) (k : Z) : option bytes :=
  match opts with
  | [] => None
  | opt :: rest =>
      match overridden rest k with
      | Some v => Some v
      | None => match ConvertOptionToDHCP opt with
                | inl (c, v) => if decide (c = k) then Some v else None
                | inr _ => None
                end
      end
  end.

Lemma apply_options_lookup opts result k :
  apply_options result opts !! k =
    match overridden opts k with Some v => Some v | None => result !! k end.
Proof.
  revert result. induction opts as [|opt opts IH]; intros result; simpl; [done | ].
  destruct (ConvertOptionToDHCP opt) as [[c v]|e]; rewrite IH; destruct (overridden opts k); try done.
  rewrite lookup_insert. by case_decide.
Qed.

Section Precedence.

Context {SQL : SqlDB} {SQLL : SqlDBLaws} {JSON : JSONCodec}.

Definition overridden_by (o : option OptionOverride) (k : Z) : option bytes :=
  match o with Some o => overridden (ov_Options o) k | None => None end.

Lemma cachedGet_db st ty tg : db (cachedGetOptionOverride st ty tg).1 = db st.
Proof. unfold cachedGetOptionOverride. by split_matches. Qed.

Lemma apply_level_lookup st ty tg o result k :
  override_type ty -> cache_coherent st -> tg <> ""%string ->
  GetOptionOverride st ty tg = (o, None) ->
  let '(st', result') := apply_level st ty tg result in
  cache_coherent st' /\ db st' = db st /\
  result' !! k = match overridden_by o k with Some v => Some v | None => result !! k end.
Proof.
  intros Hty Hc Htg Hg. unfold apply_level. apply String.eqb_neq in Htg. rewrite Htg.
  pose proof (cachedGet_coherent st ty tg Hty Hc) as Hc'.
  pose proof (cachedGet_db st ty tg) as Hdb.
  destruct (cached_agrees st ty tg Hty Hc) as [E|(e & E & _)]; [ | congruence].
  destruct (cachedGetOptionOverride st ty tg) as [st' [o' e']]. simpl in *.
  rewrite Hg in E. simplify_eq. destruct o as [o|]; simpl; [ | done].
  by rewrite apply_options_lookup.
Qed.

(** C39: in the options sent to a client, an override of its MAC address wins
    over one of its network, which wins over the configured option; within one
    override the last convertible entry of a code counts, and entries that do
    not convert are skipped. *)
Theorem override_precedence st options networkIP mac netov macov k :
  cache_coherent st -> networkIP <> ""%string -> mac <> ""%string ->
  GetOptionOverride st "network" networkIP = (netov, None) ->
  GetOptionOverride st "mac" mac = (macov, None) ->
  (ApplyOptionOverrides st options networkIP mac).2 !! k =
    match overridden_by macov k with
    | Some v => Some v
    | None => match overridden_by netov k with Some v => Some v | None => options !! k end
    end.
Proof.
  intros Hc Hn Hm Gn Gm. unfold ApplyOptionOverrides.
  pose proof (apply_level_lookup st "network" networkIP netov options k
                ltac:(by left) Hc Hn Gn) as H1.
  destruct (apply_level st "network" networkIP options) as [st1 r1].
  destruct H1 as (Hc1 & Hdb1 & Hr1).
  assert (Gm1 : GetOptionOverride st1 "mac" mac = (macov, None)).
  { rewrite <- Gm. destruct st1 as [d1 c1]. simpl in Hdb1. apply GetOptionOverride_ext. by rewrite Hdb1. }
  pose proof (apply_level_lookup st1 "mac" mac macov r1 k ltac:(by right) Hc1 Hm Gm1) as H2.
  destruct (apply_level st1 "mac" mac r1) as [st2 r2]. destruct H2 as (_ & _ & Hr2).
  simpl. by rewrite Hr2, Hr1.
Qed.

End Precedence.

(** ** A table and a codec for concrete executions *)

Module Mem.

(** The rows under their unique key, and the next identifier. *)
Record table := mkTab { rows : gmap (string * string) row; next_id : Z }.

Definition sel (d : table) (ty tg : string) : option row :=
  match rows d !! (ty, tg) with
  | Some r => if decide (row_type r = ty /\ row_target r = tg) then Some r else None
  | None => None
  end.

Definition upsert (now : Z) (d : table) (ty tg js : string) : table * error :=
  if decide (ty = "network"%string \/ ty = "mac"%string) then
    match rows d !! (ty, tg) with
    | Some r =>
        (mkTab (<[(ty, tg) := mkRow (row_id r) ty tg js (row_created_at r) now]> (rows d)) (next_id d), None)
    | None =>
        (mkTab (<[(ty, tg) := mkRow (next_id d) ty tg js now now]> (rows d)) (next_id d + 1), None)
    end
  else (d, Some ("CHECK constraint failed"%string)).

#[export] Instance mem_db : SqlDB := {|
  sqldb := table;
  sql_upsert := upsert;
  sql_select d ty tg := match sel d ty tg with Some r => QRow r | None => QNoRows end;
  sql_delete d ty tg :=
    (mkTab (delete (ty, tg) (rows d)) (next_id d),
     ExecOk (inl (match sel d ty tg with Some _ => 1 | None => 0 end)));
  sql_list d ty :=
    inl (omap (fun kv : (string * string) * row =>
           if decide (kv.1 = (row_type kv.2, row_target kv.2) /\ (ty = ""%string \/ row_type kv.2 = ty))
           then Some kv.2 else None) (map_to_list (rows d)))
|}.

Lemma sel_upsert_other now d ty tg js ty' tg' :
  (ty, tg) <> (ty', tg') -> sel (upsert now d ty tg js).1 ty' tg' = sel d ty' tg'.
Proof.
  intros Hne. unfold upsert. case_decide; [ | done].
  destruct (rows d !! (ty, tg)); unfold sel; simpl; by rewrite lookup_insert_ne.
Qed.

#[export] Instance mem_db_laws : SqlDBLaws.
Proof.
  split; simpl.
  - intros now d ty tg js d'. unfold upsert. case_decide as Ht; [ | done].
    unfold sel. destruct (rows d !! (ty, tg)) eqn:Er; intros [= <-]; simpl;
      rewrite lookup_insert_eq; simpl; rewrite decide_True by done; eexists; done.
  - intros. by rewrite sel_upsert_other.
  - intros now d ty tg js d' e. unfold upsert. split_matches; naive_solver.
  - intros now d ty tg js H1 H2. unfold upsert. rewrite decide_False by tauto. done.
  - intros d ty tg d' rows0 [= <- <-]. unfold sel. simpl. by rewrite lookup_delete_eq.
  - intros d ty tg d' rows0 [= <- <-]. eexists. split; [done | ]. by destruct (sel d ty tg).
  - intros d ty tg ty' tg' Hne. unfold sel. simpl. by rewrite lookup_delete_ne.
  - done.
  - intros d ty l r [= <-]. rewrite list_elem_of_omap. split.
    + intros ([k r'] & Hin & Hd). case_decide as H; simplify_eq/=. destruct H as [-> H].
      apply elem_of_map_to_list in Hin. unfold sel. rewrite Hin. by rewrite decide_True.
    + unfold sel. intros [Hs Ht]. exists ((row_type r, row_target r), r).
      destruct (rows d !! _) as [r'|] eqn:E; [ | done]. case_decide as Hd; [ | done]. simplify_eq.
      split; [by apply elem_of_map_to_list | ]. simpl. by rewrite decide_True.
Qed.

#[export] Instance DHCPOption_eq_dec : EqDecision DHCPOption.
Proof. solve_decision. Defined.

#[export] Instance DHCPOption_countable : Countable DHCPOption.
Proof.
  apply (inj_countable' (fun o => (OptionCode o, OptionValue o, OptionType o))
           (fun t => mkDHCPOption t.1.1 t.1.2 t.2)).
  by intros [].
Defined.

(** A list of options as the decimal image of its code. *)
#[export] Instance mem_codec : JSONCodec := {|
  Marshal l := inl (Utoa (Zpos (encode l)));
  Unmarshal s :=
    match parse_digits s 0 with
    | Some (Zpos p) => match decode p with Some l => inl l | None => inr "bad code"%string end
    | _ => inr "not a number"%string
    end
|}.

#[export] Instance mem_codec_laws : JSONLaws.
Proof.
  intros l _. eexists. split; [done | ]. unfold Unmarshal; simpl.
  unfold Utoa. rewrite parse_fmt_digits; [ | | lia].
  - simpl. by rewrite decode_encode.
  - rewrite Nat2Z.inj_succ, Z2Nat.id by apply Z.log2_nonneg. split; [lia | ].
    apply Z.log2_spec. lia.
Qed.

End Mem.

(** ** Witnesses *)

Section Witnesses.

Import Mem.

Definition w_store : store (SQL := mem_db) := mkStore (SQL := mem_db) (mkTab ∅ 1) ∅.
Definition w_net : string := "192.168.1.0".
Definition w_client : string := "aa:bb:cc:dd:ee:ff".
Definition w_dns : DHCPOption := mkDHCPOption 6 "8.8.8.8, 8.8.4.4" "ips".
Definition w_lease : DHCPOption := mkDHCPOption 51 "7200" "uint32".
Definition w_saves : list store_op :=
  [OpCachedGet "mac" w_client; OpSave 10 "mac" w_client [w_lease];
   OpSave 11 "network" w_net [w_dns; w_lease]; OpCachedGet "network" w_net;
   OpDelete "mac" w_client].

Lemma w_options_ascii : Forall ascii_option [w_dns; w_lease].
Proof. repeat (apply Forall_cons; split; [by split | ]). by apply Forall_nil. Qed.

Lemma override_cache_coherent_witness :
  let st := foldl store_call (InitDatabase (SQL := mem_db) (inl (mkTab ∅ 1)) (fun d => (d, None)) w_store).1 w_saves in
  (cachedGetOptionOverride st "network" w_net).2 = GetOptionOverride st "network" w_net.
Proof.
  apply (override_cache_coherent (SQL := mem_db) (mkTab ∅ 1) (fun d => (d, None)) (mkTab ∅ 1) w_store w_saves).
  - reflexivity.
  - repeat (apply Forall_cons; split; [first [by left | by right] | ]). by apply Forall_nil.
  - by left.
Defined.

Lemma save_then_get_witness :
  exists o, GetOptionOverride (SaveOptionOverride 10 w_store "network" w_net [w_dns; w_lease]).1 "network" w_net
            = (Some o, None) /\ ov_Options o = [w_dns; w_lease].
Proof.
  destruct (save_then_get 10 w_store "network" w_net [w_dns; w_lease]
              (SaveOptionOverride 10 w_store "network" w_net [w_dns; w_lease]).1)
    as [(o & H1 & _ & _ & _ & H2) _].
  - by left.
  - exact w_options_ascii.
  - reflexivity.
  - exists o. split; [exact H1 | exact H2].
Defined.

Lemma w_store_coherent : cache_coherent w_store.
Proof. intros ty tg o _ Hl. simpl in Hl. by rewrite lookup_empty in Hl. Qed.

Definition w_saved : store := (SaveOptionOverride 10 w_store "mac" w_client [w_lease]).1.

Lemma w_saved_coherent : cache_coherent w_saved.
Proof. apply Save_coherent; [by right | exact w_store_coherent]. Qed.

Lemma delete_override_spec_witness :
  GetOptionOverride (DeleteOptionOverride w_saved "mac" w_client).1 "mac" w_client = (None, None).
Proof.
  apply (delete_override_spec w_saved "mac" w_client (DeleteOptionOverride w_saved "mac" w_client).1
           (DeleteOptionOverride w_saved "mac" w_client).2).
  - right. reflexivity.
  - exact w_saved_coherent.
  - apply surjective_pairing.
  - left. vm_compute. reflexivity.
Defined.

Lemma override_cache_race_witness :
  exists st2, rtc (reader_step "mac" w_client) (w_store, RStart) (st2, RDone (None, None)) /\
    (cachedGetOptionOverride st2 "mac" w_client).2 = (None, None) /\
    exists new, GetOptionOverride st2 "mac" w_client = (Some new, None) /\ ov_Options new = [w_lease].
Proof.
  apply (override_cache_race 10 w_store "mac" w_client None [w_lease] w_saved).
  - apply Forall_cons. split; [by split | by apply Forall_nil].
  - reflexivity.
  - reflexivity.
  - reflexivity.
Defined.

Lemma override_precedence_witness :
  (ApplyOptionOverrides w_saved {[6 := [1; 1; 1; 1]]} w_net w_client).2 !! 51 = Some [0; 0; 28; 32].
Proof.
  pose proof (override_precedence w_saved {[6 := [1; 1; 1; 1]]} w_net w_client None
    (GetOptionOverride w_saved "mac" w_client).1 51) as H.
  rewrite H; [vm_compute; reflexivity | exact w_saved_coherent | discriminate | discriminate
             | vm_compute; reflexivity | vm_compute; reflexivity].
Defined.

Lemma convert_uint_exact_witness :
  ConvertOptionToDHCP (mkDHCPOption 26 (Utoa 1500) "uint16") = inl (26, be16 1500).
Proof. apply (convert_uint_exact 26 1500). lia. Defined.

End Witnesses.
