(* ===== verification/Handler.v ===== *)
(** * The state of a DHCP scope: the types of src/config.go and src/server.go

    [DHCPHandler] is one scope with its caches and pool; an [Interface] serves
    several networks.  The goroutines that sleep before they act on a scope are
    [timer]s: what they will do and when.  [OnEvicted] of the hardware cache,
    installed by [readConfig], starts such a goroutine for each evicted entry. *)

From S2P Require Import Prelude GoStd GoNet Pool GoCache Dhcp4 Database Utils.

(** ** Types of config.go *)

Section Types.

Context {CZ : GoCache Z}.

Record DHCPHandler := mkHandler {
  h_ip : IP;
  h_vip : IP;
  h_options : Options;
  h_start : IP;
  h_leaseRange : Z;
  h_leaseDuration : Z;
  h_hwcache : cache Z;
  h_xid : cache Z;
  h_available : DHCPPool;
  h_layer2 : bool;
  h_role : string;
  h_ipReserved : string;
  h_ipAssigned : gmap string Z
}.

Record Network := mkNetwork {
  network : IPNet;
  dhcpHandler : DHCPHandler
}.

(** The fields of [Interface] that [ServeDHCP] and the workers read; the
    networks are part of the state. *)
Record Interface := mkInterface {
  Name : string;
  Ipv4 : IP;
  InterfaceType : string;
  relayIP : IP;
  hw_addr : HardwareAddr
}.

Definition set_hwcache (c : cache Z) (h : DHCPHandler) : DHCPHandler :=
  mkHandler (h_ip h) (h_vip h) (h_options h) (h_start h) (h_leaseRange h) (h_leaseDuration h)
    c (h_xid h) (h_available h) (h_layer2 h) (h_role h) (h_ipReserved h) (h_ipAssigned h).
Definition set_xid (c : cache Z) (h : DHCPHandler) : DHCPHandler :=
  mkHandler (h_ip h) (h_vip h) (h_options h) (h_start h) (h_leaseRange h) (h_leaseDuration h)
    (h_hwcache h) c (h_available h) (h_layer2 h) (h_role h) (h_ipReserved h) (h_ipAssigned h).
Definition set_available (dp : DHCPPool) (h : DHCPHandler) : DHCPHandler :=
  mkHandler (h_ip h) (h_vip h) (h_options h) (h_start h) (h_leaseRange h) (h_leaseDuration h)
    (h_hwcache h) (h_xid h) dp (h_layer2 h) (h_role h) (h_ipReserved h) (h_ipAssigned h).

(** ** Goroutines that sleep *)

(** [FreeIndex n i]: free index [i] in the pool of network [n];
    [DeleteHw n m]: delete [m] from the hardware cache of network [n]. *)
Inductive action :=
| FreeIndex (n : nat) (index : Z)
| DeleteHw (n : nat) (m : string).

Record timer := mkTimer { due : Z; act : action }.

(** The callback given to [hwcache.OnEvicted]: always wait 30 seconds before
    releasing the address again. *)
Definition on_evicted (now : Z) (n : nat) (p : string * Z) : timer :=
  mkTimer (now + 30 * Second) (FreeIndex n (safeIntToUint64 p.2)).

End Types.

(** ** The state one packet works on *)

Section State.

Context {CZ : GoCache Z} {CS : GoCache string} {SQL : SqlDB} {JSON : JSONCodec}.

(** The chosen scope, the global caches, the override store and the goroutines
    started so far. *)
Record ctx := mkCtx {
  hdl : DHCPHandler;
  RequestGlobalTransactionCache : cache Z;
  GlobalIpCache : cache string;
  GlobalMacCache : cache string;
  overrides : store;
  timers : list timer
}.

Definition upd_hdl (f : DHCPHandler -> DHCPHandler) (c : ctx) : ctx :=
  mkCtx (f (hdl c)) (RequestGlobalTransactionCache c) (GlobalIpCache c) (GlobalMacCache c)
    (overrides c) (timers c).
Definition set_request_cache (r : cache Z) (c : ctx) : ctx :=
  mkCtx (hdl c) r (GlobalIpCache c) (GlobalMacCache c) (overrides c) (timers c).
Definition set_global (gi gm : cache string) (c : ctx) : ctx :=
  mkCtx (hdl c) (RequestGlobalTransactionCache c) gi gm (overrides c) (timers c).
Definition set_overrides (s : store) (c : ctx) : ctx :=
  mkCtx (hdl c) (RequestGlobalTransactionCache c) (GlobalIpCache c) (GlobalMacCache c) s (timers c).
Definition spawn (ts : list timer) (c : ctx) : ctx :=
  mkCtx (hdl c) (RequestGlobalTransactionCache c) (GlobalIpCache c) (GlobalMacCache c)
    (overrides c) (timers c ++ ts).

(** Operations on the scope's caches and pool, through the shared pointers. *)
Definition hw_get (now : Z) (c : ctx) (k : string) : option Z := Get now (h_hwcache (hdl c)) k.
Definition hw_set (now : Z) (k : string) (v d : Z) (c : ctx) : ctx :=
  upd_hdl (set_hwcache (SetItem now (h_hwcache (hdl c)) k v d)) c.

(** [hwcache.Delete] runs the eviction callback on the entry it removes. *)
Definition hw_delete (now : Z) (n : nat) (k : string) (c : ctx) : ctx :=
  let '(hw, evicted) := Delete (h_hwcache (hdl c)) k in
  spawn (map (on_evicted now n) evicted) (upd_hdl (set_hwcache hw) c).

Definition xid_set (now : Z) (k : string) (v d : Z) (c : ctx) : ctx :=
  upd_hdl (set_xid (SetItem now (h_xid (hdl c)) k v d)) c.
Definition xid_replace (now : Z) (k : string) (v d : Z) (c : ctx) : ctx :=
  upd_hdl (set_xid (Replace now (h_xid (hdl c)) k v d).1) c.

Definition pool (c : ctx) : DHCPPool := h_available (hdl c).
Definition pool_set (dp : DHCPPool) (c : ctx) : ctx := upd_hdl (set_available dp) c.

(** ** Answers *)

Record Answer := mkAnswer {
  ans_D : option Packet;
  ans_IP : IP;
  ans_MAC : HardwareAddr;
  ans_SrcIP : IP
}.

Definition emptyAnswer : Answer := mkAnswer None [] [] [].
Definition with_D (d : Packet) (a : Answer) : Answer :=
  mkAnswer (Some d) (ans_IP a) (ans_MAC a) (ans_SrcIP a).
Definition with_IP (ip : IP) (a : Answer) : Answer :=
  mkAnswer (ans_D a) ip (ans_MAC a) (ans_SrcIP a).

End State.
