(* ===== verification/Interface.v ===== *)
(** * Serving one packet: src/interface.go

    [ServeDHCP] for the relay and for the server, message type by message type.
    A handler's locks and logging are left out; a handler runs at one instant
    of the clock.  A panic after the scope has been chosen is recovered by the
    deferred [recoverName], so the function returns its named result as it is
    then: such a branch returns the current answer and state.  The [goto retry]
    loop of DISCOVER takes fuel; [discover_offers] and
    [discover_diverges] say when it ends. *)

From S2P Require Import Prelude GoStd GoNet Pool GoCache Dhcp4 Database Utils Handler.
From Stdlib Require Import Ascii.

(** What one call observes of its environment: the clock, the outcome of the
    [k]-th [sharedutils.Ping], the ARP table, the Go runtime in the [k]-th pool
    pick, the random generators and the iteration order over options. *)
Record env := mkEnv {
  now : Z;
  ping : nat -> IP -> IP -> string -> bool;
  arp_Search : string -> string;
  pick : nat -> choice;
  gen : Z -> nat -> Z -> Z;
  range_options : Options -> list (Z * bytes)
}.

Section Interface.

Context {CZ : GoCache Z} {CS : GoCache string} {SQL : SqlDB} {JSON : JSONCodec} {D4 : Dhcp4}.

(** [sharedutils.ByteToString]. *)
Context (ByteToString : bytes -> string).

Definition isRelay (I : Interface) : bool := String.eqb (InterfaceType I) "relay".

(** The client's hardware address as the caches and the pool know it. *)
Definition mac_of (p : Packet) : string := HardwareAddr_String (CHAddr p).

(** ** Options of a reply *)

Definition shuffled (key : Z) : bool := (key =? OptionDomainNameServer) || (key =? OptionRouter).

Definition buildReplyOptions (e : env) (st : store) (baseOptions : Options) (p : Packet)
    (networkIP clientMac : string) : store * exec Options :=
  let needs_seed := existsb (fun kv => shuffled kv.1) (map_to_list baseOptions) in
  match CHAddr p !! 5%nat, needs_seed with
  | None, true => (st, Panic)
  | seed, _ =>
      let options := map_imap (fun key value =>
        Some (if shuffled key then ShuffleIP (gen e) (now e) value (default 0 seed) else value))
        baseOptions in
      let '(st, result) := ApplyOptionOverrides st options networkIP clientMac in
      (st, Ret result)
  end.

(** ** The relay *)

(** [for k, v := range p.ParseOptions() { p2.AddOption(k, v) }] *)
Definition copy_options (e : env) (p p2 : Packet) : Packet :=
  foldl (fun q kv => AddOption kv.1 kv.2 q) p2 (range_options e (ParseOptions p)).

Definition relay_discover (e : env) (I : Interface) (p : Packet) : Packet :=
  let p2 := NewPacket BootRequest in
  let p2 := SetCHAddr (CHAddr p) p2 in
  let p2 := SetGIAddr (Ipv4 I) p2 in
  let p2 := SetXId (XId p) p2 in
  let p2 := SetBroadcast false p2 in
  copy_options e p p2.

Definition relay_offer (e : env) (p : Packet) : Packet :=
  let p2 := NewPacket BootReply in
  let p2 := SetXId (XId p) p2 in
  let p2 := SetFile (File p) p2 in
  let p2 := SetFlags (Flags p) p2 in
  let p2 := SetYIAddr (YIAddr p) p2 in
  let p2 := SetGIAddr (GIAddr p) p2 in
  let p2 := SetSIAddr (SIAddr p) p2 in
  let p2 := SetCHAddr (CHAddr p) p2 in
  let p2 := SetSecs (Secs p) p2 in
  copy_options e p p2.

(** REQUEST, and RELEASE or DECLINE. *)
Definition relay_request (e : env) (I : Interface) (p : Packet) : Packet :=
  let p2 := NewPacket BootRequest in
  let p2 := SetCHAddr (CHAddr p) p2 in
  let p2 := SetFile (File p) p2 in
  let p2 := SetCIAddr (CIAddr p) p2 in
  let p2 := SetSIAddr (SIAddr p) p2 in
  let p2 := SetGIAddr (Ipv4 I) p2 in
  let p2 := SetXId (XId p) p2 in
  let p2 := SetBroadcast false p2 in
  copy_options e p p2.

(** ACK, and NAK. *)
Definition relay_ack (e : env) (p : Packet) : Packet :=
  let p2 := NewPacket BootReply in
  let p2 := SetXId (XId p) p2 in
  let p2 := SetFile (File p) p2 in
  let p2 := SetFlags (Flags p) p2 in
  let p2 := SetSIAddr (SIAddr p) p2 in
  let p2 := SetYIAddr (YIAddr p) p2 in
  let p2 := SetGIAddr (GIAddr p) p2 in
  let p2 := SetCHAddr (CHAddr p) p2 in
  let p2 := SetSecs (Secs p) p2 in
  copy_options e p p2.

Definition serve_relay (e : env) (I : Interface) (p : Packet) (msgType : Z) (answer : Answer)
    : Answer :=
  if msgType =? Discover then with_D (relay_discover e I p) answer
  else if msgType =? Offer then with_D (relay_offer e p) (with_IP (SIAddr p) answer)
  else if msgType =? Request then with_D (relay_request e I p) answer
  else if msgType =? ACK then with_D (relay_ack e p) answer
  else if msgType =? NAK then with_D (relay_ack e p) answer
  else if (msgType =? Release) || (msgType =? Decline) then with_D (relay_request e I p) answer
  else answer.

(** ** Choosing the scope *)

(** [for _, v := range I.network]: the position of the first network whose
    guards hold, with its handler. *)
Fixpoint select_network (p : Packet) (networks : list Network) (i : nat)
    : option (nat * Network) :=
  match networks with
  | [] => None
  | v :: rest =>
      let gi0 := IP_Equal (GIAddr p) IPv4zero in
      let ci0 := IP_Equal (CIAddr p) IPv4zero in
      let in_ci := Contains (network v) (CIAddr p) in
      if h_layer2 (dhcpHandler v) && (gi0 || in_ci) then
        if negb ci0 && negb in_ci then select_network p rest (S i)
        else Some (i, v)
      else if gi0 && in_ci then Some (i, v)
      else if (negb gi0 && Contains (network v) (GIAddr p)) || in_ci then Some (i, v)
      else select_network p rest (S i)
  end.

(** ** DISCOVER *)

(** [net] is the position of the network, for the goroutines. *)
Section Discover.

Context (e : env) (I : Interface) (net : nat) (srvIP : IP) (p : Packet).

(** What one round of the [retry] loop leads to. *)
Inductive round :=
| RStop (c : ctx)
| RPanic (c : ctx)
| RAgain (c : ctx) (firstTry : bool) (free : Z)
| RReply (c : ctx) (free : Z).

(** The part of a round that serves the address requested in option 50. *)
Inductive requested :=
| QPanic
| QRetry
| QGo (c : ctx) (free : Z).

Definition try_requested (firstTry : bool) (free : Z) (c : ctx) : requested :=
  match ParseOptions p !! OptionRequestedIPAddress, firstTry with
  | Some opt50, true =>
      match Uint32 opt50, Uint32 (To4 (h_start (hdl c))) with
      | Ret a, Ret b =>
          let element := u32 (a - b) in
          let '(_, returnedMac, _) := GetMACIndex (pool c) (safeUint32ToUint64 element) in
          if String.eqb returnedMac (mac_of p) then QGo c element
          else if String.eqb returnedMac FreeMac then
            let '(dp, (err, returnedMac)) :=
              ReserveIPIndex (pool c) (safeUint32ToUint64 element) (mac_of p) in
            let c := pool_set dp c in
            if bool_decide (err = None) && String.eqb returnedMac (mac_of p) then QGo c element
            else QGo c free
          else QRetry
      | _, _ => QPanic
      end
  | _, _ => QGo c free
  end.

(** The ARP test runs only when [Local], which is [false] throughout. *)
Definition Local_ : bool := false.

Definition arp_conflict (addr : string) : bool :=
  if Local_ then
    let m := arp_Search e addr in
    if negb (String.eqb m "") && negb (String.eqb m FreeMac) then
      if negb (String.eqb (mac_of p) m) then true else false
    else false
  else false.

(** From "Lock it" to the end of a round, [k] counting the pings. *)
Definition probe (k : nat) (firstTry : bool) (free : Z) (c : ctx) : round :=
  let c := hw_set (now e) (mac_of p) free (5 * Second) c in
  let c := xid_set (now e) (ByteToString (XId p)) 0 (5 * Second) c in
  match IPAdd (h_start (hdl c)) free with
  | Panic => RPanic c
  | Ret ipaddr =>
      let inarp := arp_conflict (IP_String ipaddr) in
      let pingreply :=
        ping e k (To4 (setOptionServerIdentifier srvIP (h_ip (hdl c)))) ipaddr (Name I) in
      if pingreply || inarp then
        let c := hw_delete (now e) net (mac_of p) c in
        let c := pool_set (ReserveIPIndex (pool c) (safeIntToUint64 free) FakeMac).1 c in
        let c := spawn [mkTimer (now e + 10 * Minute) (FreeIndex net (safeIntToUint64 free))] c in
        RAgain c false 0
      else
        let c := hw_set (now e) (mac_of p) free (5 * Second) c in
        let c := xid_replace (now e) (ByteToString (XId p)) 1 (5 * Second) c in
        RReply c free
  end.

(** One round from the label [retry]. *)
Definition retry_round (k : nat) (firstTry : bool) (free : Z) (c : ctx) : round :=
  if 0 <? FreeIPsRemaining (pool c) then
    match try_requested firstTry free c with
    | QPanic => RPanic c
    | QRetry => RAgain c false free
    | QGo c free =>
        if free =? -1 then
          let '(dp, (freeu64, _, err)) := GetFreeIPIndex (pick e k) (pool c) (mac_of p) in
          let c := pool_set dp c in
          match err with
          | Some _ => RStop c
          | None => probe k firstTry (safeUint64ToInt freeu64) c
          end
        else probe k firstTry free c
    end
  else RStop c.

(** How the search for an address ends. *)
Inductive search :=
| SStop (c : ctx)
| SPanic (c : ctx)
| SReply (c : ctx) (free : Z)
| SFuel.

Fixpoint retry_loop (fuel k : nat) (firstTry : bool) (free : Z) (c : ctx) : search :=
  match fuel with
  | O => SFuel
  | S fuel =>
      match retry_round k firstTry free c with
      | RStop c => SStop c
      | RPanic c => SPanic c
      | RReply c free => SReply c free
      | RAgain c firstTry free => retry_loop fuel (S k) firstTry free c
      end
  end.

(** An address the client already has in the hardware cache. *)
Inductive cached :=
| CRetry (c : ctx)
| CStop (c : ctx)
| CReply (c : ctx) (free : Z).

Definition cached_replace (free : Z) (c : ctx) : cached :=
  match Replace (now e) (h_hwcache (hdl c)) (mac_of p) free (5 * Second) with
  | (hw, None) => CReply (upd_hdl (set_hwcache hw) c) free
  | (hw, Some _) => CStop (upd_hdl (set_hwcache hw) c)
  end.

Definition use_cached (x : Z) (c : ctx) : cached :=
  let '(_, returnedMac, _) := GetMACIndex (pool c) (safeIntToUint64 x) in
  if String.eqb returnedMac (mac_of p) then cached_replace x c
  else if String.eqb returnedMac FreeMac then
    let c := hw_delete (now e) net (mac_of p) c in
    let '(dp, (err, returnedMac)) := ReserveIPIndex (pool c) (safeIntToUint64 x) (mac_of p) in
    let c := pool_set dp c in
    if bool_decide (err = None) && String.eqb returnedMac (mac_of p) then cached_replace x c
    else CRetry c
  else CRetry c.

(** The search for an address: static, cached, or from the pool. *)
Definition find_address (fuel : nat) (c : ctx) : search :=
  match h_ipAssigned (hdl c) !! mac_of p with
  | Some position => SReply c position
  | None =>
      match hw_get (now e) c (mac_of p) with
      | Some x =>
          match use_cached x c with
          | CReply c free => SReply c free
          | CStop c => SStop c
          | CRetry c => retry_loop fuel 0 true (-1) c
          end
      | None => retry_loop fuel 0 true (-1) c
      end
  end.

(** The reply both OFFER and ACK send. *)
Definition reply_packet (mt : Z) (c : ctx) (networkIP : string) (ip : IP) : ctx * exec Packet :=
  let '(st, r) := buildReplyOptions e (overrides c) (h_options (hdl c)) p networkIP (mac_of p) in
  (set_overrides st c,
   exec_bind r (fun GlobalOptions =>
     Ret (ReplyPacket p mt (To4 (h_ip (hdl c))) ip (h_leaseDuration (hdl c))
            (SelectOrderOrAll GlobalOptions (GlobalOptions !! OptionParameterRequestList))))).

Definition serve_discover (fuel : nat) (networkIP : string) (answer : Answer) (c : ctx)
    : option (Answer * ctx) :=
  match find_address fuel c with
  | SFuel => None
  | SStop c | SPanic c => Some (answer, c)
  | SReply c free =>
      match IPAdd (h_start (hdl c)) free with
      | Panic => Some (answer, c)
      | Ret ip =>
          let answer := with_IP ip answer in
          match reply_packet Offer c networkIP ip with
          | (c, Panic) => Some (answer, c)
          | (c, Ret d) => Some (with_D d answer, c)
          end
      end
  end.

End Discover.

(** ** REQUEST and INFORM *)

Section Request.

Context (e : env) (net : nat) (p : Packet).

(** Option 50, or the client's own address. *)
Definition reqIP : IP := default (CIAddr p) (ParseOptions p !! OptionRequestedIPAddress).

Definition cacheKey (msgType : Z) : string :=
  mac_of p +s+ " " +s+ MessageType_String msgType +s+ " xID " +s+ ByteToString (XId p).

(** The reply of line 547, and of a refused request. *)
Definition nak (c : ctx) : Packet := ReplyPacket p NAK (To4 (h_ip (hdl c))) [] 0 [].

(** What the checks on the requested address lead to. *)
Inductive verdict :=
| VReply (c : ctx) (Index : Z)
| VNak (c : ctx)
| VReturn (c : ctx) (a : Answer).

(** The client has [index] in the hardware cache, at the requested address. *)
Definition request_match (msgType index : Z) (answer : Answer) (c : ctx) : verdict :=
  match Get (now e) (RequestGlobalTransactionCache c) (cacheKey msgType) with
  | Some _ => VReturn c answer
  | None =>
      let '(_, returnedMac, _) := GetMACIndex (pool c) (safeIntToUint64 index) in
      let c' := set_request_cache
        (SetItem (now e) (RequestGlobalTransactionCache c) (cacheKey msgType) 1 (1 * Second)) c in
      if String.eqb returnedMac (mac_of p) then VReply c' index else VNak c'
  end.

(** It asks for another address than the one it was offered. *)
Definition request_mismatch (answer : Answer) (c : ctx) : verdict :=
  match Uint32 (XId p) with
  | Panic => VReturn c answer
  | Ret x =>
      match Get (now e) (h_xid (hdl c)) (Itoa x) with
      | Some v => if v =? 1 then VNak (hw_delete (now e) net (mac_of p) c) else VNak c
      | None => VNak c
      end
  end.

Definition request_cached (msgType : Z) (answer : Answer) (c : ctx) : verdict :=
  match hw_get (now e) c (mac_of p) with
  | None => VReturn c emptyAnswer
  | Some index =>
      match IPAdd (h_start (hdl c)) index with
      | Panic => VReturn c answer
      | Ret ip =>
          if IP_Equal ip reqIP then request_match msgType index answer c
          else request_mismatch answer c
      end
  end.

Definition request_verdict (msgType : Z) (answer : Answer) (c : ctx) : verdict :=
  match IPRange (h_start (hdl c)) reqIP with
  | Panic => VReturn c answer
  | Ret n =>
      let leaseNum := n - 1 in
      if (0 <=? leaseNum) && (leaseNum <? h_leaseRange (hdl c)) then
        match h_ipAssigned (hdl c) !! mac_of p with
        | Some position =>
            if position =? leaseNum then VReply c position else VNak c
        | None => request_cached msgType answer c
        end
      else VNak c
  end.

(** Recording an acknowledged lease: the global caches, the hardware cache and
    the pool. *)
Definition record_lease (Index : Z) (c : ctx) : ctx :=
  let d := h_leaseDuration (hdl c) + 15 * Second in
  let c := set_global (SetItem (now e) (GlobalIpCache c) (IP_String reqIP) (mac_of p) d)
                      (SetItem (now e) (GlobalMacCache c) (mac_of p) (IP_String reqIP) d) c in
  let c := hw_set (now e) (mac_of p) Index d c in
  pool_set (ReserveIPIndex (pool c) (safeIntToUint64 Index) (mac_of p)).1 c.

Definition foreign_server (c : ctx) : bool :=
  match ParseOptions p !! OptionServerIdentifier with
  | Some [a; b; d; f] => negb (IP_Equal (IPv4 a b d f) (To4 (h_ip (hdl c))))
  | _ => false
  end.

Definition serve_request (msgType : Z) (networkIP : string) (answer : Answer) (c : ctx)
    : Answer * ctx :=
  if foreign_server c then (emptyAnswer, c)
  else
    let answer := with_IP reqIP answer in
    if (length reqIP =? 4)%nat && negb (IP_Equal reqIP IPv4zero) then
      match request_verdict msgType answer c with
      | VReturn c a => (a, c)
      | VNak c => (with_D (nak c) answer, c)
      | VReply c Index =>
          match reply_packet e p ACK c networkIP reqIP with
          | (c, Panic) => (answer, c)
          | (c, Ret d) => (with_D d answer, record_lease Index c)
          end
      end
    else (with_D (nak c) answer, c).

(** ** RELEASE and DECLINE *)

(** The common body of both cases: the two goroutines are a timer in ten
    minutes and one that runs at once. *)
Definition give_back (answer : Answer) (c : ctx) : Answer * ctx :=
  match IPRange (h_start (hdl c)) reqIP with
  | Panic => (answer, c)
  | Ret n =>
      let leaseNum := n - 1 in
      if (0 <=? leaseNum) && (leaseNum <? h_leaseRange (hdl c)) then
        match hw_get (now e) c (mac_of p) with
        | Some x =>
            if leaseNum =? x then
              let '(_, returnedMac, _) := GetMACIndex (pool c) (safeIntToUint64 x) in
              if String.eqb returnedMac (mac_of p) then
                let c := pool_set (ReserveIPIndex (pool c) (safeIntToUint64 leaseNum) FakeMac).1 c in
                (answer,
                 spawn [mkTimer (now e + 10 * Minute) (FreeIndex net (safeIntToUint64 leaseNum));
                        mkTimer (now e) (DeleteHw net (mac_of p))] c)
              else (answer, c)
            else (answer, c)
        | None => (answer, c)
        end
      else (answer, c)
  end.

Definition serve_release := give_back.
Definition serve_decline := give_back.

End Request.

(** ** The whole handler *)

(** The state the packets of one interface share. *)
Record world := mkWorld {
  networks : list Network;
  GlobalTransactionCache : cache Z;
  w_request : cache Z;
  w_ip : cache string;
  w_macs : cache string;
  w_overrides : store;
  w_timers : list timer
}.

Definition ctx_of (w : world) (h : DHCPHandler) : ctx :=
  mkCtx h (w_request w) (w_ip w) (w_macs w) (w_overrides w) (w_timers w).

(** [handler] is a copy of the scope, its caches and pool are shared with it. *)
Definition put_back (i : nat) (v : Network) (c : ctx) (w : world) : world :=
  mkWorld (<[i := mkNetwork (network v) (hdl c)]> (networks w)) (GlobalTransactionCache w)
    (RequestGlobalTransactionCache c) (GlobalIpCache c) (GlobalMacCache c) (overrides c) (timers c).

Definition set_transaction (t : cache Z) (w : world) : world :=
  mkWorld (networks w) t (w_request w) (w_ip w) (w_macs w) (w_overrides w) (w_timers w).

(** [switch msgType] *)
Definition serve_message (e : env) (fuel : nat) (I : Interface) (i : nat) (p : Packet)
    (msgType : Z) (srvIP : IP) (networkIP : string) (answer : Answer) (c : ctx)
    : option (Answer * ctx) :=
  if msgType =? Discover then serve_discover e I i srvIP p fuel networkIP answer c
  else if (msgType =? Request) || (msgType =? Inform) then
    Some (serve_request e i p msgType networkIP answer c)
  else if msgType =? Release then Some (serve_release e i p answer c)
  else if msgType =? Decline then Some (serve_decline e i p answer c)
  else Some (with_D (nak p c) answer, c).

(** [None] when the fuel of the [retry] loop is used up. *)
Definition ServeDHCP (e : env) (fuel : nat) (I : Interface) (p : Packet) (msgType : Z)
    (srvIP : IP) (w : world) : option (Answer * world) :=
  let answer := mkAnswer None [] (CHAddr p) (Ipv4 I) in
  if isRelay I then Some (serve_relay e I p msgType answer, w)
  else
    match select_network p (networks w) 0 with
    | None => Some (answer, w)
    | Some (i, v) =>
        if (length (h_ip (dhcpHandler v)) =? 0)%nat then Some (answer, w)
        else
          match Get (now e) (GlobalTransactionCache w) (cacheKey p msgType) with
          | Some _ => Some (answer, w)
          | None =>
              let w := set_transaction
                (SetItem (now e) (GlobalTransactionCache w) (cacheKey p msgType) 1 (1 * Second)) w in
              match serve_message e fuel I i p msgType srvIP (IP_String (net_IP (network v)))
                      answer (ctx_of w (dhcpHandler v)) with
              | None => None
              | Some (a, c) => Some (a, put_back i v c w)
              end
          end
    end.

End Interface.
