(* ===== verification/Scope.v ===== *)
(** * What a packet may do to a scope

    The invariant [scope_ok] of a scope, and the relation [evolves m c c']: the
    changes a packet of client [m] may make, whatever it carries and whatever
    the environment answers.  It is a preorder, each primitive operation of
    Handler.v is in it, and so is every handler of Interface.v; Discover.v,
    Request.v and System.v take the invariant and the frame of a packet from
    here. *)

From S2P Require Import Prelude GoStd GoNet Pool GoCache Dhcp4 Database Utils Handler Interface.

(** ** Pools that only grow *)

(** Nobody loses an index; the indexes gained go to [m] or to [FakeMac]. *)
Record pool_grows (m : string) (dp dp' : DHCPPool) : Prop := {
  grows_wf : pool_wf dp';
  grows_capacity : capacity dp' = capacity dp;
  grows_keeps : forall i k, mac dp !! i = Some k -> mac dp' !! i = Some k;
  grows_gains : forall i k, mac dp' !! i = Some k -> mac dp !! i = Some k \/ k = m \/ k = FakeMac
}.

Lemma pool_grows_refl m dp : pool_wf dp -> pool_grows m dp dp.
Proof. split; auto. Qed.

Lemma pool_grows_trans m dp1 dp2 dp3 :
  pool_grows m dp1 dp2 -> pool_grows m dp2 dp3 -> pool_grows m dp1 dp3.
Proof.
  intros [W1 C1 K1 G1] [W2 C2 K2 G2]. split; [done | congruence | auto | ].
  intros i k H. apply G2 in H as [H|H]; auto.
Qed.

Lemma assign_grows m m' dp i :
  pool_wf dp -> is_Some (free dp !! i) -> m' = m \/ m' = FakeMac ->
  pool_grows m dp (set_mac (<[i := m']> (mac dp)) (set_free (delete i (free dp)) dp)).
Proof.
  intros Hwf Hi Hm. split; [by apply assign_wf | done | | ]; simpl; intros j k.
  - intros Hj. rewrite lookup_insert_ne; [done | intros <-].
    apply (free_iff_vacant dp i Hwf) in Hi as [_ Hi]. simpl in Hi. congruence.
  - rewrite lookup_insert. case_decide; [ | by left]. intros [= <-]. by right.
Qed.

Lemma ReserveIPIndex_grows m m' dp i :
  pool_wf dp -> m' = m \/ m' = FakeMac -> pool_grows m dp (ReserveIPIndex dp i m').1.
Proof.
  intros Hwf Hm. unfold ReserveIPIndex. split_matches; try by apply pool_grows_refl.
  by apply (assign_grows m m' dp).
Qed.

Lemma GetFreeIPIndex_grows ch m dp :
  choice_ok ch -> pool_wf dp -> pool_grows m dp (GetFreeIPIndex ch dp m).1.
Proof.
  intros Hc Hwf. unfold GetFreeIPIndex.
  destruct (Z.of_nat (size (free dp)) =? 0) eqn:E; [by apply pool_grows_refl | ]. zbool.
  apply (assign_grows m m dp); [done | | by left]. apply pick_available_free; [done.. | lia].
Qed.

(** A reservation that succeeds makes the caller the holder. *)
Lemma ReserveIPIndex_holder dp i m e m' :
  pool_wf dp -> (ReserveIPIndex dp i m).2 = (e, m') -> m <> FreeMac -> m' = m ->
  mac (ReserveIPIndex dp i m).1 !! i = Some m.
Proof.
  intros Hwf. unfold ReserveIPIndex. split_matches; simpl; intros [= <- <-] ??; try congruence.
  apply lookup_insert_eq.
Qed.

Lemma GetFreeIPIndex_holder ch dp m i m' :
  (GetFreeIPIndex ch dp m).2 = (i, m', None) ->
  mac (GetFreeIPIndex ch dp m).1 !! i = Some m.
Proof. unfold GetFreeIPIndex. split_matches; simpl; intros [= <- <-]. apply lookup_insert_eq. Qed.

(** [GetMACIndex] tells the holder of an index. *)
Lemma GetMACIndex_holder dp i m :
  pool_wf dp -> 0 <= i -> m <> FreeMac -> (GetMACIndex dp i).1.2 = m -> mac dp !! i = Some m.
Proof.
  intros Hwf Hi Hm. unfold GetMACIndex, IndexInPool. split_matches; simpl; intros <-; try done.
  zbool. destruct (proj2 (wf_mac dp Hwf i)) as [k Hk]; [split; [lia | done] | ].
  by rewrite Hk.
Qed.

Lemma GetMACIndex_held dp i m :
  pool_wf dp -> mac dp !! i = Some m -> GetMACIndex dp i = (i, m, None).
Proof.
  intros Hwf Hm. destruct (proj1 (wf_mac dp Hwf i)) as [Hi Hf]; [by rewrite Hm | ].
  unfold GetMACIndex, IndexInPool. rewrite (proj2 (Z.ltb_lt _ _)), Hf, Hm by lia. done.
Qed.

(** ** Scopes *)

Section Scope.

Context {CZ : GoCache Z} {LZ : GoCacheLaws Z} {CS : GoCache string} {SQL : SqlDB} {JSON : JSONCodec}
  {D4 : Dhcp4} {LD : Dhcp4Laws}.

(** The addresses of the scope are [first], ..., [first + leaseRange - 1]; the
    pool has an index for each; cached indexes are in range. *)
Record scope_ok (h : DHCPHandler) : Prop := {
  scope_pool : pool_wf (h_available h);
  scope_capacity : capacity (h_available h) = h_leaseRange h;
  scope_range : exists first, To4 (h_start h) = be32 first /\ 0 <= first /\
                  0 < h_leaseRange h /\ first + h_leaseRange h <= 2 ^ 32;
  scope_cached : forall t k x, Get t (h_hwcache h) k = Some x -> 0 <= x < h_leaseRange h;
  scope_lease : 0 <= h_leaseDuration h
}.

(** The fields no packet writes. *)
Definition same_config (h h' : DHCPHandler) : Prop :=
  h_ip h' = h_ip h /\ h_options h' = h_options h /\ h_start h' = h_start h /\
  h_leaseRange h' = h_leaseRange h /\ h_leaseDuration h' = h_leaseDuration h /\
  h_layer2 h' = h_layer2 h /\ h_ipAssigned h' = h_ipAssigned h /\ h_role h' = h_role h /\
  h_ipReserved h' = h_ipReserved h.

Lemma same_config_trans h1 h2 h3 : same_config h1 h2 -> same_config h2 h3 -> same_config h1 h3.
Proof. unfold same_config. intros. repeat split; intuition congruence. Qed.

Definition timer_ok (n : nat) (range : Z) (m : string) (t : timer) : Prop :=
  match act t with
  | FreeIndex n' i => n' = n /\ 0 <= i < range
  | DeleteHw n' k => n' = n /\ k = m
  end.

Record evolves (n : nat) (m : string) (c c' : ctx) : Prop := {
  ev_config : same_config (hdl c) (hdl c');
  ev_pool : pool_grows m (pool c) (pool c');
  ev_cached : forall t k x, Get t (h_hwcache (hdl c')) k = Some x -> 0 <= x < h_leaseRange (hdl c);
  ev_others : forall t k, k <> m -> Get t (h_hwcache (hdl c')) k = Get t (h_hwcache (hdl c)) k;
  ev_timers : exists ts, timers c' = timers c ++ ts /\
                Forall (timer_ok n (h_leaseRange (hdl c)) m) ts
}.

Lemma evolves_ok n m c c' : scope_ok (hdl c) -> evolves n m c c' -> scope_ok (hdl c').
Proof.
  intros [Hp Hc Hr Hx Hl] [(E1 & E2 & E3 & E4 & E5 & E6 & E7) [W C K G] Hx' _ _].
  split; [done | by rewrite E4, <- Hc | by rewrite E3, E4 | by rewrite E4 | by rewrite E5].
Qed.

Lemma evolves_refl n m c : scope_ok (hdl c) -> evolves n m c c.
Proof.
  intros Hs. split; [done | apply pool_grows_refl, Hs | apply Hs | done | ].
  exists []. by rewrite app_nil_r.
Qed.

Lemma evolves_trans n m c1 c2 c3 : evolves n m c1 c2 -> evolves n m c2 c3 -> evolves n m c1 c3.
Proof.
  intros [A G1 X1 O1 (ts1 & T1 & F1)] [B G2 X2 O2 (ts2 & T2 & F2)].
  pose proof A as (_ & _ & _ & A4 & _).
  split.
  - by eapply same_config_trans.
  - by eapply pool_grows_trans.
  - by rewrite <- A4.
  - intros t k Hk. rewrite O2, O1 by done. done.
  - exists (ts1 ++ ts2). rewrite T2, T1, app_assoc. split; [done | ].
    apply Forall_app. split; [done | by rewrite <- A4].
Qed.

(** Changes outside the scope's handler and timers. *)
Lemma evolves_same_hdl n m c c' :
  scope_ok (hdl c) -> hdl c' = hdl c -> timers c' = timers c -> evolves n m c c'.
Proof.
  intros Hs E T. unfold pool in *. split; unfold pool; rewrite ?E;
    [done | apply pool_grows_refl, Hs | apply Hs | done | ].
  exists []. by rewrite T, app_nil_r.
Qed.

Lemma evolves_pool n m c dp :
  scope_ok (hdl c) -> pool_grows m (pool c) dp -> evolves n m c (pool_set dp c).
Proof. intros Hs Hg. split; [done | done | apply Hs | done | exists []; by rewrite app_nil_r]. Qed.

Lemma evolves_hw_set n m now x d c :
  scope_ok (hdl c) -> 0 <= x < h_leaseRange (hdl c) -> 0 < d ->
  evolves n m c (hw_set now m x d c).
Proof.
  intros Hs Hx Hd. split; simpl; [done | apply pool_grows_refl, Hs | | | exists []; by rewrite app_nil_r].
  - intros t k v. destruct (decide (k = m)) as [->|Hk].
    + destruct (decide (t <= now + d)).
      * rewrite get_set_eq by done. congruence.
      * by rewrite get_set_expired by lia.
    + rewrite get_set_ne by congruence. apply Hs.
  - intros t k Hk. by rewrite get_set_ne by congruence.
Qed.

Lemma evolves_xid n m x c : scope_ok (hdl c) -> evolves n m c (upd_hdl (set_xid x) c).
Proof. intros Hs. split; simpl; [done | apply pool_grows_refl, Hs | apply Hs | done | exists []; by rewrite app_nil_r]. Qed.

Lemma range_small h : scope_ok h -> h_leaseRange h <= MaxInt.
Proof. intros [_ _ (a & _ & ? & ? & ?) _ _]. unfold MaxInt. lia. Qed.

Lemma safe_index h x : scope_ok h -> 0 <= x < h_leaseRange h -> safeIntToUint64 x = x.
Proof. intros Hs Hx. pose proof (range_small h Hs). rewrite safeIntToUint64_max; lia. Qed.

Lemma evolves_spawn n m ts c :
  scope_ok (hdl c) -> Forall (timer_ok n (h_leaseRange (hdl c)) m) ts ->
  evolves n m c (spawn ts c).
Proof. intros Hs Hts. split; simpl; [done | apply pool_grows_refl, Hs | apply Hs | done | by exists ts]. Qed.

Lemma evolves_hw_delete n m now c : scope_ok (hdl c) -> evolves n m c (hw_delete now n m c).
Proof.
  intros Hs. unfold hw_delete. destruct (Delete (h_hwcache (hdl c)) m) as [hw ev] eqn:E.
  assert (Ehw : hw = (Delete (h_hwcache (hdl c)) m).1) by (by rewrite E).
  assert (Eev : ev = (Delete (h_hwcache (hdl c)) m).2) by (by rewrite E).
  assert (Hget : forall t k, k <> m -> Get t hw k = Get t (h_hwcache (hdl c)) k).
  { intros t k Hk. rewrite Ehw. by apply get_delete_ne. }
  split; simpl; [done | apply pool_grows_refl, Hs | | done | ].
  - intros t k x. destruct (decide (k = m)) as [->|Hk].
    + by rewrite Ehw, get_delete_eq.
    + rewrite Hget by done. apply Hs.
  - exists (map (on_evicted now n) ev). split; [done | ]. apply Forall_forall.
    intros t Ht. apply list_elem_of_fmap in Ht as (q & -> & Hq).
    rewrite Eev in Hq. apply delete_evicts_stored in Hq as [_ (t & Ht)].
    apply Hs in Ht. split; [done | ]. by rewrite (safe_index (hdl c)).
Qed.

(** ** Indexes and addresses *)

Definition in_range (h : DHCPHandler) (x : Z) : Prop := 0 <= x < h_leaseRange h.

Lemma holder_in_range c x k : scope_ok (hdl c) -> mac (pool c) !! x = Some k -> in_range (hdl c) x.
Proof.
  intros Hs Hx. destruct (proj1 (wf_mac _ (scope_pool _ Hs) x)) as [H _]; [by exists k | ].
  by rewrite (scope_capacity _ Hs) in H.
Qed.

Lemma in_range_evolves n m c c' x : evolves n m c c' -> in_range (hdl c) x <-> in_range (hdl c') x.
Proof. intros [(_ & _ & _ & E & _) _ _ _ _]. unfold in_range. by rewrite E. Qed.

(** The address at an index of the range. *)
Lemma scope_addr h x :
  scope_ok h -> in_range h x ->
  exists first, To4 (h_start h) = be32 first /\ is_u32 first /\ is_u32 (first + x) /\
    IPAdd (h_start h) x = Ret (be32 (first + x)).
Proof.
  intros [_ _ (first & E & H0 & Hr & Hmax) _ _] Hx. exists first. unfold in_range, is_u32 in *.
  repeat split; try lia; try done. apply IPAdd_spec; unfold is_u32; (done || lia).
Qed.

Lemma hw_delete_pool t n k c : pool (hw_delete t n k c) = pool c.
Proof. unfold hw_delete. by destruct (Delete _ _). Qed.

Lemma hw_delete_get t t' n k c : hw_get t (hw_delete t' n k c) k = None.
Proof.
  unfold hw_delete, hw_get. pose proof (get_delete_eq t (h_hwcache (hdl c)) k) as H.
  by destruct (Delete (h_hwcache (hdl c)) k).
Qed.

Lemma ReserveIPIndex_vacant h x k :
  scope_ok h -> in_range h x -> mac (h_available h) !! x = None ->
  GetMACIndex (h_available h) x = (x, FreeMac, Some "Index is free"%string) /\
  exists dp, ReserveIPIndex (h_available h) x k = (dp, (None, k)) /\ mac dp !! x = Some k.
Proof.
  intros Hs [H0 Hx] Hk. rewrite <- (scope_capacity _ Hs) in Hx.
  assert (Hfree : is_Some (free (h_available h) !! x)) by (by apply free_iff_vacant; [apply Hs | ]).
  destruct Hfree as [b Hb]. unfold GetMACIndex, IndexInPool, ReserveIPIndex.
  rewrite (proj2 (Z.ltb_lt _ _)), (proj2 (Z.leb_gt _ _)), Hb by lia. split; [done | ].
  eexists. split; [done | ]. apply lookup_insert_eq.
Qed.

(** ** Entries and holders *)

Definition cached_until (limit x t : Z) : option Z := if t <=? limit then Some x else None.

Lemma cached_until_live limit x t : t <= limit -> cached_until limit x t = Some x.
Proof. intros H. unfold cached_until. by rewrite (proj2 (Z.leb_le _ _)). Qed.

Lemma get_set_until now c k v d t :
  0 < d -> Get t (SetItem now c k v d) k = cached_until (now + d) v t.
Proof.
  intros Hd. unfold cached_until. destruct (Z.leb_spec t (now + d)).
  - by apply get_set_eq.
  - by apply get_set_expired.
Qed.

(** From time [t] on, an index cached for [k] is held by [k]. *)
Definition owned (t : Z) (k : string) (h : DHCPHandler) : Prop :=
  forall t' x, t <= t' -> Get t' (h_hwcache h) k = Some x -> mac (h_available h) !! x = Some k.

Lemma owned_until t k h limit x :
  (forall t, Get t (h_hwcache h) k = cached_until limit x t) ->
  mac (h_available h) !! x = Some k -> owned t k h.
Proof. intros Hg Hk t' y _. rewrite Hg. unfold cached_until. case_match; congruence. Qed.

Lemma owned_none t k h : (forall t, Get t (h_hwcache h) k = None) -> owned t k h.
Proof. intros Hg t' y _. by rewrite Hg. Qed.

Lemma owned_other t n m c c' k :
  evolves n m c c' -> k <> m -> owned t k (hdl c) -> owned t k (hdl c').
Proof.
  intros E Hk Ho t' x Ht. rewrite (ev_others _ _ _ _ E) by done. intros G.
  by apply (grows_keeps _ _ _ (ev_pool _ _ _ _ E)), (Ho t').
Qed.

(** ** Replies *)

Lemma reply_packet_evolves n m e p mt c networkIP ip :
  scope_ok (hdl c) -> evolves n m c (reply_packet e p mt c networkIP ip).1 /\
  hdl (reply_packet e p mt c networkIP ip).1 = hdl c.
Proof.
  intros Hs. unfold reply_packet. destruct (buildReplyOptions _ _ _ _ _ _) as [st r].
  split; [by apply evolves_same_hdl | done].
Qed.

(** The option set of a reply is built whenever the hardware address has the
    six bytes that seed the shuffling. *)
Lemma reply_packet_ret e p mt c networkIP ip :
  (6 <= length (CHAddr p))%nat ->
  exists st opts, reply_packet e p mt c networkIP ip =
    (set_overrides st c,
     Ret (ReplyPacket p mt (To4 (h_ip (hdl c))) ip (h_leaseDuration (hdl c)) opts)).
Proof.
  intros Hl. unfold reply_packet, buildReplyOptions.
  destruct (lookup_lt_is_Some_2 (CHAddr p) 5 ltac:(lia)) as [s ->].
  destruct (ApplyOptionOverrides _ _ _ _) as [st o]. simpl. eauto.
Qed.

End Scope.
