(* ===== verification/Lab.v ===== *)
(** * A small laboratory: one scope, two clients

    Concrete packets, an environment and a scope, over the cache of GoCache.v,
    the packet layout of Dhcp4.v and the table of Database.v.  The witnesses of
    Discover.v, Request.v and System.v run the handlers on them. *)

From S2P Require Import Prelude GoStd GoNet Pool GoCache Dhcp4 Database Utils Handler Interface.
From S2P Require Import Scope.
Import Wire Mem.

Definition lab_hw : HardwareAddr := [0; 17; 34; 51; 68; 85].
Definition lab_hw2 : HardwareAddr := [102; 119; 136; 153; 170; 187].

(** A broadcast packet of a client, with its transaction and options. *)
Definition lab_packet (hw : HardwareAddr) (xid : bytes) (options : list (Z * bytes)) : Packet :=
  foldl (fun q kv => AddOption kv.1 kv.2 q)
    (SetXId xid (SetCHAddr hw (NewPacket BootRequest))) options.

Definition lab_env (t : Z) : env :=
  mkEnv t (fun _ _ _ _ => false) (fun _ => "") (fun _ => fixed_choice 0) (fun _ _ _ => 0)
    (fun o => map_to_list o).

(** Its pings: [reply k] is the outcome of the [k]-th. *)
Definition lab_pings (reply : nat -> bool) (t : Z) : env :=
  mkEnv t (fun k _ _ _ => reply k) (fun _ => "") (fun _ => fixed_choice 0) (fun _ _ _ => 0)
    (fun o => map_to_list o).

Definition lab_if : Interface := mkInterface "eth0" [192; 168; 1; 1] "server" [] [2; 0; 0; 0; 0; 1].

Definition lab_options : Options := {[ OptionRouter := [192; 168; 1; 1] ]}.

Definition lab_static (assigned : gmap string Z) (dp : DHCPPool) (hw : gmap string (Z * Z))
    : DHCPHandler :=
  mkHandler [192; 168; 1; 1] [] lab_options [192; 168; 1; 10] 5 (3600 * Second)
    hw (New 0 0) dp true "none" "" assigned.
Definition lab_scope : DHCPPool -> gmap string (Z * Z) -> DHCPHandler := lab_static ∅.

Definition lab_pool : DHCPPool := NewDHCPPool (fun i => i) 5 1.

Definition lab_ctx (h : DHCPHandler) : ctx := mkCtx h (New 0 0) (New 0 0) (New 0 0) w_store [].

Definition lab_key (b : bytes) : string := EncodeToString b.

(** A transaction and a clock. *)
Definition lab_xid : bytes := [1; 2; 3; 4].
Definition lab_t : Z := 1000 * Second.

Lemma lab_client q : mac_of q = w_mac -> mac_of q <> FreeMac.
Proof. by intros ->. Qed.

Lemma lab_scope_ok assigned dp hw :
  pool_wf dp -> capacity dp = 5 -> map_Forall (fun _ it => 0 <= it.1 < 5) hw ->
  scope_ok (lab_static assigned dp hw).
Proof.
  intros Hwf Hc Hhw. split; [done | done | | | done].
  - exists 3232235786. split; [by vm_compute | split; [done | split; [done | by vm_compute]]].
  - intros t k x. simpl. unfold mc_get. destruct (hw !! k) as [it|] eqn:E; [ | done].
    destruct (live t it); [ | done]. intros [= <-]. exact (Hhw k it E).
Qed.

Lemma lab_pool_ok : pool_wf lab_pool /\ capacity lab_pool = 5.
Proof. split; [apply NewDHCPPool_wf | by vm_compute]. Qed.

Lemma lab_fresh_ok : scope_ok (lab_scope lab_pool ∅).
Proof. apply lab_scope_ok; [apply lab_pool_ok.. | apply map_Forall_empty]. Qed.

Lemma lab_bytes l : forallb (fun b => (0 <=? b) && (b <? 256)) l = true -> is_bytes l.
Proof.
  rewrite forallb_forall. intros H. apply Forall_forall. intros b Hb. apply list_elem_of_In in Hb.
  specialize (H b Hb). unfold is_byte. lia.
Qed.

Lemma lab_packet_ok hw xid options :
  (240 <=? length (lab_packet hw xid options))%nat = true ->
  forallb (fun b => (0 <=? b) && (b <? 256)) (lab_packet hw xid options) = true ->
  packet_ok (lab_packet hw xid options).
Proof. intros Hl Hb. split; [by apply Nat.leb_le | by apply lab_bytes]. Qed.

(** The first client has an address and its entry in the hardware cache. *)
Definition lab_leased (x t : Z) : DHCPHandler :=
  lab_scope (ReserveIPIndex lab_pool x w_mac).1 {[ w_mac := (x, t) ]}.

Lemma lab_leased_ok x t : 0 <= x < 5 -> scope_ok (lab_leased x t).
Proof.
  intros Hx. apply lab_scope_ok.
  - apply ReserveIPIndex_wf, lab_pool_ok.
  - rewrite ReserveIPIndex_capacity. apply lab_pool_ok.
  - by apply map_Forall_singleton.
Qed.
