(* ===== verification/Discover.v ===== *)
(** * DISCOVER: the search for an address (src/interface.go, lines 241-382)

    What the search does to the scope in every environment, when its [retry]
    loop ends, which address a client is offered, what happens when an address
    answers the ping, and what a client with the hardware address
    00:00:00:00:00:00 is offered. *)

From S2P Require Import Prelude GoStd GoNet Pool GoCache Dhcp4 Database Utils Handler Interface.
From S2P Require Import Scope Lab.

Section Discover.

Context {CZ : GoCache Z} {LZ : GoCacheLaws Z} {CS : GoCache string} {SQL : SqlDB} {JSON : JSONCodec}
  {D4 : Dhcp4} {LD : Dhcp4Laws}.
Context (ByteToString : bytes -> string).
Context (e : env) (I : Interface) (net : nat) (srvIP : IP) (p : Packet).

Abbreviation m := (mac_of p).
Abbreviation evo := (evolves net m).

(** Every pick follows the language's rules. *)
Definition runtime_ok : Prop := forall k, choice_ok (pick e k).

(** The lemmas of this section are about clients whose hardware address is not
    00:00:00:00:00:00: [GetMACIndex] answers that address for an index nobody
    holds and for one outside the pool, so the handler takes a client with it for
    the holder of every such index ([zero_mac_unreserved]). *)
Hypothesis Hrun : runtime_ok.
Hypothesis Hmac : m <> FreeMac.

(** ** Frame *)

(** The option-50 branch either leaves the choice open or reserves the address
    for the client. *)
Lemma try_requested_spec firstTry fr c :
  scope_ok (hdl c) ->
  match try_requested p firstTry fr c with
  | QPanic => True
  | QRetry => firstTry = true
  | QGo c' f => evo c c' /\ (f = fr /\ pool c' = pool c \/ mac (pool c') !! f = Some m)
  end.
Proof.
  intros Hs. pose proof (scope_pool _ Hs) as Hwf. unfold try_requested.
  destruct (ParseOptions p !! OptionRequestedIPAddress) as [o|];
    [destruct firstTry | ]; try (split; [by apply evolves_refl | by left]).
  destruct (Uint32 o) as [a|]; [ | done].
  destruct (Uint32 (To4 (h_start (hdl c)))) as [b|]; [ | done].
  pose proof (u32_range (a - b)) as Hu. set (el := u32 (a - b)) in *.
  rewrite !safeUint32ToUint64_id by done. unfold is_u32 in Hu.
  destruct (GetMACIndex (pool c) el) as [[i rm] er] eqn:G.
  destruct (String.eqb_spec rm m) as [->|Hne].
  { split; [by apply evolves_refl | right].
    apply GetMACIndex_holder; [done | lia | done | by rewrite G]. }
  destruct (String.eqb_spec rm FreeMac); [ | done].
  destruct (ReserveIPIndex (pool c) el m) as [dp [er' rm']] eqn:R.
  assert (Hg : pool_grows m (pool c) dp).
  { replace dp with (ReserveIPIndex (pool c) el m).1 by (by rewrite R).
    apply ReserveIPIndex_grows; auto. }
  destruct (bool_decide (er' = None) && String.eqb rm' m) eqn:B;
    (split; [by apply evolves_pool | ]); [right | left].
  2: { split; [done | ]. simpl. revert R B. unfold ReserveIPIndex.
       split_matches; intros [= <- <- <-]; try done. by rewrite String.eqb_refl. }
  apply andb_prop in B as [_ B]. apply String.eqb_eq in B as ->. simpl.
  replace dp with (ReserveIPIndex (pool c) el m).1 by (by rewrite R).
  by eapply (ReserveIPIndex_holder _ _ _ er'); [done | by rewrite R | done | ].
Qed.

Definition quiet : Prop := forall k src dst name, ping e k src dst name = false.

(** "Lock it": the client's cache entry and its transaction. *)
Lemma lock_evolves k v x fr c :
  scope_ok (hdl c) -> in_range (hdl c) fr ->
  evo c (xid_set (now e) k v x (hw_set (now e) m fr (5 * Second) c)).
Proof.
  intros Hs Hx. assert (E1 : evo c (hw_set (now e) m fr (5 * Second) c)) by (by apply evolves_hw_set).
  eapply evolves_trans; [exact E1 | ]. apply evolves_xid, (evolves_ok _ _ _ _ Hs E1).
Qed.

Lemma probe_spec k firstTry fr c :
  scope_ok (hdl c) -> in_range (hdl c) fr ->
  match probe ByteToString e I net srvIP p k firstTry fr c with
  | RStop _ | RPanic _ => False
  | RAgain c' ft f => evo c c' /\ ft = false /\ f = 0 /\ ~ quiet
  | RReply c' f => evo c c' /\ f = fr /\ pool c' = pool c /\
      (forall t, hw_get t c' m = cached_until (now e + 5 * Second) fr t)
  end.
Proof.
  intros Hs Hx. unfold probe. set (c1 := hw_set _ _ fr _ c). set (c2 := xid_set _ _ _ _ c1).
  assert (H5 : 0 < 5 * Second) by done.
  assert (E2 : evo c c2) by (by apply lock_evolves).
  pose proof (evolves_ok _ _ _ _ Hs E2) as Hs2.
  destruct (scope_addr (hdl c2) fr) as (first & _ & _ & _ & ->); [done | done | ].
  destruct (ping e k _ _ _) eqn:P; cbn [orb].
  - set (c3 := hw_delete _ _ _ c2). set (c4 := pool_set _ c3).
    assert (E3 : evo c c3) by (eapply evolves_trans; [exact E2 | by apply evolves_hw_delete]).
    pose proof (evolves_ok _ _ _ _ Hs E3) as Hs3.
    assert (E4 : evo c c4).
    { eapply evolves_trans; [exact E3 | ]. apply evolves_pool; [done | ].
      apply ReserveIPIndex_grows; [apply Hs3 | by right]. }
    pose proof (evolves_ok _ _ _ _ Hs E4) as Hs4.
    split; [ | split; [done | split; [done | intros Hq; by rewrite Hq in P]]].
    eapply evolves_trans; [exact E4 | ]. apply evolves_spawn; [done | ].
    apply Forall_singleton. split; [done | ]. rewrite (safe_index (hdl c)) by done.
    by apply (in_range_evolves net m c c4).
  - cbn [arp_conflict Local_]. set (c3 := hw_set _ _ _ _ c2).
    assert (E3 : evo c c3) by (eapply evolves_trans; [exact E2 | by apply evolves_hw_set]).
    pose proof (evolves_ok _ _ _ _ Hs E3) as Hs3.
    split; [eapply evolves_trans; [exact E3 | by apply evolves_xid] | ].
    split; [done | split; [done | ]]. intros t. by apply get_set_until.
Qed.

Lemma GetFreeIPIndex_some c :
  scope_ok (hdl c) -> 0 < FreeIPsRemaining (pool c) ->
  forall k, exists dp i, GetFreeIPIndex (pick e k) (pool c) m = (dp, (i, m, None)) /\
    pool_grows m (pool c) dp /\ mac dp !! i = Some m.
Proof.
  intros Hs Hfree k. unfold FreeIPsRemaining in Hfree.
  destruct (GetFreeIPIndex (pick e k) (pool c) m) as [dp [[i rm] er]] eqn:G.
  assert (Hg : pool_grows m (pool c) dp).
  { pose proof (GetFreeIPIndex_grows (pick e k) m (pool c) (Hrun k) (scope_pool _ Hs)) as H.
    by rewrite G in H. }
  pose proof G as G'. unfold GetFreeIPIndex in G'.
  rewrite (proj2 (Z.eqb_neq _ _)) in G' by lia. injection G' as Hdp Hi Hrm Her.
  subst rm er. exists dp, i. split; [done | split; [done | ]].
  pose proof (GetFreeIPIndex_holder (pick e k) (pool c) m i m) as H. rewrite G in H. auto.
Qed.

(** What one round may do: it ends the search only when the pool is empty, and
    it repeats only after a ping reply or once, dropping the requested address. *)
Definition round_post (firstTry : bool) (fr : Z) (c : ctx) (r : round) : Prop :=
  match r with
  | RStop c' => c' = c /\ FreeIPsRemaining (pool c) = 0
  | RPanic c' => c' = c /\ try_requested p firstTry fr c = QPanic
  | RAgain c' ft f => evo c c' /\ ft = false /\
      (f = 0 /\ ~ quiet \/ f = fr /\ c' = c /\ firstTry = true)
  | RReply c' f => evo c c' /\ in_range (hdl c') f /\ (f = fr \/ mac (pool c') !! f = Some m) /\
      (forall t, hw_get t c' m = cached_until (now e + 5 * Second) f t)
  end.

Lemma retry_round_spec k firstTry fr c :
  scope_ok (hdl c) -> fr = -1 \/ in_range (hdl c) fr ->
  round_post firstTry fr c (retry_round ByteToString e I net srvIP p k firstTry fr c).
Proof.
  intros Hs Hfr. unfold retry_round.
  destruct (Z.ltb_spec 0 (FreeIPsRemaining (pool c))) as [Hfree|Hfree].
  2: { split; [done | ]. unfold FreeIPsRemaining in *. lia. }
  pose proof (try_requested_spec firstTry fr c Hs) as Htry.
  destruct (try_requested p firstTry fr c) as [ | | c1 f1] eqn:T; [done | | ].
  { split; [by apply evolves_refl | split; [done | by right]]. }
  destruct Htry as [E1 Hf1]. pose proof (evolves_ok _ _ _ _ Hs E1) as Hs1.
  assert (Hprobe : forall c2 f2, evo c c2 -> in_range (hdl c2) f2 ->
    f2 = fr \/ mac (pool c2) !! f2 = Some m ->
    round_post firstTry fr c (probe ByteToString e I net srvIP p k firstTry f2 c2)).
  { intros c2 f2 E2 Hr2 Ho2.
    pose proof (probe_spec k firstTry f2 c2 (evolves_ok _ _ _ _ Hs E2) Hr2) as Hp.
    destruct (probe _ _ _ _ _ _ _ _ _ _) as [ | |c3 ft f3|c3 f3]; [done | done | | ].
    - destruct Hp as (E3 & -> & -> & Hq).
      split; [by eapply evolves_trans | split; [done | by left]].
    - destruct Hp as (E3 & -> & P3 & Hg). split; [by eapply evolves_trans | ].
      split; [by apply (in_range_evolves net m c2 c3) | ]. rewrite P3. done. }
  destruct (Z.eqb_spec f1 (-1)) as [->|Hne].
  - destruct Hf1 as [[Hf1 P1] | Hf1]; [ | apply holder_in_range in Hf1; [unfold in_range in Hf1; lia | done]].
    destruct (GetFreeIPIndex_some c1 Hs1) with (k := k) as (dp & i & -> & Hg & Hi); [by rewrite P1 | ].
    assert (E2 : evo c1 (pool_set dp c1)) by (by apply evolves_pool).
    assert (Hr : in_range (hdl (pool_set dp c1)) i).
    { apply (holder_in_range _ _ m); [by eapply evolves_ok | done]. }
    assert (Hi' : safeUint64ToInt i = i).
    { pose proof (range_small _ (evolves_ok _ _ _ _ Hs1 E2)). unfold in_range in Hr.
      rewrite safeUint64ToInt_min; lia. }
    cbn beta iota zeta. rewrite Hi'. apply Hprobe; [by eapply evolves_trans | done | by right].
  - apply Hprobe; [done | | naive_solver].
    destruct Hf1 as [[-> P1] | Hf1]; [ | by eapply holder_in_range].
    apply (in_range_evolves net m c c1); [done | ]. destruct Hfr; [lia | done].
Qed.

Definition search_post (c : ctx) (s : search) : Prop :=
  match s with
  | SFuel => True
  | SStop c' | SPanic c' => evo c c' /\ (quiet -> forall t, owned t m (hdl c) -> owned t m (hdl c'))
  | SReply c' f => evo c c' /\ in_range (hdl c') f /\
      (quiet -> mac (pool c') !! f = Some m) /\
      (forall t, hw_get t c' m = cached_until (now e + 5 * Second) f t)
  end.

Lemma search_post_trans c c1 s :
  evo c c1 -> (quiet -> forall t, owned t m (hdl c) -> owned t m (hdl c1)) ->
  search_post c1 s -> search_post c s.
Proof.
  intros E O. destruct s as [c2|c2|c2 f| ]; simpl; [ | | | done]; intros (E2 & H);
    (split; [by eapply evolves_trans | ]); auto.
Qed.

Lemma search_post_stop c : scope_ok (hdl c) -> search_post c (SStop c).
Proof. intros Hs. split; [by apply evolves_refl | done]. Qed.

Lemma retry_loop_spec fuel k firstTry fr c :
  scope_ok (hdl c) -> fr = -1 \/ in_range (hdl c) fr /\ ~ quiet ->
  search_post c (retry_loop ByteToString e I net srvIP p fuel k firstTry fr c).
Proof.
  revert k firstTry fr c. induction fuel as [|fuel IH]; intros k firstTry fr c Hs Hfr; [done | ].
  cbn [retry_loop]. assert (Hfr' : fr = -1 \/ in_range (hdl c) fr) by tauto.
  pose proof (retry_round_spec k firstTry fr c Hs Hfr') as Hr.
  destruct (retry_round _ _ _ _ _ _ _ _ _ _) as [c1|c1|c1 ft f|c1 f].
  - destruct Hr as [-> _]. by apply search_post_stop.
  - destruct Hr as [-> _]. by apply search_post_stop.
  - destruct Hr as (E1 & -> & Hf). pose proof (evolves_ok _ _ _ _ Hs E1) as Hs1.
    apply (search_post_trans c c1); [done | | ].
    { intros Hq. by destruct Hf as [[_ Hnq] | (_ & -> & _)]. }
    apply IH; [done | ]. destruct Hf as [[-> Hq] | (-> & -> & _)]; [ | done].
    right. split; [ | done]. destruct (scope_range _ Hs1) as (? & _ & _ & ? & _).
    unfold in_range. lia.
  - destruct Hr as (E1 & Hr & Ho & Hg). split; [done | split; [done | split; [ | done]]].
    intros Hq. destruct Ho as [-> | ?]; [ | done].
    destruct Hfr as [-> | [_ Hnq]]; [ | done]. unfold in_range in Hr. lia.
Qed.

(** With a silent network two rounds are enough. *)
Lemma retry_loop_quiet fuel k c :
  scope_ok (hdl c) -> quiet -> 0 < FreeIPsRemaining (pool c) ->
  match retry_loop ByteToString e I net srvIP p (S (S fuel)) k true (-1) c with
  | SReply _ _ => True
  | SPanic c' => try_requested p true (-1) c = QPanic
  | SStop _ | SFuel => False
  end.
Proof.
  intros Hs Hq Hfree. cbn [retry_loop].
  pose proof (retry_round_spec k true (-1) c Hs (or_introl eq_refl)) as Hr.
  destruct (retry_round _ _ _ _ _ _ _ _ _ _) as [c1|c1|c1 ft f|c1 f]; simpl in Hr;
    [lia | by destruct Hr | | done].
  destruct Hr as (_ & -> & [[_ ?] | (-> & -> & _)]); [done | ].
  pose proof (retry_round_spec (S k) false (-1) c Hs (or_introl eq_refl)) as Hr.
  destruct (retry_round _ _ _ _ _ _ _ _ _ _) as [c2|c2|c2 ft f|c2 f]; simpl in Hr;
    [lia | | naive_solver | done].
  destruct Hr as [_ Hr]. unfold try_requested in Hr.
  by destruct (ParseOptions p !! OptionRequestedIPAddress).
Qed.

Lemma cached_replace_spec x c :
  scope_ok (hdl c) -> in_range (hdl c) x ->
  match cached_replace e p x c with
  | CRetry _ => False
  | CStop c' => evo c c' /\ pool c' = pool c /\ hw_get (now e) c m = None
  | CReply c' f => f = x /\ evo c c' /\ pool c' = pool c /\
      (forall t, hw_get t c' m = cached_until (now e + 5 * Second) x t)
  end.
Proof.
  intros Hs Hx. unfold cached_replace. destruct (hw_get (now e) c m) as [v|] eqn:G; unfold hw_get in G.
  - rewrite (replace_found _ _ _ x v) by done. split; [done | ].
    split; [by apply (evolves_hw_set net m (now e) x) | split; [done | ]].
    intros t. by apply get_set_until.
  - destruct (replace_missing (now e) (h_hwcache (hdl c)) m x (5 * Second) G) as [er ->].
    split; [ | done]. split; [done | apply pool_grows_refl, Hs | apply Hs | done | ].
    exists []. by rewrite app_nil_r.
Qed.

(** A cached index is used when the pool has it under the client's name. *)
Lemma use_cached_held x k c :
  scope_ok (hdl c) -> hw_get (now e) c m = Some x -> mac (pool c) !! x = Some k ->
  match use_cached e net p x c with
  | CRetry c' => evo c c' /\ k <> m /\ (forall t, owned t m (hdl c) -> owned t m (hdl c'))
  | CStop c' => False
  | CReply c' f => k = m /\ f = x /\ evo c c' /\ pool c' = pool c /\
      (forall t, hw_get t c' m = cached_until (now e + 5 * Second) x t)
  end.
Proof.
  intros Hs G Hk. assert (Hwf : pool_wf (pool c)) by apply Hs. unfold use_cached.
  assert (Hx : in_range (hdl c) x) by (by eapply scope_cached).
  rewrite (safe_index (hdl c)), (GetMACIndex_held _ _ k Hwf Hk) by done.
  destruct (String.eqb_spec k m) as [->|Hne].
  { pose proof (cached_replace_spec x c Hs Hx) as Hc.
    destruct (cached_replace e p x c) as [c2|c2|c2 f2]; [done | | naive_solver].
    destruct Hc as (_ & _ & Hc). congruence. }
  destruct (String.eqb_spec k FreeMac) as [->|_]; [ | split; [by apply evolves_refl | auto]].
  (* an index held under the free address cannot be reserved *)
  destruct (proj1 (wf_mac _ Hwf x)) as [_ Hf]; [by exists FreeMac | ].
  set (c1 := hw_delete _ _ _ c). assert (P1 : pool c1 = pool c) by apply hw_delete_pool.
  assert (R : exists er, ReserveIPIndex (pool c1) x m = (pool c1, (Some er, FreeMac))).
  { unfold ReserveIPIndex. rewrite P1, Hf. case_match; eauto. }
  destruct R as [er ->]. rewrite bool_decide_false by done. cbn [andb].
  split; [ | split; [done | intros t _; apply owned_none; intros t'; apply hw_delete_get]].
  assert (E1 : evo c c1) by (by apply evolves_hw_delete).
  pose proof (evolves_ok _ _ _ _ Hs E1) as Hs1.
  eapply evolves_trans; [exact E1 | ]. apply evolves_pool; [done | apply pool_grows_refl, Hs1].
Qed.

(** A cached index that is free in the pool is reserved, but the entry has just
    been deleted, so [Replace] fails and the search stops. *)
Lemma use_cached_free x c :
  scope_ok (hdl c) -> hw_get (now e) c m = Some x -> mac (pool c) !! x = None ->
  exists c', use_cached e net p x c = CStop c' /\ evo c c' /\ mac (pool c') !! x = Some m /\
    (forall t, hw_get t c' m = None).
Proof.
  intros Hs G Hk. unfold use_cached.
  assert (Hx : in_range (hdl c) x) by (by eapply scope_cached).
  set (c1 := hw_delete _ _ _ c). assert (E1 : evo c c1) by (by apply evolves_hw_delete).
  pose proof (evolves_ok _ _ _ _ Hs E1) as Hs1.
  assert (P1 : pool c1 = pool c) by apply hw_delete_pool.
  rewrite (safe_index (hdl c)) by done.
  destruct (ReserveIPIndex_vacant (hdl c) x m Hs Hx Hk) as [GM (dp & R & Hd)].
  unfold pool in P1 |- *. rewrite GM, P1, R.
  destruct (String.eqb_spec FreeMac m) as [?|_]; [congruence | ].
  rewrite !String.eqb_refl, bool_decide_true by done. cbn [andb].
  unfold cached_replace.
  destruct (replace_missing (now e) (h_hwcache (hdl (pool_set dp c1))) m x (5 * Second)
              (hw_delete_get (now e) (now e) net m c)) as [er ->].
  eexists. split; [done | ].
  assert (Hg : pool_grows m (pool c1) dp).
  { unfold pool. rewrite P1. replace dp with (ReserveIPIndex (h_available (hdl c)) x m).1 by (by rewrite R).
    apply ReserveIPIndex_grows; [apply Hs | by left]. }
  split; [ | split; [done | intros t; apply (hw_delete_get t (now e) net m c)]].
  eapply evolves_trans; [exact E1 | ]. apply (evolves_pool net m c1 dp Hs1 Hg).
Qed.

Abbreviation find := (find_address ByteToString e I net srvIP p).

Lemma find_address_static fuel c pos :
  h_ipAssigned (hdl c) !! m = Some pos -> find fuel c = SReply c pos.
Proof. intros H. unfold find_address. by rewrite H. Qed.

Lemma find_address_spec fuel c :
  scope_ok (hdl c) -> h_ipAssigned (hdl c) !! m = None -> search_post c (find fuel c).
Proof.
  intros Hs Hst. unfold find_address. rewrite Hst.
  destruct (hw_get (now e) c m) as [x|] eqn:G; [ | apply retry_loop_spec; auto].
  destruct (mac (pool c) !! x) as [k|] eqn:Hk.
  - pose proof (use_cached_held x k c Hs G Hk) as Hc.
    destruct (use_cached e net p x c) as [c1|c1|c1 f1]; [ | done | ].
    + destruct Hc as (E1 & _ & O1). apply (search_post_trans c c1); [done | auto | ].
      apply retry_loop_spec; [by eapply evolves_ok | by left].
    + destruct Hc as (-> & -> & E1 & P1 & Hg).
      split; [done | split; [ | split; [by rewrite P1 | done]]].
      apply (holder_in_range c1 x m); [by eapply evolves_ok | by rewrite P1].
  - destruct (use_cached_free x c Hs G Hk) as (c1 & -> & E1 & _ & G1).
    split; [done | ]. intros _ t _. by apply owned_none.
Qed.

(** Every DISCOVER, in every environment, stays within the frame. *)
Lemma serve_discover_evolves fuel networkIP answer c a c' :
  scope_ok (hdl c) ->
  serve_discover ByteToString e I net srvIP p fuel networkIP answer c = Some (a, c') -> evo c c'.
Proof.
  intros Hs. unfold serve_discover.
  assert (Hf : match find fuel c with
               | SFuel => True | SStop c1 | SPanic c1 | SReply c1 _ => evo c c1 end).
  { destruct (h_ipAssigned (hdl c) !! m) as [pos|] eqn:A.
    - rewrite (find_address_static _ _ pos A). by apply evolves_refl.
    - pose proof (find_address_spec fuel c Hs A) as H.
      destruct (find fuel c); simpl in H; naive_solver. }
  destruct (find fuel c) as [c1|c1|c1 fr| ]; [by intros [= <- <-].. | | done].
  destruct (IPAdd (h_start (hdl c1)) fr) as [ip|]; [ | by intros [= <- <-]].
  pose proof (reply_packet_evolves net m e p Offer c1 networkIP ip (evolves_ok _ _ _ _ Hs Hf)) as [Hr _].
  destruct (reply_packet _ _ _ _ _ _) as [c2 [d|]]; intros [= <- <-]; by eapply evolves_trans.
Qed.

Lemma serve_discover_reply fuel networkIP answer c c1 x :
  find fuel c = SReply c1 x -> scope_ok (hdl c1) -> in_range (hdl c1) x ->
  (6 <= length (CHAddr p))%nat ->
  exists first st d, To4 (h_start (hdl c1)) = be32 first /\
    serve_discover ByteToString e I net srvIP p fuel networkIP answer c =
      Some (with_D d (with_IP (be32 (first + x)) answer), set_overrides st c1).
Proof.
  intros Hf Hs Hx Hl. unfold serve_discover. rewrite Hf.
  destruct (scope_addr (hdl c1) x Hs Hx) as (first & F & _ & _ & ->).
  destruct (reply_packet_ret e p Offer c1 networkIP (be32 (first + x)) Hl) as (st & opts & ->).
  eauto.
Qed.

(** *** Rounds that end with a ping reply *)

Lemma probe_ping k firstTry fr c :
  scope_ok (hdl c) -> in_range (hdl c) fr ->
  (forall src dst name, ping e k src dst name = true) ->
  exists c', probe ByteToString e I net srvIP p k firstTry fr c = RAgain c' false 0 /\
    evo c c' /\ pool c' = (ReserveIPIndex (pool c) fr FakeMac).1.
Proof.
  intros Hs Hx Hp. pose proof (probe_spec k firstTry fr c Hs Hx) as H. revert H.
  unfold probe. set (c2 := xid_set _ _ _ _ _).
  destruct (scope_addr (hdl c2) fr) as (first & _ & _ & _ & ->).
  { eapply evolves_ok, lock_evolves; done. }
  { done. }
  rewrite Hp. cbn [orb]. intros (E & _). eexists. split; [done | split; [exact E | ]].
  simpl. rewrite hw_delete_pool, (safe_index (hdl c)) by done. done.
Qed.

Lemma size_delete_ge (f : gmap Z bool) i : Z.of_nat (size f) - 1 <= Z.of_nat (size (delete i f)).
Proof. rewrite map_size_delete. destruct (f !! i); simpl; lia. Qed.

Lemma size_reserve dp i k :
  Z.of_nat (size (free dp)) - 1 <= FreeIPsRemaining (ReserveIPIndex dp i k).1.
Proof.
  unfold FreeIPsRemaining, ReserveIPIndex. split_matches; simpl; try lia.
  apply size_delete_ge.
Qed.

(** With [free] reset to 0 the loop keeps probing index 0. *)
Lemma retry_loop_zero fuel k c :
  scope_ok (hdl c) -> (forall k src dst name, ping e k src dst name = true) ->
  1 < FreeIPsRemaining (pool c) \/ 0 < FreeIPsRemaining (pool c) /\ free (pool c) !! 0 = None ->
  retry_loop ByteToString e I net srvIP p fuel k false 0 c = SFuel.
Proof.
  intros Hs Hp. revert k c Hs. induction fuel as [|fuel IH]; intros k c Hs Hr; [done | ].
  cbn [retry_loop]. unfold retry_round. rewrite (proj2 (Z.ltb_lt _ _)) by lia.
  assert (Ht : try_requested p false 0 c = QGo c 0) by (unfold try_requested; by case_match).
  rewrite Ht. cbn [Z.eqb].
  assert (Hx : in_range (hdl c) 0).
  { destruct (scope_range _ Hs) as (? & _ & _ & ? & _). unfold in_range. lia. }
  destruct (probe_ping k false 0 c Hs Hx (Hp k)) as (c1 & -> & E1 & P1).
  apply IH; [by eapply evolves_ok | ]. right. rewrite P1.
  pose proof (ReserveIPIndex_lookup (pool c) 0 FakeMac 0 (scope_pool _ Hs)) as [Hz _].
  split; [ | by rewrite Hz, decide_True].
  pose proof (size_reserve (pool c) 0 FakeMac) as Hsz. destruct Hr as [Hr | [Hr Hn]].
  - unfold FreeIPsRemaining in Hr. lia.
  - unfold ReserveIPIndex. rewrite Hn. by destruct (_ <=? _).
Qed.

(** The first round without a requested address: an index is picked, and put
    under the client's name, before the ping. *)
Lemma first_round_ping k c :
  scope_ok (hdl c) -> ParseOptions p !! OptionRequestedIPAddress = None ->
  0 < FreeIPsRemaining (pool c) -> (forall src dst name, ping e k src dst name = true) ->
  exists c', retry_round ByteToString e I net srvIP p k true (-1) c = RAgain c' false 0 /\
    evo c c' /\ FreeIPsRemaining (pool c) - 1 <= FreeIPsRemaining (pool c').
Proof.
  intros Hs H50 Hfree Hp. unfold retry_round. rewrite (proj2 (Z.ltb_lt _ _)) by done.
  unfold try_requested. rewrite H50. cbn [Z.eqb].
  destruct (GetFreeIPIndex_some c Hs Hfree k) as (dp & i & G & Hg & Hi). rewrite G. simpl.
  set (c1 := pool_set dp c). assert (E1 : evo c c1) by (by apply evolves_pool).
  pose proof (evolves_ok _ _ _ _ Hs E1) as Hs1.
  assert (Hr : in_range (hdl c1) i) by (by apply (holder_in_range c1 i m)).
  replace (safeUint64ToInt i) with i.
  2: { pose proof (range_small _ Hs1). unfold in_range in Hr. rewrite safeUint64ToInt_min; lia. }
  destruct (probe_ping k true i c1 Hs1 Hr Hp) as (c2 & -> & E2 & P2).
  exists c2. split; [done | split; [by eapply evolves_trans | ]]. rewrite P2.
  assert (Hheld : free dp !! i = None).
  { destruct (proj1 (wf_mac _ (scope_pool _ Hs1) i)); [by exists m | done]. }
  assert (Hsame : (ReserveIPIndex (pool c1) i FakeMac).1 = dp).
  { change (pool c1) with dp. unfold ReserveIPIndex. rewrite Hheld. by destruct (_ <=? _). }
  rewrite Hsame. unfold GetFreeIPIndex, FreeIPsRemaining in *.
  rewrite (proj2 (Z.eqb_neq _ _)) in G by lia. injection G as <- _.
  apply size_delete_ge.
Qed.

(** On a silent network what is cached for the client stays held by it. *)
Lemma serve_discover_owned fuel networkIP answer c a c' t :
  scope_ok (hdl c) -> quiet -> h_ipAssigned (hdl c) !! m = None ->
  serve_discover ByteToString e I net srvIP p fuel networkIP answer c = Some (a, c') ->
  owned t m (hdl c) -> owned t m (hdl c').
Proof.
  intros Hs Hq Hst. unfold serve_discover. pose proof (find_address_spec fuel c Hs Hst) as Hf.
  destruct (find fuel c) as [c1|c1|c1 fr| ]; simpl in Hf.
  - destruct Hf as [_ O]. intros [= <- <-]. by apply O.
  - destruct Hf as [_ O]. intros [= <- <-]. by apply O.
  - destruct Hf as (E1 & Hr & Ho & Hg).
    assert (O1 : owned t m (hdl c1)) by (apply (owned_until _ _ _ _ _ Hg), Ho, Hq).
    destruct (IPAdd (h_start (hdl c1)) fr) as [ip|]; [ | by intros [= <- <-]].
    destruct (reply_packet_evolves net m e p Offer c1 networkIP ip (evolves_ok _ _ _ _ Hs E1)) as [_ Eh].
    destruct (reply_packet _ _ _ _ _ _) as [c2 [d|]]; intros [= <- <-]; simpl in Eh; by rewrite Eh.
  - done.
Qed.

(** An OFFER on a silent network. *)
Lemma offer_holds fuel networkIP answer c a c' d :
  scope_ok (hdl c) -> quiet -> h_ipAssigned (hdl c) !! m = None -> ans_D answer = None ->
  serve_discover ByteToString e I net srvIP p fuel networkIP answer c = Some (a, c') ->
  ans_D a = Some d ->
  exists x opts,
    in_range (hdl c) x /\ IPAdd (h_start (hdl c)) x = Ret (ans_IP a) /\
    d = ReplyPacket p Offer (To4 (h_ip (hdl c))) (ans_IP a) (h_leaseDuration (hdl c)) opts /\
    mac (pool c') !! x = Some m /\
    (mac (pool c) !! x = None \/ mac (pool c) !! x = Some m) /\
    (forall t, hw_get t c' m = cached_until (now e + 5 * Second) x t) /\
    evo c c'.
Proof.
  intros Hs Hq Hst Hd Hserve Ha.
  pose proof (serve_discover_evolves fuel networkIP answer c a c' Hs Hserve) as E'.
  revert Hserve. unfold serve_discover.
  pose proof (find_address_spec fuel c Hs Hst) as Hf.
  destruct (find fuel c) as [c1|c1|c1 fr| ]; [intros [= <- <-]; congruence.. | | done].
  destruct Hf as (E1 & Hr & Ho & Hg). specialize (Ho Hq).
  pose proof (evolves_ok _ _ _ _ Hs E1) as Hs1.
  destruct (scope_addr (hdl c1) fr Hs1 Hr) as (first & _ & _ & _ & Ha1). rewrite Ha1.
  destruct (reply_packet_evolves net m e p Offer c1 networkIP (be32 (first + fr)) Hs1) as [_ Eh].
  destruct (ev_config _ _ _ _ E1) as (Eip & _ & Est & Erng & Eld & _).
  unfold reply_packet in *. destruct (buildReplyOptions _ _ _ _ _ _) as [st [opts|]]; simpl in *.
  2: intros [= <- <-]; simpl in Ha; congruence.
  intros [= <- <-]. simpl in Ha. injection Ha as <-.
  exists fr, (SelectOrderOrAll opts (opts !! OptionParameterRequestList)).
  rewrite <- Est, <- Eip, <- Eld. unfold in_range in *. rewrite <- Erng.
  do 4 (split; [done | ]). split; [ | split; [done | done]].
  destruct (mac (pool c) !! fr) as [k|] eqn:K; [ | by left]. right.
  apply (grows_keeps _ _ _ (ev_pool _ _ _ _ E1)) in K. congruence.
Qed.

(** *** The requested address on a silent network *)

(** What an OFFER of index [x] leaves behind: the pool of [c1], the client's
    entry for five seconds, and nothing else of the scope. *)
Record offered (c1 c2 : ctx) (x : Z) : Prop := {
  off_pool : pool c2 = pool c1;
  off_config : same_config (hdl c1) (hdl c2);
  off_entry : forall t, hw_get t c2 m = cached_until (now e + 5 * Second) x t;
  off_others : forall t k, k <> m -> hw_get t c2 k = hw_get t c1 k;
  off_requests : RequestGlobalTransactionCache c2 = RequestGlobalTransactionCache c1;
  off_timers : timers c2 = timers c1
}.

Lemma requested_offered fuel networkIP answer c c1 x ip :
  quiet -> h_ipAssigned (hdl c) !! m = None -> hw_get (now e) c m = None ->
  0 < FreeIPsRemaining (pool c) -> (6 <= length (CHAddr p))%nat ->
  try_requested p true (-1) c = QGo c1 x -> x <> -1 -> IPAdd (h_start (hdl c1)) x = Ret ip ->
  exists c2 d,
    serve_discover ByteToString e I net srvIP p (S fuel) networkIP answer c =
      Some (with_D d (with_IP ip answer), c2) /\ offered c1 c2 x.
Proof.
  clear Hrun Hmac. intros Hq Hst G Hfree Hl Ht Hx Ha. unfold serve_discover, find_address. rewrite Hst, G.
  cbn [retry_loop]. unfold retry_round.
  rewrite (proj2 (Z.ltb_lt _ _) Hfree), Ht, (proj2 (Z.eqb_neq _ _) Hx).
  unfold probe. set (c2 := xid_set _ _ _ _ _). change (IPAdd (h_start (hdl c2)) x) with (IPAdd (h_start (hdl c1)) x).
  rewrite Ha, Hq. cbn [orb arp_conflict Local_]. set (c3 := xid_replace _ _ _ _ _).
  change (IPAdd (h_start (hdl c3)) x) with (IPAdd (h_start (hdl c1)) x). rewrite Ha.
  destruct (reply_packet_ret e p Offer c3 networkIP ip Hl) as (st & opts & ->).
  do 2 eexists. split; [reflexivity | ]. split; simpl; try done.
  - intros t. by apply get_set_until.
  - intros t k Hk. unfold hw_get. simpl. by rewrite !get_set_ne by congruence.
Qed.

Lemma offered_ok c1 c2 x :
  scope_ok (hdl c1) -> in_range (hdl c1) x -> offered c1 c2 x -> scope_ok (hdl c2).
Proof.
  intros Hs Hx [P C E O _ _]. unfold pool in P. pose proof C as (_ & _ & Es & Er & El & _).
  destruct Hs as [H1 H2 H3 H4 H5].
  split; [by rewrite P | by rewrite P, Er | by rewrite Es, Er | | by rewrite El].
  intros t k y. rewrite Er. destruct (decide (k = m)) as [->|Hne].
  - change (hw_get t c2 m = Some y -> 0 <= y < h_leaseRange (hdl c1)). rewrite E. unfold cached_until.
    case_match; [ | done]. by intros [= <-].
  - change (hw_get t c2 k = Some y -> 0 <= y < h_leaseRange (hdl c1)). rewrite O by done. apply H4.
Qed.

(** The option-50 branch for an address at or above the first of the scope
    whose index nobody holds: a client with the all-zero address takes it
    without reserving it, whether it is in the range or not; any other client
    reserves it when it is in the range. *)
Lemma try_requested_vacant c a first :
  scope_ok (hdl c) -> ParseOptions p !! OptionRequestedIPAddress = Some (be32 a) ->
  To4 (h_start (hdl c)) = be32 first -> 0 <= first <= a -> is_u32 a ->
  mac (pool c) !! (a - first) = None ->
  (m = FreeMac -> try_requested p true (-1) c = QGo c (a - first)) /\
  (m <> FreeMac -> in_range (hdl c) (a - first) -> exists dp,
     try_requested p true (-1) c = QGo (pool_set dp c) (a - first) /\
     mac dp !! (a - first) = Some m /\ pool_grows m (pool c) dp).
Proof.
  clear Hrun Hmac. intros Hs H50 F Hf Ha Hv. unfold try_requested. unfold is_u32 in Ha.
  rewrite H50, F, <- (app_nil_r (be32 a)), <- (app_nil_r (be32 first)), !Uint32_be32
    by (unfold is_u32; lia).
  rewrite (u32_small (a - first)) by (unfold is_u32; lia).
  rewrite !safeUint32ToUint64_id by (unfold is_u32; lia). split.
  - intros ->. assert (Hg : (GetMACIndex (pool c) (a - first)).1.2 = FreeMac).
    { unfold GetMACIndex, IndexInPool. destruct (Z.ltb_spec (a - first) (capacity (pool c))); [ | done].
      cbn [negb]. assert (Hfree : is_Some (free (pool c) !! (a - first))).
      { apply free_iff_vacant; [apply Hs | split; [simpl; lia | exact Hv]]. }
      by destruct Hfree as [b ->]. }
    destruct (GetMACIndex (pool c) (a - first)) as [[i rm] er]. simpl in Hg. subst rm.
    by rewrite String.eqb_refl.
  - intros Hm Hx. destruct (ReserveIPIndex_vacant (hdl c) (a - first) m Hs Hx Hv) as [GM (dp & R & Hd)].
    unfold pool. rewrite GM, R. destruct (String.eqb_spec FreeMac m) as [?|_]; [congruence | ].
    rewrite !String.eqb_refl, bool_decide_true by done. cbn [andb]. exists dp. split; [done | split; [done | ]].
    replace dp with (ReserveIPIndex (h_available (hdl c)) (a - first) m).1 by (by rewrite R).
    apply ReserveIPIndex_grows; [apply Hs | by left].
Qed.

(** ** A stale cache entry *)

(** A client whose cached index is free in the pool gets no OFFER: the
    handler deletes the cache entry, reserves the index and then asks the cache
    to replace the entry it deleted; it fails and returns without a packet. *)
Theorem discover_cached_free_silent fuel networkIP answer c x :
  scope_ok (hdl c) -> h_ipAssigned (hdl c) !! m = None ->
  hw_get (now e) c m = Some x -> mac (pool c) !! x = None ->
  exists c', serve_discover ByteToString e I net srvIP p fuel networkIP answer c = Some (answer, c') /\
    mac (pool c') !! x = Some m /\ hw_get (now e) c' m = None.
Proof.
  intros Hs Hst G Hk. destruct (use_cached_free x c Hs G Hk) as (c1 & U & E1 & H1 & G1).
  exists c1. split; [ | done]. unfold serve_discover, find_address. by rewrite Hst, G, U.
Qed.

End Discover.

(** ** Properties *)

Section Offers.

Context {CZ : GoCache Z} {LZ : GoCacheLaws Z} {CS : GoCache string} {SQL : SqlDB} {JSON : JSONCodec}
  {D4 : Dhcp4} {LD : Dhcp4Laws}.
Context (ByteToString : bytes -> string).
Context (e : env) (I : Interface) (net : nat) (srvIP : IP) (p : Packet).

Abbreviation m := (mac_of p).

(** C3: on a network where no address answers the ping, an OFFER to a client whose
    hardware address is not 00:00:00:00:00:00 and has no static assignment carries an
    address of the scope whose index the pool then holds for that client, cached for
    it for five seconds; the client took it from nobody, and no other client's index
    or cache entry changed.  ([zero_mac_unreserved] shows what the excluded address
    does.) *)
Theorem discover_offer_sound fuel networkIP answer c a c' d :
  runtime_ok e -> m <> FreeMac ->
  scope_ok (hdl c) -> quiet e -> h_ipAssigned (hdl c) !! m = None -> ans_D answer = None ->
  serve_discover ByteToString e I net srvIP p fuel networkIP answer c = Some (a, c') ->
  ans_D a = Some d ->
  exists x opts,
    in_range (hdl c) x /\ IPAdd (h_start (hdl c)) x = Ret (ans_IP a) /\
    d = ReplyPacket p Offer (To4 (h_ip (hdl c))) (ans_IP a) (h_leaseDuration (hdl c)) opts /\
    mac (pool c') !! x = Some m /\
    (mac (pool c) !! x = None \/ mac (pool c) !! x = Some m) /\
    (forall t, hw_get t c' m = cached_until (now e + 5 * Second) x t) /\
    evolves net m c c'.
Proof. intros Hrun Hmac. by apply offer_holds. Qed.


(** C13: a DISCOVER ends after at most two rounds of the [retry] loop, with an OFFER,
    when the network is silent, the pool has a free index, the client has no static or
    cached address and a hardware address other than 00:00:00:00:00:00, and its packet
    has a six-byte hardware address and a requested address, if any, of at least four
    bytes. *)
Theorem discover_offers fuel networkIP answer c :
  runtime_ok e -> m <> FreeMac ->
  scope_ok (hdl c) -> quiet e -> h_ipAssigned (hdl c) !! m = None -> hw_get (now e) c m = None ->
  0 < FreeIPsRemaining (pool c) -> (6 <= length (CHAddr p))%nat ->
  (forall o, ParseOptions p !! OptionRequestedIPAddress = Some o -> (4 <= length o)%nat) ->
  exists a c' d,
    serve_discover ByteToString e I net srvIP p (S (S fuel)) networkIP answer c = Some (a, c') /\
    ans_D a = Some d.
Proof.
  intros Hrun Hmac Hs Hq Hst G Hfree Hl H50.
  assert (Hf : find_address ByteToString e I net srvIP p (S (S fuel)) c = retry_loop ByteToString e I net srvIP p (S (S fuel)) 0 true (-1) c).
  { unfold find_address. by rewrite Hst, G. }
  pose proof (retry_loop_quiet ByteToString e I net srvIP p Hrun Hmac fuel 0 c Hs Hq Hfree) as Hend.
  pose proof (find_address_spec ByteToString e I net srvIP p Hrun Hmac (S (S fuel)) c Hs Hst) as Hpost. rewrite Hf in Hpost.
  destruct (retry_loop _ _ _ _ _ _ _ _ _ _ _) as [c1|c1|c1 x| ]; try done.
  - exfalso. revert Hend. unfold try_requested.
    destruct (ParseOptions p !! OptionRequestedIPAddress) as [o|]; [ | done].
    specialize (H50 o eq_refl). destruct (scope_range _ Hs) as (first & -> & _).
    destruct o as [|? [|? [|? [|? o]]]]; simpl in H50; try lia.
    cbn [Uint32 be32]. by split_matches.
  - destruct Hpost as (E1 & Hx & _).
    destruct (serve_discover_reply ByteToString e I net srvIP p (S (S fuel)) networkIP answer c c1 x Hf
      (evolves_ok _ _ _ _ Hs E1) Hx Hl) as (first & st & d & _ & ->).
    by do 3 eexists.
Qed.

(** C33: a DISCOVER never ends, whatever the fuel, when every probed address answers
    the ping the client has no static or cached address and asks for none, and three
    indexes are free: after a reply [free] is reset to 0 instead of -1, so every later
    round probes the first address again and no round takes an index from the pool. *)
Theorem discover_diverges fuel networkIP answer c :
  runtime_ok e ->
  scope_ok (hdl c) -> (forall k src dst name, ping e k src dst name = true) ->
  h_ipAssigned (hdl c) !! m = None -> hw_get (now e) c m = None ->
  ParseOptions p !! OptionRequestedIPAddress = None -> 3 <= FreeIPsRemaining (pool c) ->
  serve_discover ByteToString e I net srvIP p fuel networkIP answer c = None.
Proof.
  intros Hrun Hs Hp Hst G H50 Hfree. unfold serve_discover, find_address. rewrite Hst, G.
  destruct fuel as [|fuel]; [done | ]. cbn [retry_loop].
  destruct (first_round_ping ByteToString e I net srvIP p Hrun 0 c Hs H50 ltac:(lia) (Hp 0%nat)) as (c1 & -> & E1 & Hr).
  rewrite retry_loop_zero; [done | by eapply evolves_ok | done | left; lia].
Qed.

(** C34: after one ping reply a client (no static and no cached address, no requested
    address, two free indexes) is offered the first address of the range even when the
    pool holds it for another client, if its hardware address has at least six bytes:
    the holder of index 0 is unchanged, and the client's cache entry names an index it
    does not hold. *)
Theorem discover_offers_held_address fuel networkIP answer c k :
  runtime_ok e ->
  scope_ok (hdl c) ->
  (forall src dst name, ping e 0 src dst name = true) ->
  (forall src dst name, ping e 1 src dst name = false) ->
  h_ipAssigned (hdl c) !! m = None -> hw_get (now e) c m = None ->
  ParseOptions p !! OptionRequestedIPAddress = None -> 2 <= FreeIPsRemaining (pool c) ->
  (6 <= length (CHAddr p))%nat -> mac (pool c) !! 0 = Some k ->
  exists a c' d first,
    serve_discover ByteToString e I net srvIP p (S (S fuel)) networkIP answer c = Some (a, c') /\
    ans_D a = Some d /\ To4 (h_start (hdl c)) = be32 first /\ ans_IP a = be32 first /\
    mac (pool c') !! 0 = Some k /\ hw_get (now e) c' m = Some 0.
Proof.
  intros Hrun Hs Hp0 Hp1 Hst G H50 Hfree Hl Hk.
  destruct (first_round_ping ByteToString e I net srvIP p Hrun 0 c Hs H50 ltac:(lia) Hp0) as (c1 & R1 & E1 & Hr).
  pose proof (evolves_ok _ _ _ _ Hs E1) as Hs1.
  assert (Hx : in_range (hdl c1) 0).
  { destruct (scope_range _ Hs1) as (? & _ & _ & ? & _). unfold in_range. lia. }
  assert (R2 : exists c2, retry_round ByteToString e I net srvIP p 1 false 0 c1 = RReply c2 0 /\
    evolves net m c1 c2 /\ hw_get (now e) c2 m = Some 0).
  { unfold retry_round. rewrite (proj2 (Z.ltb_lt _ _)) by lia.
    unfold try_requested. rewrite H50. cbn [Z.eqb].
    pose proof (probe_spec ByteToString e I net srvIP p 1 false 0 c1 Hs1 Hx) as Hpr. revert Hpr. unfold probe.
    destruct (scope_addr _ 0 Hs1 Hx) as (first & _ & _ & _ & F). simpl in *. rewrite F, Hp1.
    cbn [orb arp_conflict Local_]. intros (E2 & _ & _ & Hg).
    eexists. split; [done | split; [exact E2 | rewrite Hg]]. apply cached_until_live. unfold Second. lia. }
  destruct R2 as (c2 & R2 & E2 & Hg2). assert (E' : evolves net m c c2) by (by eapply evolves_trans).
  assert (Hf : find_address ByteToString e I net srvIP p (S (S fuel)) c = SReply c2 0).
  { unfold find_address. rewrite Hst, G. cbn [retry_loop]. by rewrite R1, R2. }
  destruct (serve_discover_reply ByteToString e I net srvIP p _ networkIP answer c c2 0 Hf
    (evolves_ok _ _ _ _ Hs E') ltac:(by apply (in_range_evolves net m c1 c2)) Hl)
    as (first & st & d & F & ->).
  do 4 eexists. do 2 (split; [done | ]). destruct (ev_config _ _ _ _ E') as (_ & _ & <- & _).
  split; [exact F | split; [simpl; by rewrite Z.add_0_r | split; [ | done]]].
  by apply (grows_keeps _ _ _ (ev_pool _ _ _ _ E')).
Qed.

End Offers.

(** ** Witnesses *)

Section Witnesses.

Import Wire Mem.

Definition w_answer : Answer := mkAnswer None [] lab_hw [192; 168; 1; 1].
Definition w_discover (e : env) (options : list (Z * bytes)) (fuel : nat) (c : ctx) :=
  serve_discover lab_key e lab_if 0 [] (lab_packet lab_hw lab_xid options) fuel "192.168.1.0" w_answer c.

Lemma w_runtime t reply : runtime_ok (lab_env t) /\ runtime_ok (lab_pings reply t).
Proof. split; intros k; apply fixed_choice_ok. Qed.

Definition w_want : list (Z * bytes) := [(OptionRequestedIPAddress, [192; 168; 1; 12])].
Definition w_fresh : ctx := lab_ctx (lab_scope lab_pool ∅).

Lemma discover_offer_sound_witness :
  exists a c', w_discover (lab_env lab_t) w_want 2 w_fresh = Some (a, c') /\
    exists x, mac (pool c') !! x = Some w_mac.
Proof.
  assert (Hd : exists d, (fun r => ans_D r.1) <$> w_discover (lab_env lab_t) w_want 2 w_fresh = Some (Some d)).
  { eexists. vm_compute. reflexivity. }
  destruct Hd as [d Hd].
  destruct (w_discover (lab_env lab_t) w_want 2 w_fresh) as [[a c']|] eqn:E; [ | done].
  exists a, c'. split; [done | ]. injection Hd as Hd.
  destruct (discover_offer_sound lab_key (lab_env lab_t) lab_if 0 [] (lab_packet lab_hw lab_xid w_want)
    2 "192.168.1.0" w_answer w_fresh a c' d
    (proj1 (w_runtime lab_t (fun _ => false))) (lab_client (lab_packet lab_hw lab_xid w_want) eq_refl))
    as (x & _ & _ & _ & _ & Hx & _); [ | by intros | done | done | exact E | exact Hd | by exists x].
  apply lab_fresh_ok.
Defined.

Lemma discover_offers_witness :
  exists a c' d, w_discover (lab_env lab_t) [] 2 w_fresh = Some (a, c') /\ ans_D a = Some d.
Proof.
  apply (discover_offers lab_key (lab_env lab_t) lab_if 0 [] (lab_packet lab_hw lab_xid []) 0).
  - apply (w_runtime lab_t (fun _ => false)).
  - by apply lab_client.
  - apply lab_fresh_ok.
  - by intros.
  - done.
  - done.
  - by vm_compute.
  - simpl. lia.
  - intros o Ho. vm_compute in Ho. discriminate.
Defined.

Lemma discover_diverges_witness :
  w_discover (lab_pings (fun _ => true) lab_t) [] 50 w_fresh = None.
Proof.
  apply (discover_diverges lab_key (lab_pings (fun _ => true) lab_t) lab_if 0 []
    (lab_packet lab_hw lab_xid []) 50).
  - apply (w_runtime lab_t (fun _ => true)).
  - apply lab_fresh_ok.
  - done.
  - done.
  - done.
  - by vm_compute.
  - by vm_compute.
Defined.

(** The client with the all-zero address and then the laboratory's client ask
    for 192.168.1.12. *)
Definition w_zero : Packet := lab_packet [0; 0; 0; 0; 0; 0] [9; 9; 9; 9] w_want.


(** Another client holds the first address. *)
Definition w_first_held : ctx := lab_ctx (lab_scope (ReserveIPIndex lab_pool 0 w_mac2).1 ∅).

Lemma discover_offers_held_address_witness :
  exists a c', w_discover (lab_pings (fun k => Nat.eqb k 0) lab_t) [] 2 w_first_held = Some (a, c') /\
    ans_IP a = [192; 168; 1; 10] /\ mac (pool c') !! 0 = Some w_mac2.
Proof.
  destruct (discover_offers_held_address lab_key (lab_pings (fun k => Nat.eqb k 0) lab_t) lab_if 0 []
    (lab_packet lab_hw lab_xid []) 0 "192.168.1.0" w_answer w_first_held w_mac2
    (proj2 (w_runtime lab_t (fun k => Nat.eqb k 0))))
    as (a & c' & d & first & Hserve & Hd & Hf & Ha & Hm & _).
  - apply lab_scope_ok; [apply ReserveIPIndex_wf, lab_pool_ok | by vm_compute | apply map_Forall_empty].
  - done.
  - done.
  - done.
  - done.
  - by vm_compute.
  - by vm_compute.
  - simpl. lia.
  - by vm_compute.
  - exists a, c'. split; [exact Hserve | split; [ | exact Hm]]. by rewrite Ha, <- Hf.
Defined.

(** The client's cached index was freed by a sleeping goroutine. *)
Definition w_stale : ctx := lab_ctx (lab_scope lab_pool {[ w_mac := (3, lab_t + 60 * Second) ]}).

Lemma discover_cached_free_silent_witness :
  exists c', w_discover (lab_env lab_t) [] 2 w_stale = Some (w_answer, c') /\
    mac (pool c') !! 3 = Some w_mac.
Proof.
  destruct (discover_cached_free_silent lab_key (lab_env lab_t) lab_if 0 [] (lab_packet lab_hw lab_xid [])
    (lab_client (lab_packet lab_hw lab_xid []) eq_refl) 2 "192.168.1.0" w_answer w_stale 3) as (c' & Hserve & Hm & _).
  - apply lab_scope_ok; [apply lab_pool_ok.. | apply map_Forall_singleton]. simpl. lia.
  - done.
  - by vm_compute.
  - by vm_compute.
  - exists c'. by split; [exact Hserve | exact Hm].
Defined.

End Witnesses.
