(* ===== verification/Request.v ===== *)
(** * REQUEST, INFORM, RELEASE and DECLINE (src/interface.go, lines 384-544)

    Who gets an ACK and what the caches say afterwards, who gets a NAK and who
    no answer at all; what giving an address back really does; and the whole
    DISCOVER-OFFER-REQUEST-ACK exchange. *)

From S2P Require Import Prelude GoStd GoNet Pool GoCache Dhcp4 Database Utils Handler Interface.
From S2P Require Import Scope Lab Discover.

Section Request.

Context {CZ : GoCache Z} {LZ : GoCacheLaws Z} {CS : GoCache string} {LS : GoCacheLaws string}
  {SQL : SqlDB} {JSON : JSONCodec} {D4 : Dhcp4} {LD : Dhcp4Laws}.
Context (ByteToString : bytes -> string).
Context (e : env) (net : nat) (p : Packet).

Abbreviation m := (mac_of p).
Abbreviation evo := (evolves net m).
Abbreviation key := (cacheKey ByteToString p).

(** As in Discover.v, the client's hardware address is not the one that stands
    for a free index. *)
Hypothesis Hmac : m <> FreeMac.
Hypothesis Hpkt : packet_ok p.

(** ** The checks on the requested address *)

Lemma reqIP_bytes : is_bytes (reqIP p).
Proof.
  unfold reqIP. destruct (ParseOptions p !! OptionRequestedIPAddress) as [o|] eqn:E; simpl.
  - by eapply ParseOptions_bytes.
  - by apply CIAddr_bytes.
Qed.

Lemma reqIP_be32 : length (reqIP p) = 4%nat -> exists b, reqIP p = be32 b /\ is_u32 b.
Proof.
  intros Hl. pose proof reqIP_bytes as Hb.
  destruct (reqIP p) as [|b0 [|b1 [|b2 [|b3 [|? ?]]]]]; try discriminate.
  destruct (Uint32 [b0; b1; b2; b3]) as [v|] eqn:E; [ | discriminate].
  exists v. split; [ | by eapply Uint32_range].
  symmetry. by apply be32_Uint32.
Qed.

(** Only a request answered from the cache touches the request transactions. *)
Definition noted (msgType : Z) (c : ctx) : ctx :=
  set_request_cache (SetItem (now e) (RequestGlobalTransactionCache c) (key msgType) 1 (1 * Second)) c.

Definition verdict_post (msgType : Z) (answer : Answer) (c : ctx) (v : verdict) : Prop :=
  match v with
  | VReply c' x =>
      in_range (hdl c) x /\ IPAdd (h_start (hdl c)) x = Ret (reqIP p) /\
      match h_ipAssigned (hdl c) !! m with
      | Some pos => x = pos /\ c' = c
      | None => mac (pool c) !! x = Some m /\ hw_get (now e) c m = Some x /\ c' = noted msgType c
      end
  | VNak c' => c' = c \/ c' = noted msgType c \/ c' = hw_delete (now e) net m c
  | VReturn c' a => c' = c /\ (a = answer \/ a = emptyAnswer)
  end.

Lemma request_cached_spec msgType answer c :
  scope_ok (hdl c) -> length (reqIP p) = 4%nat -> h_ipAssigned (hdl c) !! m = None ->
  verdict_post msgType answer c (request_cached ByteToString e net p msgType answer c).
Proof.
  intros Hs Hl Hst. unfold request_cached.
  destruct (hw_get (now e) c m) as [x|] eqn:G; [ | split; [done | by right]].
  assert (Hx : in_range (hdl c) x) by (by eapply scope_cached).
  destruct (scope_addr (hdl c) x Hs Hx) as (first & F & Hf & Hfx & Ha). rewrite Ha.
  destruct (IP_Equal (be32 (first + x)) (reqIP p)) eqn:Q.
  - unfold request_match.
    destruct (Get (now e) (RequestGlobalTransactionCache c) (key msgType)); [split; auto | ].
    destruct (GetMACIndex (pool c) (safeIntToUint64 x)) as [[i rm] er] eqn:GM.
    rewrite (safe_index (hdl c)) in GM by done.
    destruct (String.eqb_spec rm m) as [->|_]; [ | right; by left].
    assert (Hk : mac (pool c) !! x = Some m).
    { apply GetMACIndex_holder; [apply Hs | apply Hx | done | by rewrite GM]. }
    unfold verdict_post. rewrite Hst. split; [done | split; [ | done]].
    rewrite Ha. f_equal. apply IP_Equal_same_len; [by rewrite Hl | done].
  - unfold request_mismatch. destruct (Uint32 (XId p)) as [xid|]; [ | split; auto].
    destruct (Get (now e) (h_xid (hdl c)) (Itoa xid)) as [v|]; [ | by left].
    destruct (v =? 1); [right; by right | by left].
Qed.

Lemma request_verdict_spec msgType answer c :
  scope_ok (hdl c) -> length (reqIP p) = 4%nat ->
  verdict_post msgType answer c (request_verdict ByteToString e net p msgType answer c).
Proof.
  intros Hs Hl. unfold request_verdict. destruct (reqIP_be32 Hl) as (b & Eb & Hb).
  destruct (scope_range _ Hs) as (first & F & H0 & Hr & Hmax).
  rewrite (IPRange_spec _ _ first b F); [ | rewrite Eb; by apply To4_v4 | unfold is_u32; lia | done].
  replace (b - first + 1 - 1) with (b - first) by lia.
  destruct ((0 <=? b - first) && (b - first <? h_leaseRange (hdl c))) eqn:B; [ | by left].
  apply andb_prop in B as [B1 B2]. zbool.
  destruct (h_ipAssigned (hdl c) !! m) as [pos|] eqn:A; [ | by apply request_cached_spec].
  destruct (Z.eqb_spec pos (b - first)) as [->|_]; [ | by left].
  assert (Hx : in_range (hdl c) (b - first)) by (unfold in_range; lia).
  unfold verdict_post. rewrite A. split; [done | split; [ | done]].
  destruct (scope_addr (hdl c) (b - first) Hs Hx) as (first' & F' & Hf' & _ & ->).
  assert (first' = first) as ->.
  { apply be32_inj; [done | unfold is_u32; lia | congruence]. }
  rewrite Eb. do 2 f_equal. lia.
Qed.

(** ** The frame *)

Lemma evolves_noted msgType c : scope_ok (hdl c) -> evo c (noted msgType c).
Proof. intros Hs. by apply evolves_same_hdl. Qed.

Lemma record_lease_evolves x c :
  scope_ok (hdl c) -> in_range (hdl c) x -> evo c (record_lease e p x c).
Proof.
  intros Hs Hx. unfold record_lease. set (c1 := set_global _ _ c).
  assert (E1 : evo c c1) by (by apply evolves_same_hdl).
  set (c2 := hw_set _ _ _ _ c1).
  assert (E2 : evo c1 c2).
  { apply evolves_hw_set; [done | done | ]. pose proof (scope_lease _ Hs). unfold Second. lia. }
  assert (Hs2 : scope_ok (hdl c2)) by (by eapply evolves_ok, E2).
  eapply evolves_trans; [exact E1 | eapply evolves_trans; [exact E2 | ]].
  apply evolves_pool; [done | ]. apply ReserveIPIndex_grows; [apply Hs2 | by left].
Qed.

Lemma verdict_evolves msgType answer c v :
  scope_ok (hdl c) -> verdict_post msgType answer c v ->
  match v with VReply c' _ | VNak c' | VReturn c' _ => evo c c' end.
Proof.
  intros Hs. destruct v as [c' x|c'|c' a]; simpl.
  - intros (_ & _ & H). destruct (h_ipAssigned (hdl c) !! m) as [pos|].
    + destruct H as [_ ->]. by apply evolves_refl.
    + destruct H as (_ & _ & ->). by apply evolves_noted.
  - intros [-> | [-> | ->]]; [by apply evolves_refl | by apply evolves_noted | by apply evolves_hw_delete].
  - intros [-> _]. by apply evolves_refl.
Qed.

Lemma serve_request_evolves msgType networkIP answer c :
  scope_ok (hdl c) -> evo c (serve_request ByteToString e net p msgType networkIP answer c).2.
Proof.
  intros Hs. unfold serve_request. destruct (foreign_server p c); [by apply evolves_refl | ].
  destruct ((length (reqIP p) =? 4)%nat && negb (IP_Equal (reqIP p) IPv4zero)) eqn:L;
    [ | by apply evolves_refl].
  apply andb_prop in L as [L _]. apply Nat.eqb_eq in L.
  set (answer' := with_IP (reqIP p) answer).
  pose proof (request_verdict_spec msgType answer' c Hs L) as Hv.
  pose proof (verdict_evolves msgType answer' c _ Hs Hv) as Ev.
  destruct (request_verdict _ _ _ _ _ _ _) as [c1 x|c1|c1 a]; [ | done | done].
  assert (Hs1 : scope_ok (hdl c1)) by (by eapply evolves_ok).
  destruct (reply_packet_evolves net m e p ACK c1 networkIP (reqIP p) Hs1) as [E2 _].
  destruct (reply_packet e p ACK c1 networkIP (reqIP p)) as [c2 [d|]]; simpl in *.
  - eapply evolves_trans; [exact Ev | eapply evolves_trans; [exact E2 | ]].
    apply record_lease_evolves; [by eapply evolves_ok | ]. destruct Hv as [Hx _].
    by apply (in_range_evolves net m c1 c2), (in_range_evolves net m c c1).
  - by eapply evolves_trans.
Qed.

(** ** What an ACK leaves behind *)

Record acked (c c' : ctx) (a : Answer) (x : Z) : Prop := {
  acked_packet : exists opts, ans_D a =
    Some (ReplyPacket p ACK (To4 (h_ip (hdl c))) (reqIP p) (h_leaseDuration (hdl c)) opts);
  acked_ip : ans_IP a = reqIP p;
  acked_range : in_range (hdl c) x;
  acked_index : IPAdd (h_start (hdl c)) x = Ret (reqIP p);
  acked_caches : forall t, t <= now e + (h_leaseDuration (hdl c) + 15 * Second) ->
    hw_get t c' m = Some x /\
    Get t (GlobalIpCache c') (IP_String (reqIP p)) = Some m /\
    Get t (GlobalMacCache c') m = Some (IP_String (reqIP p))
}.

(** The reply and the records, once the verdict is to acknowledge. *)
Lemma ack_reply networkIP answer c c1 x :
  scope_ok (hdl c) -> (6 <= length (CHAddr p))%nat -> hdl c1 = hdl c ->
  in_range (hdl c) x -> IPAdd (h_start (hdl c)) x = Ret (reqIP p) ->
  exists a c',
    match reply_packet e p ACK c1 networkIP (reqIP p) with
    | (c2, Panic) => (with_IP (reqIP p) answer, c2)
    | (c2, Ret d) => (with_D d (with_IP (reqIP p) answer), record_lease e p x c2)
    end = (a, c') /\
    acked c c' a x /\ pool c' = (ReserveIPIndex (pool c) x m).1.
Proof.
  intros Hs Hl Hh Hx Ha.
  destruct (reply_packet_ret e p ACK c1 networkIP (reqIP p) Hl) as (st & opts & ->).
  do 2 eexists. split; [done | ].
  assert (Hd : 0 < h_leaseDuration (hdl c1) + 15 * Second).
  { rewrite Hh. pose proof (scope_lease _ Hs). unfold Second. lia. }
  split.
  - split; [exists opts; by rewrite <- Hh | done | done | done | ].
    intros t Ht. rewrite <- Hh in Ht. simpl.
    split; [by apply get_set_eq | split; by apply get_set_eq].
  - unfold record_lease. cbn [pool pool_set upd_hdl hdl h_available set_available].
    rewrite (safe_index (hdl c)) by done. unfold pool. simpl. by rewrite Hh.
Qed.

Lemma reserve_held dp x k k' : pool_wf dp -> mac dp !! x = Some k -> (ReserveIPIndex dp x k').1 = dp.
Proof.
  intros Hwf Hk. destruct (proj1 (wf_mac dp Hwf x)) as [_ Hf]; [by exists k | ].
  unfold ReserveIPIndex. rewrite Hf. by destruct (_ <=? _).
Qed.

(** ** Giving an address back *)

Lemma set_available_same c : pool_set (pool c) c = c.
Proof. by destruct c as [[]]. Qed.

(** RELEASE and DECLINE do nothing, or start the two goroutines. *)
Lemma give_back_spec answer c :
  scope_ok (hdl c) ->
  give_back e net p answer c = (answer, c) \/
  exists x, mac (pool c) !! x = Some m /\ hw_get (now e) c m = Some x /\
    give_back e net p answer c =
      (answer, spawn [mkTimer (now e + 10 * Minute) (FreeIndex net x);
                      mkTimer (now e) (DeleteHw net m)] c).
Proof.
  intros Hs. unfold give_back. destruct (IPRange _ _) as [n|]; [ | by left].
  destruct ((0 <=? n - 1) && (n - 1 <? h_leaseRange (hdl c))) eqn:B; [ | by left].
  apply andb_prop in B as [B1 B2]. zbool.
  destruct (hw_get (now e) c m) as [x|]; [ | by left].
  destruct (Z.eqb_spec (n - 1) x) as [Ex|_]; [ | by left]. rewrite Ex in B1, B2 |- *.
  rewrite (safe_index (hdl c)) by done.
  destruct (GetMACIndex (pool c) x) as [[i rm] er] eqn:G.
  destruct (String.eqb_spec rm m) as [->|_]; [ | by left].
  assert (Hk : mac (pool c) !! x = Some m).
  { apply GetMACIndex_holder; [apply Hs | lia | done | by rewrite G]. }
  right. exists x. split; [done | split; [done | ]].
  by rewrite (reserve_held _ _ m), set_available_same by (done || apply Hs).
Qed.

Lemma give_back_evolves answer c : scope_ok (hdl c) -> evo c (give_back e net p answer c).2.
Proof.
  intros Hs. destruct (give_back_spec answer c Hs) as [-> | (x & Hk & _ & ->)].
  - by apply evolves_refl.
  - apply evolves_spawn; [done | ]. apply Forall_cons. split.
    + split; [done | ]. by apply (holder_in_range c x m).
    + by apply Forall_singleton.
Qed.

(** What is cached for a client without a static assignment stays held by it. *)
Lemma serve_request_owned msgType networkIP answer c t :
  scope_ok (hdl c) -> h_ipAssigned (hdl c) !! m = None -> owned t m (hdl c) ->
  owned t m (hdl (serve_request ByteToString e net p msgType networkIP answer c).2).
Proof.
  intros Hs Hst Ho. unfold serve_request. destruct (foreign_server p c); [done | ].
  destruct ((length (reqIP p) =? 4)%nat && negb (IP_Equal (reqIP p) IPv4zero)) eqn:L; [ | done].
  apply andb_prop in L as [L _]. apply Nat.eqb_eq in L.
  pose proof (request_verdict_spec msgType (with_IP (reqIP p) answer) c Hs L) as Hv.
  destruct (request_verdict _ _ _ _ _ _ _) as [c1 x|c1|c1 a1]; simpl in Hv.
  - destruct Hv as (Hx & Ha & Hv). rewrite Hst in Hv. destruct Hv as (Hk & _ & ->).
    destruct (reply_packet_evolves net m e p ACK (noted msgType c) networkIP (reqIP p) Hs) as [E2 Eh].
    destruct (reply_packet e p ACK (noted msgType c) networkIP (reqIP p)) as [c2 [d|]]; simpl in *;
      [ | by rewrite Eh].
    apply (owned_until t m _ (now e + (h_leaseDuration (hdl c2) + 15 * Second)) x).
    + intros t'. apply get_set_until. rewrite Eh. pose proof (scope_lease _ Hs). unfold Second. lia.
    + unfold record_lease, pool. simpl. rewrite Eh, (safe_index (hdl c)) by done.
      by rewrite (reserve_held _ _ m) by (done || apply Hs).
  - destruct Hv as [-> | [-> | ->]]; [done | done | ].
    apply owned_none. intros t'. apply hw_delete_get.
  - by destruct Hv as [-> _].
Qed.

(** ** Static assignments, RELEASE and DECLINE *)

(** A client with a static assignment that asks for its address gets an ACK
    whoever holds the address: the pool is not consulted, and when it names
    another client it still does afterwards. *)
Theorem static_ack_ignores_holder msgType networkIP answer c a c' pos first k :
  scope_ok (hdl c) -> h_ipAssigned (hdl c) !! m = Some pos -> (6 <= length (CHAddr p))%nat ->
  To4 (h_start (hdl c)) = be32 first -> is_u32 first -> in_range (hdl c) pos ->
  reqIP p = be32 (first + pos) -> first + pos <> 0 -> foreign_server p c = false ->
  mac (pool c) !! pos = Some k ->
  serve_request ByteToString e net p msgType networkIP answer c = (a, c') ->
  acked c c' a pos /\ mac (pool c') !! pos = Some k.
Proof.
  intros Hs Hst Hl F Hf Hx Hreq H0 Hsrv Hk. unfold serve_request. rewrite Hsrv.
  destruct (scope_addr (hdl c) pos Hs Hx) as (first' & F' & Hf' & Hfx & Ha).
  assert (first' = first) as -> by (apply be32_inj; congruence).
  assert (L : length (reqIP p) = 4%nat) by (by rewrite Hreq).
  assert (Hz : IP_Equal (reqIP p) IPv4zero = false).
  { apply not_true_is_false. rewrite IPv4zero_Equal by done. rewrite Hreq. intros Hz.
    apply H0, (be32_inj (first + pos) 0); [done | unfold is_u32; lia | exact Hz]. }
  rewrite L, Hz. cbn [Nat.eqb andb negb]. unfold request_verdict.
  rewrite (IPRange_spec _ _ first (first + pos)); [ | done | by rewrite Hreq, To4_v4 | done | done].
  replace (first + pos - first + 1 - 1) with pos by lia. destruct Hx as [Hx1 Hx2].
  rewrite (proj2 (Z.leb_le _ _)), (proj2 (Z.ltb_lt _ _)), Hst, Z.eqb_refl by done. cbn [andb].
  rewrite <- Hreq in Ha.
  destruct (ack_reply networkIP answer c c pos Hs Hl eq_refl (conj Hx1 Hx2) Ha)
    as (a2 & c2 & -> & Hack & Hp).
  intros [= <- <-]. split; [done | ]. rewrite Hp.
  by rewrite (reserve_held _ _ k) by (done || apply Hs).
Qed.

(** RELEASE and DECLINE leave the pool exactly as it is, though the handler
    means to mark the address unusable for ten minutes: the index is held by
    the client, so reserving it for the fake address fails.  When the client
    holds and has cached the address, all that happens is that two goroutines
    start, one that frees the index in ten minutes and one that deletes the
    cache entry at once. *)
Theorem give_back_reserves_nothing answer c :
  scope_ok (hdl c) ->
  pool (serve_release e net p answer c).2 = pool c /\
  pool (serve_decline e net p answer c).2 = pool c /\
  (forall x, mac (pool c) !! x = Some m -> hw_get (now e) c m = Some x ->
     IPAdd (h_start (hdl c)) x = Ret (reqIP p) ->
     timers (serve_release e net p answer c).2 =
       timers c ++ [mkTimer (now e + 10 * Minute) (FreeIndex net x);
                    mkTimer (now e) (DeleteHw net m)]).
Proof.
  intros Hs. unfold serve_release, serve_decline.
  assert (Hp : pool (give_back e net p answer c).2 = pool c).
  { by destruct (give_back_spec answer c Hs) as [-> | (x & _ & _ & ->)]. }
  split; [done | split; [done | ]]. intros x Hk G Ha.
  destruct (scope_addr (hdl c) x Hs (holder_in_range c x m Hs Hk)) as (first & F & Hf & Hfx & Ha').
  assert (Hreq : reqIP p = be32 (first + x)) by congruence.
  unfold give_back.
  rewrite (IPRange_spec _ _ first (first + x)); [ | done | by rewrite Hreq, To4_v4 | done | done].
  replace (first + x - first + 1 - 1) with x by lia.
  destruct (holder_in_range c x m Hs Hk) as [Hx1 Hx2].
  rewrite (proj2 (Z.leb_le _ _)), (proj2 (Z.ltb_lt _ _)), G, Z.eqb_refl by done. cbn [andb].
  rewrite (safe_index (hdl c)) by done.
  rewrite (GetMACIndex_held _ _ m) by (done || apply Hs). by rewrite String.eqb_refl.
Qed.

End Request.

(** ** Who is acknowledged *)

Section Exchange.

Context {CZ : GoCache Z} {LZ : GoCacheLaws Z} {CS : GoCache string} {LS : GoCacheLaws string}
  {SQL : SqlDB} {JSON : JSONCodec} {D4 : Dhcp4} {LD : Dhcp4Laws}.
Context (ByteToString : bytes -> string).


(** Packets of other clients, served in any number. *)
Definition others (m : string) : ctx -> ctx -> Prop :=
  rtc (fun c1 c2 => exists n m', m' <> m /\ evolves n m' c1 c2).

Lemma others_keep m c1 c2 :
  others m c1 c2 -> scope_ok (hdl c1) ->
  scope_ok (hdl c2) /\ same_config (hdl c1) (hdl c2) /\
  (forall t, hw_get t c2 m = hw_get t c1 m) /\
  (forall i, mac (pool c1) !! i = Some m -> mac (pool c2) !! i = Some m).
Proof.
  intros H. induction H as [c|c1 c c2 (n & m' & Hne & E) H IH]; intros Hs; [done | ].
  destruct (IH (evolves_ok _ _ _ _ Hs E)) as (Hs2 & C2 & G2 & K2).
  split; [done | split; [ | split]].
  - eapply same_config_trans; [apply E | done].
  - intros t. rewrite G2. by apply (ev_others _ _ _ _ E).
  - intros i Hi. by apply K2, (grows_keeps _ _ _ (ev_pool _ _ _ _ E)).
Qed.

(** A cached and held address is acknowledged. *)
Lemma request_ack_complete e net q msgType networkIP answer c x :
  scope_ok (hdl c) -> mac_of q <> FreeMac -> h_ipAssigned (hdl c) !! mac_of q = None ->
  (6 <= length (CHAddr q))%nat -> foreign_server q c = false ->
  hw_get (now e) c (mac_of q) = Some x -> mac (pool c) !! x = Some (mac_of q) ->
  IPAdd (h_start (hdl c)) x = Ret (reqIP q) -> reqIP q <> [0; 0; 0; 0] ->
  Get (now e) (RequestGlobalTransactionCache c) (cacheKey ByteToString q msgType) = None ->
  exists a c', serve_request ByteToString e net q msgType networkIP answer c = (a, c') /\
    acked e q c c' a x.
Proof.
  intros Hs Hm Hst Hl Hsrv G Hk Ha Hz Hreq. unfold serve_request. rewrite Hsrv.
  pose proof (holder_in_range c x _ Hs Hk) as Hx.
  destruct (scope_addr (hdl c) x Hs Hx) as (first & F & Hf & Hfx & Ha').
  assert (Er : reqIP q = be32 (first + x)) by congruence.
  assert (L : length (reqIP q) = 4%nat) by (by rewrite Er).
  assert (Hz' : IP_Equal (reqIP q) IPv4zero = false).
  { apply not_true_is_false. by rewrite IPv4zero_Equal. }
  rewrite L, Hz'. cbn [Nat.eqb andb negb]. unfold request_verdict, request_cached.
  rewrite (IPRange_spec _ _ first (first + x)); [ | done | by rewrite Er, To4_v4 | done | done].
  replace (first + x - first + 1 - 1) with x by lia. destruct Hx as [Hx1 Hx2].
  rewrite (proj2 (Z.leb_le _ _)), (proj2 (Z.ltb_lt _ _)), Hst, G, Ha, IP_Equal_refl by done.
  cbn [andb]. unfold request_match. rewrite Hreq, (safe_index (hdl c)) by done.
  rewrite (GetMACIndex_held _ _ (mac_of q)), String.eqb_refl by (done || apply Hs).
  edestruct (ack_reply e q networkIP answer c) as (a & c' & E & Hack & _);
    [exact Hs | done | | exact (conj Hx1 Hx2) | exact Ha | exists a, c'; split; [exact E | exact Hack]].
  done.
Qed.

(** C5: the whole exchange.  On a silent network a client, with no static assignment
    and a hardware address of at least six bytes other than 00:00:00:00:00:00, that is
    offered an address and asks for it within five seconds, naming this server or
    none, in a request that was not already served within the last second (it is not
    in the cache of request transactions), gets an ACK for that very address, whatever
    packets of other such clients are served in between (any changes within the frame
    [evolves] of another hardware address), as long as no goroutine frees the index
    meanwhile.  The scope does not start at 0.0.0.0. *)
Theorem exchange_acknowledges e1 e2 I net srvIP p q fuel networkIP ans1 ans2 c c1 c2 a d :
  runtime_ok e1 -> mac_of p <> FreeMac -> scope_ok (hdl c) -> quiet e1 ->
  h_ipAssigned (hdl c) !! mac_of p = None -> ans_D ans1 = None ->
  To4 (h_start (hdl c)) <> [0; 0; 0; 0] ->
  serve_discover ByteToString e1 I net srvIP p fuel networkIP ans1 c = Some (a, c1) ->
  ans_D a = Some d ->
  others (mac_of p) c1 c2 ->
  mac_of q = mac_of p -> packet_ok q -> (6 <= length (CHAddr q))%nat ->
  ParseOptions q !! OptionRequestedIPAddress = Some (ans_IP a) ->
  foreign_server q c2 = false -> now e2 <= now e1 + 5 * Second ->
  Get (now e2) (RequestGlobalTransactionCache c2) (cacheKey ByteToString q Request) = None ->
  exists a2 c3 x,
    serve_request ByteToString e2 net q Request networkIP ans2 c2 = (a2, c3) /\
    acked e2 q c2 c3 a2 x /\ ans_IP a2 = ans_IP a /\ mac (pool c2) !! x = Some (mac_of p).
Proof.
  intros Hrun Hm Hs Hq Hst Hd1 Hz Hserve Hd Hothers Em Hpkt Hl H50 Hsrv Ht Htr.
  destruct (offer_holds ByteToString e1 I net srvIP p Hrun Hm fuel networkIP ans1 c a c1 d
    Hs Hq Hst Hd1 Hserve Hd) as (x & opts & Hx & Ha & _ & Hk & _ & Hg & E1).
  pose proof (evolves_ok _ _ _ _ Hs E1) as Hs1.
  destruct (others_keep _ _ _ Hothers Hs1) as (Hs2 & C2 & G2 & K2).
  destruct (ev_config _ _ _ _ E1) as (_ & _ & S1 & _ & _ & _ & A1 & _), C2 as (_ & _ & S2 & _ & _ & _ & A2 & _).
  assert (Er : reqIP q = ans_IP a) by (unfold reqIP; by rewrite H50).
  assert (Hnz : reqIP q <> [0; 0; 0; 0]).
  { rewrite Er. destruct (scope_addr (hdl c) x Hs Hx) as (first & F & Hf & Hfx & Ha').
    intros E0. assert (E : be32 (first + x) = be32 0) by (vm_compute (be32 0); congruence).
    apply be32_inj in E; [ | done | done]. destruct Hx as [Hx _]. unfold is_u32 in Hf.
    apply Hz. rewrite F. replace first with 0 by lia. done. }
  destruct (request_ack_complete e2 net q Request networkIP ans2 c2 x) as (a2 & c3 & E & Hack);
    try done; rewrite ?Em; try done.
  - congruence.
  - rewrite G2, Hg. by apply cached_until_live.
  - by apply K2.
  - congruence.
  - exists a2, c3, x. split; [done | split; [done | split]].
    + by rewrite (acked_ip _ _ _ _ _ _ Hack).
    + by apply K2.
Qed.

End Exchange.

(** ** Witnesses *)

Section Witnesses.

Import Wire Mem.

Definition w_ask : Packet := lab_packet lab_hw lab_xid [(OptionRequestedIPAddress, [192; 168; 1; 12])].
Definition w_leased : ctx := lab_ctx (lab_leased 2 (lab_t + 5 * Second)).
Definition w_served (c : ctx) : Answer * ctx :=
  serve_request lab_key (lab_env lab_t) 0 w_ask Request "192.168.1.0" w_answer c.

Lemma w_ask_ok : packet_ok w_ask.
Proof. by apply lab_packet_ok. Qed.


(** The pool names the other client at the statically assigned index. *)
Definition w_static : ctx :=
  lab_ctx (lab_static {[ w_mac := 2 ]} (ReserveIPIndex lab_pool 2 w_mac2).1 ∅).

Lemma static_ack_ignores_holder_witness :
  acked (lab_env lab_t) w_ask w_static (w_served w_static).2 (w_served w_static).1 2 /\
  mac (pool (w_served w_static).2) !! 2 = Some w_mac2.
Proof.
  apply (static_ack_ignores_holder lab_key (lab_env lab_t) 0 w_ask
    Request "192.168.1.0" w_answer w_static (w_served w_static).1 (w_served w_static).2 2 3232235786 w_mac2).
  - apply lab_scope_ok; [apply ReserveIPIndex_wf, lab_pool_ok | by vm_compute | apply map_Forall_empty].
  - done.
  - simpl. lia.
  - by vm_compute.
  - by vm_compute.
  - by vm_compute.
  - by vm_compute.
  - done.
  - by vm_compute.
  - by vm_compute.
  - apply surjective_pairing.
Defined.

Lemma give_back_reserves_nothing_witness :
  pool (serve_release (lab_env lab_t) 0 w_ask w_answer w_leased).2 = pool w_leased /\
  timers (serve_release (lab_env lab_t) 0 w_ask w_answer w_leased).2 =
    [mkTimer (lab_t + 10 * Minute) (FreeIndex 0 2); mkTimer lab_t (DeleteHw 0 w_mac)].
Proof.
  destruct (give_back_reserves_nothing (lab_env lab_t) 0 w_ask (lab_client w_ask eq_refl) w_answer w_leased)
    as (Hp & _ & Ht); [apply lab_leased_ok; lia | ].
  split; [exact Hp | ]. apply (Ht 2); by vm_compute.
Defined.

Definition w_asked : Packet :=
  lab_packet lab_hw lab_xid [(OptionRequestedIPAddress, [192; 168; 1; 12]);
                             (OptionServerIdentifier, [192; 168; 1; 1])].

Lemma exchange_acknowledges_witness :
  exists a c1, w_discover (lab_env lab_t) w_want 2 w_fresh = Some (a, c1) /\
    exists a2 c3 x,
      serve_request lab_key (lab_env (lab_t + 3 * Second)) 0 w_asked Request "192.168.1.0" w_answer c1
        = (a2, c3) /\
      acked (lab_env (lab_t + 3 * Second)) w_asked c1 c3 a2 x.
Proof.
  assert (Hd : exists d, (fun r => (ans_D r.1, ans_IP r.1)) <$> w_discover (lab_env lab_t) w_want 2 w_fresh
                         = Some (Some d, [192; 168; 1; 12])).
  { eexists. vm_compute. reflexivity. }
  destruct Hd as [d Hd].
  assert (Hc : (fun r => (foreign_server w_asked r.2,
                 Get (lab_t + 3 * Second) (RequestGlobalTransactionCache r.2)
                   (cacheKey lab_key w_asked Request)))
               <$> w_discover (lab_env lab_t) w_want 2 w_fresh = Some (false, None)) by (by vm_compute).
  destruct (w_discover (lab_env lab_t) w_want 2 w_fresh) as [[a c1]|] eqn:E; [ | done].
  exists a, c1. split; [done | ]. injection Hd as Hd Hip. injection Hc as Hf Hr. simpl in Hd, Hip, Hf, Hr.
  destruct (exchange_acknowledges lab_key (lab_env lab_t) (lab_env (lab_t + 3 * Second)) lab_if 0 []
    (lab_packet lab_hw lab_xid w_want) w_asked 2 "192.168.1.0" w_answer w_answer w_fresh c1 c1 a d)
    as (a2 & c3 & x & H1 & H2 & _);
    [apply (w_runtime lab_t (fun _ => false)) | by apply lab_client | apply lab_fresh_ok | by intros
    | done | done | done | exact E | exact Hd | apply rtc_refl | done | by apply lab_packet_ok
    | simpl; lia | rewrite Hip; by vm_compute | exact Hf | by vm_compute | exact Hr | ].
  by exists a2, c3, x.
Defined.

End Witnesses.
