(* ===== verification/System.v ===== *)
(** * The server over time

    The state of one interface and the clock, and what may happen next: a
    packet is served, a sleeping goroutine wakes up, the janitor of a hardware
    cache evicts expired entries, or time passes.  Events come in any order.
    The theorems: the invariant of every reachable state, what a packet may not
    do to other clients, when two clients can never share an address, and from
    which states they are both acknowledged on one. *)

From S2P Require Import Prelude GoStd GoNet Pool GoCache Dhcp4 Database Utils Handler Interface.
From S2P Require Import Scope Lab Discover Request.

Section System.

Context {CZ : GoCache Z} {CS : GoCache string} {SQL : SqlDB} {JSON : JSONCodec} {D4 : Dhcp4}.
Context (ByteToString : bytes -> string).

(** ** Events *)

Definition upd_network (n : nat) (f : DHCPHandler -> DHCPHandler) (w : world) : world :=
  mkWorld (alter (fun v => mkNetwork (network v) (f (dhcpHandler v))) n (networks w))
    (GlobalTransactionCache w) (w_request w) (w_ip w) (w_macs w) (w_overrides w) (w_timers w).

Definition set_timers (ts : list timer) (w : world) : world :=
  mkWorld (networks w) (GlobalTransactionCache w) (w_request w) (w_ip w) (w_macs w)
    (w_overrides w) ts.

(** The body of a goroutine, after its sleep. *)
Definition fire (t : Z) (a : action) (w : world) : world :=
  match a with
  | FreeIndex n i => upd_network n (fun h => set_available (FreeIPIndex t (h_available h) i).1 h) w
  | DeleteHw n k =>
      match networks w !! n with
      | Some v =>
          let '(hw, evicted) := Delete (h_hwcache (dhcpHandler v)) k in
          set_timers (w_timers w ++ map (on_evicted t n) evicted) (upd_network n (set_hwcache hw) w)
      | None => w
      end
  end.

(** The hardware cache of network [n] is purged. *)
Definition janitor (t : Z) (n : nat) (w : world) : world :=
  match networks w !! n with
  | Some v =>
      let '(hw, evicted) := DeleteExpired t (h_hwcache (dhcpHandler v)) in
      set_timers (w_timers w ++ map (on_evicted t n) evicted) (upd_network n (set_hwcache hw) w)
  | None => w
  end.

Inductive event :=
| EPacket (e : env) (fuel : nat) (ifc : Interface) (p : Packet) (msgType : Z) (srvIP : IP)
| EFire (i : nat)
| EJanitor (n : nat)
| EWait (d : Z).

Definition state : Type := Z * world.

(** One event; the answer of a packet.  [None] when the event cannot happen. *)
Definition step (s : state) (ev : event) : option (state * option Answer) :=
  let '(t, w) := s in
  match ev with
  | EPacket e fuel ifc p msgType srvIP =>
      if bool_decide (now e = t) then
        match ServeDHCP ByteToString e fuel ifc p msgType srvIP w with
        | Some (a, w) => Some ((t, w), Some a)
        | None => None
        end
      else None
  | EFire i =>
      match w_timers w !! i with
      | Some tm =>
          if due tm <=? t then Some ((t, fire t (act tm) (set_timers (delete i (w_timers w)) w)), None)
          else None
      | None => None
      end
  | EJanitor n => Some ((t, janitor t n w), None)
  | EWait d => if 0 <=? d then Some ((t + d, w), None) else None
  end.

Fixpoint run (s : state) (evs : list event) : option (state * list Answer) :=
  match evs with
  | [] => Some (s, [])
  | ev :: evs =>
      match step s ev with
      | None => None
      | Some (s, a) =>
          match run s evs with
          | None => None
          | Some (s, rest) => Some (s, match a with Some a => a :: rest | None => rest end)
          end
      end
  end.

(** ** Invariants *)

Definition delay_ok (tm : timer) : Prop :=
  match act tm with FreeIndex _ i => 0 <= i | DeleteHw _ _ => True end.

Record world_ok (w : world) : Prop := {
  wok_scopes : forall n v, networks w !! n = Some v -> scope_ok (dhcpHandler v);
  wok_timers : Forall delay_ok (w_timers w)
}.

(** Every cached index of every scope is held by its client from [t] on. *)
Definition all_owned (t : Z) (w : world) : Prop :=
  forall n v k, networks w !! n = Some v -> owned t k (dhcpHandler v).

Lemma select_network_lookup p l k i v :
  select_network p l k = Some (i, v) -> (k <= i)%nat /\ l !! (i - k)%nat = Some v.
Proof.
  revert k. induction l as [|v0 l IH]; intros k; [done | ]. cbn [select_network].
  assert (Hhere : Some (k, v0) = Some (i, v) -> (k <= i)%nat /\ (v0 :: l) !! (i - k)%nat = Some v).
  { intros [= <- <-]. by rewrite Nat.sub_diag. }
  assert (Hnext : select_network p l (S k) = Some (i, v) ->
                  (k <= i)%nat /\ (v0 :: l) !! (i - k)%nat = Some v).
  { intros H. apply IH in H as [H1 H2]. split; [lia | ].
    replace (i - k)%nat with (S (i - S k)) by lia. done. }
  repeat case_match; auto.
Qed.

Section Laws.

Context {LZ : GoCacheLaws Z} {LS : GoCacheLaws string} {LD : Dhcp4Laws}.

(** The packets the invariants cover: well-formed ones of a client whose hardware
    address is not 00:00:00:00:00:00, in an environment that follows the
    language's rules.  [Serve] accepts packets of the all-zero address too, but
    the pool answers that address for an index nobody holds, so the handler takes
    such a client for the holder of every free or unknown index and caches it an
    index it does not hold, even one outside the range
    ([Discover.zero_mac_unreserved]). *)
Definition client_ok (e : env) (p : Packet) : Prop :=
  runtime_ok e /\ mac_of p <> FreeMac /\ packet_ok p.

Lemma serve_message_evolves e fuel ifc i p msgType srvIP networkIP answer c a c' :
  client_ok e p -> scope_ok (hdl c) ->
  serve_message ByteToString e fuel ifc i p msgType srvIP networkIP answer c = Some (a, c') ->
  evolves i (mac_of p) c c'.
Proof.
  intros (Hrun & Hm & Hp) Hs. unfold serve_message.
  destruct (msgType =? Discover); [by apply serve_discover_evolves | ].
  destruct ((msgType =? Request) || (msgType =? Inform)).
  { intros [= E]. pose proof (serve_request_evolves ByteToString e i p Hm Hp msgType networkIP answer c Hs) as H.
    by rewrite E in H. }
  unfold serve_release, serve_decline.
  pose proof (give_back_evolves e i p Hm answer c Hs) as H.
  destruct (msgType =? Release); [intros [= E]; by rewrite E in H | ].
  destruct (msgType =? Decline); [intros [= E]; by rewrite E in H | ].
  intros [= <- <-]. by apply evolves_refl.
Qed.

Lemma serve_message_owned e fuel ifc i p msgType srvIP networkIP answer c a c' t :
  client_ok e p -> scope_ok (hdl c) -> quiet e -> h_ipAssigned (hdl c) !! mac_of p = None ->
  serve_message ByteToString e fuel ifc i p msgType srvIP networkIP answer c = Some (a, c') ->
  owned t (mac_of p) (hdl c) -> owned t (mac_of p) (hdl c').
Proof.
  intros (Hrun & Hm & Hp) Hs Hq Hst. unfold serve_message.
  destruct (msgType =? Discover); [by apply serve_discover_owned | ].
  destruct ((msgType =? Request) || (msgType =? Inform)).
  { intros [= E] Ho.
    pose proof (serve_request_owned ByteToString e i p Hm Hp msgType networkIP answer c t Hs Hst Ho) as H.
    by rewrite E in H. }
  unfold serve_release, serve_decline.
  assert (H : owned t (mac_of p) (hdl c) ->
              owned t (mac_of p) (hdl (give_back e i p answer c).2)).
  { by destruct (give_back_spec e i p Hm answer c Hs) as [-> | (x & _ & _ & ->)]. }
  destruct (msgType =? Release); [intros [= E]; by rewrite E in H | ].
  destruct (msgType =? Decline); [intros [= E]; by rewrite E in H | ].
  by intros [= <- <-].
Qed.

(** A packet leaves the scopes and timers alone, or it is served by one scope,
    within the frame of its handlers. *)
Lemma ServeDHCP_cases e fuel ifc p msgType srvIP w a w' :
  ServeDHCP ByteToString e fuel ifc p msgType srvIP w = Some (a, w') ->
  (networks w' = networks w /\ w_timers w' = w_timers w) \/
  exists i v networkIP answer w0 c',
    networks w !! i = Some v /\ timers (ctx_of w0 (dhcpHandler v)) = w_timers w /\
    serve_message ByteToString e fuel ifc i p msgType srvIP networkIP answer
      (ctx_of w0 (dhcpHandler v)) = Some (a, c') /\
    networks w' = <[i := mkNetwork (network v) (hdl c')]> (networks w) /\
    w_timers w' = timers c'.
Proof.
  unfold ServeDHCP. destruct (isRelay ifc); [intros [= <- <-]; by left | ].
  destruct (select_network p (networks w) 0) as [[i v]|] eqn:Sel; [ | intros [= <- <-]; by left].
  apply select_network_lookup in Sel as [_ Hi]. rewrite Nat.sub_0_r in Hi.
  destruct (length (h_ip (dhcpHandler v)) =? 0)%nat; [intros [= <- <-]; by left | ].
  destruct (Get _ _ _); [intros [= <- <-]; by left | ].
  set (w0 := set_transaction _ w).
  destruct (serve_message _ _ _ _ _ _ _ _ _ _ _) as [[a1 c1]|] eqn:Sm; [ | done].
  intros [= <- <-]. right. exists i, v. do 2 eexists. exists w0, c1.
  split; [done | split; [done | split; [exact Sm | done]]].
Qed.

(** What a packet of client [m] does to the scope of one network. *)
Record scope_frame (m : string) (h h' : DHCPHandler) : Prop := {
  sf_config : same_config h h';
  sf_ok : scope_ok h';
  sf_pool : pool_grows m (h_available h) (h_available h');
  sf_others : forall t k, k <> m -> Get t (h_hwcache h') k = Get t (h_hwcache h) k
}.

Lemma scope_frame_refl m h : scope_ok h -> scope_frame m h h.
Proof. intros Hs. split; [done | done | apply pool_grows_refl, Hs | done]. Qed.

Lemma evolves_frame n m c c' : scope_ok (hdl c) -> evolves n m c c' -> scope_frame m (hdl c) (hdl c').
Proof. intros Hs E. split; [apply E | by eapply evolves_ok | apply E | apply E]. Qed.

Lemma ServeDHCP_frame e fuel ifc p msgType srvIP w a w' :
  client_ok e p -> world_ok w ->
  ServeDHCP ByteToString e fuel ifc p msgType srvIP w = Some (a, w') ->
  (forall n v', networks w' !! n = Some v' ->
     exists v, networks w !! n = Some v /\ network v' = network v /\
       scope_frame (mac_of p) (dhcpHandler v) (dhcpHandler v')) /\
  Forall delay_ok (w_timers w').
Proof.
  intros Hc [Hw Ht] Hserve.
  destruct (ServeDHCP_cases _ _ _ _ _ _ _ _ _ Hserve)
    as [[En Et] | (i & v & networkIP & answer & w0 & c' & Hi & T0 & Hm & En & Et)].
  - rewrite En, Et. split; [ | done]. intros n v' Hn. exists v'.
    split; [done | split; [done | by eapply scope_frame_refl, Hw]].
  - assert (Hs : scope_ok (hdl (ctx_of w0 (dhcpHandler v)))) by (exact (Hw i v Hi)).
    pose proof (serve_message_evolves _ _ _ _ _ _ _ _ _ _ _ _ Hc Hs Hm) as E.
    rewrite En, Et. split.
    + intros n v' Hn. apply list_lookup_insert_Some in Hn as [(-> & <- & _) | [_ Hn]].
      * exists v. split; [done | split; [done | ]]. by apply (evolves_frame _ _ _ _ Hs E).
      * exists v'. split; [done | split; [done | by eapply scope_frame_refl, Hw]].
    + destruct (ev_timers _ _ _ _ E) as (ts & -> & Hts). rewrite T0. apply Forall_app. split; [done | ].
      eapply Forall_impl; [exact Hts | ]. intros tm. unfold timer_ok, delay_ok.
      destruct (act tm); [intros [_ H]; lia | done].
Qed.

Lemma FreeIPIndex_scope t h i :
  0 <= i -> scope_ok h -> scope_ok (set_available (FreeIPIndex t (h_available h) i).1 h).
Proof.
  intros Hi [Hp Hc Hr Hx Hl]. split; simpl; [by apply FreeIPIndex_wf | | done | done | done].
  by rewrite FreeIPIndex_capacity.
Qed.

(** A hardware cache with fewer entries, and the goroutines of the evicted ones. *)
Lemma evict_ok t n v w hw (evicted : list (string * Z)) :
  world_ok w -> networks w !! n = Some v ->
  (forall t k x, Get t hw k = Some x -> Get t (h_hwcache (dhcpHandler v)) k = Some x) ->
  world_ok (set_timers (w_timers w ++ map (on_evicted t n) evicted) (upd_network n (set_hwcache hw) w)).
Proof.
  intros [Hw Ht] Hn Hsub. split; simpl.
  - intros n' v' Hn'. destruct (decide (n' = n)) as [->|Hne].
    + rewrite list_lookup_alter_eq, Hn in Hn'. injection Hn' as <-. simpl.
      destruct (Hw n v Hn) as [Hp Hc Hr Hx Hl]. split; simpl; [done.. | | done].
      intros t' k x G. by eapply Hx, Hsub.
    + rewrite list_lookup_alter_ne in Hn' by done. eauto.
  - apply Forall_app. split; [done | ]. apply Forall_map, Forall_true. intros [k x].
    unfold delay_ok. simpl. unfold safeIntToUint64. case_match; [lia | ].
    unfold u64. apply Z.mod_pos_bound. lia.
Qed.

Lemma fire_ok t a w :
  world_ok w -> match a with FreeIndex _ i => 0 <= i | DeleteHw _ _ => True end ->
  world_ok (fire t a w).
Proof.
  intros Hw Ha. destruct a as [n i|n k]; simpl.
  - destruct Hw as [Hw Ht]. split; [ | done]. simpl. intros n' v' Hn'.
    destruct (decide (n' = n)) as [->|Hne].
    + rewrite list_lookup_alter_eq in Hn'. destruct (networks w !! n) as [v|] eqn:Hn; [ | done].
      injection Hn' as <-. simpl. apply FreeIPIndex_scope; eauto.
    + rewrite list_lookup_alter_ne in Hn' by done. eauto.
  - destruct (networks w !! n) as [v|] eqn:Hn; [ | done].
    destruct (Delete (h_hwcache (dhcpHandler v)) k) as [hw ev] eqn:D.
    apply (evict_ok t n v); [done | done | ]. intros t' k' x.
    replace hw with (Delete (h_hwcache (dhcpHandler v)) k).1 by (by rewrite D).
    destruct (decide (k' = k)) as [->|Hne]; [by rewrite get_delete_eq | by rewrite get_delete_ne].
Qed.

Lemma janitor_ok t n w : world_ok w -> world_ok (janitor t n w).
Proof.
  intros Hw. unfold janitor. destruct (networks w !! n) as [v|] eqn:Hn; [ | done].
  destruct (DeleteExpired t (h_hwcache (dhcpHandler v))) as [hw ev] eqn:D.
  apply (evict_ok t n v); [done | done | ]. intros t' k x G.
  apply (get_delete_expired_stored t). by rewrite D.
Qed.

Definition event_ok (ev : event) : Prop :=
  match ev with EPacket e _ _ p _ _ => client_ok e p | _ => True end.

Lemma step_ok s ev s' a :
  event_ok ev -> world_ok s.2 -> step s ev = Some (s', a) -> world_ok s'.2.
Proof.
  intros Hev Hw. destruct s as [t w]. simpl in Hw. unfold step.
  destruct ev as [e fuel ifc p msgType srvIP|i|n|d].
  - case_bool_decide; [ | done]. destruct (ServeDHCP _ _ _ _ _ _ _ _) as [[a1 w1]|] eqn:Sd; [ | done].
    intros [= <- <-]. destruct (ServeDHCP_frame _ _ _ _ _ _ _ _ _ Hev Hw Sd) as [Hn Ht].
    split; [ | done]. intros n v' Hv'. destruct (Hn n v' Hv') as (v & _ & _ & Hf). apply Hf.
  - destruct (w_timers w !! i) as [tm|] eqn:Hi; [ | done].
    destruct (due tm <=? t); [ | done]. intros [= <- <-]. destruct Hw as [Hw Ht]. apply fire_ok.
    + split; [done | ]. by apply Forall_delete.
    + exact (proj1 (Forall_lookup _ _) Ht i tm Hi).
  - intros [= <- <-]. by apply janitor_ok.
  - case_match; [ | done]. by intros [= <- <-].
Qed.

(** *** The configuration of a scope never changes *)

Definition keeps_config (w w' : world) : Prop :=
  forall n v', networks w' !! n = Some v' -> exists v,
    networks w !! n = Some v /\ network v' = network v /\ same_config (dhcpHandler v) (dhcpHandler v').

Lemma keeps_config_refl w w' : networks w' = networks w -> keeps_config w w'.
Proof. intros E n v' Hn. rewrite E in Hn. by exists v'. Qed.

Lemma keeps_config_trans w1 w2 w3 : keeps_config w1 w2 -> keeps_config w2 w3 -> keeps_config w1 w3.
Proof.
  intros H1 H2 n v' Hn. destruct (H2 n v' Hn) as (v2 & Hn2 & N2 & C2).
  destruct (H1 n v2 Hn2) as (v & Hn1 & N1 & C1). exists v.
  split; [done | split; [congruence | by eapply same_config_trans]].
Qed.

Lemma upd_network_config n f w :
  (forall h, same_config h (f h)) -> keeps_config w (upd_network n f w).
Proof.
  intros Hf n' v'. simpl. destruct (decide (n' = n)) as [->|Hne].
  - rewrite list_lookup_alter_eq. destruct (networks w !! n) as [v|]; [ | done].
    intros [= <-]. exists v. split; [done | split; [done | apply Hf]].
  - rewrite list_lookup_alter_ne by done. intros Hn. by exists v'.
Qed.

Lemma step_config s ev s' a :
  event_ok ev -> world_ok s.2 -> step s ev = Some (s', a) -> keeps_config s.2 s'.2.
Proof.
  intros Hev Hw. destruct s as [t w]. simpl in Hw. unfold step.
  destruct ev as [e fuel ifc p msgType srvIP|i|n|d].
  - case_bool_decide; [ | done]. destruct (ServeDHCP _ _ _ _ _ _ _ _) as [[a1 w1]|] eqn:Sd; [ | done].
    intros [= <- <-]. destruct (ServeDHCP_frame _ _ _ _ _ _ _ _ _ Hev Hw Sd) as [Hn _].
    intros n v' Hv'. destruct (Hn n v' Hv') as (v & ? & ? & Hf). exists v.
    split; [done | split; [done | apply Hf]].
  - destruct (w_timers w !! i) as [tm|]; [ | done]. destruct (due tm <=? t); [ | done]. intros [= <- <-].
    cbn [snd]. destruct (act tm) as [n x|n k]; cbn [fire].
    + by apply (upd_network_config n _ (set_timers _ w)).
    + cbn [set_timers networks]. destruct (networks w !! n); [ | by apply keeps_config_refl].
      destruct (Delete _ _) as [hw evicted]. by apply (upd_network_config n (set_hwcache hw) w).
  - intros [= <- <-]. cbn [snd]. unfold janitor. destruct (networks w !! n); [ | by apply keeps_config_refl].
    destruct (DeleteExpired _ _) as [hw evicted]. by apply (upd_network_config n (set_hwcache hw) w).
  - case_match; [ | done]. intros [= <- <-]. by apply keeps_config_refl.
Qed.

Lemma run_config s evs s' answers :
  Forall event_ok evs -> world_ok s.2 -> run s evs = Some (s', answers) ->
  world_ok s'.2 /\ keeps_config s.2 s'.2.
Proof.
  intros Hevs. revert s answers. induction Hevs as [|ev evs Hev Hevs IH]; intros s answers Hw; cbn [run].
  - intros [= <- <-]. split; [done | by apply keeps_config_refl].
  - destruct (step s ev) as [[s1 a]|] eqn:S; [ | done].
    destruct (run s1 evs) as [[s2 rest]|] eqn:R; [ | done]. intros [= <- <-].
    apply IH in R as [H1 H2]; [ | by eapply step_ok]. split; [done | ].
    eapply keeps_config_trans; [by eapply step_config | done].
Qed.

(** ** Exclusive leases *)

(** An event that cannot separate a cached index from its holder: a packet of a
    client without a static assignment and with a hardware address other than
    00:00:00:00:00:00 ([client_ok]), on a silent network; a goroutine that frees
    an index no live cache entry names. *)
Definition tame_event (s : state) (ev : event) : Prop :=
  match ev with
  | EPacket e _ _ p _ _ => client_ok e p /\ quiet e /\
      forall n v, networks s.2 !! n = Some v -> h_ipAssigned (dhcpHandler v) !! mac_of p = None
  | EFire i =>
      forall tm n x, w_timers s.2 !! i = Some tm -> act tm = FreeIndex n x ->
      forall v k t, networks s.2 !! n = Some v -> s.1 <= t -> Get t (h_hwcache (dhcpHandler v)) k <> Some x
  | _ => True
  end.

Inductive tame : state -> list event -> state -> Prop :=
| tame_nil s : tame s [] s
| tame_cons s ev evs s1 a s2 :
    tame_event s ev -> step s ev = Some (s1, a) -> tame s1 evs s2 -> tame s (ev :: evs) s2.

Lemma all_owned_network t n f w :
  all_owned t w ->
  (forall v k, networks w !! n = Some v -> owned t k (dhcpHandler v) -> owned t k (f (dhcpHandler v))) ->
  all_owned t (upd_network n f w).
Proof.
  intros Ho Hf n' v' k. simpl. destruct (decide (n' = n)) as [->|Hne].
  - rewrite list_lookup_alter_eq. destruct (networks w !! n) as [v|] eqn:Hn; [ | done].
    intros [= <-]. simpl. eauto.
  - rewrite list_lookup_alter_ne by done. apply Ho.
Qed.

Lemma owned_shrink t k h hw :
  (forall t' x, t <= t' -> Get t' hw k = Some x -> Get t' (h_hwcache h) k = Some x) ->
  owned t k h -> owned t k (set_hwcache hw h).
Proof. intros Hsub Ho t' x Ht G. eapply Ho; [exact Ht | by apply Hsub]. Qed.

Lemma FreeIPIndex_other t dp i j : j <> i -> mac (FreeIPIndex t dp i).1 !! j = mac dp !! j.
Proof. intros Hne. unfold FreeIPIndex. split_matches; simpl; try done. by rewrite lookup_delete_ne. Qed.

Lemma packet_owned t e fuel ifc p msgType srvIP w a w' :
  client_ok e p -> quiet e -> world_ok w ->
  (forall n v, networks w !! n = Some v -> h_ipAssigned (dhcpHandler v) !! mac_of p = None) ->
  ServeDHCP ByteToString e fuel ifc p msgType srvIP w = Some (a, w') ->
  all_owned t w -> all_owned t w'.
Proof.
  intros Hc Hq [Hw _] Hst Hserve Ho.
  destruct (ServeDHCP_cases _ _ _ _ _ _ _ _ _ Hserve)
    as [[En _] | (i & v & networkIP & answer & w0 & c' & Hi & _ & Hm & En & _)];
    intros n v' k; rewrite En; [apply Ho | ].
  rewrite list_lookup_insert_Some. intros [(-> & <- & _) | [_ Hn]]; [ | by eapply Ho].
  assert (Hs : scope_ok (hdl (ctx_of w0 (dhcpHandler v)))) by (exact (Hw n v Hi)).
  pose proof (serve_message_evolves _ _ _ _ _ _ _ _ _ _ _ _ Hc Hs Hm) as E.
  destruct (decide (k = mac_of p)) as [->|Hne].
  - eapply serve_message_owned; [exact Hc | exact Hs | done | exact (Hst n v Hi) | exact Hm | exact (Ho n v _ Hi)].
  - eapply owned_other; [exact E | done | exact (Ho n v k Hi)].
Qed.

Lemma fire_owned t a w :
  match a with
  | FreeIndex n x => forall v k t', networks w !! n = Some v -> t <= t' ->
      Get t' (h_hwcache (dhcpHandler v)) k <> Some x
  | DeleteHw _ _ => True
  end ->
  all_owned t w -> all_owned t (fire t a w).
Proof.
  intros Ha Ho. destruct a as [n x|n k]; simpl.
  - apply all_owned_network; [done | ]. intros v k Hn Hv t' y Ht G. simpl.
    rewrite FreeIPIndex_other; [by eapply Hv | ]. intros ->. by eapply Ha.
  - destruct (networks w !! n) as [v|] eqn:Hn; [ | done].
    destruct (Delete (h_hwcache (dhcpHandler v)) k) as [hw ev] eqn:D.
    intros n' v' k' Hn'. revert n' v' k' Hn'. apply (all_owned_network t n (set_hwcache hw) w Ho).
    intros v0 k0 Hn0. rewrite Hn in Hn0. injection Hn0 as <-. apply owned_shrink. intros t' x _.
    replace hw with (Delete (h_hwcache (dhcpHandler v)) k).1 by (by rewrite D).
    destruct (decide (k0 = k)) as [->|Hne]; [by rewrite get_delete_eq | by rewrite get_delete_ne].
Qed.

Lemma janitor_owned t n w : all_owned t w -> all_owned t (janitor t n w).
Proof.
  intros Ho. unfold janitor. destruct (networks w !! n) as [v|] eqn:Hn; [ | done].
  destruct (DeleteExpired t (h_hwcache (dhcpHandler v))) as [hw ev] eqn:D.
  intros n' v' k' Hn'. revert n' v' k' Hn'. apply (all_owned_network t n (set_hwcache hw) w Ho).
  intros v0 k0 Hn0. rewrite Hn in Hn0. injection Hn0 as <-. apply owned_shrink. intros t' x Ht G.
  apply (get_delete_expired_stored t). by rewrite D.
Qed.

Lemma step_owned s ev s' a :
  tame_event s ev -> world_ok s.2 -> step s ev = Some (s', a) ->
  all_owned s.1 s.2 -> all_owned s'.1 s'.2.
Proof.
  intros Hev Hw. destruct s as [t w]. unfold step.
  destruct ev as [e fuel ifc p msgType srvIP|i|n|d]; simpl in *.
  - case_bool_decide; [ | done]. destruct (ServeDHCP _ _ _ _ _ _ _ _) as [[a1 w1]|] eqn:Sd; [ | done].
    intros [= <- <-]. destruct Hev as (Hc & Hq & Hst). by eapply packet_owned.
  - destruct (w_timers w !! i) as [tm|] eqn:Hi; [ | done].
    destruct (due tm <=? t); [ | done]. intros [= <- <-] Ho. apply fire_owned; [ | exact Ho].
    destruct (act tm) as [n x|] eqn:A; [ | done]. simpl. by eapply Hev.
  - intros [= <- <-]. apply janitor_owned.
  - destruct (Z.leb_spec 0 d); [ | done]. intros [= <- <-] Ho n v k Hn t' x Ht G.
    simpl in *. eapply Ho; [exact Hn | | exact G]. lia.
Qed.

Lemma tame_event_ok s ev : tame_event s ev -> event_ok ev.
Proof. destruct ev; simpl; tauto. Qed.

Lemma tame_owned s evs s' :
  tame s evs s' -> world_ok s.2 -> all_owned s.1 s.2 -> world_ok s'.2 /\ all_owned s'.1 s'.2.
Proof.
  induction 1 as [s|s ev evs s1 a s2 Hev Hstep _ IH]; intros Hw Ho; [done | ].
  apply IH; [eapply step_ok; [by eapply tame_event_ok | done | done] | by eapply step_owned].
Qed.

(** ** Goroutines that free an index somebody has by now *)

(** Only the network and the kind of a scope decide which scope serves a packet. *)
Lemma select_network_insert p l k n v v' :
  select_network p l k = Some ((k + n)%nat, v) -> network v' = network v ->
  h_layer2 (dhcpHandler v') = h_layer2 (dhcpHandler v) ->
  select_network p (<[n := v']> l) k = Some ((k + n)%nat, v').
Proof.
  intros Hsel En El. revert k n Hsel. induction l as [|v0 l IH]; intros k n; [done | ].
  destruct n as [|n].
  - cbn [list_insert select_network insert]. rewrite Nat.add_0_r.
    assert (Hnext : select_network p l (S k) <> Some (k, v)).
    { intros H. apply select_network_lookup in H as [H _]. lia. }
    assert (Hhere : Some (k, v0) = Some (k, v) -> v0 = v) by congruence. revert Hnext Hhere.
    split_matches; intros Hnext Hhere Hs; try (by apply Hhere in Hs; subst v0; congruence); done.
  - cbn [list_insert select_network insert]. specialize (IH (S k) n).
    replace (S k + n)%nat with (k + S n)%nat in IH by lia.
    split_matches; intros Hs; auto; injection Hs; lia.
Qed.

(** A packet that reaches the switch on the message type. *)
Lemma ServeDHCP_picks e fuel ifc p msgType srvIP w n v :
  isRelay ifc = false -> select_network p (networks w) 0 = Some (n, v) ->
  h_ip (dhcpHandler v) <> [] -> Get (now e) (GlobalTransactionCache w) (cacheKey ByteToString p msgType) = None ->
  exists w0, networks w0 = networks w /\ w_request w0 = w_request w /\
    GlobalTransactionCache w0 =
      SetItem (now e) (GlobalTransactionCache w) (cacheKey ByteToString p msgType) 1 (1 * Second) /\
    ServeDHCP ByteToString e fuel ifc p msgType srvIP w =
      match serve_message ByteToString e fuel ifc n p msgType srvIP (IP_String (net_IP (network v)))
              (mkAnswer None [] (CHAddr p) (Ipv4 ifc)) (ctx_of w0 (dhcpHandler v)) with
      | None => None
      | Some (a, c) => Some (a, put_back n v c w0)
      end.
Proof.
  intros Hr Hsel Hip Hnew. unfold ServeDHCP. rewrite Hr, Hsel, Hnew.
  destruct (h_ip (dhcpHandler v)) eqn:E; [done | ].
  exists (set_transaction (SetItem (now e) (GlobalTransactionCache w)
    (cacheKey ByteToString p msgType) 1 (1 * Second)) w).
  do 3 (split; [reflexivity | ]). reflexivity.
Qed.

Lemma freed_scope t h x k :
  scope_ok h -> mac (h_available h) !! x = Some k ->
  let h1 := set_available (FreeIPIndex t (h_available h) x).1 h in
  scope_ok h1 /\ mac (h_available h1) !! x = None /\ 0 < FreeIPsRemaining (h_available h1).
Proof.
  intros Hs Hk h1. destruct (proj1 (wf_mac _ (scope_pool _ Hs) x)) as [Hx Hf]; [by exists k | ].
  split; [by apply FreeIPIndex_scope; [lia | ] | ].
  unfold h1, FreeIPIndex, IndexInPool, FreeIPsRemaining. rewrite (proj2 (Z.ltb_lt _ _)) by lia.
  cbn [negb]. rewrite Hf. simpl. rewrite lookup_delete_eq. split; [done | ].
  rewrite map_size_insert, Hf. simpl. lia.
Qed.

(** Client [mac_of p] asks the server for [addr] in a message served by scope
    [v], number [n]: a well-formed packet that is not in the cache of transactions,
    of a client with a hardware address of at least six bytes other than
    00:00:00:00:00:00 and no static assignment. *)
Record asks_for (t : Z) (w : world) (n : nat) (v : Network) (msgType : Z) (addr : IP) (p : Packet) : Prop := {
  af_select : select_network p (networks w) 0 = Some (n, v);
  af_new : Get t (GlobalTransactionCache w) (cacheKey ByteToString p msgType) = None;
  af_address : ParseOptions p !! OptionRequestedIPAddress = Some addr;
  af_packet : packet_ok p;
  af_hw : (6 <= length (CHAddr p))%nat;
  af_mac : mac_of p <> FreeMac;
  af_dynamic : h_ipAssigned (dhcpHandler v) !! mac_of p = None
}.

(** A DISCOVER for an address nobody holds is answered with an OFFER of it. *)
Lemma discover_asked e fuel ifc p srvIP w n v first x :
  scope_ok (dhcpHandler v) -> h_ip (dhcpHandler v) <> [] -> isRelay ifc = false -> quiet e ->
  To4 (h_start (dhcpHandler v)) = be32 first -> is_u32 first -> in_range (dhcpHandler v) x ->
  asks_for (now e) w n v Discover (be32 (first + x)) p ->
  mac (h_available (dhcpHandler v)) !! x = None -> 0 < FreeIPsRemaining (h_available (dhcpHandler v)) ->
  Get (now e) (h_hwcache (dhcpHandler v)) (mac_of p) = None ->
  exists a d c2 w0,
    ServeDHCP ByteToString e (S fuel) ifc p Discover srvIP w = Some (a, put_back n v c2 w0) /\
    ans_D a = Some d /\ ans_IP a = be32 (first + x) /\ networks w0 = networks w /\
    RequestGlobalTransactionCache c2 = w_request w /\
    GlobalTransactionCache w0 =
      SetItem (now e) (GlobalTransactionCache w) (cacheKey ByteToString p Discover) 1 (1 * Second) /\
    scope_ok (hdl c2) /\ same_config (dhcpHandler v) (hdl c2) /\
    mac (pool c2) !! x = Some (mac_of p) /\
    (forall t, hw_get t c2 (mac_of p) = cached_until (now e + 5 * Second) x t) /\
    (forall t k, k <> mac_of p -> hw_get t c2 k = Get t (h_hwcache (dhcpHandler v)) k).
Proof.
  intros Hs Hip Hr Hq F Hf Hx [Sel New H50 Hp Hl Hm Hst] Hv Hfree G.
  destruct (scope_addr _ x Hs Hx) as (first' & F' & Hf' & Hfx & Hadd).
  assert (first' = first) as -> by (apply be32_inj; congruence).
  destruct (ServeDHCP_picks e (S fuel) ifc p Discover srvIP w n v Hr Sel Hip New) as (w0 & En & Er & Eg & ->).
  set (c := ctx_of w0 (dhcpHandler v)). unfold is_u32 in Hf, Hfx. unfold in_range in Hx.
  assert (Ex : first + x - first = x) by lia.
  destruct (try_requested_vacant p c (first + x) first Hs H50 F) as [_ Ht]; [lia | done | by rewrite Ex | ].
  rewrite Ex in Ht. destruct (Ht Hm Hx) as (dp & Hgo & Hd & Hg).
  destruct (requested_offered ByteToString e ifc n srvIP p fuel (IP_String (net_IP (network v)))
    (mkAnswer None [] (CHAddr p) (Ipv4 ifc)) c (pool_set dp c) x (be32 (first + x)))
    as (c2 & d & Hserve & Hoff); [done | exact Hst | exact G | exact Hfree | done | exact Hgo | lia | exact Hadd | ].
  change (serve_message ByteToString e (S fuel) ifc n p Discover srvIP (IP_String (net_IP (network v)))
    (mkAnswer None [] (CHAddr p) (Ipv4 ifc)) c) with
    (serve_discover ByteToString e ifc n srvIP p (S fuel) (IP_String (net_IP (network v)))
      (mkAnswer None [] (CHAddr p) (Ipv4 ifc)) c). rewrite Hserve.
  do 2 eexists. exists c2, w0. split; [reflexivity | ]. do 2 (split; [reflexivity | ]).
  split; [done | split; [by rewrite (off_requests _ _ _ _ _ Hoff) | split; [done | ]]].
  split; [eapply (offered_ok e p (pool_set dp c)); [ | exact Hx | exact Hoff] | ].
  { apply (evolves_ok n (mac_of p) c); [exact Hs | ]. by apply evolves_pool. }
  split; [exact (off_config _ _ _ _ _ Hoff) | ].
  split; [rewrite (off_pool _ _ _ _ _ Hoff); exact Hd | ].
  split; [exact (off_entry _ _ _ _ _ Hoff) | exact (off_others _ _ _ _ _ Hoff)].
Qed.

(** A REQUEST for the address the client has cached and holds is acknowledged. *)
Lemma request_asked e fuel ifc q srvIP w n v first x :
  scope_ok (dhcpHandler v) -> h_ip (dhcpHandler v) <> [] -> isRelay ifc = false ->
  To4 (h_start (dhcpHandler v)) = be32 first -> is_u32 first -> first + x <> 0 ->
  asks_for (now e) w n v Request (be32 (first + x)) q ->
  (forall s, ParseOptions q !! OptionServerIdentifier = Some s -> s = To4 (h_ip (dhcpHandler v))) ->
  length (To4 (h_ip (dhcpHandler v))) = 4%nat ->
  mac (h_available (dhcpHandler v)) !! x = Some (mac_of q) ->
  Get (now e) (h_hwcache (dhcpHandler v)) (mac_of q) = Some x ->
  Get (now e) (w_request w) (cacheKey ByteToString q Request) = None ->
  exists a c3 w0 opts,
    ServeDHCP ByteToString e fuel ifc q Request srvIP w = Some (a, put_back n v c3 w0) /\
    networks w0 = networks w /\
    ans_D a = Some (ReplyPacket q ACK (To4 (h_ip (dhcpHandler v))) (be32 (first + x))
                      (h_leaseDuration (dhcpHandler v)) opts) /\
    ans_IP a = be32 (first + x) /\
    hw_get (now e) c3 (mac_of q) = Some x /\ mac (pool c3) !! x = Some (mac_of q) /\
    (forall t k, k <> mac_of q -> hw_get t c3 k = Get t (h_hwcache (dhcpHandler v)) k).
Proof.
  intros Hs Hip Hr F Hf Hz [Sel New H50 Hp Hl Hm Hst] Hsrv Hl4 Hk G Hreq.
  pose proof (holder_in_range (ctx_of w (dhcpHandler v)) x _ Hs Hk) as Hx.
  destruct (scope_addr _ x Hs Hx) as (first' & F' & Hf' & Hfx & Hadd). simpl in F', Hadd.
  assert (first' = first) as -> by (apply be32_inj; congruence).
  destruct (ServeDHCP_picks e fuel ifc q Request srvIP w n v Hr Sel Hip New) as (w0 & En & Er & Eg & ->).
  set (c := ctx_of w0 (dhcpHandler v)). set (ans := mkAnswer None [] (CHAddr q) (Ipv4 ifc)).
  assert (Eq : reqIP q = be32 (first + x)) by (unfold reqIP; by rewrite H50).
  destruct (request_ack_complete ByteToString e n q Request (IP_String (net_IP (network v))) ans c x)
    as (a & c3 & E & Hack);
    [exact Hs | done | exact Hst | done | | exact G | exact Hk | by rewrite Eq | | by simpl; rewrite Er | ].
  { unfold foreign_server. destruct (ParseOptions q !! OptionServerIdentifier) as [o|] eqn:O; [ | done].
    rewrite (Hsrv o eq_refl). change (hdl c) with (dhcpHandler v).
    destruct (To4 (h_ip (dhcpHandler v))) as [|b0 [|b1 [|b2 [|b3 [|]]]]]; try done.
    apply negb_false_iff. rewrite IP_Equal_sym. by apply (IP_Equal_mapped [b0; b1; b2; b3]). }
  { rewrite Eq. intros E0. apply Hz, (be32_inj (first + x) 0); [done | unfold is_u32; lia | exact E0]. }
  change (serve_message ByteToString e fuel ifc n q Request srvIP (IP_String (net_IP (network v))) ans c)
    with (Some (serve_request ByteToString e n q Request (IP_String (net_IP (network v))) ans c)).
  rewrite E. destruct (acked_packet _ _ _ _ _ _ Hack) as [opts Hd].
  pose proof (serve_request_evolves ByteToString e n q Hm Hp Request (IP_String (net_IP (network v))) ans c Hs) as Ev.
  rewrite E in Ev. exists a, c3, w0, opts. split; [reflexivity | split; [done | ]].
  split; [by rewrite Hd, Eq | split; [by rewrite (acked_ip _ _ _ _ _ _ Hack) | split]].
  { apply (acked_caches _ _ _ _ _ _ Hack). pose proof (scope_lease _ Hs). unfold Second. simpl. lia. }
  split; [exact (grows_keeps _ _ _ (ev_pool _ _ _ _ Ev) x _ Hk) | exact (ev_others _ _ _ _ Ev)].
Qed.

(** The question is the same after changes to the scope that leave its
    configuration alone. *)
Lemma asks_for_insert t w w' n v v' msgType addr p :
  asks_for t w n v msgType addr p -> networks w' = <[n := v']> (networks w) ->
  network v' = network v -> same_config (dhcpHandler v) (dhcpHandler v') ->
  Get t (GlobalTransactionCache w') (cacheKey ByteToString p msgType) = None ->
  asks_for t w' n v' msgType addr p.
Proof.
  intros [Sel New H50 Hp Hl Hm Hst] En Ev (_ & _ & _ & _ & _ & El & Ea & _) New'.
  split; [ | done.. | congruence].
  rewrite En. by apply (select_network_insert p (networks w) 0 n v v').
Qed.

Lemma alter_insert {A} (f : A -> A) (n : nat) (l : list A) x : l !! n = Some x -> alter f n l = <[n := f x]> l.
Proof.
  intros H. apply list_eq. intros j. destruct (decide (n = j)) as [<-|Hne].
  - rewrite list_lookup_alter_eq, H, list_lookup_insert_eq by (by eapply lookup_lt_Some). done.
  - by rewrite list_lookup_alter_ne, list_lookup_insert_ne.
Qed.

(** The goroutine has freed the index. *)
Lemma fire_free t w i d n v x k :
  w_timers w !! i = Some (mkTimer d (FreeIndex n x)) -> d <= t -> networks w !! n = Some v ->
  scope_ok (dhcpHandler v) -> mac (h_available (dhcpHandler v)) !! x = Some k ->
  exists w1 h1, step (t, w) (EFire i) = Some ((t, w1), None) /\
    networks w1 = <[n := mkNetwork (network v) h1]> (networks w) /\
    GlobalTransactionCache w1 = GlobalTransactionCache w /\ w_request w1 = w_request w /\
    scope_ok h1 /\ same_config (dhcpHandler v) h1 /\ h_hwcache h1 = h_hwcache (dhcpHandler v) /\
    mac (h_available h1) !! x = None /\ 0 < FreeIPsRemaining (h_available h1).
Proof.
  intros Hi Hd Hn Hs Hk. unfold step. rewrite Hi. cbn [due act]. rewrite (proj2 (Z.leb_le _ _) Hd).
  destruct (freed_scope t _ x k Hs Hk) as (Hs1 & Hv & Hf).
  do 2 eexists. split; [reflexivity | ]. split; [ | do 2 (split; [reflexivity | ])].
  - exact (alter_insert _ n (networks w) v Hn).
  - split; [exact Hs1 | split; [done | split; [done | done]]].
Qed.

(** ** Properties *)

(** C6: in every run, whatever the order of events and the answers of the network, and
    whatever the packets as long as none is sent from the hardware address
    00:00:00:00:00:00 ([client_ok]), every scope keeps its invariant: free and held
    indexes partition the range, and every cached index is in the range.  No scope
    appears and none changes its configuration. *)
Theorem system_invariant s evs s' answers :
  Forall event_ok evs -> world_ok s.2 -> run s evs = Some (s', answers) ->
  world_ok s'.2 /\ keeps_config s.2 s'.2.
Proof. apply run_config. Qed.

(** C4: serving a packet, of any client but one with the hardware address
    00:00:00:00:00:00, never harms another client.  In every network each held index
    keeps its holder, an index that gains a holder gains the sender or the fake
    address, the hardware-cache entries of other clients are untouched and the
    configuration is unchanged. *)
Theorem packet_harmless e fuel ifc p msgType srvIP w a w' n v' :
  client_ok e p -> world_ok w ->
  ServeDHCP ByteToString e fuel ifc p msgType srvIP w = Some (a, w') ->
  networks w' !! n = Some v' ->
  exists v, networks w !! n = Some v /\ network v' = network v /\
    same_config (dhcpHandler v) (dhcpHandler v') /\
    (forall i k, mac (h_available (dhcpHandler v)) !! i = Some k ->
                 mac (h_available (dhcpHandler v')) !! i = Some k) /\
    (forall i k, mac (h_available (dhcpHandler v')) !! i = Some k ->
       mac (h_available (dhcpHandler v)) !! i = Some k \/ k = mac_of p \/ k = FakeMac) /\
    (forall t k, k <> mac_of p ->
       Get t (h_hwcache (dhcpHandler v')) k = Get t (h_hwcache (dhcpHandler v)) k).
Proof.
  intros Hc Hw Hserve Hn.
  destruct (ServeDHCP_frame _ _ _ _ _ _ _ _ _ Hc Hw Hserve) as [Hf _].
  destruct (Hf n v' Hn) as (v & Hv & Hnet & [C _ [_ _ K G] O]).
  exists v. do 4 (split; [done | ]). done.
Qed.

(** C1: two clients never share an address in a tame run, that is a run with packets
    on a silent network, of clients without a static assignment and with a hardware
    address other than 00:00:00:00:00:00, and with goroutines that free only indexes
    no live entry names: every index in the hardware cache of a scope is held in its
    pool by the client it is cached for, so no two clients have live entries for one
    index. *)
Theorem leases_exclusive s evs s' n v k1 k2 x :
  tame s evs s' -> world_ok s.2 -> all_owned s.1 s.2 ->
  networks s'.2 !! n = Some v ->
  Get s'.1 (h_hwcache (dhcpHandler v)) k1 = Some x ->
  Get s'.1 (h_hwcache (dhcpHandler v)) k2 = Some x ->
  k1 = k2 /\ mac (h_available (dhcpHandler v)) !! x = Some k1.
Proof.
  intros Ht Hw Ho Hn G1 G2. destruct (tame_owned _ _ _ Ht Hw Ho) as [_ Ho'].
  pose proof (Ho' n v k1 Hn s'.1 x ltac:(lia) G1) as H1.
  pose proof (Ho' n v k2 Hn s'.1 x ltac:(lia) G2) as H2. split; congruence.
Qed.

(** C29: the goroutine started when a cache entry is evicted (or an address given back
    or found in use) frees the index without looking who has it by then. Take any
    state in which such a goroutine is due and its index is held by a client with a
    live cache entry, a lease or an offer.  When it has run, a second client (no
    static assignment, hardware address other than 00:00:00:00:00:00, no live entry)
    that asks for the address on a silent network is offered it and, asking within
    five seconds, is acknowledged on it, and at that moment both clients have live
    entries for the one index.  The packets are new to the caches of transactions,
    under two different keys, name this server or none, and come to a server interface
    ([asks_for] has the rest). *)
Theorem woken_goroutine_duplicates t w i due0 n v x holder first e1 e2 d fuel1 fuel2 ifc p q srvIP :
  world_ok w -> networks w !! n = Some v ->
  w_timers w !! i = Some (mkTimer due0 (FreeIndex n x)) -> due0 <= t ->
  mac (h_available (dhcpHandler v)) !! x = Some holder ->
  Get (t + d) (h_hwcache (dhcpHandler v)) holder = Some x ->
  length (To4 (h_ip (dhcpHandler v))) = 4%nat ->
  To4 (h_start (dhcpHandler v)) = be32 first -> is_u32 first -> first + x <> 0 ->
  isRelay ifc = false -> now e1 = t -> quiet e1 -> now e2 = t + d -> 0 <= d <= 5 * Second ->
  asks_for t w n v Discover (be32 (first + x)) p ->
  asks_for (t + d) w n v Request (be32 (first + x)) q ->
  mac_of p <> holder -> mac_of q = mac_of p ->
  Get t (h_hwcache (dhcpHandler v)) (mac_of p) = None ->
  (forall s, ParseOptions q !! OptionServerIdentifier = Some s -> s = To4 (h_ip (dhcpHandler v))) ->
  cacheKey ByteToString q Request <> cacheKey ByteToString p Discover ->
  Get (t + d) (w_request w) (cacheKey ByteToString q Request) = None ->
  exists w' a1 d1 a2 opts v',
    run (t, w) [EFire i; EPacket e1 (S fuel1) ifc p Discover srvIP;
                EWait d; EPacket e2 fuel2 ifc q Request srvIP] = Some ((t + d, w'), [a1; a2]) /\
    ans_D a1 = Some d1 /\ ans_IP a1 = be32 (first + x) /\
    ans_D a2 = Some (ReplyPacket q ACK (To4 (h_ip (dhcpHandler v))) (be32 (first + x))
                       (h_leaseDuration (dhcpHandler v)) opts) /\
    networks w' !! n = Some v' /\
    Get (t + d) (h_hwcache (dhcpHandler v')) holder = Some x /\
    Get (t + d) (h_hwcache (dhcpHandler v')) (mac_of p) = Some x.
Proof.
  intros [Hw _] Hn Hi Hdue Hk Gh Hl4 F Hf Hz Hr T1 Hq T2 Hd Ap Aq Hne Em G Hsrv Hkey Hreq.
  pose proof (Hw n v Hn) as Hs. subst t.
  assert (Hip : h_ip (dhcpHandler v) <> []) by (intros E; by rewrite E in Hl4).
  pose proof (holder_in_range (ctx_of w (dhcpHandler v)) x _ Hs Hk) as Hx.
  destruct (fire_free (now e1) w i due0 n v x holder Hi Hdue Hn Hs Hk)
    as (w1 & h1 & S1 & N1 & T1 & R1 & Hs1 & C1 & W1 & V1 & Fr1).
  set (v1 := mkNetwork (network v) h1) in *.
  pose proof C1 as (Ci & _ & Cs & Cr & Cl & _).
  destruct (discover_asked e1 fuel1 ifc p srvIP w1 n v1 first x)
    as (a1 & d1 & c2 & w0 & S2 & D1 & I1 & N2 & R2 & T2' & Hs2 & C2 & K2 & E2 & O2);
    [done | by simpl; rewrite Ci | done | done | by simpl; rewrite Cs | done
    | unfold in_range in *; simpl in *; by rewrite Cr | | exact V1 | exact Fr1 | simpl; by rewrite W1 | ].
  { apply (asks_for_insert _ w w1 n v v1); [done | done | done | done | by rewrite T1; apply Ap]. }
  set (w2 := put_back n v1 c2 w0) in *. set (v2 := mkNetwork (network v) (hdl c2)).
  assert (Nw2 : networks w2 = <[n := v2]> (networks w)).
  { unfold w2. simpl. rewrite N2, N1. apply list_insert_insert_eq. }
  assert (C12 : same_config (dhcpHandler v) (hdl c2)) by (by eapply same_config_trans).
  pose proof C12 as (C2i & _ & C2s & _ & C2l & _).
  destruct (request_asked e2 fuel2 ifc q srvIP w2 n v2 first x)
    as (a2 & c3 & w3 & opts & S4 & N3 & D2 & _ & G3 & _ & O3);
    [done | simpl; by rewrite C2i | done | simpl; by rewrite C2s | done | done | | simpl; by rewrite C2i
    | simpl; by rewrite C2i | by rewrite Em | | simpl; by rewrite R2, R1, T2 | ].
  { rewrite T2. apply (asks_for_insert _ w w2 n v v2); [done | done | done | done | ].
    unfold w2. simpl. rewrite T2', get_set_ne, T1 by congruence. apply Aq. }
  { rewrite Em. change (hw_get (now e2) c2 (mac_of p) = Some x). rewrite E2. apply cached_until_live. lia. }
  exists (put_back n v2 c3 w3), a1, d1, a2, opts, (mkNetwork (network v2) (hdl c3)).
  split; [ | split; [done | split; [done | split; [by rewrite D2; simpl; rewrite C2i, C2l | split]]]].
  - cbn [run]. rewrite S1. unfold step at 1. rewrite bool_decide_true, S2 by done.
    unfold step at 1. rewrite (proj2 (Z.leb_le _ _)) by lia.
    unfold step at 1. rewrite bool_decide_true, S4 by done. done.
  - simpl. rewrite N3, Nw2, list_insert_insert_eq. apply list_lookup_insert_eq.
    by eapply lookup_lt_Some.
  - simpl. rewrite <- T2. unfold hw_get in *. rewrite Em in *. simpl in O3. split.
    + rewrite O3, O2 by done. simpl. by rewrite W1, T2.
    + exact G3.
Qed.

End Laws.

End System.

(** ** Runs in the laboratory *)

Section Runs.

Import Wire Mem.

Definition lab_world : world :=
  mkWorld [mkNetwork (mkIPNet [192; 168; 1; 0] [255; 255; 255; 0]) (lab_scope lab_pool ∅)]
    (New 0 0) (New 0 0) (New 0 0) (New 0 0) w_store [].

(** A client asks for 192.168.1.12, [s] seconds into the run. *)
Definition asks (hw : HardwareAddr) (xid : Z) : Packet :=
  lab_packet hw [0; 0; 0; xid] [(OptionRequestedIPAddress, [192; 168; 1; 12])].
Definition send (s : Z) (hw : HardwareAddr) (xid msgType : Z) : event :=
  EPacket (lab_env (lab_t + s * Second)) 3 lab_if (asks hw xid) msgType [].
Definition wait (s : Z) : event := EWait (s * Second).

(** The address and message type of each answer, and the indexes cached for the
    two clients at the end. *)
Definition observe (r : option (state * list Answer))
    : option (list (IP * option bytes) * option Z * option Z) :=
  match r with
  | None => None
  | Some ((t, w), answers) =>
      let cached k := match networks w !! 0%nat with
                      | Some v => Get t (h_hwcache (dhcpHandler v)) k
                      | None => None
                      end in
      Some (map (fun a => (ans_IP a, match ans_D a with
                                     | Some d => ParseOptions d !! OptionDHCPMessageType
                                     | None => None end)) answers, cached w_mac, cached w_mac2)
  end.

Definition address : IP := [192; 168; 1; 12].

(** The first client lets an OFFER lapse; its cache entry is evicted after ten
    seconds and a goroutine will free the index thirty seconds later.  Before
    that the client comes back and gets its lease. *)
Definition lapse_start : list event :=
  [send 0 lab_hw 1 Discover; wait 10; EJanitor 0;
   wait 10; send 20 lab_hw 2 Discover; send 20 lab_hw 2 Request].
Definition lapse_run : list event :=
  lapse_start ++
  [wait 20; EFire 0;
   send 40 lab_hw2 3 Discover; send 40 lab_hw2 3 Request].

(** The situation of [woken_goroutine_duplicates] arises: a client that let an
    OFFER lapse and came back loses its index to the goroutine of the evicted
    entry, and the second client is acknowledged on the same address while the
    first lease runs. *)
Example lapsed_offer_duplicates_lease :
  observe (run lab_key (lab_t, lab_world) lapse_run) =
    Some ([(address, Some [Offer]); (address, Some [Offer]); (address, Some [ACK]);
           (address, Some [Offer]); (address, Some [ACK])], Some 2, Some 2).
Proof. vm_compute. reflexivity. Qed.

(** The first client releases its address: the entry is deleted at once, the
    index freed after thirty seconds, given to the second client, and freed
    again by the goroutine that waited ten minutes. *)
Definition release_run : list event :=
  [send 0 lab_hw 1 Discover; send 0 lab_hw 1 Request;
   wait 60; send 60 lab_hw 2 Release; EFire 1;
   wait 30; EFire 1;
   wait 1; send 91 lab_hw2 3 Discover; send 91 lab_hw2 3 Request;
   wait 569; EFire 0;
   send 660 lab_hw 4 Discover; send 660 lab_hw 4 Request].

(** A released address is not unusable for ten minutes: the second client
    has it 31 seconds after the RELEASE.  When the ten minutes are over the
    goroutine of the RELEASE frees the index that is now leased to the second
    client, and the first client is acknowledged on the same address. *)
Example release_timer_duplicates_lease :
  observe (run lab_key (lab_t, lab_world) release_run) =
    Some ([(address, Some [Offer]); (address, Some [ACK]); ([], None);
           (address, Some [Offer]); (address, Some [ACK]);
           (address, Some [Offer]); (address, Some [ACK])], Some 2, Some 2).
Proof. vm_compute. reflexivity. Qed.

(** ** Witnesses *)

Lemma lab_world_ok : world_ok lab_world.
Proof.
  split; [ | apply Forall_nil_2]. intros [|n] v Hn; [ | done]. injection Hn as <-. apply lab_fresh_ok.
Qed.

Lemma lab_world_owned t : all_owned t lab_world.
Proof. intros [|n] v k Hn; [ | done]. injection Hn as <-. by apply owned_none. Qed.

Lemma asks_ok t hw xid :
  mac_of (asks hw xid) <> FreeMac -> packet_ok (asks hw xid) -> client_ok (lab_env t) (asks hw xid).
Proof. intros Hm Hp. split; [intros k; apply fixed_choice_ok | done]. Qed.

Lemma asks_ok1 t xid : (xid =? 1) || (xid =? 2) = true -> client_ok (lab_env t) (asks lab_hw xid).
Proof.
  intros Hx. apply asks_ok; [by destruct xid | ].
  apply orb_prop in Hx as [Hx|Hx]; zbool; subst xid; by apply lab_packet_ok.
Qed.

(** What the witness below needs of the state [s] 40 seconds into the run. *)
Definition lapse_facts (s : state) :=
  let '(t, w) := s in
  let q := asks lab_hw2 3 in
  (t, w_timers w !! 0%nat, fst <$> select_network q (networks w) 0,
   [Get t (GlobalTransactionCache w) (cacheKey lab_key q Discover);
    Get (t + 3 * Second) (GlobalTransactionCache w) (cacheKey lab_key q Request);
    Get (t + 3 * Second) (w_request w) (cacheKey lab_key q Request)],
   (fun v => let h := dhcpHandler v in
     (mac (h_available h) !! 2, [Get (t + 3 * Second) (h_hwcache h) w_mac; Get t (h_hwcache h) w_mac2],
      To4 (h_ip h), To4 (h_start h), h_ipAssigned h !! w_mac2)) <$> networks w !! 0%nat).

Lemma lapse_reaches :
  (fun r => lapse_facts r.1) <$> run lab_key (lab_t, lab_world) (lapse_start ++ [wait 20]) =
  Some (lab_t + 40 * Second, Some (mkTimer (lab_t + 40 * Second) (FreeIndex 0 2)), Some 0%nat,
        [None; None; None],
        Some (Some w_mac, [Some 2; None], [192; 168; 1; 1], be32 3232235786, None)).
Proof. vm_compute. reflexivity. Qed.

Lemma lapse_events_ok : Forall event_ok (lapse_start ++ [wait 20]).
Proof.
  unfold lapse_start. cbn [app].
  apply Forall_cons; split; [apply asks_ok1; reflexivity | ].
  do 3 (apply Forall_cons; split; [exact Logic.I | ]).
  do 2 (apply Forall_cons; split; [apply asks_ok1; reflexivity | ]).
  apply Forall_cons; split; [exact Logic.I | ]. apply Forall_nil_2.
Qed.

Lemma lapse_state :
  exists w v answers,
    run lab_key (lab_t, lab_world) (lapse_start ++ [wait 20]) = Some ((lab_t + 40 * Second, w), answers) /\
    world_ok w /\ networks w !! 0%nat = Some v /\
    w_timers w !! 0%nat = Some (mkTimer (lab_t + 40 * Second) (FreeIndex 0 2)) /\
    mac (h_available (dhcpHandler v)) !! 2 = Some w_mac /\
    Get (lab_t + 40 * Second + 3 * Second) (h_hwcache (dhcpHandler v)) w_mac = Some 2 /\
    Get (lab_t + 40 * Second) (h_hwcache (dhcpHandler v)) w_mac2 = None /\
    To4 (h_ip (dhcpHandler v)) = [192; 168; 1; 1] /\ To4 (h_start (dhcpHandler v)) = be32 3232235786 /\
    Get (lab_t + 40 * Second + 3 * Second) (w_request w) (cacheKey lab_key (asks lab_hw2 3) Request) = None /\
    asks_for lab_key (lab_t + 40 * Second) w 0 v Discover (be32 (3232235786 + 2)) (asks lab_hw2 3) /\
    asks_for lab_key (lab_t + 40 * Second + 3 * Second) w 0 v Request (be32 (3232235786 + 2)) (asks lab_hw2 3).
Proof.
  pose proof lapse_reaches as Hr.
  destruct (run lab_key (lab_t, lab_world) (lapse_start ++ [wait 20])) as [[[t w] answers]|] eqn:R; [ | done].
  destruct (run_config lab_key (lab_t, lab_world) _ _ _ lapse_events_ok lab_world_ok R) as [Hw _].
  cbn [fmap option_fmap option_map fst lapse_facts] in Hr. injection Hr as Ht Ht0 Hsel G1 G2 G3 Hv.
  subst t. destruct (networks w !! 0%nat) as [v|] eqn:Hn; [ | done]. injection Hv as Hm Ga Gb Hip Hst Has.
  assert (Sel : select_network (asks lab_hw2 3) (networks w) 0 = Some (0%nat, v)).
  { destruct (select_network (asks lab_hw2 3) (networks w) 0) as [[j u]|] eqn:S; [ | done].
    injection Hsel as ->. apply select_network_lookup in S as [_ S]. simpl in S. congruence. }
  assert (A : forall t msgType, Get t (GlobalTransactionCache w) (cacheKey lab_key (asks lab_hw2 3) msgType) = None ->
    asks_for lab_key t w 0 v msgType (be32 (3232235786 + 2)) (asks lab_hw2 3)).
  { intros t mt G. split; [done | done | by vm_compute | by apply lab_packet_ok
      | apply Nat.leb_le; by vm_compute | done | exact Has]. }
  exists w, v, answers. do 10 (split; [done | ]). split; by apply A.
Qed.

Lemma woken_goroutine_duplicates_witness :
  exists w v w' a1 a2 opts v',
    run lab_key (lab_t + 40 * Second, w)
      [EFire 0; send 40 lab_hw2 3 Discover; wait 3; send 43 lab_hw2 3 Request]
      = Some ((lab_t + 40 * Second + 3 * Second, w'), [a1; a2]) /\
    ans_D a2 = Some (ReplyPacket (asks lab_hw2 3) ACK (To4 (h_ip (dhcpHandler v))) (be32 (3232235786 + 2))
                       (h_leaseDuration (dhcpHandler v)) opts) /\
    networks w' !! 0%nat = Some v' /\
    Get (lab_t + 40 * Second + 3 * Second) (h_hwcache (dhcpHandler v')) w_mac = Some 2 /\
    Get (lab_t + 40 * Second + 3 * Second) (h_hwcache (dhcpHandler v')) w_mac2 = Some 2.
Proof.
  destruct lapse_state as (w & v & answers & _ & Hw & Hn & Ht & Hm & Ga & Gb & Hip & Hst & Gr & A1 & A2).
  destruct (woken_goroutine_duplicates lab_key (lab_t + 40 * Second) w 0 (lab_t + 40 * Second) 0 v 2 w_mac
    3232235786 (lab_env (lab_t + 40 * Second)) (lab_env (lab_t + 43 * Second)) (3 * Second) 2 3 lab_if
    (asks lab_hw2 3) (asks lab_hw2 3) [])
    as (w' & a1 & d1 & a2 & opts & v' & H1 & _ & _ & H2 & H3 & H4 & H5);
    [exact Hw | exact Hn | exact Ht | reflexivity | exact Hm | exact Ga | rewrite Hip; reflexivity
    | exact Hst | split; [lia | reflexivity] | discriminate | reflexivity | reflexivity | by intros
    | reflexivity | split; [discriminate | discriminate] | exact A1 | exact A2 | discriminate | reflexivity
    | exact Gb | intros s Hs; vm_compute in Hs; discriminate | vm_compute; discriminate | exact Gr | ].
  exists w, v, w', a1, a2, opts, v'.
  split; [exact H1 | split; [exact H2 | split; [exact H3 | split; [exact H4 | exact H5]]]].
Defined.

Definition happens {A : Type} (r : option A) : bool := match r with Some _ => true | None => false end.

Lemma system_invariant_witness :
  exists s answers, run lab_key (lab_t, lab_world) lapse_start = Some (s, answers) /\ world_ok s.2.
Proof.
  assert (Hr : happens (run lab_key (lab_t, lab_world) lapse_start) = true) by (by vm_compute).
  destruct (run lab_key (lab_t, lab_world) lapse_start) as [[s answers]|] eqn:R.
  2: done.
  exists s, answers. split; [done | ].
  apply (system_invariant lab_key (lab_t, lab_world) lapse_start s answers);
    [ | apply lab_world_ok | exact R].
  unfold lapse_start.
  apply Forall_cons; split; [apply asks_ok1; reflexivity | ].
  do 3 (apply Forall_cons; split; [exact I | ]).
  do 2 (apply Forall_cons; split; [apply asks_ok1; reflexivity | ]). apply Forall_nil_2.
Defined.

Lemma packet_harmless_witness :
  exists a w', ServeDHCP lab_key (lab_env lab_t) 3 lab_if (asks lab_hw 1) Discover [] lab_world = Some (a, w') /\
    forall v', networks w' !! 0%nat = Some v' ->
      forall t, Get t (h_hwcache (dhcpHandler v')) w_mac2 = None.
Proof.
  assert (Hr : happens (ServeDHCP lab_key (lab_env lab_t) 3 lab_if (asks lab_hw 1) Discover [] lab_world) = true)
    by (by vm_compute).
  destruct (ServeDHCP _ _ _ _ _ _ _ _) as [[a w']|] eqn:R; [ | done].
  exists a, w'. split; [done | ]. intros v' Hv' t.
  destruct (packet_harmless lab_key (lab_env lab_t) 3 lab_if (asks lab_hw 1) Discover [] lab_world a w' 0 v'
    ltac:(by apply asks_ok1) lab_world_ok R Hv') as (v & Hv & _ & _ & _ & _ & Ho).
  rewrite Ho by done. injection Hv as <-. done.
Defined.

Lemma leases_exclusive_witness :
  exists s v, tame lab_key (lab_t, lab_world) [send 0 lab_hw 1 Discover; wait 1] s /\
    networks s.2 !! 0%nat = Some v /\
    Get s.1 (h_hwcache (dhcpHandler v)) w_mac = Some 2 /\
    mac (h_available (dhcpHandler v)) !! 2 = Some w_mac.
Proof.
  assert (Hc : (fun r => (r.1.1, (fun v => Get r.1.1 (h_hwcache (dhcpHandler v)) w_mac) <$> networks r.1.2 !! 0%nat))
    <$> run lab_key (lab_t, lab_world) [send 0 lab_hw 1 Discover; wait 1]
    = Some (lab_t + 1 * Second, Some (Some 2))) by (by vm_compute).
  cbn [run] in Hc.
  destruct (step lab_key (lab_t, lab_world) (send 0 lab_hw 1 Discover)) as [[s1 a1]|] eqn:S1; [ | done].
  destruct (step lab_key s1 (wait 1)) as [[s2 a2]|] eqn:S2; [ | done].
  simpl in Hc. injection Hc as Ht Hg. destruct (networks s2.2 !! 0%nat) as [v|] eqn:Hv; [ | done].
  injection Hg as Hg.
  assert (Htame : tame lab_key (lab_t, lab_world) [send 0 lab_hw 1 Discover; wait 1] s2).
  { apply (tame_cons _ _ _ _ s1 a1); [ | exact S1 | apply (tame_cons _ _ _ _ s2 a2); [done | exact S2 | apply tame_nil]].
    split; [by apply asks_ok1 | split; [by intros | ]]. intros [|n] v0 Hv0; [ | done]. injection Hv0 as <-. reflexivity. }
  exists s2, v. split; [done | split; [done | split; [done | ]]].
  apply (leases_exclusive lab_key (lab_t, lab_world) [send 0 lab_hw 1 Discover; wait 1] s2 0 v w_mac w_mac 2);
    [exact Htame | apply lab_world_ok | apply lab_world_owned | exact Hv | exact Hg | exact Hg].
Defined.

End Runs.
