(* ===== verification/Threads.v ===== *)
(** * Threads over a shared state

    A thread is a program cut at its atomic actions: each sees the clock and the
    shared state, changes the state, and leaves the rest of the thread.  [solo]
    runs a thread undisturbed.  [triple] is a rely-guarantee specification: what
    the thread guarantees of each of its actions, and what its result satisfies,
    provided everybody else respects the rely condition. *)

From S2P Require Import Prelude.

Inductive thread (S R : Type) : Type :=
| Return (r : R)
| Atomic (f : Z -> S -> S * thread S R).
Arguments Return {S R} r.
Arguments Atomic {S R} f.

Lemma thread_induction {S R : Type} (P : thread S R -> Prop) :
  (forall r, P (Return r)) -> (forall f, (forall t s, P (f t s).2) -> P (Atomic f)) -> forall th, P th.
Proof.
  intros HR HA. fix F 1. intros [r|f]; [apply HR | ]. apply HA. intros t s.
  destruct (f t s) as [s' th']. apply F.
Qed.

(** An atomic action with a result, then the rest. *)
Definition act_then {S R X : Type} (f : Z -> S -> S * X) (k : X -> thread S R) : thread S R :=
  Atomic (fun t s => let '(s, x) := f t s in (s, k x)).

Notation "x '<~' f ';;' k" := (act_then f (fun x => k))
  (at level 100, f at next level, right associativity) : go_scope.

Fixpoint solo {S R : Type} (th : thread S R) (t : Z) (s : S) : S * R :=
  match th with
  | Return r => (s, r)
  | Atomic f => let '(s, th) := f t s in solo th t s
  end.

Lemma solo_act {S R X : Type} (f : Z -> S -> S * X) (k : X -> thread S R) t s :
  solo (act_then f k) t s = solo (k (f t s).2) t (f t s).1.
Proof. unfold act_then. cbn [solo]. by destruct (f t s). Qed.

(** ** Rely and guarantee *)

Section RelyGuarantee.

Context {S R : Type}.
Context (Inv : S -> Prop) (Rely : S -> S -> Prop) (Guar : S -> S -> Prop).

Definition stable (P : S -> Prop) : Prop := forall s s', P s -> Rely s s' -> P s'.

(** [P] is what the thread knows of the state, whatever the others do. *)
Fixpoint triple (P : S -> Prop) (th : thread S R) (Q : R -> S -> Prop) : Prop :=
  match th with
  | Return r => forall s, Inv s -> P s -> Q r s
  | Atomic f => forall t s, Inv s -> P s ->
      let '(s', th') := f t s in
      Inv s' /\ Guar s s' /\ exists P', stable P' /\ P' s' /\ triple P' th' Q
  end.

Lemma triple_act {X : Type} P P' (f : Z -> S -> S * X) k Q :
  (forall x, stable (P' x)) ->
  (forall t s, Inv s -> P s -> Inv (f t s).1 /\ Guar s (f t s).1 /\ P' (f t s).2 (f t s).1) ->
  (forall x, triple (P' x) (k x) Q) -> triple P (act_then f k) Q.
Proof.
  intros Hst Hf Hk. cbn. intros t s Hi Hp. specialize (Hf t s Hi Hp). destruct (f t s) as [s' x].
  destruct Hf as (H1 & H2 & H3). split; [done | split; [done | ]]. exists (P' x). auto.
Qed.

Lemma triple_weaken P P' th Q Q' :
  triple P th Q -> (forall s, Inv s -> P' s -> P s) -> (forall r s, Q r s -> Q' r s) -> triple P' th Q'.
Proof.
  intros H HP HQ. revert P P' HP H. induction th as [r|f IH] using thread_induction; intros P P' HP H; cbn in *.
  - intros s Hi Hs. auto.
  - intros t s Hi Hs. specialize (H t s Hi (HP s Hi Hs)). specialize (IH t s).
    destruct (f t s) as [s' th']. destruct H as (H1 & H2 & P1 & H3 & H4 & H5).
    split; [done | split; [done | ]]. exists P1. split; [done | split; [done | ]].
    eapply IH; [ | exact H5]. done.
Qed.

(** Nothing can happen where nothing holds. *)
Lemma triple_vacuous P th Q : (forall s, Inv s -> ~ P s) -> triple P th Q.
Proof. intros H. destruct th as [r|f]; cbn; intros; exfalso; by eapply H. Qed.

End RelyGuarantee.
