(* ===== verification/Concurrent.v ===== *)
(** * Handlers as threads

    The hundred workers run [ServeDHCP] at the same time on the same scopes.
    Here [ServeDHCP] of src/interface.go is cut at its calls on shared state:
    every method of the pool and of a cache is one atomic action, since it holds
    its own lock, and so is a critical section of [GlobalTransactionLock], with
    at most one access to anything else.  The configuration of the scope comes
    from [h], the copy a handler takes ([handler = *v.dhcpHandler]).  Run alone, a
    thread does what the function of Interface.v does. *)

From S2P Require Import Prelude GoStd GoNet Pool GoCache Dhcp4 Database Utils Handler Interface.
From S2P Require Import Scope Lab Discover Request System Threads.

Open Scope go_scope.

(** The environment of a handler, seen at a time. *)
Definition at_time (t : Z) (e : env) : env :=
  mkEnv t (ping e) (arp_Search e) (pick e) (gen e) (range_options e).

Section Concurrent.

Context {CZ : GoCache Z} {CS : GoCache string} {SQL : SqlDB} {JSON : JSONCodec} {D4 : Dhcp4}.
Context (ByteToString : bytes -> string).

(** ** Atomic actions *)

Definition op_hw_get (k : string) (t : Z) (c : ctx) : ctx * option Z := (c, hw_get t c k).
Definition op_hw_set (k : string) (v d : Z) (t : Z) (c : ctx) : ctx * unit := (hw_set t k v d c, tt).
Definition op_hw_delete (n : nat) (k : string) (t : Z) (c : ctx) : ctx * unit := (hw_delete t n k c, tt).
Definition op_hw_replace (k : string) (v d : Z) (t : Z) (c : ctx) : ctx * error :=
  let '(hw, err) := Replace t (h_hwcache (hdl c)) k v d in (upd_hdl (set_hwcache hw) c, err).
Definition op_xid_get (k : string) (t : Z) (c : ctx) : ctx * option Z := (c, Get t (h_xid (hdl c)) k).
Definition op_xid_set (k : string) (v d : Z) (t : Z) (c : ctx) : ctx * unit := (xid_set t k v d c, tt).
Definition op_xid_replace (k : string) (v d : Z) (t : Z) (c : ctx) : ctx * unit := (xid_replace t k v d c, tt).

(** The MAC address [GetMACIndex] returns. *)
Definition op_holder (i : Z) (t : Z) (c : ctx) : ctx * string := (c, (GetMACIndex (pool c) i).1.2).
Definition op_remaining (t : Z) (c : ctx) : ctx * Z := (c, FreeIPsRemaining (pool c)).
Definition op_reserve (i : Z) (k : string) (t : Z) (c : ctx) : ctx * (error * string) :=
  let '(dp, r) := ReserveIPIndex (pool c) i k in (pool_set dp c, r).
Definition op_pick (ch : choice) (k : string) (t : Z) (c : ctx) : ctx * (Z * string * error) :=
  let '(dp, r) := GetFreeIPIndex ch (pool c) k in (pool_set dp c, r).

(** Goroutines are started. *)
Definition op_spawn (ts : Z -> list timer) (t : Z) (c : ctx) : ctx * unit := (spawn (ts t) c, tt).

(** The options of a reply, with the overrides applied. *)
Definition op_options (e : env) (h : DHCPHandler) (p : Packet) (networkIP : string) (t : Z) (c : ctx)
    : ctx * exec Options :=
  let '(st, r) := buildReplyOptions (at_time t e) (overrides c) (h_options h) p networkIP (mac_of p) in
  (set_overrides st c, r).

(** The critical section of a REQUEST: [None] when it was already processed,
    otherwise the holder of the index. *)
Definition op_request_once (key : string) (i : Z) (t : Z) (c : ctx) : ctx * option string :=
  match Get t (RequestGlobalTransactionCache c) key with
  | Some _ => (c, None)
  | None =>
      (set_request_cache (SetItem t (RequestGlobalTransactionCache c) key 1 (1 * Second)) c,
       Some (GetMACIndex (pool c) i).1.2)
  end.

Definition op_ip_set (k v : string) (d : Z) (t : Z) (c : ctx) : ctx * unit :=
  (set_global (SetItem t (GlobalIpCache c) k v d) (GlobalMacCache c) c, tt).
Definition op_mac_set (k v : string) (d : Z) (t : Z) (c : ctx) : ctx * unit :=
  (set_global (GlobalIpCache c) (SetItem t (GlobalMacCache c) k v d) c, tt).

(** ** DISCOVER *)

(** [None] when the fuel of the [retry] loop is used up. *)
Abbreviation handler_thread := (thread ctx (option Answer)).

Section Handlers.

Context (e : env) (I : Interface) (net : nat) (srvIP : IP) (p : Packet) (h : DHCPHandler) (networkIP : string).

Definition reply_of (mt : Z) (ip : IP) (GlobalOptions : Options) : Packet :=
  ReplyPacket p mt (To4 (h_ip h)) ip (h_leaseDuration h)
    (SelectOrderOrAll GlobalOptions (GlobalOptions !! OptionParameterRequestList)).

(** From the label [reply]. *)
Definition reply_t (answer : Answer) (free : Z) : handler_thread :=
  match IPAdd (h_start h) free with
  | Panic => Return (Some answer)
  | Ret ip =>
      r <~ op_options e h p networkIP;;
      match r with
      | Panic => Return (Some (with_IP ip answer))
      | Ret GlobalOptions => Return (Some (with_D (reply_of Offer ip GlobalOptions) (with_IP ip answer)))
      end
  end.

(** From "Lock it" to the end of a round; [again] is [goto retry]. *)
Definition probe_t (answer : Answer) (k : nat) (free : Z) (again : handler_thread) : handler_thread :=
  _ <~ op_hw_set (mac_of p) free (5 * Second);;
  _ <~ op_xid_set (ByteToString (XId p)) 0 (5 * Second);;
  match IPAdd (h_start h) free with
  | Panic => Return (Some answer)
  | Ret ipaddr =>
      let inarp := arp_conflict e p (IP_String ipaddr) in
      let pingreply := ping e k (To4 (setOptionServerIdentifier srvIP (h_ip h))) ipaddr (Name I) in
      if pingreply || inarp then
        _ <~ op_hw_delete net (mac_of p);;
        _ <~ op_reserve (safeIntToUint64 free) FakeMac;;
        _ <~ op_spawn (fun t => [mkTimer (t + 10 * Minute) (FreeIndex net (safeIntToUint64 free))]);;
        again
      else
        _ <~ op_hw_set (mac_of p) free (5 * Second);;
        _ <~ op_xid_replace (ByteToString (XId p)) 1 (5 * Second);;
        reply_t answer free
  end.

(** "If we still haven't found an IP address to offer, we get the next one". *)
Definition grab_t (answer : Answer) (k : nat) (free : Z) (again : handler_thread) : handler_thread :=
  if free =? -1 then
    r <~ op_pick (pick e k) (mac_of p);;
    match r with
    | (freeu64, _, None) => probe_t answer k (safeUint64ToInt freeu64) again
    | (_, _, Some _) => Return (Some answer)
    end
  else probe_t answer k free again.

Fixpoint retry_t (answer : Answer) (fuel k : nat) (firstTry : bool) (free : Z) : handler_thread :=
  match fuel with
  | O => Return None
  | S fuel =>
      n <~ op_remaining;;
      if 0 <? n then
        match ParseOptions p !! OptionRequestedIPAddress, firstTry with
        | Some opt50, true =>
            match Uint32 opt50, Uint32 (To4 (h_start h)) with
            | Ret a, Ret b =>
                let element := u32 (a - b) in
                returnedMac <~ op_holder (safeUint32ToUint64 element);;
                if String.eqb returnedMac (mac_of p) then
                  grab_t answer k element (retry_t answer fuel (S k) false 0)
                else if String.eqb returnedMac FreeMac then
                  r <~ op_reserve (safeUint32ToUint64 element) (mac_of p);;
                  if bool_decide (r.1 = None) && String.eqb r.2 (mac_of p) then
                    grab_t answer k element (retry_t answer fuel (S k) false 0)
                  else grab_t answer k free (retry_t answer fuel (S k) false 0)
                else retry_t answer fuel (S k) false free
            | _, _ => Return (Some answer)
            end
        | _, _ => grab_t answer k free (retry_t answer fuel (S k) false 0)
        end
      else Return (Some answer)
  end.

(** "5 seconds to send a request" *)
Definition cached_t (answer : Answer) (x : Z) : handler_thread :=
  err <~ op_hw_replace (mac_of p) x (5 * Second);;
  match err with
  | None => reply_t answer x
  | Some _ => Return (Some answer)
  end.

Definition discover_t (answer : Answer) (fuel : nat) : handler_thread :=
  match h_ipAssigned h !! mac_of p with
  | Some position => reply_t answer position
  | None =>
      found <~ op_hw_get (mac_of p);;
      match found with
      | None => retry_t answer fuel 0 true (-1)
      | Some x =>
          returnedMac <~ op_holder (safeIntToUint64 x);;
          if String.eqb returnedMac (mac_of p) then cached_t answer x
          else if String.eqb returnedMac FreeMac then
            _ <~ op_hw_delete net (mac_of p);;
            r <~ op_reserve (safeIntToUint64 x) (mac_of p);;
            if bool_decide (r.1 = None) && String.eqb r.2 (mac_of p) then cached_t answer x
            else retry_t answer fuel 0 true (-1)
          else retry_t answer fuel 0 true (-1)
      end
  end.

(** ** REQUEST and INFORM *)

Definition nak_t (answer : Answer) : handler_thread :=
  Return (Some (with_D (ReplyPacket p NAK (To4 (h_ip h)) [] 0 []) answer)).

(** [if Reply]: the reply, then the four caches and the pool. *)
Definition ack_t (answer : Answer) (Index : Z) : handler_thread :=
  r <~ op_options e h p networkIP;;
  match r with
  | Panic => Return (Some answer)
  | Ret GlobalOptions =>
      let d := h_leaseDuration h + 15 * Second in
      _ <~ op_ip_set (IP_String (reqIP p)) (mac_of p) d;;
      _ <~ op_mac_set (mac_of p) (IP_String (reqIP p)) d;;
      _ <~ op_hw_set (mac_of p) Index d;;
      _ <~ op_reserve (safeIntToUint64 Index) (mac_of p);;
      Return (Some (with_D (reply_of ACK (reqIP p) GlobalOptions) answer))
  end.

Definition foreign : bool :=
  match ParseOptions p !! OptionServerIdentifier with
  | Some [a; b; d; f] => negb (IP_Equal (IPv4 a b d f) (To4 (h_ip h)))
  | _ => false
  end.

(** The client has [index] in the hardware cache. *)
Definition request_found_t (msgType : Z) (answer : Answer) (index : Z) : handler_thread :=
  match IPAdd (h_start h) index with
  | Panic => Return (Some answer)
  | Ret ip =>
      if IP_Equal ip (reqIP p) then
        r <~ op_request_once (cacheKey ByteToString p msgType) (safeIntToUint64 index);;
        match r with
        | None => Return (Some answer)
        | Some returnedMac =>
            if String.eqb returnedMac (mac_of p) then ack_t answer index else nak_t answer
        end
      else
        match Uint32 (XId p) with
        | Panic => Return (Some answer)
        | Ret x =>
            found <~ op_xid_get (Itoa x);;
            match found with
            | Some v =>
                if v =? 1 then
                  _ <~ op_hw_delete net (mac_of p);;
                  nak_t answer
                else nak_t answer
            | None => nak_t answer
            end
        end
  end.

Definition request_t (msgType : Z) (answer : Answer) : handler_thread :=
  if foreign then Return (Some emptyAnswer)
  else
    let answer := with_IP (reqIP p) answer in
    if (length (reqIP p) =? 4)%nat && negb (IP_Equal (reqIP p) IPv4zero) then
      match IPRange (h_start h) (reqIP p) with
      | Panic => Return (Some answer)
      | Ret n =>
          let leaseNum := n - 1 in
          if (0 <=? leaseNum) && (leaseNum <? h_leaseRange h) then
            match h_ipAssigned h !! mac_of p with
            | Some position => if position =? leaseNum then ack_t answer position else nak_t answer
            | None =>
                found <~ op_hw_get (mac_of p);;
                match found with
                | Some index => request_found_t msgType answer index
                | None => Return (Some emptyAnswer)
                end
            end
          else nak_t answer
      end
    else nak_t answer.

(** ** RELEASE and DECLINE *)

Definition give_back_t (answer : Answer) : handler_thread :=
  match IPRange (h_start h) (reqIP p) with
  | Panic => Return (Some answer)
  | Ret n =>
      let leaseNum := n - 1 in
      if (0 <=? leaseNum) && (leaseNum <? h_leaseRange h) then
        found <~ op_hw_get (mac_of p);;
        match found with
        | Some x =>
            if leaseNum =? x then
              returnedMac <~ op_holder (safeIntToUint64 x);;
              if String.eqb returnedMac (mac_of p) then
                _ <~ op_reserve (safeIntToUint64 leaseNum) FakeMac;;
                _ <~ op_spawn (fun t =>
                       [mkTimer (t + 10 * Minute) (FreeIndex net (safeIntToUint64 leaseNum));
                        mkTimer t (DeleteHw net (mac_of p))]);;
                Return (Some answer)
              else Return (Some answer)
            else Return (Some answer)
        | None => Return (Some answer)
        end
      else Return (Some answer)
  end.

(** [switch msgType] *)
Definition message_t (fuel : nat) (msgType : Z) (answer : Answer) : handler_thread :=
  if msgType =? Discover then discover_t answer fuel
  else if (msgType =? Request) || (msgType =? Inform) then request_t msgType answer
  else if (msgType =? Release) || (msgType =? Decline) then give_back_t answer
  else nak_t answer.

End Handlers.

(** ** The whole handler *)

(** A thread on the scope of network [i], over the state of the interface. *)
Fixpoint lift (i : nat) (th : handler_thread) : thread world (option Answer) :=
  match th with
  | Return r => Return r
  | Atomic f => Atomic (fun t w =>
      match networks w !! i with
      | Some v => let '(c, th) := f t (ctx_of w (dhcpHandler v)) in (put_back i v c w, lift i th)
      | None => (w, Return None)
      end)
  end.

(** The choice of the scope reads only the configuration; the check of the
    transaction is a critical section. *)
Definition serve_t (e : env) (fuel : nat) (I : Interface) (p : Packet) (msgType : Z) (srvIP : IP)
    : thread world (option Answer) :=
  let answer := mkAnswer None [] (CHAddr p) (Ipv4 I) in
  if isRelay I then Return (Some (serve_relay e I p msgType answer))
  else Atomic (fun t w =>
    match select_network p (networks w) 0 with
    | None => (w, Return (Some answer))
    | Some (i, v) =>
        if (length (h_ip (dhcpHandler v)) =? 0)%nat then (w, Return (Some answer))
        else
          match Get t (GlobalTransactionCache w) (cacheKey ByteToString p msgType) with
          | Some _ => (w, Return (Some answer))
          | None =>
              (set_transaction (SetItem t (GlobalTransactionCache w) (cacheKey ByteToString p msgType) 1 (1 * Second)) w,
               lift i (message_t e I i srvIP p (dhcpHandler v) (IP_String (net_IP (network v))) fuel msgType answer))
          end
    end).

(** ** A thread run alone *)

Section Solo.

Context (e : env) (I : Interface) (net : nat) (srvIP : IP) (p : Packet) (h : DHCPHandler) (networkIP : string).
Context (t : Z).
Abbreviation e' := (at_time t e).

(** [h] is a copy of the scope of [c]. *)
Definition copied (c : ctx) : Prop := same_config h (hdl c).

Ltac fields H :=
  let H1 := fresh in let H2 := fresh in let H3 := fresh in let H4 := fresh in let H5 := fresh in
  let H6 := fresh in let H7 := fresh in
  pose proof H as (H1 & H2 & H3 & H4 & H5 & H6 & H7 & _); rewrite ?H1, ?H2, ?H3, ?H4, ?H5, ?H6, ?H7;
  clear H1 H2 H3 H4 H5 H6 H7.

(** How a search for an address ends. *)
Definition finish (answer : Answer) (s : search) : option (Answer * ctx) :=
  match s with
  | SFuel => None
  | SStop c | SPanic c => Some (answer, c)
  | SReply c free =>
      match IPAdd (h_start (hdl c)) free with
      | Panic => Some (answer, c)
      | Ret ip =>
          match reply_packet e' p Offer c networkIP ip with
          | (c, Panic) => Some (with_IP ip answer, c)
          | (c, Ret d) => Some (with_D d (with_IP ip answer), c)
          end
      end
  end.

(** [agrees r x]: the thread ended in [r], the function in [x]. *)
Definition agrees (r : ctx * option Answer) (x : option (Answer * ctx)) : Prop :=
  match x with
  | Some (a, c) => r = (c, Some a)
  | None => r.2 = None
  end.

Lemma reply_t_solo answer free c :
  copied c -> agrees (solo (reply_t e p h networkIP answer free) t c) (finish answer (SReply c free)).
Proof.
  intros Hc. unfold reply_t, finish. fields Hc. destruct (IPAdd (h_start h) free) as [ip|]; [ | done].
  rewrite solo_act. unfold op_options, reply_packet. fields Hc.
  destruct (buildReplyOptions _ _ _ _ _ _) as [st [o|]]; [ | done]. done.
Qed.

Lemma probe_t_solo answer k firstTry free again c :
  copied c ->
  match probe ByteToString e' I net srvIP p k firstTry free c with
  | RStop c' | RPanic c' => solo (probe_t e I net srvIP p h networkIP answer k free again) t c = (c', Some answer)
  | RAgain c' ft f => (ft = false /\ f = 0 /\ copied c') /\
      solo (probe_t e I net srvIP p h networkIP answer k free again) t c = solo again t c'
  | RReply c' x => agrees (solo (probe_t e I net srvIP p h networkIP answer k free again) t c)
      (finish answer (SReply c' x))
  end.
Proof.
  intros Hc. unfold probe, probe_t. rewrite !solo_act. cbn [op_hw_set op_xid_set fst snd].
  cbn [hdl xid_set hw_set upd_hdl h_start h_ip set_xid set_hwcache now at_time]. fields Hc.
  destruct (IPAdd (h_start h) free) as [ipaddr|]; [ | done].
  change (arp_conflict e' p) with (arp_conflict e p). change (ping e') with (ping e).
  destruct (_ || _).
  - rewrite !solo_act. unfold op_hw_delete, op_reserve, op_spawn. cbn [fst snd].
    destruct (ReserveIPIndex _ _ _) as [dp r] eqn:E. cbn [fst snd].
    split; [ | done]. split; [done | split; [done | ]].
    unfold copied, hw_delete. by destruct (Delete _ _).
  - rewrite !solo_act. unfold op_hw_set, op_xid_replace. cbn [fst snd]. by apply reply_t_solo.
Qed.

Lemma grab_t_solo answer k firstTry free again c :
  copied c ->
  match (if free =? -1 then
           let '(dp, (freeu64, _, err)) := GetFreeIPIndex (pick e' k) (pool c) (mac_of p) in
           let c := pool_set dp c in
           match err with
           | Some _ => RStop c
           | None => probe ByteToString e' I net srvIP p k firstTry (safeUint64ToInt freeu64) c
           end
         else probe ByteToString e' I net srvIP p k firstTry free c) with
  | RStop c' | RPanic c' => solo (grab_t e I net srvIP p h networkIP answer k free again) t c = (c', Some answer)
  | RAgain c' ft f => (ft = false /\ f = 0 /\ copied c') /\
      solo (grab_t e I net srvIP p h networkIP answer k free again) t c = solo again t c'
  | RReply c' x => agrees (solo (grab_t e I net srvIP p h networkIP answer k free again) t c)
      (finish answer (SReply c' x))
  end.
Proof.
  intros Hc. unfold grab_t. destruct (free =? -1); [ | by apply probe_t_solo].
  rewrite solo_act. unfold op_pick. change (pick e') with (pick e).
  destruct (GetFreeIPIndex _ _ _) as [dp [[x k'] [er|]]]; cbn [fst snd]; [done | ].
  by apply probe_t_solo.
Qed.

Abbreviation loop := (retry_loop ByteToString e' I net srvIP p).
Abbreviation retry := (retry_t e I net srvIP p h networkIP).

(** A round after the requested address has been looked at. *)
Lemma round_solo answer fuel k firstTry free c :
  (forall k ft f c, copied c -> agrees (solo (retry answer fuel k ft f) t c) (finish answer (loop fuel k ft f c))) ->
  copied c ->
  agrees (solo (grab_t e I net srvIP p h networkIP answer k free (retry answer fuel (S k) false 0)) t c)
    (finish answer
       match (if free =? -1 then
                let '(dp, (freeu64, _, err)) := GetFreeIPIndex (pick e' k) (pool c) (mac_of p) in
                let c := pool_set dp c in
                match err with
                | Some _ => RStop c
                | None => probe ByteToString e' I net srvIP p k firstTry (safeUint64ToInt freeu64) c
                end
              else probe ByteToString e' I net srvIP p k firstTry free c) with
       | RStop c => SStop c
       | RPanic c => SPanic c
       | RReply c free => SReply c free
       | RAgain c firstTry free => loop fuel (S k) firstTry free c
       end).
Proof.
  intros IH Hc.
  pose proof (grab_t_solo answer k firstTry free (retry answer fuel (S k) false 0) c Hc) as H.
  destruct (if free =? -1 then _ else _) as [c1|c1|c1 ft f|c1 x]; [done | done | | done].
  destruct H as [(-> & -> & Hc1) ->]. by apply IH.
Qed.

Lemma retry_t_solo answer fuel k ft f c :
  copied c -> agrees (solo (retry answer fuel k ft f) t c) (finish answer (loop fuel k ft f c)).
Proof.
  revert k ft f c. induction fuel as [|fuel IH]; intros k ft f c Hc; [done | ].
  cbn [retry_t retry_loop]. rewrite solo_act. unfold op_remaining, retry_round. cbn [fst snd].
  destruct (0 <? FreeIPsRemaining (pool c)); [ | done]. unfold try_requested.
  destruct (ParseOptions p !! OptionRequestedIPAddress) as [o|]; [destruct ft | ]; try by apply round_solo.
  fields Hc. destruct (Uint32 o) as [a|]; [ | done]. destruct (Uint32 (To4 (h_start h))) as [b|]; [ | done].
  rewrite solo_act. unfold op_holder. cbn [fst snd].
  destruct (GetMACIndex (pool c) _) as [[i rm] er]. cbn [fst snd].
  destruct (String.eqb rm (mac_of p)); [by apply round_solo | ].
  destruct (String.eqb rm FreeMac); [ | by apply IH].
  rewrite solo_act. unfold op_reserve. destruct (ReserveIPIndex (pool c) _ _) as [dp [er' rm']]. cbn [fst snd].
  destruct (_ && _); by apply round_solo.
Qed.

Lemma cached_t_solo answer x c :
  copied c -> agrees (solo (cached_t e p h networkIP answer x) t c)
    (finish answer match cached_replace e' p x c with
                   | CReply c free => SReply c free
                   | CStop c => SStop c
                   | CRetry c => loop 0 0 true (-1) c
                   end).
Proof.
  intros Hc. unfold cached_t, cached_replace. rewrite solo_act. unfold op_hw_replace. cbn [now at_time].
  destruct (Replace _ _ _ _ _) as [hw [er|]]; cbn [fst snd]; [done | by apply reply_t_solo].
Qed.

Lemma discover_t_solo answer fuel c :
  copied c -> agrees (solo (discover_t e I net srvIP p h networkIP answer fuel) t c)
    (serve_discover ByteToString e' I net srvIP p fuel networkIP answer c).
Proof.
  intros Hc. change (serve_discover ByteToString e' I net srvIP p fuel networkIP answer c)
    with (finish answer (find_address ByteToString e' I net srvIP p fuel c)).
  unfold discover_t, find_address. fields Hc. destruct (h_ipAssigned h !! mac_of p); [by apply reply_t_solo | ].
  rewrite solo_act. unfold op_hw_get. cbn [fst snd now at_time].
  destruct (hw_get t c (mac_of p)) as [x|]; [ | by apply retry_t_solo].
  rewrite solo_act. unfold op_holder, use_cached. cbn [fst snd].
  destruct (GetMACIndex (pool c) _) as [[i rm] er]. cbn [fst snd].
  destruct (String.eqb rm (mac_of p)).
  { pose proof (cached_t_solo answer x c Hc) as H. unfold cached_replace in *. by destruct (Replace _ _ _ _ _) as [? [?|]]. }
  destruct (String.eqb rm FreeMac); [ | by apply retry_t_solo].
  rewrite !solo_act. unfold op_hw_delete, op_reserve. cbn [fst snd now at_time].
  assert (Hc1 : copied (hw_delete t net (mac_of p) c)) by (unfold hw_delete; by destruct (Delete _ _)).
  set (c1 := hw_delete t net (mac_of p) c) in *. clearbody c1.
  destruct (ReserveIPIndex (pool c1) _ _) as [dp [er' rm']]. cbn [fst snd].
  destruct (_ && _); [ | by apply retry_t_solo].
  pose proof (cached_t_solo answer x (pool_set dp c1) Hc1) as H. unfold cached_replace in *.
  by destruct (Replace _ _ _ _ _) as [? [?|]].
Qed.

(** How the checks of a REQUEST end. *)
Definition conclude (answer : Answer) (v : verdict) : option (Answer * ctx) :=
  Some match v with
       | VReturn c a => (a, c)
       | VNak c => (with_D (nak p c) answer, c)
       | VReply c Index =>
           match reply_packet e' p ACK c networkIP (reqIP p) with
           | (c, Panic) => (answer, c)
           | (c, Ret d) => (with_D d answer, record_lease e' p Index c)
           end
       end.

Lemma nak_t_solo answer c : copied c -> agrees (solo (nak_t p h answer) t c) (conclude answer (VNak c)).
Proof. intros Hc. unfold nak_t, conclude, nak. fields Hc. done. Qed.

Lemma ack_t_solo answer index c :
  copied c -> agrees (solo (ack_t e p h networkIP answer index) t c) (conclude answer (VReply c index)).
Proof.
  intros Hc. unfold ack_t, conclude, reply_packet. rewrite solo_act. unfold op_options. fields Hc.
  destruct (buildReplyOptions _ _ _ _ _ _) as [st [o|]]; [ | done]. cbn [fst snd exec_bind].
  rewrite !solo_act. unfold op_ip_set, op_mac_set, op_hw_set, op_reserve, record_lease, reply_of.
  cbn [fst snd hdl set_overrides now at_time]. fields Hc.
  set (c1 := hw_set _ _ _ _ _). by destruct (ReserveIPIndex (pool c1) _ _).
Qed.

Lemma request_found_solo msgType answer index c :
  copied c -> hw_get t c (mac_of p) = Some index ->
  agrees (solo (request_found_t e net p h networkIP msgType answer index) t c)
    (conclude answer (request_cached ByteToString e' net p msgType answer c)).
Proof.
  intros Hc Hi. unfold request_found_t, request_cached. cbn [now at_time]. rewrite Hi. fields Hc.
  destruct (IPAdd (h_start h) index) as [ip|]; [ | done]. destruct (IP_Equal ip (reqIP p)).
  - rewrite solo_act. unfold op_request_once, request_match. cbn [now at_time].
    destruct (Get t _ _); [done | ]. cbn [fst snd]. destruct (GetMACIndex _ _) as [[i rm] er]. cbn [fst snd].
    destruct (String.eqb rm (mac_of p)); [by apply ack_t_solo | by apply nak_t_solo].
  - unfold request_mismatch. cbn [now at_time]. destruct (Uint32 (XId p)) as [x|]; [ | done].
    rewrite solo_act. unfold op_xid_get. cbn [fst snd].
    destruct (Get t _ _) as [v|]; [ | by apply nak_t_solo]. destruct (v =? 1); [ | by apply nak_t_solo].
    rewrite solo_act. unfold op_hw_delete. cbn [fst snd]. apply nak_t_solo.
    unfold copied, hw_delete. by destruct (Delete _ _).
Qed.

Lemma request_t_solo msgType answer c :
  copied c -> agrees (solo (request_t e net p h networkIP msgType answer) t c)
    (Some (serve_request ByteToString e' net p msgType networkIP answer c)).
Proof.
  intros Hc. unfold request_t, serve_request.
  assert (Ef : foreign_server p c = foreign p h) by (unfold foreign_server, foreign; by fields Hc).
  rewrite Ef. destruct (foreign p h); [done | ]. set (a := with_IP (reqIP p) answer).
  destruct (_ && _).
  2: { exact (nak_t_solo a c Hc). }
  change (agrees (solo match IPRange (h_start h) (reqIP p) with
      | Ret n => let leaseNum := n - 1 in
          if (0 <=? leaseNum) && (leaseNum <? h_leaseRange h) then
            match h_ipAssigned h !! mac_of p with
            | Some position => if position =? leaseNum then ack_t e p h networkIP a position else nak_t p h a
            | None => found <~ op_hw_get (mac_of p);;
                match found with
                | Some index => request_found_t e net p h networkIP msgType a index
                | None => Return (Some emptyAnswer)
                end
            end
          else nak_t p h a
      | Panic => Return (Some a)
      end t c) (conclude a (request_verdict ByteToString e' net p msgType a c))).
  unfold request_verdict. fields Hc.
  destruct (IPRange (h_start h) (reqIP p)) as [n|]; [ | done].
  destruct (_ && _); [ | by apply nak_t_solo].
  destruct (h_ipAssigned h !! mac_of p) as [pos|].
  { destruct (pos =? n - 1); [by apply ack_t_solo | by apply nak_t_solo]. }
  rewrite solo_act. unfold op_hw_get. cbn [fst snd].
  destruct (hw_get t c (mac_of p)) as [index|] eqn:Hi; [by apply request_found_solo | ].
  unfold request_cached. cbn [now at_time]. by rewrite Hi.
Qed.

Lemma give_back_t_solo answer c :
  copied c -> agrees (solo (give_back_t net p h answer) t c) (Some (give_back e' net p answer c)).
Proof.
  intros Hc. unfold give_back_t, give_back. fields Hc.
  destruct (IPRange (h_start h) (reqIP p)) as [n|]; [ | done]. destruct (_ && _); [ | done].
  rewrite solo_act. unfold op_hw_get. cbn [fst snd now at_time].
  destruct (hw_get t c (mac_of p)) as [x|]; [ | done]. destruct (n - 1 =? x); [ | done].
  rewrite solo_act. unfold op_holder. cbn [fst snd]. destruct (GetMACIndex _ _) as [[i rm] er]. cbn [fst snd].
  destruct (String.eqb rm (mac_of p)); [ | done]. rewrite !solo_act. unfold op_reserve, op_spawn.
  by destruct (ReserveIPIndex _ _ _).
Qed.

Lemma message_t_solo fuel msgType answer c :
  copied c -> agrees (solo (message_t e I net srvIP p h networkIP fuel msgType answer) t c)
    (serve_message ByteToString e' fuel I net p msgType srvIP networkIP answer c).
Proof.
  intros Hc. unfold message_t, serve_message. destruct (msgType =? Discover); [by apply discover_t_solo | ].
  destruct (_ || _); [by apply request_t_solo | ].
  destruct (msgType =? Release); [by apply give_back_t_solo | ].
  destruct (msgType =? Decline); [by apply give_back_t_solo | by apply nak_t_solo].
Qed.

End Solo.

(** *** Over the state of the interface *)

Lemma ctx_of_put_back i v c w : ctx_of (put_back i v c w) (hdl c) = c.
Proof. by destruct c. Qed.

Lemma put_back_same i v w : networks w !! i = Some v -> put_back i v (ctx_of w (dhcpHandler v)) w = w.
Proof.
  intros Hi. destruct w, v. unfold put_back, ctx_of. simpl in *. f_equal. by apply list_insert_id.
Qed.

Lemma put_back_put_back i v h c1 c2 w : put_back i (mkNetwork (network v) h) c2 (put_back i v c1 w) = put_back i v c2 w.
Proof. unfold put_back. simpl. by rewrite list_insert_insert_eq. Qed.

Lemma lift_solo i th t w v :
  networks w !! i = Some v ->
  solo (lift i th) t w =
    (put_back i v (solo th t (ctx_of w (dhcpHandler v))).1 w, (solo th t (ctx_of w (dhcpHandler v))).2).
Proof.
  revert w v. induction th as [r|f IH] using thread_induction; intros w v Hi; cbn [lift solo].
  - simpl. by rewrite put_back_same.
  - rewrite Hi. specialize (IH t (ctx_of w (dhcpHandler v))). destruct (f t _) as [c th']. cbn [snd] in IH.
    rewrite (IH _ (mkNetwork (network v) (hdl c))).
    2: { simpl. rewrite list_lookup_insert_eq; [done | by eapply lookup_lt_Some]. }
    cbn [dhcpHandler]. rewrite ctx_of_put_back. by rewrite put_back_put_back.
Qed.

(** ** Property *)

(** C9: the threads are the handlers.  A packet served by its thread with nobody
    else running gets the answer and leaves the state of [ServeDHCP] of
    Interface.v at that time, on every branch: relayed packets, every message
    type, refused and repeated ones, panics; and its [retry] loop runs out of
    fuel in one exactly when it does in the other. *)
Theorem serve_t_solo e fuel I p msgType srvIP t w :
  match ServeDHCP ByteToString (at_time t e) fuel I p msgType srvIP w with
  | Some (a, w') => solo (serve_t e fuel I p msgType srvIP) t w = (w', Some a)
  | None => (solo (serve_t e fuel I p msgType srvIP) t w).2 = None
  end.
Proof.
  unfold ServeDHCP, serve_t. destruct (isRelay I); [done | ]. cbn [solo].
  destruct (select_network p (networks w) 0) as [[i v]|] eqn:Hsel; [ | done].
  destruct (_ =? 0)%nat; [done | ]. cbn [now at_time]. destruct (Get t _ _); [done | ].
  set (w1 := set_transaction _ w).
  assert (Hi : networks w1 !! i = Some v).
  { cbn [networks set_transaction w1]. destruct (select_network_lookup _ _ _ _ _ Hsel) as [_ H]. by rewrite Nat.sub_0_r in H. }
  rewrite (lift_solo i _ t w1 v Hi).
  pose proof (message_t_solo e I i srvIP p (dhcpHandler v) (IP_String (net_IP (network v))) t fuel msgType
    (mkAnswer None [] (CHAddr p) (Ipv4 I)) (ctx_of w1 (dhcpHandler v)) ltac:(done)) as H.
  destruct (serve_message _ _ _ _ _ _ _ _ _ _ _) as [[a c]|]; unfold agrees in H; [by rewrite H | done].
Qed.

End Concurrent.
