(* ===== verification/Interleave.v ===== *)
(** * Handlers in parallel

    Any number of handlers run on the scopes of an interface, an atomic action
    of one after an atomic action of another, while sleeping goroutines wake up,
    caches are purged and time passes.  Each handler meets a rely-guarantee
    specification; together they keep the invariant of every scope in every
    interleaving, and as long as no goroutine frees an index, an address a client
    was given is held for that client. *)

From S2P Require Import Prelude GoStd GoNet Pool GoCache Dhcp4 Database Utils Handler Interface.
From S2P Require Import Scope Lab Discover Request System Threads Concurrent.

Section Interleave.

Context {CZ : GoCache Z} {CS : GoCache string} {SQL : SqlDB} {JSON : JSONCodec} {D4 : Dhcp4}.
Context {LZ : GoCacheLaws Z} {LS : GoCacheLaws string} {LD : Dhcp4Laws}.
Context (ByteToString : bytes -> string).

(** ** One handler among others *)

Section Handler.

Context (e : env) (ifc : Interface) (net : nat) (srvIP : IP) (p : Packet) (h : DHCPHandler) (networkIP : string).
Abbreviation m := (mac_of p).

(** [strict]: nobody frees an index meanwhile.  Then the claims about held
    indexes are about a silent network and a client without static address. *)
Context (strict : Prop).
Context (Hclient : client_ok e p) (Hstrict : strict -> quiet e /\ h_ipAssigned h !! m = None).

(** [lost]: indexes held for [owner], another client, that no cache entry names. *)
Context (lost : Z -> Prop) (owner : string).
Context (Hlost : forall x, lost x -> m <> owner /\ h_ipAssigned h !! m = None) (Hzero : lost 0 -> quiet e).

Definition uncached (c : ctx) : Prop := forall x t k, lost x -> Get t (h_hwcache (hdl c)) k <> Some x.
Definition spares (tm : timer) : Prop := forall x, lost x -> act tm <> FreeIndex net x.

Definition inv (c : ctx) : Prop :=
  scope_ok (hdl c) /\ same_config h (hdl c) /\ uncached c /\ forall x, lost x -> mac (pool c) !! x = Some owner.
Definition rely (c c' : ctx) : Prop :=
  strict -> forall x k, mac (pool c) !! x = Some k -> mac (pool c') !! x = Some k.

(** An action stays within the frame of the client, caches no lost index and
    starts no goroutine that frees one. *)
Record guar (c c' : ctx) : Prop := {
  gu_evolves : evolves net m c c';
  gu_uncached : uncached c -> uncached c';
  gu_spares : uncached c -> forall ts, timers c' = timers c ++ ts -> Forall spares ts
}.

(** The handler has [x] in hand. *)
Definition in_hand (x : Z) (c : ctx) : Prop := in_range h x /\ ~ lost x /\ (strict -> mac (pool c) !! x = Some m).

(** What a reply promises: a NAK, or an address held for the client. *)
Definition promise (r : option Answer) (c : ctx) : Prop :=
  forall a d, r = Some a -> ans_D a = Some d -> strict ->
  (exists sid, d = ReplyPacket p NAK sid [] 0 []) \/
  exists x, in_range h x /\ IPAdd (h_start h) x = Ret (ans_IP a) /\ mac (pool c) !! x = Some m.

Abbreviation spec := (triple (R := option Answer) inv rely guar).

Lemma guar_inv c c' : inv c -> guar c c' -> inv c'.
Proof.
  intros (Hs & Hc & Hu & Ho) [E U _]. split; [by eapply evolves_ok | ].
  split; [eapply same_config_trans; [exact Hc | apply E] | split; [by apply U | ]].
  intros x Hx. by apply (grows_keeps _ _ _ (ev_pool _ _ _ _ E)), Ho.
Qed.

Lemma guar_rely c c' : guar c c' -> rely c c'.
Proof. intros [E _ _] _. apply (grows_keeps _ _ _ (ev_pool _ _ _ _ E)). Qed.

Lemma in_hand_stable x : stable rely (in_hand x).
Proof. intros c c' (Hr & Hl & Hm) Hrely. split; [done | split; [done | ]]. intros Hst. by apply Hrely, Hm. Qed.

Lemma top_stable : stable rely (fun _ : ctx => True).
Proof. done. Qed.

(** An action, when what is known before it is known after it. *)
Lemma spec_keep {X : Type} P (f : Z -> ctx -> ctx * X) k Q :
  stable rely P -> (forall t c, inv c -> P c -> guar c (f t c).1) ->
  (forall x, spec P (k x) Q) -> spec P (act_then f k) Q.
Proof.
  intros Hst Hf Hk. apply triple_act with (fun _ => P); [done | | done]. intros t c Hi Hp.
  specialize (Hf t c Hi Hp). split; [by eapply guar_inv | split; [done | ]].
  eapply Hst; [exact Hp | by apply guar_rely].
Qed.

(** An action after which more is known. *)
Lemma spec_learn {X : Type} P P' (f : Z -> ctx -> ctx * X) k Q :
  (forall x, stable rely (P' x)) ->
  (forall t c, inv c -> P c -> guar c (f t c).1 /\ P' (f t c).2 (f t c).1) ->
  (forall x, spec (P' x) (k x) Q) -> spec P (act_then f k) Q.
Proof.
  intros Hst Hf Hk. apply triple_act with P'; [done | | done]. intros t c Hi Hp.
  destruct (Hf t c Hi Hp) as [Hg Hp']. split; [by eapply guar_inv | done].
Qed.

Lemma spec_return P r Q : (forall c, inv c -> P c -> Q r c) -> spec P (Return r) Q.
Proof. done. Qed.

(** An answer without a packet promises nothing. *)
Lemma spec_silent P a : ans_D a = None -> spec P (Return (Some a)) promise.
Proof. intros Ha c _ _ a' d [= <-]. by rewrite Ha. Qed.

Lemma spec_fuel P : spec P (Return None) promise.
Proof. intros c _ _ a' d [=]. Qed.

Lemma spec_nak P answer : spec P (nak_t p h answer) promise.
Proof. intros c _ _ a d [= <-] [= <-] _. left. eauto. Qed.

(** ** Guarantees of the actions *)

(** Actions that leave hardware cache and goroutines alone. *)
Lemma plain_guar c c' :
  evolves net m c c' -> h_hwcache (hdl c') = h_hwcache (hdl c) -> timers c' = timers c -> guar c c'.
Proof.
  intros E Eh Et. split; [done | unfold uncached; by rewrite Eh | ].
  intros _ ts Hts. rewrite Et in Hts. rewrite <- (app_nil_r (timers c)) in Hts at 1.
  apply app_inv_head in Hts as <-. apply Forall_nil_2.
Qed.

Lemma same_guar c : inv c -> guar c c.
Proof. intros [Hs _]. by apply plain_guar; [apply evolves_refl | | ]. Qed.

Lemma global_guar c c' : inv c -> hdl c' = hdl c -> timers c' = timers c -> guar c c'.
Proof. intros [Hs _] Eh Et. apply plain_guar; [by apply evolves_same_hdl | by rewrite Eh | done]. Qed.

Lemma xid_guar c x : inv c -> guar c (upd_hdl (set_xid x) c).
Proof. intros [Hs _]. by apply plain_guar; [apply evolves_xid | | ]. Qed.

Lemma inv_range c x : inv c -> in_range (hdl c) x <-> in_range h x.
Proof. intros (_ & (_ & _ & _ & E & _) & _). unfold in_range. by rewrite E. Qed.

Lemma inv_index c x : inv c -> in_range h x -> safeIntToUint64 x = x.
Proof. intros Hi Hx. apply (safe_index (hdl c)); [apply Hi | by apply (inv_range c x Hi)]. Qed.

Lemma set_guar t c x d : inv c -> in_range h x -> ~ lost x -> 0 < d -> guar c (hw_set t m x d c).
Proof.
  intros Hi Hx Hl Hd. split.
  - apply evolves_hw_set; [apply Hi | by apply (inv_range c x Hi) | done].
  - intros Hu y t' k Hy. simpl. destruct (decide (k = m)) as [->|Hk].
    + rewrite get_set_until by done. unfold cached_until. case_match; congruence.
    + rewrite get_set_ne by congruence. by apply Hu.
  - intros _ ts Hts. simpl in Hts. rewrite <- (app_nil_r (timers c)) in Hts at 1.
    apply app_inv_head in Hts as <-. apply Forall_nil_2.
Qed.

Lemma spawn_guar c ts :
  inv c -> Forall (timer_ok net (h_leaseRange (hdl c)) m) ts -> Forall spares ts -> guar c (spawn ts c).
Proof.
  intros Hi Hts Hsp. split; [apply evolves_spawn; [apply Hi | done] | done | ].
  intros _ ts' E. simpl in E. by apply app_inv_head in E as <-.
Qed.

Lemma delete_guar t c : inv c -> guar c (hw_delete t net m c).
Proof.
  intros Hi. split; [apply evolves_hw_delete, Hi | | ].
  - intros Hu x t' k Hx. unfold hw_delete. pose proof (get_delete_eq t' (h_hwcache (hdl c)) m) as H1.
    pose proof (get_delete_ne t' (h_hwcache (hdl c)) m k) as H2. specialize (Hu x t' k Hx).
    destruct (Delete _ _) as [hw ev]. simpl in *. destruct (decide (k = m)) as [->|Hk]; [by rewrite H1 | ].
    by rewrite H2 by congruence.
  - intros Hu ts. unfold hw_delete. pose proof (delete_evicts_stored (h_hwcache (hdl c)) m) as H.
    destruct (Delete _ _) as [hw ev]. simpl in *. intros E. apply app_inv_head in E as <-.
    apply Forall_map, Forall_forall. intros q Hq x Hx. destruct (H q Hq) as [_ (t' & G)].
    assert (Hr : in_range h q.2) by (apply (inv_range c _ Hi); by apply (scope_cached _ (proj1 Hi) t' m)).
    simpl. rewrite (inv_index c _ Hi Hr). intros [= <-]. by apply (Hu q.2 t' m).
Qed.

Lemma options_guar t c : inv c -> guar c (op_options e h p networkIP t c).1.
Proof.
  intros Hi. unfold op_options. destruct (buildReplyOptions _ _ _ _ _ _). by apply global_guar.
Qed.

Lemma pool_guar c dp : inv c -> pool_grows m (pool c) dp -> guar c (pool_set dp c).
Proof. intros [Hs _] Hg. by apply plain_guar; [apply evolves_pool | | ]. Qed.

Lemma reserve_guar t c x k : inv c -> k = m \/ k = FakeMac -> guar c (op_reserve x k t c).1.
Proof.
  intros Hi Hk. unfold op_reserve. pose proof (ReserveIPIndex_grows m k (pool c) x (scope_pool _ (proj1 Hi)) Hk) as H.
  destruct (ReserveIPIndex _ _ _) as [dp r]. by apply pool_guar.
Qed.

(** A held index is in hand. *)
Lemma held_in_hand c x : inv c -> mac (pool c) !! x = Some m -> in_hand x c.
Proof.
  intros Hi Hm. split; [apply (inv_range c x Hi); eapply holder_in_range; [apply Hi | done] | split; [ | done]].
  intros Hx. destruct Hi as (_ & _ & _ & Ho). rewrite (Ho x Hx) in Hm. injection Hm as Hm.
  by destruct (Hlost x Hx).
Qed.

(** The index is held once [GetMACIndex] or [ReserveIPIndex] says so. *)
Lemma holder_in_hand t c x :
  inv c -> 0 <= x -> (op_holder x t c).2 = m -> in_hand x c.
Proof.
  intros Hi Hx E. apply held_in_hand; [done | ].
  apply GetMACIndex_holder; [apply Hi | done | apply Hclient | exact E].
Qed.

Lemma reserve_in_hand t c x :
  inv c -> bool_decide ((op_reserve x m t c).2.1 = None) && String.eqb (op_reserve x m t c).2.2 m = true ->
  in_hand x (op_reserve x m t c).1.
Proof.
  intros Hi B. apply andb_prop in B as [_ B]. apply String.eqb_eq in B.
  apply held_in_hand; [eapply guar_inv; [exact Hi | apply reserve_guar; auto] | ].
  unfold op_reserve in *. destruct (ReserveIPIndex (pool c) x m) as [dp [er rm]] eqn:R. simpl in *.
  pose proof (ReserveIPIndex_holder (pool c) x m er rm (scope_pool _ (proj1 Hi)) ltac:(by rewrite R)) as H.
  rewrite R in H. apply H; [apply Hclient | done].
Qed.

(** ** DISCOVER *)

Lemma reply_spec P answer x :
  ans_D answer = None -> stable rely P -> (forall c, P c -> strict -> in_hand x c) ->
  spec P (reply_t e p h networkIP answer x) promise.
Proof.
  intros Ha Hst HP. unfold reply_t. destruct (IPAdd (h_start h) x) as [ip|] eqn:E; [ | by apply spec_silent].
  apply spec_keep; [done | intros; by apply options_guar | ]. intros [o|]; [ | by apply spec_silent].
  intros c _ Hp a d [= <-] _ Hs. right. destruct (HP c Hp Hs) as (Hx & _ & Hm). exists x. auto.
Qed.

Lemma probe_spec_t answer k x again :
  ans_D answer = None -> spec (fun _ => ~ strict /\ ~ lost 0) again promise ->
  spec (in_hand x) (probe_t ByteToString e ifc net srvIP p h networkIP answer k x again) promise.
Proof.
  intros Ha Hag. pose proof (in_hand_stable x) as Hst. unfold probe_t.
  apply spec_keep; [done | intros t c Hi (Hx & Hl & _); by apply set_guar | intros _].
  apply spec_keep; [done | intros t c Hi _; by apply xid_guar | intros _].
  destruct (IPAdd (h_start h) x) as [ipaddr|]; [ | by apply spec_silent].
  destruct (ping e k _ _ _) eqn:Ep; cbn [orb arp_conflict Local_].
  - apply spec_keep; [done | intros t c Hi _; by apply delete_guar | intros _].
    apply spec_keep; [done | intros; apply reserve_guar; auto | intros _].
    apply spec_keep; [done | | intros _].
    { intros t c Hi (Hx & Hl & _). apply spawn_guar; [done | | ]; apply Forall_singleton.
      - split; [done | ]. rewrite (inv_index c x Hi Hx). by apply (inv_range c x Hi).
      - intros y Hy. simpl. rewrite (inv_index c x Hi Hx). congruence. }
    eapply triple_weaken; [exact Hag | | done]. intros c _ _. split.
    + intros Hs. destruct (Hstrict Hs) as [Hq _]. by rewrite Hq in Ep.
    + intros Hz. apply Hzero in Hz. by rewrite Hz in Ep.
  - apply spec_keep; [done | intros t c Hi (Hx & Hl & _); by apply set_guar | intros _].
    apply spec_keep; [done | intros t c Hi _; by apply xid_guar | intros _].
    apply reply_spec; [done | done | auto].
Qed.

Definition ready (x : Z) (c : ctx) : Prop := x = -1 \/ in_hand x c.

Lemma ready_stable x : stable rely (ready x).
Proof. intros c c' [->|H] Hr; [by left | right]. by eapply in_hand_stable. Qed.

Lemma grab_spec answer k x again :
  ans_D answer = None -> spec (fun _ => ~ strict /\ ~ lost 0) again promise ->
  spec (ready x) (grab_t ByteToString e ifc net srvIP p h networkIP answer k x again) promise.
Proof.
  intros Ha Hag. unfold grab_t. destruct (Z.eqb_spec x (-1)) as [->|Hx].
  2: { eapply triple_weaken; [by apply probe_spec_t | | done]. intros c _ [Hc|Hc]; [done | exact Hc]. }
  apply spec_learn with (fun r => match r with (y, _, None) => in_hand (safeUint64ToInt y) | _ => fun _ => True end).
  - intros [[y ?] [|]]; [done | apply in_hand_stable].
  - intros t c Hi _. unfold op_pick.
    pose proof (GetFreeIPIndex_grows (pick e k) m (pool c) (proj1 Hclient k) (scope_pool _ (proj1 Hi))) as Hg.
    pose proof (GetFreeIPIndex_holder (pick e k) (pool c) m) as Hh.
    destruct (GetFreeIPIndex _ _ _) as [dp [[y rm] er]]. cbn [fst snd] in *.
    assert (E : guar c (pool_set dp c)) by (by apply pool_guar).
    split; [done | ]. destruct er as [er|]; [done | ]. specialize (Hh y rm eq_refl).
    pose proof (guar_inv _ _ Hi E) as Hi'.
    pose proof (held_in_hand _ y Hi' Hh) as Hin. replace (safeUint64ToInt y) with y; [done | ]. destruct Hin as [Hy _].
    pose proof (range_small _ (proj1 Hi')) as Hsm. apply (inv_range _ y Hi') in Hy. unfold in_range in Hy.
    rewrite safeUint64ToInt_min; lia.
  - intros [[y ?] [er|]]; [by apply spec_silent | by apply probe_spec_t].
Qed.

Lemma retry_spec answer fuel k ft x :
  ans_D answer = None ->
  spec (ready x) (retry_t ByteToString e ifc net srvIP p h networkIP answer fuel k ft x) promise.
Proof.
  intros Ha. revert k ft x. induction fuel as [|fuel IH]; intros k ft x; [apply spec_fuel | ].
  assert (Hag : forall k ft, spec (fun _ => ~ strict /\ ~ lost 0)
    (retry_t ByteToString e ifc net srvIP p h networkIP answer fuel k ft 0) promise).
  { intros k' ft'. eapply triple_weaken; [apply (IH k' ft' 0) | | done]. intros c Hi [Hs Hz]. right.
    split; [ | by split]. apply (inv_range c 0 Hi). destruct (scope_range _ (proj1 Hi)) as (? & _ & _ & ? & _).
    unfold in_range. lia. }
  pose proof (ready_stable x) as Hst. cbn [retry_t]. apply spec_keep; [done | intros; by apply same_guar | intros n].
  destruct (0 <? n); [ | by apply spec_silent].
  destruct (ParseOptions p !! OptionRequestedIPAddress) as [o|]; [destruct ft | ]; try by apply grab_spec.
  destruct (Uint32 o) as [a|]; [ | by apply spec_silent].
  destruct (Uint32 (To4 (h_start h))) as [b|]; [ | by apply spec_silent].
  pose proof (u32_range (a - b)) as Hu. rewrite !safeUint32ToUint64_id by done. set (el := u32 (a - b)) in *.
  apply spec_learn with (fun rm c => ready x c /\ (rm = m -> in_hand el c)).
  { intros rm c c' [H1 H2] Hr. split; [by eapply ready_stable | ]. intros E. eapply in_hand_stable; eauto. }
  { intros t c Hi Hc. split; [by apply same_guar | split; [done | ]]. intros E.
    apply (holder_in_hand t); [done | unfold is_u32 in Hu; lia | done]. }
  intros rm. destruct (String.eqb_spec rm m) as [->|Hne].
  { eapply triple_weaken; [by apply (grab_spec answer k el) | | done]. intros c _ [_ H]. right. auto. }
  destruct (String.eqb rm FreeMac).
  2: { eapply triple_weaken; [apply (IH (S k) false x) | | done]. by intros c _ [H _]. }
  apply spec_learn with (fun r c => ready x c /\ (bool_decide (r.1 = None) && String.eqb r.2 m = true -> in_hand el c)).
  { intros r c c' [H1 H2] Hr. split; [by eapply ready_stable | ]. intros E. eapply in_hand_stable; eauto. }
  { intros t c Hi [Hc _]. assert (G : guar c (op_reserve el m t c).1) by (apply reserve_guar; auto).
    split; [done | split; [eapply ready_stable; [exact Hc | by apply guar_rely] | ]]. by apply reserve_in_hand. }
  intros r. destruct (bool_decide (r.1 = None) && String.eqb r.2 m).
  - eapply triple_weaken; [by apply (grab_spec answer k el) | | done]. intros c _ [_ H]. right. auto.
  - eapply triple_weaken; [by apply (grab_spec answer k x) | | done]. by intros c _ [H _].
Qed.

Lemma cached_spec answer x :
  ans_D answer = None -> spec (in_hand x) (cached_t e p h networkIP answer x) promise.
Proof.
  intros Ha. pose proof (in_hand_stable x) as Hst. unfold cached_t. apply spec_keep; [done | | ].
  - intros t c Hi (Hx & Hl & _). unfold op_hw_replace. destruct (Get t (h_hwcache (hdl c)) m) as [v|] eqn:G.
    + rewrite (replace_found _ _ _ x v) by done. by apply (set_guar t c x (5 * Second)).
    + destruct (replace_missing t (h_hwcache (hdl c)) m x (5 * Second) G) as [er ->].
      apply global_guar; [done | by destruct c as [[]] | done].
  - intros [er|]; [by apply spec_silent | apply reply_spec; [done | done | auto]].
Qed.

(** What the hardware cache says is an index of the scope, and not a lost one. *)
Definition listed (r : option Z) : Prop := forall x, r = Some x -> in_range h x /\ ~ lost x.

Lemma hw_get_spec P k Q :
  stable rely P -> (forall r, listed r -> spec P (k r) Q) -> spec P (act_then (op_hw_get m) k) Q.
Proof.
  intros Hst Hk. cbn. intros t c Hi Hp. split; [done | split; [by apply same_guar | ]].
  exists P. split; [done | split; [done | ]]. apply Hk. intros x G. split.
  - apply (inv_range c x Hi). by apply (scope_cached _ (proj1 Hi) t m x).
  - intros Hx. destruct Hi as (_ & _ & Hu & _). by apply (Hu x t m).
Qed.

Lemma discover_spec answer fuel :
  ans_D answer = None ->
  spec (fun _ => True) (discover_t ByteToString e ifc net srvIP p h networkIP answer fuel) promise.
Proof.
  intros Ha. unfold discover_t. case_eq (h_ipAssigned h !! m); [intros pos Est | intros _].
  { apply reply_spec; [done | done | ]. intros c _ Hs. destruct (Hstrict Hs) as [_ H]. congruence. }
  assert (Hretry : forall P, spec P (retry_t ByteToString e ifc net srvIP p h networkIP answer fuel 0 true (-1)) promise).
  { intros P. eapply triple_weaken; [by apply (retry_spec answer fuel 0 true (-1)) | | done]. intros. by left. }
  apply hw_get_spec; [done | ]. intros [x|] Hx; [ | apply Hretry]. destruct (Hx x eq_refl) as [Hin Hl].
  apply spec_learn with (fun rm c => rm = m -> in_hand x c).
  { intros rm c c' H Hr E. eapply in_hand_stable; eauto. }
  { intros t c Hi _. split; [by apply same_guar | ]. rewrite (inv_index c x Hi Hin).
    intros E. apply (holder_in_hand t); [done | unfold in_range in Hin; lia | done]. }
  intros rm. destruct (String.eqb_spec rm m) as [->|Hne].
  { eapply triple_weaken; [by apply cached_spec | | done]. auto. }
  destruct (String.eqb rm FreeMac); [ | apply Hretry].
  apply spec_keep; [by intros c c' H _ ? | intros t c Hi _; by apply delete_guar | intros _].
  apply spec_learn with (fun r c => bool_decide (r.1 = None) && String.eqb r.2 m = true -> in_hand x c).
  { intros r c c' H Hr E. eapply in_hand_stable; eauto. }
  { intros t c Hi _. split; [apply reserve_guar; auto | ]. rewrite (inv_index c x Hi Hin). by apply reserve_in_hand. }
  intros r. destruct (_ && _); [ | apply Hretry].
  eapply triple_weaken; [by apply cached_spec | | done]. auto.
Qed.

(** ** REQUEST, RELEASE and DECLINE *)

Lemma ack_spec P answer x :
  ans_D answer = None -> stable rely P -> in_range h x -> ~ lost x ->
  (forall c, inv c -> P c -> strict -> IPAdd (h_start h) x = Ret (ans_IP answer) /\ mac (pool c) !! x = Some m) ->
  spec P (ack_t e p h networkIP answer x) promise.
Proof.
  intros Ha Hst Hx Hl HP. unfold ack_t. apply spec_keep; [done | intros; by apply options_guar | ].
  intros [o|]; [ | by apply spec_silent].
  apply spec_keep; [done | intros t c Hi _; by apply global_guar | intros _].
  apply spec_keep; [done | intros t c Hi _; by apply global_guar | intros _].
  apply spec_keep; [done | | intros _].
  { intros t c Hi Hp. apply set_guar; [done | done | done | ].
    pose proof (scope_lease _ (proj1 Hi)) as Hd. destruct Hi as (_ & (_ & _ & _ & _ & E & _) & _).
    rewrite E in Hd. unfold Second. lia. }
  apply spec_keep; [done | intros; apply reserve_guar; auto | intros _].
  intros c Hi Hp a d [= <-] _ Hs. right. exists x. destruct (HP c Hi Hp Hs). eauto.
Qed.

(** The address at an index in range, from the copy of the scope. *)
Lemma copy_addr c x : inv c -> in_range h x -> exists a, IPAdd (h_start h) x = Ret (be32 a).
Proof.
  intros Hi Hx. apply (inv_range c x Hi) in Hx. destruct (scope_addr (hdl c) x (proj1 Hi) Hx) as (f & _ & _ & _ & E).
  destruct Hi as (_ & (_ & _ & Es & _) & _). rewrite Es in E. eauto.
Qed.

Lemma request_found_spec msgType answer x :
  ans_D answer = None -> ans_IP answer = reqIP p -> length (reqIP p) = 4%nat -> in_range h x -> ~ lost x ->
  spec (fun _ => True) (request_found_t ByteToString e net p h networkIP msgType answer x) promise.
Proof.
  intros Ha Hip Hl Hx Hx'. unfold request_found_t.
  destruct (IPAdd (h_start h) x) as [ip|] eqn:Eip; [ | by apply spec_silent].
  destruct (IP_Equal ip (reqIP p)) eqn:Eq.
  - apply spec_learn with (fun r c => r = Some m -> in_hand x c).
    { intros r c c' H Hr E. eapply in_hand_stable; eauto. }
    { intros t c Hi _. rewrite (inv_index c x Hi Hx). unfold op_request_once.
      destruct (Get t _ _); cbn [fst snd]; [split; [by apply same_guar | done] | ].
      split; [by apply global_guar | ]. intros [= E].
      apply (holder_in_hand t); [done | unfold in_range in Hx; lia | done]. }
    intros [rm|]; [ | by apply spec_silent].
    destruct (String.eqb_spec rm m) as [->|]; [ | apply spec_nak].
    apply ack_spec; [done | intros c c' H Hr E; eapply in_hand_stable; eauto | done | done | ].
    intros c Hi Hc Hs. destruct (Hc eq_refl) as (_ & _ & Hm). split; [ | auto].
    destruct (copy_addr c x Hi Hx) as (a & E). rewrite Eip in E. injection E as ->.
    rewrite Eip, Hip. f_equal. by apply IP_Equal_same_len.
  - destruct (Uint32 (XId p)) as [y|]; [ | by apply spec_silent].
    apply spec_keep; [done | intros; by apply same_guar | ]. intros [v|]; [ | apply spec_nak].
    destruct (v =? 1); [ | apply spec_nak].
    apply spec_keep; [done | intros t c Hi _; by apply delete_guar | intros _; apply spec_nak].
Qed.

Lemma request_spec msgType answer :
  ans_D answer = None ->
  spec (fun _ => True) (request_t ByteToString e net p h networkIP msgType answer) promise.
Proof.
  intros Ha. unfold request_t. destruct (foreign p h); [by apply spec_silent | ].
  destruct ((length (reqIP p) =? 4)%nat && _) eqn:L; [ | apply spec_nak].
  apply andb_prop in L as [L _]. apply Nat.eqb_eq in L.
  destruct (IPRange (h_start h) (reqIP p)) as [n|]; [ | by apply spec_silent].
  destruct ((0 <=? n - 1) && (n - 1 <? h_leaseRange h)) eqn:B; [ | apply spec_nak].
  apply andb_prop in B as [B1 B2]. zbool.
  case_eq (h_ipAssigned h !! m); [intros pos Est | intros _].
  - destruct (Z.eqb_spec pos (n - 1)) as [->|]; [ | apply spec_nak].
    apply ack_spec; [done | done | done | intros Hx; destruct (Hlost _ Hx) as [_ H]; congruence | ]. intros c _ _ Hs. destruct (Hstrict Hs) as [_ H]. congruence.
  - apply hw_get_spec; [done | ]. intros [x|] Hx; [ | by apply spec_silent].
    destruct (Hx x eq_refl). by apply request_found_spec.
Qed.

Lemma give_back_t_spec answer : ans_D answer = None -> spec (fun _ => True) (give_back_t net p h answer) promise.
Proof.
  intros Ha. unfold give_back_t. destruct (IPRange (h_start h) (reqIP p)) as [n|]; [ | by apply spec_silent].
  destruct ((0 <=? n - 1) && (n - 1 <? h_leaseRange h)) eqn:B; [ | by apply spec_silent].
  apply andb_prop in B as [B1 B2]. zbool. apply hw_get_spec; [done | ].
  intros [x|] Hx; [ | by apply spec_silent]. destruct (Z.eqb_spec (n - 1) x) as [Ex|]; [ | by apply spec_silent].
  destruct (Hx x eq_refl) as [_ Hl].
  apply spec_keep; [done | intros; by apply same_guar | ]. intros rm.
  destruct (String.eqb rm m); [ | by apply spec_silent].
  apply spec_keep; [done | intros; apply reserve_guar; auto | intros _].
  apply spec_keep; [done | | intros _; by apply spec_silent].
  intros t c Hi _. assert (Hr : in_range h (n - 1)) by done. rewrite (inv_index c (n - 1) Hi Hr).
  apply spawn_guar; [done | | ]; (apply Forall_cons; split; [ | by apply Forall_singleton]).
  - split; [done | ]. by apply (inv_range c (n - 1) Hi).
  - intros y Hy. simpl. rewrite Ex. congruence.
Qed.

Lemma message_spec fuel msgType answer :
  ans_D answer = None ->
  spec (fun _ => True) (message_t ByteToString e ifc net srvIP p h networkIP fuel msgType answer) promise.
Proof.
  intros Ha. unfold message_t. destruct (msgType =? Discover); [by apply discover_spec | ].
  destruct (_ || _); [by apply request_spec | ].
  destruct (_ || _); [by apply give_back_t_spec | apply spec_nak].
Qed.

End Handler.

End Interleave.
