(* ===== verification/Parallel.v ===== *)
(** * Packets served in parallel

    The interface over time when handlers overlap: a packet arrives, any of the
    running handlers makes its next action or returns, a sleeping goroutine
    wakes up, a cache is purged, time passes.  The theorems hold for every order
    of these events and any number of handlers. *)

From S2P Require Import Prelude GoStd GoNet Pool GoCache Dhcp4 Database Utils Handler Interface.
From S2P Require Import Scope Lab Discover Request System Threads Concurrent Interleave.

Section Parallel.

Context {CZ : GoCache Z} {CS : GoCache string} {SQL : SqlDB} {JSON : JSONCodec} {D4 : Dhcp4}.
Context (ByteToString : bytes -> string).

(** ** Events *)

(** The handlers that run, with their packets, and the answers given so far. *)
Record par := mkPar {
  clock : Z;
  scopes : world;
  running : list (Packet * thread world (option Answer));
  answered : list (Packet * option Answer)
}.

Inductive pevent :=
| PArrive (e : env) (fuel : nat) (ifc : Interface) (p : Packet) (msgType : Z) (srvIP : IP)
| PAct (i : nat)
| PReturn (i : nat)
| PFire (i : nat)
| PJanitor (n : nat)
| PWait (d : Z).

Definition with_scopes (w : world) (s : par) : par := mkPar (clock s) w (running s) (answered s).

Definition pstep (s : par) (ev : pevent) : option par :=
  match ev with
  | PArrive e fuel ifc p msgType srvIP =>
      Some (mkPar (clock s) (scopes s) (running s ++ [(p, serve_t ByteToString e fuel ifc p msgType srvIP)]) (answered s))
  | PAct i =>
      match running s !! i with
      | Some (p, Atomic f) =>
          let '(w, th) := f (clock s) (scopes s) in
          Some (mkPar (clock s) w (<[i := (p, th)]> (running s)) (answered s))
      | _ => None
      end
  | PReturn i =>
      match running s !! i with
      | Some (p, Return r) => Some (mkPar (clock s) (scopes s) (delete i (running s)) (answered s ++ [(p, r)]))
      | _ => None
      end
  | PFire i =>
      match w_timers (scopes s) !! i with
      | Some tm =>
          if due tm <=? clock s then
            Some (with_scopes (fire (clock s) (act tm) (set_timers (delete i (w_timers (scopes s))) (scopes s))) s)
          else None
      | None => None
      end
  | PJanitor n => Some (with_scopes (janitor (clock s) n (scopes s)) s)
  | PWait d => if 0 <=? d then Some (mkPar (clock s + d) (scopes s) (running s) (answered s)) else None
  end.

Fixpoint prun (s : par) (evs : list pevent) : option par :=
  match evs with
  | [] => Some s
  | ev :: evs => match pstep s ev with Some s => prun s evs | None => None end
  end.

(** A serving interface at rest. *)
Definition at_rest (t : Z) (w : world) : par := mkPar t w [] [].

(** ** The scopes of an interface *)

(** What an action of a client's handler may do to the scopes. *)
Definition frame (k : string) (w w' : world) : Prop :=
  Forall2 (fun v v' => network v' = network v /\ scope_frame k (dhcpHandler v) (dhcpHandler v')) (networks w) (networks w').

Definition as_configured (w w' : world) : Prop :=
  Forall2 (fun v v' => network v' = network v /\ same_config (dhcpHandler v) (dhcpHandler v')) (networks w) (networks w').

(** The indexes of [lost] are held for [owner], no cache entry names them and no
    goroutine is going to free them. *)
Record stranded (lost : nat -> Z -> Prop) (owner : string) (w : world) : Prop := {
  st_held : forall n x v, lost n x -> networks w !! n = Some v -> mac (h_available (dhcpHandler v)) !! x = Some owner;
  st_uncached : forall n x v t k, lost n x -> networks w !! n = Some v -> Get t (h_hwcache (dhcpHandler v)) k <> Some x;
  st_spared : Forall (fun tm => forall n x, lost n x -> act tm <> FreeIndex n x) (w_timers w)
}.

(** The answer to [p] is a NAK. *)
Definition refused (p : Packet) (a : Answer) : Prop := exists sid, ans_D a = Some (ReplyPacket p NAK sid [] 0 []).

(** The answer to [p] is a NAK, or names an address held for the client. *)
Definition backed (p : Packet) (a : Answer) (w : world) : Prop :=
  forall d, ans_D a = Some d ->
  refused p a \/
  exists n v x, networks w !! n = Some v /\ IPAdd (h_start (dhcpHandler v)) x = Ret (ans_IP a) /\
    mac (h_available (dhcpHandler v)) !! x = Some (mac_of p).

Context {LZ : GoCacheLaws Z} {LS : GoCacheLaws string} {LD : Dhcp4Laws}.

Section World.

(** The scopes as they were configured. *)
Context (w0 : world) (strict : Prop) (lost : nat -> Z -> Prop) (owner : string).

Definition winv (w : world) : Prop := world_ok w /\ as_configured w0 w /\ stranded lost owner w.

Definition wrely (w w' : world) : Prop :=
  Forall2 (fun v v' => network v' = network v /\ same_config (dhcpHandler v) (dhcpHandler v') /\
    (strict -> forall x k, mac (h_available (dhcpHandler v)) !! x = Some k ->
                           mac (h_available (dhcpHandler v')) !! x = Some k)) (networks w) (networks w').

Definition wpromise (p : Packet) (r : option Answer) (w : world) : Prop :=
  forall a, r = Some a -> strict -> backed p a w.

Lemma frame_rely k w w' : frame k w w' -> wrely w w'.
Proof.
  intros H. eapply Forall2_impl; [exact H | ]. intros v v' [Hn [C _ G _]].
  split; [done | split; [done | intros _; apply G]].
Qed.

Lemma rely_configured w w' : wrely w w' -> as_configured w w'.
Proof. intros H. eapply Forall2_impl; [exact H | ]. by intros v v' (? & ? & _). Qed.

Lemma as_configured_trans w1 w2 w3 : as_configured w1 w2 -> as_configured w2 w3 -> as_configured w1 w3.
Proof.
  intros H1 H2. unfold as_configured in *. revert H2. generalize (networks w3).
  induction H1 as [|v1 v2 l1 l2 [N1 C1] _ IH]; intros l3 H2; inversion H2 as [|? v3 ? l3' [N2 C2] Hr]; subst; constructor.
  - split; [congruence | by eapply same_config_trans].
  - by apply IH.
Qed.

Lemma wpromise_stable p r : stable wrely (wpromise p r).
Proof.
  intros w w' H Hr a Ea Hs d Ed.
  destruct (H a Ea Hs d Ed) as [Hn|(n & v & x & Hn & Hip & Hm)]; [by left | right].
  destruct (Forall2_lookup_l _ _ _ n v Hr Hn) as (v' & Hn' & _ & (_ & _ & Es & _) & Hk).
  exists n, v', x. rewrite Es. auto.
Qed.

Lemma same_config_sym h1 h2 : same_config h1 h2 -> same_config h2 h1.
Proof. unfold same_config. intuition. Qed.

(** The copy a handler took of network [i] is its scope's. *)
Lemma copy_inv w i v v0 h :
  winv w -> networks w0 !! i = Some v0 -> same_config (dhcpHandler v0) h -> networks w !! i = Some v ->
  inv h (lost i) owner (ctx_of w (dhcpHandler v)).
Proof.
  intros ([Hw _] & Hc & [Hh Hu _]) H0 Hcopy Hi. split; [exact (Hw i v Hi) | split; [ | split]].
  - destruct (Forall2_lookup_lr _ _ _ i v0 v Hc H0 Hi) as [_ C].
    eapply same_config_trans; [by apply same_config_sym | exact C].
  - intros x t k Hx. by eapply Hu.
  - intros x Hx. by eapply Hh.
Qed.

(** One action on the scope of network [i]. *)
Lemma put_back_frame p h i v c w :
  winv w -> networks w !! i = Some v -> inv h (lost i) owner c ->
  guar i p (lost i) (ctx_of w (dhcpHandler v)) c ->
  winv (put_back i v c w) /\ frame (mac_of p) w (put_back i v c w).
Proof.
  intros ([Hw Ht] & Hc & [Hh Hu Hsp]) Hi (_ & _ & Hu' & Hh') [E U Sp].
  assert (Hs : scope_ok (hdl (ctx_of w (dhcpHandler v)))) by exact (Hw i v Hi).
  assert (F : frame (mac_of p) w (put_back i v c w)).
  { unfold frame. simpl. rewrite <- (list_insert_id (networks w) i v Hi) at 1.
    apply Forall2_insert; [ | split; [done | exact (evolves_frame i (mac_of p) _ _ Hs E)]].
    apply Forall_Forall2_diag, Forall_lookup. intros n u Hn. split; [done | by eapply scope_frame_refl, Hw]. }
  assert (Hu0 : uncached (lost i) (ctx_of w (dhcpHandler v))) by (intros x t k Hx; by eapply Hu).
  destruct (ev_timers _ _ _ _ E) as (ts & Ets & Hts). specialize (Sp Hu0 ts Ets).
  split; [split; [split | split; [ | split]] | done].
  - intros n u Hn. destruct (Forall2_lookup_r _ _ _ n u F Hn) as (u0 & _ & _ & Hf). apply Hf.
  - simpl. rewrite Ets. apply Forall_app. split; [done | ].
    eapply Forall_impl; [exact Hts | ]. intros tm. unfold timer_ok, delay_ok.
    destruct (act tm); [intros [_ H]; lia | done].
  - eapply as_configured_trans; [exact Hc | ]. by eapply rely_configured, frame_rely.
  - intros n x u Hx. simpl. rewrite list_lookup_insert_Some. intros [(-> & <- & _)|[_ Hn]]; [by apply Hh' | by eapply Hh].
  - intros n x u t k Hx. simpl. rewrite list_lookup_insert_Some.
    intros [(-> & <- & _)|[_ Hn]]; [by apply Hu' | by eapply Hu].
  - simpl. rewrite Ets. apply Forall_app. split; [done | ]. apply Forall_forall. intros tm Htm n x Hx Ea.
    pose proof (proj1 (Forall_forall _ _) Hts tm Htm) as Hok. unfold timer_ok in Hok. rewrite Ea in Hok.
    destruct Hok as [-> _]. exact (proj1 (Forall_forall _ _) Sp tm Htm x Hx Ea).
Qed.

Section Lift.

Context (p : Packet) (h : DHCPHandler) (i : nat) (v0 : Network).
Context (Hi0 : networks w0 !! i = Some v0) (Hcopy : same_config (dhcpHandler v0) h).

Definition on_scope (P : ctx -> Prop) (w : world) : Prop :=
  forall v, networks w !! i = Some v -> P (ctx_of w (dhcpHandler v)).

Lemma on_scope_stable P : stable (rely strict) P -> stable wrely (on_scope P).
Proof.
  intros Hst w w' H Hr v' Hv'. destruct (Forall2_lookup_r _ _ _ i v' Hr Hv') as (v & Hv & _ & _ & Hk).
  eapply Hst; [by apply H | exact Hk].
Qed.

Lemma lift_spec P th :
  triple (inv h (lost i) owner) (rely strict) (guar i p (lost i)) P th (promise p h strict) ->
  triple winv wrely (frame (mac_of p)) (on_scope P) (lift i th) (wpromise p).
Proof.
  revert P. induction th as [r|f IH] using thread_induction; intros P H; cbn [lift].
  - intros w Hw Hp a Ea Hs d Ed.
    destruct (Forall2_lookup_l _ _ _ i v0 (proj1 (proj2 Hw)) Hi0) as (v & Hv & _ & C).
    pose proof (copy_inv w i v v0 h Hw Hi0 Hcopy Hv) as Hinv.
    destruct (H _ Hinv (Hp v Hv) a d Ea Ed Hs) as [(sid & ->)|(x & _ & Hip & Hm)]; [left; by exists sid | right].
    exists i, v, x. split; [done | split; [ | done]].
    destruct C as (_ & _ & Es & _). destruct Hcopy as (_ & _ & Es' & _). congruence.
  - intros t w Hw Hp. destruct (Forall2_lookup_l _ _ _ i v0 (proj1 (proj2 Hw)) Hi0) as (v & Hv & _ & _). rewrite Hv.
    pose proof (copy_inv w i v v0 h Hw Hi0 Hcopy Hv) as Hinv. cbn [triple] in H.
    specialize (H t _ Hinv (Hp v Hv)). specialize (IH t (ctx_of w (dhcpHandler v))).
    destruct (f t _) as [c th']. destruct H as (Hi' & Hg & P' & Hst & Hp' & Htr).
    destruct (put_back_frame p h i v c w Hw Hv Hi' Hg) as [Hw' Hf].
    split; [done | split; [done | ]]. exists (on_scope P'). split; [by apply on_scope_stable | split; [ | by apply IH]].
    intros v' Hv'. simpl in Hv'. rewrite list_lookup_insert_eq in Hv' by (by eapply lookup_lt_Some).
    injection Hv' as <-. cbn [dhcpHandler]. by rewrite ctx_of_put_back.
Qed.

End Lift.

(** ** A whole handler *)

(** No scope gives the client a static address. *)
Definition dynamic (p : Packet) : Prop :=
  forall n v, networks w0 !! n = Some v -> h_ipAssigned (dhcpHandler v) !! mac_of p = None.

(** The packets the specification is about. *)
Record arrival_ok (e : env) (ifc : Interface) (p : Packet) : Prop := {
  arr_client : client_ok e p;
  arr_strict : strict -> isRelay ifc = false /\ quiet e /\ dynamic p;
  arr_lost : forall n x, lost n x -> mac_of p <> owner /\ dynamic p;
  arr_zero : forall n, lost n 0 -> quiet e
}.

Lemma frame_refl k w : world_ok w -> frame k w w.
Proof.
  intros [Hw _]. apply Forall_Forall2_diag, Forall_lookup. intros n v Hn.
  split; [done | by eapply scope_frame_refl, Hw].
Qed.

Lemma winv_transaction c w : winv w -> winv (set_transaction c w).
Proof. destruct w. intros ([] & ? & []). split; [by split | split; [done | by split]]. Qed.

Lemma serve_t_spec e fuel ifc p msgType srvIP :
  arrival_ok e ifc p ->
  triple winv wrely (frame (mac_of p)) (fun _ => True) (serve_t ByteToString e fuel ifc p msgType srvIP) (wpromise p).
Proof.
  intros [Hc Hst Hl Hz]. unfold serve_t. destruct (isRelay ifc).
  { intros w _ _ a _ Hs. by destruct (Hst Hs) as [? _]. }
  intros t w Hw _. pose proof (frame_refl (mac_of p) w (proj1 Hw)) as Hsame.
  assert (Hsilent : forall a, ans_D a = None -> exists P', stable wrely P' /\ P' w /\
            triple winv wrely (frame (mac_of p)) P' (Return (Some a)) (wpromise p)).
  { intros a Ha. exists (fun _ => True). split; [done | split; [done | ]]. intros w' _ _ a' [= <-] _ d. by rewrite Ha. }
  destruct (select_network p (networks w) 0) as [[i v]|] eqn:Hsel; [ | by auto].
  destruct (_ =? 0)%nat; [by auto | ]. destruct (Get t _ _); [by auto | ].
  destruct (select_network_lookup _ _ _ _ _ Hsel) as [_ Hi]. rewrite Nat.sub_0_r in Hi.
  destruct (Forall2_lookup_r _ _ _ i v (proj1 (proj2 Hw)) Hi) as (v0 & Hi0 & _ & C).
  split; [by apply winv_transaction | split; [exact Hsame | ]].
  exists (on_scope i (fun _ => True)). split; [by apply on_scope_stable | split; [done | ]].
  apply (lift_spec p (dhcpHandler v) i v0 Hi0 C).
  assert (Ea : dynamic p -> h_ipAssigned (dhcpHandler v) !! mac_of p = None).
  { intros Hd. destruct C as (_ & _ & _ & _ & _ & _ & Ea & _). rewrite Ea. by eapply Hd. }
  apply message_spec; [done | | | eauto | done].
  - intros Hs. destruct (Hst Hs) as (_ & Hq & Hd). auto.
  - intros x Hx. destruct (Hl i x Hx). auto.
Qed.

(** ** Goroutines and purges *)

Lemma upd_rely n f w :
  (forall h, same_config h (f h)) ->
  (strict -> forall v x k, networks w !! n = Some v -> mac (h_available (dhcpHandler v)) !! x = Some k ->
     mac (h_available (f (dhcpHandler v))) !! x = Some k) ->
  wrely w (upd_network n f w).
Proof.
  intros Hf Hk. apply Forall2_lookup. intros n'. simpl. destruct (decide (n' = n)) as [->|Hne].
  - rewrite list_lookup_alter_eq. destruct (networks w !! n) as [v|] eqn:Hn; constructor.
    split; [done | split; [apply Hf | eauto]].
  - rewrite list_lookup_alter_ne by done. destruct (networks w !! n') as [v|]; by constructor.
Qed.

Lemma upd_configured n f w :
  (forall h, same_config h (f h)) -> as_configured w0 w -> as_configured w0 (upd_network n f w).
Proof.
  intros Hf Hc. eapply as_configured_trans; [exact Hc | ]. apply Forall2_lookup. intros n'. simpl.
  destruct (decide (n' = n)) as [->|Hne].
  - rewrite list_lookup_alter_eq. destruct (networks w !! n) as [v|] eqn:Hn; constructor. by split.
  - rewrite list_lookup_alter_ne by done. destruct (networks w !! n') as [v|]; by constructor.
Qed.

Lemma drop_timer i w : winv w -> winv (set_timers (delete i (w_timers w)) w).
Proof.
  destruct w. intros ([] & ? & []). split; [by split; [ | apply Forall_delete] | split; [done | ]].
  by split; [ | | apply Forall_delete].
Qed.

(** A hardware cache with fewer entries, and the goroutines of the evicted ones. *)
Lemma evict_winv t n v w hw (evicted : list (string * Z)) :
  winv w -> networks w !! n = Some v ->
  (forall t k x, Get t hw k = Some x -> Get t (h_hwcache (dhcpHandler v)) k = Some x) ->
  (forall q, q ∈ evicted -> exists t, Get t (h_hwcache (dhcpHandler v)) q.1 = Some q.2) ->
  let w' := set_timers (w_timers w ++ map (on_evicted t n) evicted) (upd_network n (set_hwcache hw) w) in
  winv w' /\ wrely w w'.
Proof.
  intros (Hw & Hc & [Hh Hu Hs]) Hn Hsub Hev w'.
  split; [split; [by eapply evict_ok | split; [by apply upd_configured | ]] | by apply upd_rely].
  assert (Hof : forall n' v', networks w' !! n' = Some v' -> exists v1, networks w !! n' = Some v1 /\
    h_available (dhcpHandler v') = h_available (dhcpHandler v1) /\
    forall t k x, Get t (h_hwcache (dhcpHandler v')) k = Some x -> Get t (h_hwcache (dhcpHandler v1)) k = Some x).
  { intros n' v'. simpl. destruct (decide (n' = n)) as [->|Hne].
    - rewrite list_lookup_alter_eq, Hn. intros [= <-]. by exists v.
    - rewrite list_lookup_alter_ne by done. intros E. by exists v'. }
  split.
  - intros n' x v' Hx Hv'. destruct (Hof n' v' Hv') as (v1 & Hv1 & -> & _). by eapply Hh.
  - intros n' x v' t' k Hx Hv' G. destruct (Hof n' v' Hv') as (v1 & Hv1 & _ & G1). eapply Hu; eauto.
  - apply Forall_app. split; [done | ]. apply Forall_map, Forall_forall. intros q Hq n' x Hx.
    destruct (Hev q Hq) as (t' & G). destruct Hw as [Hok _]. simpl.
    rewrite (safe_index _ q.2 (Hok n v Hn) (scope_cached _ (Hok n v Hn) t' q.1 q.2 G)).
    intros [= <- <-]. by eapply Hu.
Qed.

Lemma janitor_winv t n w : winv w -> winv (janitor t n w) /\ wrely w (janitor t n w).
Proof.
  intros Hw. unfold janitor. destruct (networks w !! n) as [v|] eqn:Hn.
  2: { split; [done | ]. by apply frame_rely with "", frame_refl, Hw. }
  pose proof (fun t' => get_delete_expired_stored t t' (h_hwcache (dhcpHandler v))) as Hsub.
  pose proof (delete_expired_evicts t (h_hwcache (dhcpHandler v))) as Hev.
  destruct (DeleteExpired t (h_hwcache (dhcpHandler v))) as [hw ev].
  apply (evict_winv t n v); [done | done | apply Hsub | ]. intros q Hq. apply (Hev q Hq).
Qed.

Definition fire_allowed (a : action) : Prop := match a with FreeIndex _ _ => ~ strict | DeleteHw _ _ => True end.

Lemma free_winv t n x w :
  winv w -> ~ strict -> 0 <= x -> ~ lost n x -> winv (fire t (FreeIndex n x) w) /\ wrely w (fire t (FreeIndex n x) w).
Proof.
  intros (Hw & Hc & [Hh Hu Hs]) Hst Hx Hl. split; [ | by apply upd_rely].
  split; [by apply fire_ok | split; [by apply upd_configured | split; [ | | done]]].
  - intros n' y v' Hy. simpl. destruct (decide (n' = n)) as [->|Hne].
    + rewrite list_lookup_alter_eq. destruct (networks w !! n) as [v|] eqn:Hn; [ | done]. intros [= <-]. simpl.
      rewrite FreeIPIndex_other by congruence. by eapply Hh.
    + rewrite list_lookup_alter_ne by done. by apply Hh.
  - intros n' y v' t' k Hy. simpl. destruct (decide (n' = n)) as [->|Hne].
    + rewrite list_lookup_alter_eq. destruct (networks w !! n) as [v|] eqn:Hn; [ | done]. intros [= <-]. exact (Hu n y v t' k Hy Hn).
    + rewrite list_lookup_alter_ne by done. by apply Hu.
Qed.

Lemma delete_winv t n k w :
  winv w -> winv (fire t (DeleteHw n k) w) /\ wrely w (fire t (DeleteHw n k) w).
Proof.
  intros Hw. cbn [fire]. destruct (networks w !! n) as [v|] eqn:Hn.
  2: { split; [done | ]. by apply frame_rely with "", frame_refl, Hw. }
  assert (Hsub : forall t k' x, Get t (Delete (h_hwcache (dhcpHandler v)) k).1 k' = Some x ->
                                Get t (h_hwcache (dhcpHandler v)) k' = Some x).
  { intros t' k' x. destruct (decide (k' = k)) as [->|]; [by rewrite get_delete_eq | by rewrite get_delete_ne]. }
  pose proof (delete_evicts_stored (h_hwcache (dhcpHandler v)) k) as Hev.
  destruct (Delete (h_hwcache (dhcpHandler v)) k) as [hw ev].
  apply (evict_winv t n v); [done | done | done | ]. intros q Hq. destruct (Hev q Hq) as [-> H]. done.
Qed.

(** A goroutine wakes up. *)
Lemma fire_winv t i tm w :
  winv w -> w_timers w !! i = Some tm -> fire_allowed (act tm) ->
  let w' := fire t (act tm) (set_timers (delete i (w_timers w)) w) in winv w' /\ wrely w w'.
Proof.
  intros Hw Hi Ha w'. pose proof (drop_timer i w Hw) as Hd.
  assert (Hr : forall w2, wrely (set_timers (delete i (w_timers w)) w) w2 -> wrely w w2) by done.
  destruct Hw as ([_ Ht] & _ & [_ _ Hs]). unfold w'.
  pose proof (proj1 (Forall_lookup _ _) Ht i tm Hi) as Hdel. pose proof (proj1 (Forall_lookup _ _) Hs i tm Hi) as Hsp.
  unfold delay_ok in Hdel. cbn beta in Hsp. destruct (act tm) as [n x|n k].
  - destruct (free_winv t n x _ Hd Ha Hdel) as [H1 H2]; [ | by auto]. intros Hx. by eapply Hsp.
  - destruct (delete_winv t n k _ Hd) as [H1 H2]. auto.
Qed.

(** ** The invariant of a run *)

(** What a running handler knows is stable, and the rest of it meets its
    specification. *)
Definition thread_ok (w : world) (q : Packet * thread world (option Answer)) : Prop :=
  exists P, stable wrely P /\ P w /\ triple winv wrely (frame (mac_of q.1)) P q.2 (wpromise q.1).

Record par_ok (s : par) : Prop := {
  par_inv : winv (scopes s);
  par_running : Forall (thread_ok (scopes s)) (running s);
  par_answered : Forall (fun q => wpromise q.1 q.2 (scopes s)) (answered s)
}.

Definition pevent_ok (s : par) (ev : pevent) : Prop :=
  match ev with
  | PArrive e _ ifc p _ _ => arrival_ok e ifc p
  | PFire i => forall tm, w_timers (scopes s) !! i = Some tm -> fire_allowed (act tm)
  | _ => True
  end.

Lemma thread_ok_stable w w' q : wrely w w' -> thread_ok w q -> thread_ok w' q.
Proof. intros Hr (P & Hst & Hp & H). exists P. split; [done | split; [by eapply Hst | done]]. Qed.

Lemma rest_ok t w : winv w -> par_ok (at_rest t w).
Proof. intros Hw. split; [done | apply Forall_nil_2 | apply Forall_nil_2]. Qed.

(** The scopes change within the rely condition: whatever the others know still
    holds. *)
Lemma par_ok_scopes t w rs s :
  par_ok s -> winv w -> wrely (scopes s) w -> Forall (thread_ok w) rs -> par_ok (mkPar t w rs (answered s)).
Proof.
  intros [_ _ Ha] Hw Hr Hrs. split; [done | done | ]. simpl. eapply Forall_impl; [exact Ha | ].
  intros q Hq. exact (wpromise_stable q.1 q.2 _ _ Hq Hr).
Qed.

Lemma running_stable s w : par_ok s -> wrely (scopes s) w -> Forall (thread_ok w) (running s).
Proof.
  intros [_ H _] Hr. eapply Forall_impl; [exact H | ]. intros q. by apply thread_ok_stable.
Qed.

(** An action of a handler stays within the frame of its client. *)
Lemma act_frame s i p f :
  par_ok s -> running s !! i = Some (p, Atomic f) ->
  let r := f (clock s) (scopes s) in
  winv r.1 /\ frame (mac_of p) (scopes s) r.1 /\ thread_ok r.1 (p, r.2).
Proof.
  intros [Hw Hrun _] Hi. destruct (proj1 (Forall_lookup _ _) Hrun i _ Hi) as (P & Hst & Hp & H).
  cbn [triple] in H. specialize (H (clock s) (scopes s) Hw Hp). cbn [fst] in *.
  destruct (f (clock s) (scopes s)) as [w th]. cbv zeta. cbn [fst snd].
  destruct H as (H1 & H2 & P' & H3). split; [done | split; [done | by exists P']].
Qed.

Lemma pstep_ok s ev s' : par_ok s -> pevent_ok s ev -> pstep s ev = Some s' -> par_ok s'.
Proof.
  intros Hs Hev. pose proof (par_inv s Hs) as Hw. destruct ev as [e fuel ifc p mt srvIP|i|i|i|n|d]; cbn [pstep].
  - intros [= <-]. destruct Hs as [_ Hr Ha]. split; [done | | done]. simpl. apply Forall_app. split; [done | ].
    apply Forall_singleton. exists (fun _ => True). split; [done | split; [done | ]]. by apply serve_t_spec.
  - destruct (running s !! i) as [[p [r|f]]|] eqn:Hi; [done | | done].
    pose proof (act_frame s i p f Hs Hi) as H. destruct (f (clock s) (scopes s)) as [w th].
    destruct H as (H1 & H2 & H3). intros [= <-]. apply frame_rely in H2.
    apply par_ok_scopes; [done | done | done | ]. apply Forall_insert; [by apply running_stable | done].
  - destruct (running s !! i) as [[p [r|f]]|] eqn:Hi; [ | done | done]. intros [= <-].
    destruct Hs as [_ Hr Ha]. split; [done | by apply Forall_delete | ]. simpl. apply Forall_app. split; [done | ].
    apply Forall_singleton. destruct (proj1 (Forall_lookup _ _) Hr i _ Hi) as (P & _ & Hp & H). by apply H.
  - destruct (w_timers (scopes s) !! i) as [tm|] eqn:Hi; [ | done]. destruct (due tm <=? clock s); [ | done].
    intros [= <-]. destruct (fire_winv (clock s) i tm _ Hw Hi (Hev tm Hi)) as [H1 H2].
    apply par_ok_scopes; [done | done | done | by apply running_stable].
  - intros [= <-]. destruct (janitor_winv (clock s) n _ Hw) as [H1 H2].
    apply par_ok_scopes; [done | done | done | by apply running_stable].
  - destruct (0 <=? d); [ | done]. intros [= <-]. by destruct Hs; split.
Qed.

End World.

(** A run all of whose events satisfy a condition in the state they happen in. *)
Inductive played (ok : par -> pevent -> Prop) : par -> list pevent -> par -> Prop :=
| played_nil s : played ok s [] s
| played_cons s ev evs s1 s2 : ok s ev -> pstep s ev = Some s1 -> played ok s1 evs s2 -> played ok s (ev :: evs) s2.

Lemma prun_played (ok : par -> pevent -> Prop) s evs s' :
  (forall s, Forall (ok s) evs) -> prun s evs = Some s' -> played ok s evs s'.
Proof.
  revert s. induction evs as [|ev evs IH]; intros s Hok; cbn [prun]; [intros [= <-]; constructor | ].
  destruct (pstep s ev) as [s1|] eqn:E; [ | done]. intros H.
  eapply played_cons; [by eapply Forall_inv, Hok | exact E | apply IH; [ | done]].
  intros s2. by eapply Forall_inv_tail, Hok.
Qed.

Lemma played_ok w0 strict lost owner s evs s' :
  played (pevent_ok w0 strict lost owner) s evs s' -> par_ok w0 strict lost owner s -> par_ok w0 strict lost owner s'.
Proof. induction 1; [done | ]. intros Hs. apply IHplayed. by eapply pstep_ok. Qed.

(** ** Properties *)

(** Packets are well-formed and no client has the hardware address
    00:00:00:00:00:00 ([client_ok]). *)
Definition lawful (ev : pevent) : Prop :=
  match ev with PArrive e _ _ p _ _ => client_ok e p | _ => True end.

(** Packets that a server interface (not a relay) gets from clients without
    static assignment and with a hardware address other than 00:00:00:00:00:00, on
    a silent network, while no goroutine frees an index. *)
Definition calm (w : world) (s : par) (ev : pevent) : Prop :=
  match ev with
  | PArrive e _ ifc p _ _ => isRelay ifc = false /\ client_ok e p /\ quiet e /\ dynamic w p
  | PFire i => forall tm n x, w_timers (scopes s) !! i = Some tm -> act tm <> FreeIndex n x
  | _ => True
  end.

Definition nothing (n : nat) (x : Z) : Prop := False.

Lemma nothing_stranded owner w : stranded nothing owner w.
Proof. split; [done | done | by apply Forall_true]. Qed.

Lemma as_configured_refl w : as_configured w w.
Proof. by apply Forall_Forall2_diag, Forall_true. Qed.

Lemma start_ok strict lost owner t w :
  world_ok w -> stranded lost owner w -> par_ok w strict lost owner (at_rest t w).
Proof. intros Hw Hl. apply rest_ok. split; [done | split; [apply as_configured_refl | done]]. Qed.

Lemma lawful_ok w s ev : lawful ev -> pevent_ok w False nothing "" s ev.
Proof.
  destruct ev as [e fuel ifc p mt srvIP|i|i|i|n|d]; try done; cbn [pevent_ok lawful].
  - intros _ tm _. unfold fire_allowed. destruct (act tm); [by intros [] | done].
Qed.

Lemma calm_ok w s ev : calm w s ev -> pevent_ok w True nothing "" s ev.
Proof.
  destruct ev as [e fuel ifc p mt srvIP|i|i|i|n|d]; try done; cbn [pevent_ok calm].
  { intros (? & ? & ? & ?). by split. }
 
  intros H tm Htm. specialize (H tm). unfold fire_allowed. destruct (act tm) as [n x|]; [ | done]. by destruct (H n x Htm).
Qed.

Lemma played_mono (ok ok' : par -> pevent -> Prop) s evs s' :
  (forall s ev, ok s ev -> ok' s ev) -> played ok s evs s' -> played ok' s evs s'.
Proof. intros H. induction 1; [constructor | ]. eapply played_cons; eauto. Qed.

Lemma calm_run t w evs s :
  played (calm w) (at_rest t w) evs s -> world_ok w -> par_ok w True nothing "" s.
Proof.
  intros Hp Hw. eapply played_ok; [eapply played_mono; [ | exact Hp]; apply calm_ok | ].
  apply start_ok; [done | apply nothing_stranded].
Qed.

Lemma calm_backed t w evs s p a :
  played (calm w) (at_rest t w) evs s -> world_ok w -> (p, Some a) ∈ answered s -> backed p a (scopes s).
Proof.
  intros Hp Hw Hin. destruct (calm_run t w evs s Hp Hw) as [_ _ Ha].
  exact (proj1 (Forall_forall _ _) Ha _ Hin a eq_refl Logic.I).
Qed.

(** No address belongs to two scopes. *)
Definition disjoint_scopes (w : world) : Prop :=
  forall n1 n2 v1 v2 x1 x2 ip, networks w !! n1 = Some v1 -> networks w !! n2 = Some v2 ->
    in_range (dhcpHandler v1) x1 -> in_range (dhcpHandler v2) x2 ->
    IPAdd (h_start (dhcpHandler v1)) x1 = Ret ip -> IPAdd (h_start (dhcpHandler v2)) x2 = Ret ip -> n1 = n2.

Lemma disjoint_configured w w' : as_configured w w' -> disjoint_scopes w -> disjoint_scopes w'.
Proof.
  intros Hc Hd n1 n2 v1 v2 x1 x2 ip H1 H2.
  destruct (Forall2_lookup_r _ _ _ n1 v1 Hc H1) as (u1 & Hu1 & _ & (_ & _ & S1 & R1 & _)).
  destruct (Forall2_lookup_r _ _ _ n2 v2 Hc H2) as (u2 & Hu2 & _ & (_ & _ & S2 & R2 & _)).
  unfold in_range. rewrite S1, S2, R1, R2. by apply (Hd n1 n2 u1 u2).
Qed.

(** An address of a scope has one index. *)
Lemma address_index h x y ip :
  scope_ok h -> in_range h x -> in_range h y -> IPAdd (h_start h) x = Ret ip -> IPAdd (h_start h) y = Ret ip -> x = y.
Proof.
  intros Hs Hx Hy Ex Ey. destruct (scope_addr h x Hs Hx) as (f & F & Hf0 & Hfx & E1).
  destruct (scope_addr h y Hs Hy) as (g & G & Hg0 & Hgy & E2).
  assert (Hf : be32 (f + x) = be32 (g + y)) by congruence. apply be32_inj in Hf; [ | done | done].
  assert (Hfg : be32 f = be32 g) by congruence. apply be32_inj in Hfg; [lia | done | done].
Qed.

(** Backed answers that name one address are for one client. *)
Lemma backed_agree p1 a1 d1 p2 a2 d2 w :
  world_ok w -> disjoint_scopes w -> backed p1 a1 w -> backed p2 a2 w ->
  ans_D a1 = Some d1 -> ans_D a2 = Some d2 -> ~ refused p1 a1 -> ~ refused p2 a2 ->
  ans_IP a1 = ans_IP a2 -> mac_of p1 = mac_of p2.
Proof.
  intros [Hw _] Hd B1 B2 D1 D2 N1 N2 E.
  destruct (B1 d1 D1) as [|(n1 & v1 & x1 & Hn1 & I1 & M1)]; [done | ].
  destruct (B2 d2 D2) as [|(n2 & v2 & x2 & Hn2 & I2 & M2)]; [done | ]. rewrite <- E in I2.
  pose proof (holder_in_range (ctx_of w (dhcpHandler v1)) x1 _ (Hw n1 v1 Hn1) M1) as R1.
  pose proof (holder_in_range (ctx_of w (dhcpHandler v2)) x2 _ (Hw n2 v2 Hn2) M2) as R2.
  assert (n1 = n2) as <- by (by apply (Hd n1 n2 v1 v2 x1 x2 (ans_IP a1))).
  rewrite Hn1 in Hn2. injection Hn2 as <-.
  assert (x1 = x2) as <- by (by apply (address_index _ _ _ (ans_IP a1) (Hw n1 v1 Hn1))). congruence.
Qed.

(** C8: when the workers serve packets at the same time, none of them from the
    hardware address 00:00:00:00:00:00 ([lawful]), every scope keeps its invariant in
    every interleaving of their actions with the goroutines and the purges of the
    caches, no scope changes its configuration, and each action of a handler stays
    within the frame of its own client: held indexes keep their holders and the cache
    entries of other clients are untouched. *)
Theorem parallel_invariant t w evs s :
  Forall lawful evs -> world_ok w -> prun (at_rest t w) evs = Some s ->
  world_ok (scopes s) /\ as_configured w (scopes s) /\
  forall i p th s', running s !! i = Some (p, th) -> pstep s (PAct i) = Some s' ->
    frame (mac_of p) (scopes s) (scopes s').
Proof.
  intros Hl Hw Hr. assert (Hs : par_ok w False nothing "" s).
  { eapply played_ok; [eapply prun_played; [ | exact Hr] | apply start_ok; [done | apply nothing_stranded]].
    intros s0. eapply Forall_impl; [exact Hl | ]. apply lawful_ok. }
  destruct (par_inv _ _ _ _ _ Hs) as (H1 & H2 & _). split; [done | split; [done | ]].
  intros i p th s' Hi. cbn [pstep]. rewrite Hi. destruct th as [r|f]; [done | ].
  pose proof (act_frame _ _ _ _ s i p f Hs Hi) as H. destruct (f (clock s) (scopes s)) as [w' th].
  intros [= <-]. apply H.
Qed.

(** An answer given by parallel handlers is backed by the pool.  On a silent
    network, with clients that have no static assignment and a hardware address
    other than 00:00:00:00:00:00 ([calm]), in every interleaving in which no goroutine frees an index, each
    OFFER and ACK ever sent names an address whose index is held for its client
    in the final state. *)
Theorem parallel_answers_backed t w evs s p a :
  played (calm w) (at_rest t w) evs s -> world_ok w -> (p, Some a) ∈ answered s -> backed p a (scopes s).
Proof. apply calm_backed. Qed.

(** C7: two clients are never told one address, however their handlers overlap. On a
    silent network, with clients that have no static assignment and a hardware address
    other than 00:00:00:00:00:00 ([calm]), and with scopes that share no address, in
    every interleaving in which no goroutine frees an index, OFFERs and ACKs sent to
    different clients name different addresses, and two DISCOVERs that race for one
    address are no exception. *)
Theorem parallel_exclusive t w evs s p1 a1 d1 p2 a2 d2 :
  played (calm w) (at_rest t w) evs s -> world_ok w -> disjoint_scopes w ->
  (p1, Some a1) ∈ answered s -> (p2, Some a2) ∈ answered s ->
  ans_D a1 = Some d1 -> ans_D a2 = Some d2 -> ~ refused p1 a1 -> ~ refused p2 a2 ->
  mac_of p1 <> mac_of p2 -> ans_IP a1 <> ans_IP a2.
Proof.
  intros Hp Hw Hd H1 H2 D1 D2 N1 N2 Hne E. destruct (par_inv _ _ _ _ _ (calm_run t w evs s Hp Hw)) as (Hw' & Hc & _).
  apply Hne. eapply (backed_agree p1 a1 d1 p2 a2 d2 (scopes s)); eauto using calm_backed, disjoint_configured.
Qed.

End Parallel.

(** ** Witnesses *)

Section Races.

Import Wire Mem.

(** A packet arrives. *)
Definition comes (p : Packet) (msgType : Z) : pevent := PArrive (lab_env lab_t) 3 lab_if p msgType [].

(** Two handlers take turns. *)
Definition in_turn (n : nat) : list pevent := concat (repeat [PAct 0; PAct 1] n).

(** Two clients ask for 192.168.1.12 at the same time. *)
Definition race : list pevent :=
  [comes (asks lab_hw 1) Discover; comes (asks lab_hw2 2) Discover] ++ in_turn 10 ++ [PAct 1; PReturn 0; PReturn 0].

Lemma lab_dynamic p : dynamic lab_world p.
Proof. intros [|n] v Hn; [ | done]. by injection Hn as <-. Qed.

Lemma lab_disjoint : disjoint_scopes lab_world.
Proof. intros [|n1] [|n2]; [done | done.. ]. Qed.

Lemma asks_ok2 t xid : (xid =? 1) || (xid =? 2) = true -> client_ok (lab_env t) (asks lab_hw2 xid).
Proof.
  intros Hx. apply asks_ok; [by destruct xid | ].
  apply orb_prop in Hx as [Hx|Hx]; zbool; subst xid; by apply lab_packet_ok.
Qed.

(** The packets answered so far, the addresses and the message types. *)
Definition sent (s : par) : list (Packet * option (IP * option (option Z))) :=
  map (fun q => (q.1, (fun a => (ans_IP a, (fun d : Packet => d !! 242%nat) <$> ans_D a)) <$> q.2)) (answered s).

Lemma race_sent :
  sent <$> prun lab_key (at_rest lab_t lab_world) race =
    Some [(asks lab_hw 1, Some (address, Some (Some Offer)));
          (asks lab_hw2 2, Some ([192; 168; 1; 13], Some (Some Offer)))].
Proof. vm_compute. reflexivity. Qed.

Lemma sent_two s p q i1 i2 o1 o2 :
  sent s = [(p, Some (i1, Some (Some o1))); (q, Some (i2, Some (Some o2)))] ->
  exists a1 a2 d1 d2, answered s = [(p, Some a1); (q, Some a2)] /\
    ans_D a1 = Some d1 /\ ans_D a2 = Some d2 /\ d1 !! 242%nat = Some o1 /\ d2 !! 242%nat = Some o2.
Proof.
  unfold sent. destruct (answered s) as [|[p1 [a1|]] [|[p2 [a2|]] [|]]]; try discriminate; cbn.
  destruct (ans_D a1) as [d1|] eqn:D1; [ | discriminate]. destruct (ans_D a2) as [d2|] eqn:D2; [ | discriminate].
  cbn. intros [= -> _ O1 -> _ O2]. exists a1, a2, d1, d2. auto.
Qed.

Lemma race_run : exists s a1 a2 d1 d2,
  prun lab_key (at_rest lab_t lab_world) race = Some s /\
  answered s = [(asks lab_hw 1, Some a1); (asks lab_hw2 2, Some a2)] /\
  ans_D a1 = Some d1 /\ ans_D a2 = Some d2 /\ d1 !! 242%nat = Some Offer /\ d2 !! 242%nat = Some Offer.
Proof.
  pose proof race_sent as H. destruct (prun lab_key (at_rest lab_t lab_world) race) as [s|]; [ | discriminate].
  assert (Hs : forall x, sent <$> Some s = Some x -> sent s = x) by (intros x E; by injection E).
  apply Hs, sent_two in H as (a1 & a2 & d1 & d2 & H). by exists s, a1, a2, d1, d2.
Qed.

Lemma nak_byte p sid :
  p = asks lab_hw 1 \/ p = asks lab_hw2 2 -> (ReplyPacket p NAK sid [] 0 [] : list Z) !! 242%nat = Some NAK.
Proof. intros [-> | ->]; vm_compute; reflexivity. Qed.

Lemma offer_not_refused p a d :
  p = asks lab_hw 1 \/ p = asks lab_hw2 2 -> ans_D a = Some d -> d !! 242%nat = Some Offer -> ~ refused p a.
Proof. intros Hp Hd Ho [sid E]. rewrite Hd in E. injection E as ->. discriminate (eq_trans (eq_sym (nak_byte p sid Hp)) Ho). Qed.

Lemma race_lawful : Forall lawful race.
Proof.
  apply Forall_cons; split; [by apply asks_ok1 | ]. apply Forall_cons; split; [by apply asks_ok2 | ].
  by repeat (apply Forall_cons; split; [done | ]).
Qed.

Lemma race_calm s : Forall (calm lab_world s) race.
Proof.
  apply Forall_cons; split; [split; [done | split; [by apply asks_ok1 | split; [by intros | apply lab_dynamic]]] | ].
  apply Forall_cons; split; [split; [done | split; [by apply asks_ok2 | split; [by intros | apply lab_dynamic]]] | ].
  by repeat (apply Forall_cons; split; [done | ]).
Qed.

Lemma parallel_invariant_witness :
  exists s, prun lab_key (at_rest lab_t lab_world) race = Some s /\ world_ok (scopes s).
Proof.
  destruct race_run as (s & _ & _ & _ & _ & R & _). exists s. split; [exact R | ].
  exact (proj1 (parallel_invariant lab_key lab_t lab_world race s race_lawful lab_world_ok R)).
Defined.

Lemma parallel_answers_backed_witness :
  exists s a, prun lab_key (at_rest lab_t lab_world) race = Some s /\ backed (asks lab_hw 1) a (scopes s).
Proof.
  destruct race_run as (s & a1 & a2 & _ & _ & R & E & _). exists s, a1. split; [exact R | ].
  apply (parallel_answers_backed lab_key lab_t lab_world race s (asks lab_hw 1) a1);
    [exact (prun_played _ _ _ _ _ race_calm R) | exact lab_world_ok | rewrite E; constructor].
Defined.

Lemma parallel_exclusive_witness :
  exists s a1 a2, prun lab_key (at_rest lab_t lab_world) race = Some s /\
    answered s = [(asks lab_hw 1, Some a1); (asks lab_hw2 2, Some a2)] /\ ans_IP a1 <> ans_IP a2.
Proof.
  destruct race_run as (s & a1 & a2 & d1 & d2 & R & E & D1 & D2 & O1 & O2). exists s, a1, a2.
  split; [exact R | split; [exact E | ]].
  apply (parallel_exclusive lab_key lab_t lab_world race s (asks lab_hw 1) a1 d1 (asks lab_hw2 2) a2 d2);
    [exact (prun_played _ _ _ _ _ race_calm R) | exact lab_world_ok | exact lab_disjoint
    | rewrite E; constructor | rewrite E; constructor; constructor | exact D1 | exact D2
    | eapply offer_not_refused; eauto | eapply offer_not_refused; eauto | by vm_compute].
Defined.

End Races.
