(* ===== verification/Leaks.v ===== *)
(** * Indexes that are lost

    An index goes back to the pool when its entry in the hardware cache is
    evicted.  Setting an entry anew is no eviction: a client that is offered a
    second address while an entry of it is there, expired or not, leaves its
    first index held with nothing to free it.  How that happens, one DISCOVER
    after the other and with two handlers in parallel, and that it is for good. *)

From S2P Require Import Prelude GoStd GoNet Pool GoCache Dhcp4 Database Utils Handler Interface.
From S2P Require Import Scope Lab Discover Request System Threads Concurrent Interleave Parallel.

Section Leaks.

Context {CZ : GoCache Z} {CS : GoCache string} {SQL : SqlDB} {JSON : JSONCodec} {D4 : Dhcp4}.
Context {LZ : GoCacheLaws Z} {LS : GoCacheLaws string} {LD : Dhcp4Laws}.
Context (ByteToString : bytes -> string).

(** ** A second OFFER *)

(** The search starts no goroutine on a silent network. *)
Lemma try_requested_timers p firstTry fr c :
  match try_requested p firstTry fr c with QGo c' _ => timers c' = timers c | _ => True end.
Proof. unfold try_requested. split_matches; done. Qed.

Lemma retry_round_timers e ifc net srvIP p k firstTry fr c :
  quiet e ->
  match retry_round ByteToString e ifc net srvIP p k firstTry fr c with
  | RReply c' _ | RAgain c' _ _ => timers c' = timers c
  | _ => True
  end.
Proof.
  intros Hq. assert (Hp : forall fr c, match probe ByteToString e ifc net srvIP p k firstTry fr c with
    RReply c' _ | RAgain c' _ _ => timers c' = timers c | _ => True end).
  { intros f c0. unfold probe. destruct (IPAdd _ _); [ | done]. rewrite Hq. unfold arp_conflict, Local_. cbn [orb].
    unfold xid_replace. by destruct (Replace _ _ _ _ _). }
  unfold retry_round. destruct (_ <? _); [ | done].
  pose proof (try_requested_timers p firstTry fr c) as Ht.
  destruct (try_requested p firstTry fr c) as [ | |c1 f1]; [done | done | ]. destruct (f1 =? -1).
  - destruct (GetFreeIPIndex _ _ _) as [dp [[i rm] [er|]]]; [done | ].
    specialize (Hp (safeUint64ToInt i) (pool_set dp c1)). rewrite <- Ht. exact Hp.
  - specialize (Hp f1 c1). by rewrite <- Ht.
Qed.

Lemma retry_loop_timers e ifc net srvIP p fuel k firstTry fr c :
  quiet e ->
  match retry_loop ByteToString e ifc net srvIP p fuel k firstTry fr c with
  | SReply c' _ => timers c' = timers c
  | _ => True
  end.
Proof.
  intros Hq. revert k firstTry fr c. induction fuel as [|fuel IH]; intros k firstTry fr c; [done | ].
  cbn [retry_loop]. pose proof (retry_round_timers e ifc net srvIP p k firstTry fr c Hq) as Hr.
  destruct (retry_round _ _ _ _ _ _ _ _ _ _) as [c1|c1|c1 ft f|c1 f]; [done | done | | done].
  specialize (IH (S k) ft f c1). rewrite Hr in IH. exact IH.
Qed.

Lemma offer_timers e ifc net srvIP p fuel networkIP answer c a c' d :
  quiet e -> h_ipAssigned (hdl c) !! mac_of p = None -> hw_get (now e) c (mac_of p) = None -> ans_D answer = None ->
  serve_discover ByteToString e ifc net srvIP p fuel networkIP answer c = Some (a, c') -> ans_D a = Some d ->
  timers c' = timers c.
Proof.
  intros Hq Hst G Ha. unfold serve_discover, find_address. rewrite Hst, G.
  pose proof (retry_loop_timers e ifc net srvIP p fuel 0 true (-1) c Hq) as Ht.
  destruct (retry_loop _ _ _ _ _ _ _ _ _ _ _) as [c1|c1|c1 f| ]; [intros [= <- <-]; congruence.. | | done].
  destruct (IPAdd _ f) as [ip|]; [ | intros [= <- <-]; congruence]. unfold reply_packet.
  destruct (buildReplyOptions _ _ _ _ _ _) as [st [o|]]; intros [= <- <-] _; exact Ht.
Qed.

(** One index of one scope. *)
Definition only (n : nat) (x : Z) (n' : nat) (x' : Z) : Prop := n' = n /\ x' = x.

(** C31: a client that is offered a second address strands its first one.  When its
    cache entry has expired and is not purged yet, a DISCOVER that ends with an OFFER
    of another address overwrites the entry: the index held so far is then named by no
    cache entry and freed by no goroutine.  The network is silent, the client has no
    static assignment and a hardware address other than 00:00:00:00:00:00, and so far
    no goroutine waits to free the index and no other client's entry names it. *)
Theorem second_offer_strands e fuel ifc p srvIP w a w' d n v x :
  client_ok e p -> quiet e -> dynamic w p -> world_ok w -> isRelay ifc = false ->
  select_network p (networks w) 0 = Some (n, v) ->
  mac (h_available (dhcpHandler v)) !! x = Some (mac_of p) ->
  Get (now e) (h_hwcache (dhcpHandler v)) (mac_of p) = None ->
  (forall t k, k <> mac_of p -> Get t (h_hwcache (dhcpHandler v)) k <> Some x) ->
  Forall (fun tm => act tm <> FreeIndex n x) (w_timers w) ->
  ServeDHCP ByteToString e fuel ifc p Discover srvIP w = Some (a, w') -> ans_D a = Some d ->
  IPAdd (h_start (dhcpHandler v)) x <> Ret (ans_IP a) ->
  stranded (only n x) (mac_of p) w'.
Proof.
  intros (Hrun & Hm & Hp) Hq Hdyn [Hw _] Hrel Hsel Hx G Hoth Htm. unfold ServeDHCP. rewrite Hrel, Hsel.
  destruct (select_network_lookup _ _ _ _ _ Hsel) as [_ Hi]. rewrite Nat.sub_0_r in Hi.
  destruct (_ =? 0)%nat; [by intros [= <- <-] | ].
  destruct (Get (now e) (GlobalTransactionCache w) _); [by intros [= <- <-] | ].
  set (w1 := set_transaction _ w). set (c := ctx_of w1 (dhcpHandler v)). unfold serve_message. cbn [Z.eqb Pos.eqb Discover].
  destruct (serve_discover _ _ _ _ _ _ _ _ _ _) as [[a1 c1]|] eqn:S; [ | done]. intros [= <- <-] Hd Hne.
  assert (Hs : scope_ok (hdl c)) by exact (Hw n v Hi). assert (Hst := Hdyn n v Hi).
  assert (Ht : timers c1 = timers c) by (eapply offer_timers; [exact Hq | exact Hst | exact G | | exact S | exact Hd]; done).
  edestruct (offer_holds ByteToString e ifc n srvIP p Hrun Hm fuel) with (c := c) (a := a1) (c' := c1) (d := d)
    as (y & _ & _ & Hy & _ & _ & _ & Hget & E); [exact Hs | exact Hq | exact Hst | | exact S | exact Hd | ]; [done | ].
  assert (Hxy : x <> y) by (intros ->; by apply Hne, Hy). split.
  - intros n' x' v' [-> ->]. simpl. rewrite list_lookup_insert_eq by (by eapply lookup_lt_Some). intros [= <-].
    exact (grows_keeps _ _ _ (ev_pool _ _ _ _ E) _ _ Hx).
  - intros n' x' v' t k [-> ->]. simpl. rewrite list_lookup_insert_eq by (by eapply lookup_lt_Some). intros [= <-].
    cbn [dhcpHandler]. destruct (decide (k = mac_of p)) as [->|Hk].
    + specialize (Hget t). unfold hw_get in Hget. rewrite Hget. unfold cached_until. case_match; congruence.
    + rewrite (ev_others _ _ _ _ E t k Hk). by apply Hoth.
  - simpl. rewrite Ht. eapply Forall_impl; [exact Htm | ]. intros tm H n' x' [-> ->]. exact H.
Qed.

(** ** For good *)

(** Packets of other clients than [owner], without static assignment and with a
    hardware address other than 00:00:00:00:00:00 ([client_ok]); when an index 0 is
    lost, on a silent network, because after a ping reply a DISCOVER caches the
    first address of the range without reserving it
    ([Discover.discover_offers_held_address]) and the eviction of that entry frees
    it.  Goroutines, purges and waiting are not restricted. *)
Definition from_others (lost : nat -> Z -> Prop) (owner : string) (w : world) (ev : pevent) : Prop :=
  match ev with
  | PArrive e _ _ p _ _ => client_ok e p /\ mac_of p <> owner /\ dynamic w p /\ forall n, lost n 0 -> quiet e
  | _ => True
  end.

Lemma from_others_ok lost owner w s ev : from_others lost owner w ev -> pevent_ok w False lost owner s ev.
Proof.
  destruct ev as [e fuel ifc p mt srvIP|i|i|i|n|d]; try done; cbn [pevent_ok from_others].
  { intros (? & ? & ? & ?). split; eauto. done. }
  intros _ tm _. unfold fire_allowed. destruct (act tm); [by intros [] | done].
Qed.

(** C32: an index that is held while no cache entry names it and no goroutine is going
    to free it is lost to everybody else: whatever packets other clients without
    static assignment and with a hardware address other than 00:00:00:00:00:00 send,
    in every interleaving and however long the server runs, it stays held for a client
    that may be gone.  Pings may be answered, except when the lost index is the first
    of its scope: then the network is silent ([from_others] says why). *)
Theorem stranded_forever lost owner t w evs s n x v :
  world_ok w -> stranded lost owner w -> Forall (from_others lost owner w) evs ->
  prun ByteToString (at_rest t w) evs = Some s -> lost n x -> networks (scopes s) !! n = Some v ->
  mac (h_available (dhcpHandler v)) !! x = Some owner.
Proof.
  intros Hw Hl Hev Hr Hx Hv. assert (Hs : par_ok w False lost owner s).
  { apply (played_ok ByteToString _ _ _ _ (at_rest t w) evs); [apply prun_played; [ | exact Hr] | by apply start_ok].
    intros s0. eapply Forall_impl; [exact Hev | ]. apply from_others_ok. }
  destruct (par_inv _ _ _ _ _ Hs) as (_ & _ & [Hh _ _]). by eapply Hh.
Qed.

End Leaks.

(** ** Leaks in the laboratory *)

Section Traces.

Import Wire Mem.

(** A DISCOVER that asks for no address. *)
Definition plain (xid : Z) : Packet := lab_packet lab_hw [0; 0; 0; xid] [].

(** The client is offered an address, comes back six seconds later and is offered
    another.  The cache is purged and its goroutine wakes up. *)
Definition one_after_the_other : list pevent :=
  [comes (plain 1) Discover] ++ repeat (PAct 0) 9 ++ [PReturn 0; PWait (6 * Second); comes (plain 2) Discover] ++
  repeat (PAct 0) 9 ++ [PReturn 0; PWait (10 * Second); PJanitor 0; PWait (30 * Second); PFire 0].

(** The client sends two DISCOVERs and two workers serve them together. *)
Definition together : list pevent :=
  [comes (plain 1) Discover; comes (plain 2) Discover] ++ in_turn 9 ++
  [PReturn 0; PReturn 0; PWait (10 * Second); PJanitor 0; PWait (30 * Second); PFire 0].

(** What is left: the addresses offered, the handlers that still run, the
    goroutines that still sleep, the cache entries and the indexes held. *)
Definition left_over (s : par) : list (option IP) * nat * nat * option (bool * list (Z * string)) :=
  (map (fun q => ans_IP <$> q.2) (answered s), length (running s), length (w_timers (scopes s)),
   (fun v => (bool_decide (h_hwcache (dhcpHandler v) = (∅ : gmap string (Z * Z))), map_to_list (mac (h_available (dhcpHandler v)))))
     <$> networks (scopes s) !! 0%nat).

(** The pool leaks an index when a client discovers twice.  After both runs
    every handler has returned, no goroutine sleeps and the hardware cache is
    empty, and still index 3 is held for a client that never sent a REQUEST. *)
Example discover_twice_leaks :
  let leaked := Some ([Some [192; 168; 1; 13]; Some [192; 168; 1; 14]], 0%nat, 0%nat, Some (true, [(3, w_mac)])) in
  left_over <$> prun lab_key (at_rest lab_t lab_world) one_after_the_other = leaked /\
  left_over <$> prun lab_key (at_rest lab_t lab_world) together = leaked.
Proof. split; vm_compute; reflexivity. Qed.

(** ** Witnesses *)

(** Index 3 is held for the first client. *)
Definition held_net (hw : gmap string (Z * Z)) : Network :=
  mkNetwork (mkIPNet [192; 168; 1; 0] [255; 255; 255; 0]) (lab_scope (ReserveIPIndex lab_pool 3 w_mac).1 hw).
Definition held_world (hw : gmap string (Z * Z)) : world :=
  mkWorld [held_net hw]
    (New 0 0) (New 0 0) (New 0 0) (New 0 0) w_store [].

Lemma held_world_ok hw : map_Forall (fun _ it => 0 <= it.1 < 5) hw -> world_ok (held_world hw).
Proof.
  intros Hhw. split; [ | apply Forall_nil_2]. intros [|n] v Hn; [ | done]. injection Hn as <-. apply lab_scope_ok; [ | | done].
  - apply ReserveIPIndex_wf, lab_pool_ok.
  - rewrite ReserveIPIndex_capacity. apply lab_pool_ok.
Qed.

Lemma held_dynamic hw p : dynamic (held_world hw) p.
Proof. intros [|n] v Hn; [ | done]. by injection Hn as <-. Qed.

Lemma plain_ok t : client_ok (lab_env t) (plain 2).
Proof. split; [intros k; apply fixed_choice_ok | split; [done | by apply lab_packet_ok]]. Qed.

(** A packet without addresses is for the first scope on the same segment. *)
Lemma select_first p v rest :
  h_layer2 (dhcpHandler v) = true -> IP_Equal (GIAddr p) IPv4zero = true -> IP_Equal (CIAddr p) IPv4zero = true ->
  select_network p (v :: rest) 0 = Some (0%nat, v).
Proof. intros H1 H2 H3. cbn [select_network]. by rewrite H1, H2, H3. Qed.

Lemma plain_selects hw : select_network (plain 2) (networks (held_world hw)) 0 = Some (0%nat, held_net hw).
Proof. apply select_first; by vm_compute. Qed.

Lemma plain_mac : mac_of (plain 2) = w_mac.
Proof. by vm_compute. Qed.

Lemma held_index hw : mac (h_available (dhcpHandler (held_net hw))) !! 3 = Some (mac_of (plain 2)).
Proof. rewrite plain_mac. by vm_compute. Qed.

(** Its entry expired a second ago. *)
Definition lapsed : gmap string (Z * Z) := {[ w_mac := (3, lab_t + 5 * Second) ]}.
Definition lapsed_world : world := held_world lapsed.

Lemma lapsed_ok : world_ok lapsed_world.
Proof. by apply held_world_ok, map_Forall_singleton. Qed.

Lemma lapsed_now : Get (lab_t + 6 * Second) lapsed (mac_of (plain 2)) = None.
Proof. by vm_compute. Qed.

Lemma held_address ip :
  ip = [192; 168; 1; 14] -> IPAdd (h_start (dhcpHandler (held_net lapsed))) 3 <> Ret ip.
Proof. intros ->. by vm_compute. Qed.

Definition comes_back : option (Answer * world) :=
  ServeDHCP lab_key (lab_env (lab_t + 6 * Second)) 3 lab_if (plain 2) Discover [] lapsed_world.

Lemma lapsed_others t k : k <> mac_of (plain 2) -> Get t lapsed k <> Some 3.
Proof. rewrite plain_mac. intros Hk. simpl. unfold mc_get, lapsed. by rewrite lookup_singleton_ne. Qed.

Lemma comes_back_run : exists a w' d, comes_back = Some (a, w') /\ ans_D a = Some d /\ ans_IP a = [192; 168; 1; 14].
Proof.
  assert (H : (fun r => (happens (ans_D r.1), ans_IP r.1)) <$> comes_back = Some (true, [192; 168; 1; 14])) by (by vm_compute).
  destruct comes_back as [[a w']|]; [ | discriminate]. injection H as H1 H2. cbn [fst] in *.
  destruct (ans_D a) as [d|] eqn:D; [ | discriminate]. by exists a, w', d.
Qed.

Lemma second_offer_strands_witness : exists a w', comes_back = Some (a, w') /\ stranded (only 0 3) (mac_of (plain 2)) w'.
Proof.
  destruct comes_back_run as (a & w' & d & R & D & A). exists a, w'. split; [exact R | ].
  apply (second_offer_strands lab_key (lab_env (lab_t + 6 * Second)) 3 lab_if (plain 2) [] lapsed_world a w' d 0
           (held_net lapsed) 3);
    [apply plain_ok | by intros | apply held_dynamic | exact lapsed_ok | reflexivity | apply plain_selects
    | apply held_index | exact lapsed_now | apply lapsed_others | apply Forall_nil_2 | exact R | exact D
    | exact (held_address _ A)].
Defined.

(** The second client gets an address and keeps it for an hour. *)
Definition meanwhile : list pevent :=
  [comes (asks lab_hw2 2) Discover] ++ repeat (PAct 0) 10 ++ [PReturn 0; PWait (3600 * Second); PJanitor 0].

Lemma held_stranded : stranded (only 0 3) w_mac (held_world ∅).
Proof.
  split; [ | | apply Forall_nil_2].
  - intros n x v [-> ->] Hn. injection Hn as <-. by vm_compute.
  - intros n x v t k [-> ->] Hn. injection Hn as <-. simpl. unfold mc_get. by rewrite lookup_empty.
Qed.

Lemma first_scope (r : option par) :
  (fun s => happens (networks (scopes s) !! 0%nat)) <$> r = Some true ->
  exists s v, r = Some s /\ networks (scopes s) !! 0%nat = Some v.
Proof.
  destruct r as [s|]; [ | discriminate]. cbn. destruct (networks (scopes s) !! 0%nat) as [v|] eqn:Hv; [ | discriminate].
  intros _. by exists s, v.
Qed.

Lemma meanwhile_run :
  exists s v, prun lab_key (at_rest lab_t (held_world ∅)) meanwhile = Some s /\ networks (scopes s) !! 0%nat = Some v.
Proof. apply first_scope. vm_compute. reflexivity. Qed.

Lemma hw2_other : mac_of (asks lab_hw2 2) <> w_mac.
Proof. by vm_compute. Qed.

Lemma meanwhile_others : Forall (from_others (only 0 3) w_mac (held_world ∅)) meanwhile.
Proof.
  apply Forall_cons; split.
  - split; [by apply asks_ok2 | split; [exact hw2_other | split; [apply held_dynamic | ]]]. by intros n [_ H].
  - by repeat (apply Forall_cons; split; [done | ]).
Qed.

Lemma stranded_forever_witness :
  exists s v, prun lab_key (at_rest lab_t (held_world ∅)) meanwhile = Some s /\
    networks (scopes s) !! 0%nat = Some v /\ mac (h_available (dhcpHandler v)) !! 3 = Some w_mac.
Proof.
  destruct meanwhile_run as (s & v & R & Hv). exists s, v. split; [exact R | split; [exact Hv | ]].
  apply (stranded_forever lab_key (only 0 3) w_mac lab_t (held_world ∅) meanwhile s 0 3 v);
    [apply held_world_ok, map_Forall_empty | exact held_stranded | exact meanwhile_others | exact R | by split | exact Hv].
Defined.

End Traces.
