(* ===== verification/Server.v ===== *)
(** * From the socket to the wire: src/server.go and src/workers_pool.go

    [Serve] filters the datagrams of a listener and puts jobs in the bounded
    queue; [doWork] hands a job to [ServeDHCP] and sends the answer through the
    senders of RawClient.v. *)

From S2P Require Import Prelude GoStd GoNet Pool RawClient GoCache Dhcp4 Database Utils Handler Interface.
From S2P Require Import Scope Lab Discover Request.
From Stdlib Require Import Ascii.

Definition bootp_client : Z := 68.
Definition bootp_server : Z := 67.

(** ** Intake *)

(** [localCtx], [Int] and [handler] are the same for every job of a listener;
    [srvAddr] is set by no caller. *)
Record job := mkJob {
  DHCPpacket : Packet;
  msgType : Z;
  clientAddr : string;
  srvAddr : IP
}.

Section Server.

Context {CZ : GoCache Z} {CS : GoCache string} {SQL : SqlDB} {JSON : JSONCodec} {D4 : Dhcp4}.

(** One outcome of [conn.ReadFromRaw]. *)
Inductive read :=
| ReadOk (datagram : bytes) (addr : string)
| ReadErr (e : string).

(** The checks on a packet: its message type when it is worth a job. *)
Definition accept (req : Packet) : option Z :=
  if (length req <? 240)%nat then None
  else if 16 <? HLen req then None
  else
    match ParseOptions req !! OptionDHCPMessageType with
    | Some [t] => if (t <? Discover) || (Inform <? t) then None else Some t
    | _ => None
    end.

(** The loop over the reads of a connection.  [jobs] is the channel, [cap] its
    capacity; a full channel drops the packet.  The buffer holds 1500 bytes. *)
Fixpoint Serve (cap : nat) (reads : list read) (jobs : list job) : list job * error :=
  match reads with
  | [] => (jobs, None)
  | ReadErr e :: _ => (jobs, Some e)
  | ReadOk datagram addr :: reads =>
      let req := firstn 1500 datagram in
      match accept req with
      | None => Serve cap reads jobs
      | Some reqType =>
          if (length jobs <? cap)%nat then Serve cap reads (jobs ++ [mkJob req reqType addr []])
          else Serve cap reads jobs
      end
  end.

(** ** Workers *)

(** What the senders give to the kernel. *)
Inductive sent :=
| Unicast (packet addr : bytes) (port : Z)
| RawFrame (frame : bytes) (target : HardwareAddr).

(** Whether sockets can be opened, and the Ethernet encoder. *)
Context (socket_ok raw_ok : bool) (MarshalBinary : bytes -> bytes -> Z -> bytes -> option bytes).

Definition send_unicast (d : Packet) (dst src gi : IP) (sport dport : Z) : list sent :=
  match sendUnicastDHCP socket_ok d dst src gi sport dport with
  | Some (packet, addr, port) => [Unicast packet addr port]
  | None => []
  end.

(** [NewRawClient], [sendDHCP], [Close]. *)
Definition send_raw (ifc : Interface) (ans : Answer) (d : Packet) : list sent :=
  if raw_ok then
    match sendDHCP MarshalBinary (hw_addr ifc) (ans_MAC ans) d (ans_IP ans) (Ipv4 ifc) with
    | Some (frame, target) => [RawFrame frame target]
    | None => []
    end
  else [].

Definition send_answer (ifc : Interface) (element : job) (ans : Answer) : list sent :=
  match ans_D ans with
  | None => []
  | Some d =>
      let gi := GIAddr (DHCPpacket element) in
      if isRelay ifc then
        let mt := msgType element in
        if mt =? Discover then send_unicast d (relayIP ifc) (Ipv4 ifc) gi bootp_client bootp_server
        else if mt =? Offer then send_raw ifc ans d
        else if mt =? Request then send_unicast d (relayIP ifc) (Ipv4 ifc) gi bootp_client bootp_server
        else if mt =? ACK then send_raw ifc ans d
        else []
      else
        let '(ipStr, portStr) := SplitHostPort (clientAddr element) in
        if negb (IP_Equal gi IPv4zero && IP_Equal (ParseIP ipStr) IPv4zero) then
          send_unicast d (ParseIP ipStr) (Ipv4 ifc) gi bootp_server (Atoi portStr)
        else send_raw ifc ans d
  end.

Definition doWork (ByteToString : bytes -> string) (e : env) (fuel : nat) (ifc : Interface) (element : job) (w : world)
    : option (list sent * world) :=
  match ServeDHCP ByteToString e fuel ifc (DHCPpacket element) (msgType element) (srvAddr element) w with
  | Some (ans, w) => Some (send_answer ifc element ans, w)
  | None => None
  end.

(** ** Lemmas *)

(** The source address of a datagram, as [UDPAddr.String] prints it. *)
Definition udp_addr (src : IP) (port : Z) : string := (IP_String src +s+ ":" +s+ Utoa port)%string.

Lemma SplitHostPort_v4 src port :
  length src = 4%nat -> SplitHostPort (udp_addr src port) = (IP_String src, Utoa port).
Proof.
  intros Hl. unfold udp_addr.
  assert (Hno : forall c, is_digit c = false -> c <> "."%char ->
            has_char c (IP_String src) = false /\ has_char c (Utoa port) = false).
  { intros c Hc Hd. split; [by apply IP_String_no_char | apply digits_no_char; [done | apply Utoa_digits]]. }
  destruct (Hno ":"%char eq_refl ltac:(done)) as [C1 C2].
  destruct (Hno "["%char eq_refl ltac:(done)) as [B1 B2].
  destruct (Hno "]"%char eq_refl ltac:(done)) as [E1 E2].
  assert (Hs : Split (IP_String src +s+ ":" +s+ Utoa port) ":" = [IP_String src; Utoa port]).
  { change (":" +s+ Utoa port)%string with (String ":" (Utoa port)).
    rewrite Split_app_sep by done. by rewrite Split_no_sep. }
  unfold SplitHostPort. rewrite Hs, !has_char_app, B1, E1. cbn [length Nat.eqb removelast Join List.last].
  rewrite C1. cbn [sapp has_char]. rewrite B2, E2.
  destruct (IP_String src) as [|c r]; [done | ]. cbn [sapp]. cbn [has_char] in B1.
  apply orb_false_elim in B1 as [B1 _]. apply bool_decide_eq_false in B1.
  destruct c as [[] [] [] [] [] [] [] []]; try done.
Qed.

(** What a job's packet satisfies. *)
Definition job_ok (j : job) : Prop :=
  (240 <= length (DHCPpacket j) <= 1500)%nat /\ HLen (DHCPpacket j) <= 16 /\
  ParseOptions (DHCPpacket j) !! OptionDHCPMessageType = Some [msgType j] /\
  Discover <= msgType j <= Inform.

Lemma accept_ok req t addr srv :
  (length req <= 1500)%nat -> accept req = Some t -> job_ok (mkJob req t addr srv).
Proof.
  intros Hl. unfold accept. destruct (Nat.ltb_spec (length req) 240); [done | ].
  destruct (Z.ltb_spec 16 (HLen req)); [done | ].
  destruct (ParseOptions req !! OptionDHCPMessageType) as [[|b [|? ?]]|] eqn:E; try done.
  destruct ((b <? Discover) || (Inform <? b)) eqn:B; [done | ]. intros [= <-].
  apply orb_false_elim in B as [B1 B2]. zbool. unfold job_ok. simpl. rewrite E.
  split; [lia | split; [lia | split; [done | lia]]].
Qed.

Definition datagrams (reads : list read) : list Packet :=
  omap (fun r => match r with ReadOk d _ => Some (firstn 1500 d) | ReadErr _ => None end) reads.

Lemma isRelay_server ifc : InterfaceType ifc = "server"%string -> isRelay ifc = false.
Proof. intros H. unfold isRelay. by rewrite H. Qed.

(** ** Properties *)

(** C24: the listener never overfills the job queue and queues only well-formed DHCP
    requests.  The jobs it adds are the datagrams received, in order, less the ones it
    drops; each has the 240 bytes of the fixed part, a hardware address of at most 16
    bytes and exactly the message type of its option 53, from DISCOVER to INFORM. *)
Theorem Serve_intake cap reads jobs jobs' er :
  Serve cap reads jobs = (jobs', er) ->
  exists new, jobs' = jobs ++ new /\
    ((length jobs <= cap)%nat -> (length jobs' <= cap)%nat) /\
    map DHCPpacket new `sublist_of` datagrams reads /\ Forall job_ok new.
Proof.
  revert jobs. induction reads as [|[d addr|e'] reads IH]; intros jobs; cbn [Serve].
  - intros [= <- <-]. exists []. rewrite app_nil_r. repeat split; auto.
  - unfold datagrams. cbn [omap list_omap]. fold (datagrams reads).
    assert (Hdrop : forall new, map DHCPpacket new `sublist_of` datagrams reads ->
              map DHCPpacket new `sublist_of` firstn 1500 d :: datagrams reads).
    { intros new H. by apply sublist_cons. }
    destruct (accept (firstn 1500 d)) as [t|] eqn:A.
    2: { intros H. apply IH in H as (new & ? & ? & ? & ?). exists new. auto. }
    destruct (Nat.ltb_spec (length jobs) cap) as [Hc|_].
    2: { intros H. apply IH in H as (new & ? & ? & ? & ?). exists new. auto. }
    intros H. apply IH in H as (new & -> & Hlen & Hsub & Hok).
    exists (mkJob (firstn 1500 d) t addr [] :: new). rewrite <- app_assoc. split; [done | ].
    split; [ | split].
    + intros _. rewrite app_assoc. apply Hlen. rewrite length_app. simpl. lia.
    + simpl. by apply sublist_skip.
    + apply Forall_cons. split; [ | done]. apply accept_ok; [ | done]. rewrite length_firstn. lia.
  - intros [= <- <-]. exists []. rewrite app_nil_r. repeat split; auto. apply sublist_nil_l.
Qed.

(** *** Whose hardware address an answer carries *)

Lemma discover_MAC ByteToString e ifc net srvIP p fuel networkIP answer c a c' :
  serve_discover ByteToString e ifc net srvIP p fuel networkIP answer c = Some (a, c') -> ans_MAC a = ans_MAC answer.
Proof.
  unfold serve_discover. destruct (find_address _ _ _ _ _ _) as [c1|c1|c1 fr| ]; [by intros [= <- _].. | | done].
  destruct (IPAdd _ fr); [ | by intros [= <- _]].
  destruct (reply_packet _ _ _ _ _ _) as [c2 [d|]]; by intros [= <- _].
Qed.

Lemma verdict_return ByteToString e net p msgType answer c c' a :
  request_verdict ByteToString e net p msgType answer c = VReturn c' a -> a = answer \/ a = emptyAnswer.
Proof.
  unfold request_verdict, request_cached, request_match, request_mismatch.
  repeat (case_match; try done); intros [= _ <-]; auto.
Qed.

Lemma request_MAC ByteToString e net p msgType networkIP answer c d :
  ans_D (serve_request ByteToString e net p msgType networkIP answer c).1 = Some d ->
  ans_MAC (serve_request ByteToString e net p msgType networkIP answer c).1 = ans_MAC answer.
Proof.
  unfold serve_request. destruct (foreign_server p c); [done | ]. destruct (_ && _); [ | done].
  destruct (request_verdict _ _ _ _ _ _ _) as [c1 x|c1|c1 a] eqn:E; [ | done | ].
  - by destruct (reply_packet _ _ _ _ _ _) as [c2 [d'|]].
  - by apply verdict_return in E as [-> | ->].
Qed.

Lemma give_back_same e net p answer c : (give_back e net p answer c).1 = answer.
Proof. unfold give_back. repeat case_match; done. Qed.

(** Every packet the server answers with is for the hardware address of the
    request. *)
Lemma ServeDHCP_MAC ByteToString e fuel ifc p mt srvIP w a w' d :
  isRelay ifc = false -> ServeDHCP ByteToString e fuel ifc p mt srvIP w = Some (a, w') -> ans_D a = Some d ->
  ans_MAC a = CHAddr p.
Proof.
  intros Hr. unfold ServeDHCP. rewrite Hr. destruct (select_network _ _ _) as [[i v]|]; [ | by intros [= <- _]].
  destruct (_ =? 0)%nat; [by intros [= <- _] | ]. destruct (Get _ _ _); [by intros [= <- _] | ].
  unfold serve_message. set (ans := mkAnswer _ _ _ _). set (c := ctx_of _ _).
  destruct (mt =? Discover).
  { destruct (serve_discover _ _ _ _ _ _ _ _ _ _) as [[a1 c1]|] eqn:E; [ | done].
    intros [= <- _] _. by apply discover_MAC in E. }
  destruct (_ || _).
  { pose proof (request_MAC ByteToString e i p mt (IP_String (net_IP (network v))) ans c d) as H.
    destruct (serve_request _ _ _ _ _ _ _ _) as [a1 c1]. intros [= <- _]. exact H. }
  unfold serve_release, serve_decline.
  pose proof (give_back_same e i p ans c) as H. destruct (give_back e i p ans c) as [a1 c1]. simpl in H. subst a1.
  destruct (mt =? Release); [by intros [= <- _] | ]. destruct (mt =? Decline); by intros [= <- _].
Qed.

(** The frame of an answer: to its hardware address, from the interface's, with
    its IP address as destination. *)
Lemma send_raw_frame ifc ans d fb :
  raw_ok = true ->
  MarshalBinary (ans_MAC ans) (hw_addr ifc) EtherTypeIPv4
    (build_packet d (ans_IP ans) (Ipv4 ifc) bootp_server bootp_client) = Some fb ->
  send_raw ifc ans d = [RawFrame fb (ans_MAC ans)].
Proof.
  intros Hraw Hm. unfold send_raw, sendDHCP. rewrite Hraw.
  change (build_packet d (ans_IP ans) (Ipv4 ifc) 67 68)
    with (build_packet d (ans_IP ans) (Ipv4 ifc) bootp_server bootp_client). by rewrite Hm.
Qed.

(** C26: where the server sends a reply it has made, when it can open its sockets and
    the datagram came from an IPv4 address.  To the relay agent of the request when it
    has one; to the source of the datagram, at its port, when that is a real address;
    otherwise, for a client without an address, as one Ethernet frame to the hardware
    address of the request, from the interface's own, whose payload is an IPv4 packet
    from the server's address and port 67 to the address the client was given and port
    68.  (Frames are encoded by a third-party package, [MarshalBinary].) *)
Theorem server_reply_route ByteToString e fuel ifc element w ans w' d src port :
  isRelay ifc = false ->
  ServeDHCP ByteToString e fuel ifc (DHCPpacket element) (msgType element) (srvAddr element) w = Some (ans, w') ->
  ans_D ans = Some d -> socket_ok = true ->
  clientAddr element = udp_addr src port -> length src = 4%nat -> is_bytes src -> 0 <= port < 65536 ->
  length (GIAddr (DHCPpacket element)) = 4%nat ->
  let gi := GIAddr (DHCPpacket element) in
  let unicast target := [Unicast (build_packet d target (Ipv4 ifc) bootp_server port) (copy4 target) port] in
  exists sends, doWork ByteToString e fuel ifc element w = Some (sends, w') /\
  (gi <> [0; 0; 0; 0] -> sends = unicast gi) /\
  (gi = [0; 0; 0; 0] -> src <> [0; 0; 0; 0] -> sends = unicast (v4InV6Prefix ++ src)) /\
  (gi = [0; 0; 0; 0] -> src = [0; 0; 0; 0] -> raw_ok = true -> forall fb,
     let packet := build_packet d (ans_IP ans) (Ipv4 ifc) bootp_server bootp_client in
     MarshalBinary (CHAddr (DHCPpacket element)) (hw_addr ifc) EtherTypeIPv4 packet = Some fb ->
     sends = [RawFrame fb (CHAddr (DHCPpacket element))] /\
     firstn 4 (drop 12 packet) = copy4 (Ipv4 ifc) /\ firstn 4 (drop 16 packet) = copy4 (ans_IP ans)).
Proof.
  intros Hr Hserve Hd Hsock Hc Hl Hb Hport Hg gi unicast. unfold doWork. rewrite Hserve.
  eexists. split; [reflexivity | ]. unfold send_answer.
  rewrite Hd, Hr, Hc, SplitHostPort_v4, ParseIP_String, Atoi_Utoa by (done || unfold MaxInt; lia).
  assert (Hz : forall ip, length ip = 4%nat -> IP_Equal (v4InV6Prefix ++ ip) IPv4zero = bool_decide (ip = [0; 0; 0; 0])).
  { intros ip Hip. apply eq_true_iff_eq. rewrite bool_decide_eq_true, IP_Equal_same_len by (by rewrite length_app, Hip).
    unfold IPv4zero, IPv4. split; [intros E; by apply app_inv_head in E | congruence]. }
  assert (Hgz : IP_Equal gi IPv4zero = bool_decide (gi = [0; 0; 0; 0])).
  { apply eq_true_iff_eq. by rewrite bool_decide_eq_true, IPv4zero_Equal. }
  fold gi. rewrite Hz, Hgz by done.
  assert (Hu : forall dst, To4 dst <> [] ->
    send_unicast d dst (Ipv4 ifc) gi bootp_server port = unicast (unicast_target dst gi)).
  { intros dst Hdst. unfold send_unicast. rewrite Hsock, sendUnicastDHCP_unicast by done. done. }
  assert (Hto : To4 (v4InV6Prefix ++ src) <> []).
  { rewrite To4_mapped by done. intros E. by rewrite E in Hl. }
  unfold unicast_target in Hu. rewrite Hgz in Hu.
  split; [ | split].
  - intros Hne. rewrite bool_decide_false by done. cbn [andb negb]. rewrite Hu by done.
    by rewrite bool_decide_false.
  - intros E Hne. rewrite (bool_decide_true (gi = _)), (bool_decide_false (src = _)) by done.
    cbn [andb negb]. rewrite Hu by done. by rewrite bool_decide_true.
  - intros E -> Hraw fb Hm. rewrite !bool_decide_true by done. cbn [andb negb].
    rewrite <- (ServeDHCP_MAC _ _ _ _ _ _ _ _ _ _ _ Hr Hserve Hd) in Hm |- *.
    split; [by apply send_raw_frame | ]. apply and_comm, packet_addresses.
Qed.

(** A relay builds a packet for each NAK, RELEASE and DECLINE it receives
    and sends none of them: NAKs never reach the clients behind it, and the
    server never learns of a released or declined address. *)
Theorem relay_never_sends ByteToString e fuel ifc element w :
  isRelay ifc = true ->
  msgType element = NAK \/ msgType element = Release \/ msgType element = Decline ->
  exists ans d,
    ServeDHCP ByteToString e fuel ifc (DHCPpacket element) (msgType element) (srvAddr element) w = Some (ans, w) /\
    ans_D ans = Some d /\ doWork ByteToString e fuel ifc element w = Some ([], w).
Proof.
  intros Hr Hm.
  assert (Hs : exists ans d,
    ServeDHCP ByteToString e fuel ifc (DHCPpacket element) (msgType element) (srvAddr element) w = Some (ans, w) /\
    ans_D ans = Some d).
  { unfold ServeDHCP, serve_relay. rewrite Hr. destruct Hm as [-> | [-> | ->]]; do 2 eexists; done. }
  destruct Hs as (ans & d & Hserve & Hd). exists ans, d. split; [done | split; [done | ]].
  unfold doWork. rewrite Hserve. unfold send_answer. rewrite Hd, Hr.
  by destruct Hm as [-> | [-> | ->]].
Qed.

(** Where a relay sends a DISCOVER or a REQUEST: to the DHCP server it is
    configured for when the packet comes straight from a client, but back to the
    relay agent the packet came through when it has already been relayed. *)
Theorem relay_upstream ifc element ans d :
  isRelay ifc = true -> ans_D ans = Some d -> socket_ok = true ->
  msgType element = Discover \/ msgType element = Request ->
  To4 (relayIP ifc) <> [] -> length (GIAddr (DHCPpacket element)) = 4%nat ->
  let target := if bool_decide (GIAddr (DHCPpacket element) = [0; 0; 0; 0]) then relayIP ifc
                else GIAddr (DHCPpacket element) in
  send_answer ifc element ans =
    [Unicast (build_packet d target (Ipv4 ifc) bootp_client bootp_server) (copy4 target) bootp_server].
Proof.
  intros Hr Hd Hsock Hm Hrelay Hg target. unfold send_answer. rewrite Hd, Hr.
  assert (Hu : send_unicast d (relayIP ifc) (Ipv4 ifc) (GIAddr (DHCPpacket element)) bootp_client bootp_server =
    [Unicast (build_packet d target (Ipv4 ifc) bootp_client bootp_server) (copy4 target) bootp_server]).
  { unfold send_unicast. rewrite Hsock, sendUnicastDHCP_unicast by done. unfold unicast_target, target.
    case_bool_decide as E.
    - by rewrite (proj2 (IPv4zero_Equal _ Hg)).
    - destruct (IP_Equal (GIAddr (DHCPpacket element)) IPv4zero) eqn:Z0; [ | done].
      by apply IPv4zero_Equal in Z0. }
  by destruct Hm as [-> | ->].
Qed.

End Server.

(** ** Witnesses *)

Section Witnesses.

Import Wire Mem.

Definition w_encode (dst src : bytes) (ty : Z) (payload : bytes) : option bytes :=
  Some (dst ++ src ++ be16 ty ++ payload).

Definition w_datagram (mt : Z) : Packet := lab_packet lab_hw lab_xid [(OptionDHCPMessageType, [mt])].
Definition w_job (mt : Z) (src : IP) : job := mkJob (w_datagram mt) mt (udp_addr src 68) [].
Definition w_reads : list read :=
  [ReadOk (w_datagram Discover) "0.0.0.0:68"; ReadOk [1; 2; 3] "0.0.0.0:68";
   ReadOk (w_datagram Request) "0.0.0.0:68"; ReadErr "closed"].

Lemma Serve_intake_witness :
  exists new, (Serve 1 w_reads []).1 = [] ++ new /\ (length (Serve 1 w_reads []).1 <= 1)%nat /\ Forall job_ok new.
Proof.
  destruct (Serve_intake 1 w_reads [] (Serve 1 w_reads []).1 (Serve 1 w_reads []).2)
    as (new & E & Hl & _ & Hok); [apply surjective_pairing | ].
  exists new. split; [exact E | split; [apply Hl; simpl; lia | exact Hok]].
Defined.

Definition w_reply : Answer := mkAnswer (Some (w_datagram ACK)) [192; 168; 1; 12] lab_hw [192; 168; 1; 1].

(** The client of the laboratory, without an address yet, asks for the one it was
    offered. *)
Definition w_request_world : world :=
  mkWorld [mkNetwork (mkIPNet [192; 168; 1; 0] [255; 255; 255; 0]) (lab_leased 2 (lab_t + 5 * Second))]
    (New 0 0) (New 0 0) (New 0 0) (New 0 0) w_store [].
Definition w_request_job : job := mkJob w_ask Request (udp_addr [0; 0; 0; 0] 68) [].
Definition w_acked := ServeDHCP lab_key (lab_env lab_t) 1 lab_if w_ask Request [] w_request_world.

Lemma w_acked_ok :
  match w_acked with Some (a, _) => match ans_D a with Some _ => true | None => false end | None => false end = true.
Proof. vm_compute. reflexivity. Qed.

Lemma server_reply_route_witness :
  exists frame w', doWork true true w_encode lab_key (lab_env lab_t) 1 lab_if w_request_job w_request_world
    = Some ([RawFrame frame lab_hw], w').
Proof.
  pose proof w_acked_ok as Hok. destruct w_acked as [[a w']|] eqn:E; [ | discriminate Hok].
  destruct (ans_D a) as [d|] eqn:Hd; [ | discriminate Hok].
  destruct (server_reply_route true true w_encode lab_key (lab_env lab_t) 1 lab_if w_request_job w_request_world
    a w' d [0; 0; 0; 0] 68) as (sends & H1 & _ & _ & H2);
    [reflexivity | exact E | exact Hd | reflexivity | reflexivity | reflexivity | apply lab_bytes; reflexivity
    | lia | reflexivity | ].
  eexists. exists w'. rewrite H1. f_equal. f_equal.
  exact (proj1 (H2 eq_refl eq_refl eq_refl _ eq_refl)).
Defined.

Definition w_relay : Interface := mkInterface "eth1" [10; 0; 0; 1] "relay" [10; 0; 9; 9] [2; 0; 0; 0; 0; 2].
Definition w_empty : world := mkWorld [] (New 0 0) (New 0 0) (New 0 0) (New 0 0) w_store [].

Lemma relay_never_sends_witness :
  doWork true true w_encode lab_key (lab_env lab_t) 1 w_relay (w_job NAK [10; 0; 9; 9]) w_empty
  = Some ([], w_empty).
Proof.
  destruct (relay_never_sends true true w_encode lab_key (lab_env lab_t) 1 w_relay (w_job NAK [10; 0; 9; 9]) w_empty)
    as (ans & d & _ & _ & H); [reflexivity | by left | exact H].
Defined.

Lemma relay_upstream_witness :
  exists target, copy4 target = [10; 0; 9; 9] /\
    send_answer true true w_encode w_relay (w_job Discover [0; 0; 0; 0]) w_reply =
      [Unicast (build_packet (w_datagram ACK) target (Ipv4 w_relay) bootp_client bootp_server)
         (copy4 target) bootp_server].
Proof.
  exists (if bool_decide (GIAddr (DHCPpacket (w_job Discover [0; 0; 0; 0])) = [0; 0; 0; 0])
          then relayIP w_relay else GIAddr (DHCPpacket (w_job Discover [0; 0; 0; 0]))).
  split; [vm_compute; reflexivity | ].
  apply (relay_upstream true true w_encode w_relay (w_job Discover [0; 0; 0; 0]) w_reply (w_datagram ACK));
    [reflexivity | reflexivity | reflexivity | by left | discriminate | reflexivity].
Defined.

End Witnesses.
