(* ===== verification/Relay.v ===== *)
(** * Packets through a relay: src/interface.go, src/workers_pool.go

    What a relay sends for the packets it gets, field by field and with their
    options, and an exchange in which a client, a relay and a server take part. *)

From S2P Require Import Prelude GoStd GoNet Pool RawClient GoCache Dhcp4 Packets Database Utils Handler Interface.
From S2P Require Import Scope Lab Discover Request System Server.

Section Relay.

Context {CZ : GoCache Z} {LZ : GoCacheLaws Z} {CS : GoCache string} {LS : GoCacheLaws string}
  {SQL : SqlDB} {JSON : JSONCodec}.
Context {D4 : Dhcp4} {PF : PacketFields} {LD : Dhcp4Laws} {LP : PacketLaws}.

(** What a relay sends to its server. *)
Definition upstream (ifc : Interface) (msgType : Z) (p : Packet) : header :=
  if msgType =? Discover then
    mkHeader BootRequest (XId p) zero2 zero2 zero4 zero4 zero4 (To4 (Ipv4 ifc)) (CHAddr p) []
  else mkHeader BootRequest (XId p) zero2 zero2 (CIAddr p) zero4 (SIAddr p) (To4 (Ipv4 ifc)) (CHAddr p) (File p).

(** What it sends to its clients. *)
Definition downstream (p : Packet) : header :=
  mkHeader BootReply (XId p) (Secs p) (Flags p) zero4 (YIAddr p) (SIAddr p) (GIAddr p) (CHAddr p) (File p).

(** A packet with these fields and the options of another. *)
Definition carries (h : header) (p d : Packet) : Prop := header_of d = h /\ ParseOptions d = ParseOptions p.

(** ** Building a packet *)

(** [stage q h]: [q] has the fields [h] and no option yet. *)
Definition stage (q : Packet) (h : header) : Prop := grown q /\ header_of q = h /\ ParseOptions q = ∅.

Lemma stage_new op :
  stage (NewPacket op) (mkHeader op zero4 zero2 zero2 zero4 zero4 zero4 zero4 (CHAddr (NewPacket op)) []).
Proof. destruct (NewPacket_spec op) as (G & O & H). by split. Qed.

Lemma stage_step f q q' h : (grown q -> updated f q q') -> stage q h -> stage q' (f h).
Proof. intros Hf (G & <- & O). destruct (Hf G) as (G' & E & O'). split; [done | split; [done | congruence]]. Qed.

Lemma add_options_all l q :
  grown q -> Forall (fun kv => option_ok kv.1 kv.2) l -> NoDup l.*1 ->
  let q' := foldl (fun q kv => AddOption kv.1 kv.2 q) q l in
  header_of q' = header_of q /\ ParseOptions q' = list_to_map l ∪ ParseOptions q.
Proof.
  revert q. induction l as [|[k v] l IH]; intros q Hq Hl Hn.
  { split; [done | ]. cbn [foldl]. by rewrite list_to_map_nil, (left_id_L ∅ (∪)). }
  apply Forall_cons in Hl as [Hk Hl]. apply NoDup_cons in Hn as [Hin Hn]. cbn [foldl fst snd] in *.
  destruct (AddOption_spec q k v Hq Hk) as (G & H & O).
  destruct (IH (AddOption k v q) G Hl Hn) as [IH1 IH2]. split; [by rewrite IH1 | ].
  rewrite IH2, O. rewrite list_to_map_cons, <- insert_union_l, <- insert_union_r; [done | ].
  by apply not_elem_of_list_to_map_1.
Qed.

Lemma copy_options_carries e p q h :
  packet_ok p -> (forall o, range_options e o ≡ₚ map_to_list o) -> stage q h -> carries h p (copy_options e p q).
Proof.
  intros Hp He (G & <- & O). unfold copy_options.
  assert (Hl : Forall (fun kv => option_ok kv.1 kv.2) (range_options e (ParseOptions p))).
  { rewrite He. apply Forall_forall. intros [k v] Hkv%elem_of_map_to_list. by apply (ParseOptions_ok p). }
  assert (Hn : NoDup (range_options e (ParseOptions p)).*1) by (rewrite He; apply NoDup_fst_map_to_list).
  destruct (add_options_all _ q G Hl Hn) as [H1 H2]. split; [done | ].
  rewrite H2, O, (right_id_L ∅ (∪)). rewrite (list_to_map_proper _ _ Hn (He _)). apply list_to_map_to_list.
Qed.

(** The fields a relay copies have the length of theirs. *)
Lemma To4_getter (g : Packet -> IP) p :
  (forall p, packet_ok p -> length (g p) = 4%nat) -> packet_ok p -> To4 (g p) = g p /\ length (To4 (g p)) = 4%nat.
Proof. intros Hg Hp. rewrite To4_v4 by auto. auto. Qed.

(** The next setter of the packet that [S] is about. *)
Tactic Notation "next" hyp(S) uconstr(law) :=
  apply (stage_step _ _ _ _ law) in S;
  cbn [hd_op hd_xid hd_secs hd_flags hd_ci hd_yi hd_si hd_gi hd_ch hd_file] in S.

Lemma relay_discover_carries e ifc p :
  packet_ok p -> length (To4 (Ipv4 ifc)) = 4%nat -> (forall o, range_options e o ≡ₚ map_to_list o) ->
  carries (upstream ifc Discover p) p (relay_discover e ifc p).
Proof.
  intros Hp Hi He. apply copy_options_carries; [done | done | ].
  pose proof (stage_new BootRequest) as S.
  next S (fun G => SetCHAddr_spec _ _ G (CHAddr_length p Hp)).
  next S (fun G => SetGIAddr_spec _ _ G Hi).
  next S (fun G => SetXId_spec _ _ G (XId_length p Hp)).
  next S (fun G => SetBroadcast_false _ G). exact S.
Qed.

Lemma relay_request_carries e ifc msgType p :
  packet_ok p -> length (To4 (Ipv4 ifc)) = 4%nat -> (forall o, range_options e o ≡ₚ map_to_list o) ->
  (msgType =? Discover) = false -> carries (upstream ifc msgType p) p (relay_request e ifc p).
Proof.
  intros Hp Hi He Hm. unfold upstream. rewrite Hm. apply copy_options_carries; [done | done | ].
  destruct (To4_getter CIAddr p CIAddr_length Hp) as [Ec Hc]. destruct (To4_getter SIAddr p SIAddr_length Hp) as [Es Hs].
  destruct (File_text p Hp) as [Hf Hf0].
  pose proof (stage_new BootRequest) as S.
  next S (fun G => SetCHAddr_spec _ _ G (CHAddr_length p Hp)).
  next S (fun G => SetFile_spec _ _ G Hf Hf0).
  next S (fun G => SetCIAddr_spec _ _ G Hc).
  next S (fun G => SetSIAddr_spec _ _ G Hs).
  next S (fun G => SetGIAddr_spec _ _ G Hi).
  next S (fun G => SetXId_spec _ _ G (XId_length p Hp)).
  next S (fun G => SetBroadcast_false _ G).
  rewrite Ec, Es in S. exact S.
Qed.

(** The two orders in which the setters are called for a reply. *)
Lemma relay_reply_carries e p q :
  packet_ok p -> (forall o, range_options e o ≡ₚ map_to_list o) ->
  q = relay_offer e p \/ q = relay_ack e p -> carries (downstream p) p q.
Proof.
  intros Hp He Hq. destruct (To4_getter YIAddr p YIAddr_length Hp) as [Ey Hy].
  destruct (To4_getter SIAddr p SIAddr_length Hp) as [Es Hs]. destruct (To4_getter GIAddr p GIAddr_length Hp) as [Eg Hg].
  destruct (File_text p Hp) as [Hf Hf0]. pose proof (stage_new BootReply) as S.
  next S (fun G => SetXId_spec _ _ G (XId_length p Hp)).
  next S (fun G => SetFile_spec _ _ G Hf Hf0).
  next S (fun G => SetFlags_spec _ _ G (Flags_length p Hp)).
  destruct Hq as [-> | ->]; (apply copy_options_carries; [done | done | ]).
  - next S (fun G => SetYIAddr_spec _ _ G Hy).
    next S (fun G => SetGIAddr_spec _ _ G Hg).
    next S (fun G => SetSIAddr_spec _ _ G Hs).
    next S (fun G => SetCHAddr_spec _ _ G (CHAddr_length p Hp)).
    next S (fun G => SetSecs_spec _ _ G (Secs_length p Hp)).
    rewrite Ey, Es, Eg in S. exact S.
  - next S (fun G => SetSIAddr_spec _ _ G Hs).
    next S (fun G => SetYIAddr_spec _ _ G Hy).
    next S (fun G => SetGIAddr_spec _ _ G Hg).
    next S (fun G => SetCHAddr_spec _ _ G (CHAddr_length p Hp)).
    next S (fun G => SetSecs_spec _ _ G (Secs_length p Hp)).
    rewrite Ey, Es, Eg in S. exact S.
Qed.

(** ** The server's side *)

Context (ByteToString : bytes -> string).

(** An answer of the server, given with the scope in state [c]: a reply to the
    packet that names the scope's server and, unless it refuses, an address
    counted from the start of the scope. *)
Definition replies (p : Packet) (c : ctx) (a : Answer) : Prop := forall d, ans_D a = Some d ->
  exists mt yi lease opts, d = ReplyPacket p mt (To4 (h_ip (hdl c))) yi lease opts /\
    (mt = NAK \/ yi = ans_IP a /\ exists x, IPAdd (h_start (hdl c)) x = Ret yi).

Lemma replies_none p c a : ans_D a = None -> replies p c a.
Proof. intros H d. by rewrite H. Qed.

Lemma replies_nak p c a : replies p c (with_D (nak p c) a).
Proof. intros d [= <-]. do 4 eexists. split; [reflexivity | by left]. Qed.

Lemma reply_packet_replies e p mt c c' networkIP ip d a :
  reply_packet e p mt c networkIP ip = (c', Ret d) -> ans_IP a = ip ->
  (exists x, IPAdd (h_start (hdl c)) x = Ret ip) -> hdl c' = hdl c /\ replies p c (with_D d a).
Proof.
  unfold reply_packet. destruct (buildReplyOptions _ _ _ _ _ _) as [st [o|]]; intros [= <- <-] Hip Hx.
  split; [done | ]. intros d' [= <-]. do 4 eexists. split; [reflexivity | right]. split; [done | ].
  by destruct Hx as [x Hx]; exists x.
Qed.

(** Only the address and the start of a scope matter. *)
Lemma replies_scope p c c' a :
  h_ip (hdl c') = h_ip (hdl c) -> h_start (hdl c') = h_start (hdl c) -> replies p c a -> replies p c' a.
Proof. intros E1 E2 H d Hd. rewrite E1, E2. by apply H. Qed.

Lemma discover_replies e ifc net srvIP p fuel networkIP answer c a c' :
  ans_D answer = None -> serve_discover ByteToString e ifc net srvIP p fuel networkIP answer c = Some (a, c') ->
  replies p c' a.
Proof.
  intros Ha. unfold serve_discover. destruct (find_address _ _ _ _ _ _) as [c1|c1|c1 free|].
  - intros [= <- _]. by apply replies_none.
  - intros [= <- _]. by apply replies_none.
  - destruct (IPAdd _ free) as [ip|] eqn:I; [ | intros [= <- _]; by apply replies_none].
    destruct (reply_packet _ _ _ _ _ _) as [c2 [d|]] eqn:E; intros [= <- <-]; [ | by apply replies_none].
    destruct (reply_packet_replies _ _ _ _ _ _ _ _ (with_IP ip answer) E eq_refl (ex_intro _ free I)) as [Eh H].
    apply (replies_scope p c1); [by rewrite Eh | by rewrite Eh | exact H].
  - done.
Qed.

(** A verdict that ends the handler carries no packet. *)
Lemma verdict_silent e net p msgType answer c c' a :
  ans_D answer = None -> request_verdict ByteToString e net p msgType answer c = VReturn c' a -> ans_D a = None.
Proof. by intros Ha [-> | ->]%verdict_return. Qed.

Lemma request_replies e net p msgType networkIP answer c :
  ans_D answer = None -> mac_of p <> FreeMac -> packet_ok p -> scope_ok (hdl c) ->
  replies p (serve_request ByteToString e net p msgType networkIP answer c).2
    (serve_request ByteToString e net p msgType networkIP answer c).1.
Proof.
  intros Ha Hm Hp Hs. unfold serve_request. destruct (foreign_server p c); [by apply replies_none | ].
  destruct ((length (reqIP p) =? 4)%nat && _) eqn:L; [ | apply replies_nak].
  apply andb_prop in L as [L%Nat.eqb_eq _].
  pose proof (request_verdict_spec ByteToString e net p Hm Hp msgType (with_IP (reqIP p) answer) c Hs L) as Hv.
  destruct (request_verdict _ _ _ _ _ _ _) as [c1 Index|c1|c1 a] eqn:E.
  - destruct Hv as (_ & Hx & Hc1). assert (Eh : hdl c1 = hdl c) by (case_match; by destruct_and? Hc1; subst c1).
    destruct (reply_packet _ _ _ _ _ _) as [c2 [d|]] eqn:Er; [ | by apply replies_none].
    destruct (reply_packet_replies _ _ _ _ _ _ _ _ (with_IP (reqIP p) answer) Er eq_refl) as [E2 H];
      [exists Index; by rewrite Eh | ].
    apply (replies_scope p c1); [simpl; by rewrite E2 | simpl; by rewrite E2 | exact H].
  - apply replies_nak.
  - apply replies_none. by eapply verdict_silent; [ | exact E].
Qed.

Lemma message_replies e fuel ifc i p msgType srvIP networkIP answer c a c' :
  ans_D answer = None -> client_ok e p -> scope_ok (hdl c) ->
  serve_message ByteToString e fuel ifc i p msgType srvIP networkIP answer c = Some (a, c') -> replies p c' a.
Proof.
  intros Ha (_ & Hm & Hp) Hs. unfold serve_message. destruct (msgType =? Discover); [by apply discover_replies | ].
  destruct (_ || _).
  { pose proof (request_replies e i p msgType networkIP answer c Ha Hm Hp Hs) as H.
    destruct (serve_request _ _ _ _ _ _ _ _) as [a1 c1]. by intros [= <- <-]. }
  unfold serve_release, serve_decline. pose proof (give_back_same e i p answer c) as H.
  destruct (give_back e i p answer c) as [a1 c1]. simpl in H. subst a1.
  destruct (msgType =? Release); [intros [= <- <-]; by apply replies_none | ].
  destruct (msgType =? Decline); [intros [= <- <-]; by apply replies_none | ].
  intros [= <- <-]. apply replies_nak.
Qed.

(** The scope of a packet that came through a relay and has no address yet. *)
Lemma select_relayed p nets i j v :
  IP_Equal (GIAddr p) IPv4zero = false ->
  (forall n, n ∈ nets -> Contains (network n) (CIAddr p) = false) ->
  select_network p nets i = Some (j, v) -> v ∈ nets /\ Contains (network v) (GIAddr p) = true.
Proof.
  intros Hg. revert i. induction nets as [|n nets IH]; intros i Hc; cbn [select_network]; [done | ].
  rewrite Hg, (Hc n) by left. rewrite andb_false_r, !andb_false_l, orb_false_r. cbn [negb andb].
  destruct (Contains (network n) (GIAddr p)) eqn:E; [intros [= <- <-]; split; [left | done] | ].
  intros H. destruct (IH (S i)) as [Hv Hn]; [ | done | split; [by right | done]].
  intros n' Hn'. apply Hc. by right.
Qed.

(** Which scope answers, and what with. *)
Lemma ServeDHCP_replies e fuel ifc p msgType srvIP w a w' d :
  isRelay ifc = false -> client_ok e p -> world_ok w ->
  ServeDHCP ByteToString e fuel ifc p msgType srvIP w = Some (a, w') -> ans_D a = Some d ->
  exists i v h', select_network p (networks w) 0 = Some (i, v) /\
    networks w' = <[i := mkNetwork (network v) h']> (networks w) /\
    exists mt yi lease opts, d = ReplyPacket p mt (To4 (h_ip (dhcpHandler v))) yi lease opts /\
      (mt = NAK \/ yi = ans_IP a /\ exists x, IPAdd (h_start (dhcpHandler v)) x = Ret yi).
Proof.
  intros Hr Hc [Hw _]. unfold ServeDHCP. rewrite Hr.
  destruct (select_network _ _ _) as [[i v]|] eqn:Sel; [ | by intros [= <- _]].
  destruct (select_network_lookup _ _ _ _ _ Sel) as [_ Hi]. rewrite Nat.sub_0_r in Hi.
  destruct (_ =? 0)%nat; [by intros [= <- _] | ]. destruct (Get _ _ _); [by intros [= <- _] | ].
  destruct (serve_message _ _ _ _ _ _ _ _ _ _ _) as [[a' c']|] eqn:E; [ | done]. intros [= <- <-] Hd.
  exists i, v, (hdl c'). split; [done | split; [done | ]].
  assert (Hs : scope_ok (dhcpHandler v)) by exact (Hw i v Hi).
  assert (Hrep : replies p c' a') by (eapply (message_replies e fuel ifc i p); [ | exact Hc | | exact E]; done).
  pose proof (serve_message_evolves ByteToString e fuel ifc i p msgType srvIP _ _
    (ctx_of _ (dhcpHandler v)) a' c' Hc Hs E) as Ev.
  destruct (ev_config _ _ _ _ Ev) as (E1 & _ & E2 & _).
  destruct (Hrep d Hd) as (mt & yi & lease & opts & H). rewrite E1, E2 in H. by exists mt, yi, lease, opts.
Qed.

(** ** Properties *)

Lemma serve_relay_forwards e ifc p msgType answer :
  packet_ok p -> length (To4 (Ipv4 ifc)) = 4%nat -> (forall o, range_options e o ≡ₚ map_to_list o) ->
  ans_D answer = None ->
  match ans_D (serve_relay e ifc p msgType answer) with
  | Some d =>
      (msgType ∈ [Discover; Request; Release; Decline] /\ carries (upstream ifc msgType p) p d) \/
      (msgType ∈ [Offer; ACK; NAK] /\ carries (downstream p) p d)
  | None => msgType ∉ [Discover; Offer; Request; Decline; ACK; NAK; Release]
  end.
Proof.
  intros Hp Hi He Ha. unfold serve_relay.
  destruct (Z.eqb_spec msgType Discover) as [->|H1].
  { left. split; [set_solver | by apply relay_discover_carries]. }
  assert (Hr : carries (upstream ifc msgType p) p (relay_request e ifc p))
    by (apply relay_request_carries; [done | done | done | by apply Z.eqb_neq]).
  destruct (Z.eqb_spec msgType Offer) as [->|H2].
  { right. split; [set_solver | apply (relay_reply_carries e); auto]. }
  destruct (Z.eqb_spec msgType Request) as [->|H3]; [left; split; [set_solver | done] | ].
  destruct (Z.eqb_spec msgType ACK) as [->|H4]; [right; split; [set_solver | apply (relay_reply_carries e); auto] | ].
  destruct (Z.eqb_spec msgType NAK) as [->|H5]; [right; split; [set_solver | apply (relay_reply_carries e); auto] | ].
  destruct (Z.eqb_spec msgType Release) as [->|H6]; [left; split; [set_solver | done] | ].
  destruct (Z.eqb_spec msgType Decline) as [->|H7]; [left; split; [set_solver | done] | ].
  cbn [orb]. rewrite Ha. set_solver.
Qed.

(** C27: an exchange through a relay.  A DISCOVER or REQUEST of a client (with a
    hardware address other than 00:00:00:00:00:00, and whose ciaddr as the relay
    passes it on lies in no network of the server, as for a client without an address)
    that a relay passed on and a well-formed server answers is served by a scope whose
    network contains the relay's address, and by no other: only that scope may change,
    the reply names its server and, unless it refuses, an address counted from its
    start.  What the relay then makes for the client of the OFFER or ACK has the
    client's transaction and hardware address, the address the server gave, the
    relay's own address as giaddr, and every option of the server. *)
Theorem relayed_exchange e1 f1 relay p mt srv1 w1 a1 d1 e2 f2 server srv2 w2 a2 w2' r e3 f3 rt srv3 w3 :
  isRelay relay = true -> packet_ok p -> length (To4 (Ipv4 relay)) = 4%nat -> To4 (Ipv4 relay) <> zero4 ->
  (forall o, range_options e1 o ≡ₚ map_to_list o) -> (forall o, range_options e3 o ≡ₚ map_to_list o) ->
  mt = Discover \/ mt = Request -> rt = Offer \/ rt = ACK ->
  ServeDHCP ByteToString e1 f1 relay p mt srv1 w1 = Some (a1, w1) -> ans_D a1 = Some d1 ->
  isRelay server = false -> client_ok e2 d1 -> world_ok w2 ->
  (forall n, n ∈ networks w2 -> Contains (network n) (CIAddr d1) = false) ->
  ServeDHCP ByteToString e2 f2 server d1 mt srv2 w2 = Some (a2, w2') -> ans_D a2 = Some r -> packet_ok r ->
  exists i v h' a3 d3,
    select_network d1 (networks w2) 0 = Some (i, v) /\ Contains (network v) (To4 (Ipv4 relay)) = true /\
    networks w2' = <[i := mkNetwork (network v) h']> (networks w2) /\
    ServeDHCP ByteToString e3 f3 relay r rt srv3 w3 = Some (a3, w3) /\ ans_D a3 = Some d3 /\
    XId d3 = XId p /\ CHAddr d3 = CHAddr p /\ GIAddr d3 = To4 (Ipv4 relay) /\
    ParseOptions d3 = ParseOptions r /\
    exists mt' yi lease opts, r = ReplyPacket d1 mt' (To4 (h_ip (dhcpHandler v))) yi lease opts /\
      (mt' = NAK \/ yi = ans_IP a2 /\ YIAddr d3 = addr4 yi /\ exists x, IPAdd (h_start (dhcpHandler v)) x = Ret yi).
Proof.
  intros Hr Hp Hi Hi0 He1 He3 Hmt Hrt Hs1 Hd1 Hsrv Hcl Hw2 Hnets Hs2 Hr2 Hokr.
  assert (Hok1 : packet_ok d1) by apply Hcl.
  assert (Hup : carries (upstream relay mt p) p d1).
  { unfold ServeDHCP in Hs1. rewrite Hr in Hs1. injection Hs1 as <-.
    pose proof (serve_relay_forwards e1 relay p mt (mkAnswer None [] (CHAddr p) (Ipv4 relay)) Hp Hi He1 eq_refl) as H.
    rewrite Hd1 in H. destruct H as [[_ H]|[H _]]; [done | ]. destruct Hmt as [-> | ->]; set_solver. }
  destruct Hup as [Hh1 _].
  assert (Hx1 : XId d1 = XId p /\ GIAddr d1 = To4 (Ipv4 relay) /\ CHAddr d1 = CHAddr p).
  { unfold upstream, header_of in Hh1. by destruct (mt =? Discover); injection Hh1. }
  destruct Hx1 as (Hx1 & Hg1 & Hc1).
  destruct (ServeDHCP_replies e2 f2 server d1 mt srv2 w2 a2 w2' r Hsrv Hcl Hw2 Hs2 Hr2)
    as (i & v & h' & Hsel & Hn & mt' & yi & lease & opts & Er & Hy).
  destruct (select_relayed d1 (networks w2) 0 i v) as [_ Hc]; [ | done | done | ].
  { rewrite Hg1. apply not_true_is_false. by intros ?%IPv4zero_Equal. }
  pose proof (serve_relay_forwards e3 relay r rt (mkAnswer None [] (CHAddr r) (Ipv4 relay)) Hokr Hi He3 eq_refl) as H.
  destruct (ans_D (serve_relay e3 relay r rt _)) as [d3|] eqn:Hd3;
    [ | destruct Hrt as [-> | ->]; set_solver].
  destruct H as [[H _]|[_ [Hh3 Ho3]]]; [destruct Hrt as [-> | ->]; set_solver | ].
  exists i, v, h'. eexists _, d3. do 2 (split; [congruence | ]). split; [done | ].
  unfold ServeDHCP. rewrite Hr. split; [done | split; [exact Hd3 | ]].
  pose proof (ReplyPacket_spec d1 mt' (To4 (h_ip (dhcpHandler v))) yi lease opts Hok1) as Hrh. rewrite <- Er in Hrh.
  unfold header_of, downstream in *. injection Hh3 as E1 E2 E3 E4 E5 E6 E7 E8 E9 E10.
  injection Hrh as F1 F2 F3 F4 F5 F6 F7 F8 F9 F10.
  split; [congruence | split; [congruence | split; [congruence | split; [done | ]]]].
  exists mt', yi, lease, opts. split; [done | ].
  destruct Hy as [-> | [-> Hx]]; [by left | right; split; [done | split; [congruence | done]]].
Qed.

(** Whether sockets can be opened, and the Ethernet encoder. *)
Context (socket_ok raw_ok : bool) (MarshalBinary : bytes -> bytes -> Z -> bytes -> option bytes).

Abbreviation doWork := (doWork socket_ok raw_ok MarshalBinary ByteToString).

(** C28: what a relay sends for each packet it gets, when it can open its sockets.  A
    DISCOVER or a REQUEST goes to the DHCP server the interface is configured for, or
    back to the relay agent a packet that was already relayed came through, as a
    datagram from port 68 to port 67, with the transaction, the hardware address and
    all options of the client, the relay's own address as giaddr and the broadcast
    flag cleared; a REQUEST also keeps ciaddr, siaddr and the boot file.  An OFFER or
    an ACK goes to the client's hardware address as a frame, with every field and
    every option of the server (its IP destination is siaddr for an OFFER and 0.0.0.0
    for an ACK).  Nothing is sent for any other message, NAK, RELEASE and DECLINE
    included, and the state of the server is never touched. *)
Theorem relay_forwards e fuel ifc element w :
  let p := DHCPpacket element in
  isRelay ifc = true -> packet_ok p -> length (To4 (Ipv4 ifc)) = 4%nat ->
  (forall o, range_options e o ≡ₚ map_to_list o) ->
  exists sends, doWork e fuel ifc element w = Some (sends, w) /\
  (msgType element ∈ [Discover; Request] -> socket_ok = true -> To4 (relayIP ifc) <> [] ->
     exists d, carries (upstream ifc (msgType element) p) p d /\
     let target := if bool_decide (GIAddr p = zero4) then relayIP ifc else GIAddr p in
     sends = [Unicast (build_packet d target (Ipv4 ifc) bootp_client bootp_server) (copy4 target) bootp_server]) /\
  (msgType element ∈ [Offer; ACK] -> raw_ok = true ->
     exists d, carries (downstream p) p d /\ forall fb,
       let dst := if msgType element =? Offer then SIAddr p else [] in
       MarshalBinary (CHAddr p) (hw_addr ifc) EtherTypeIPv4
         (build_packet d dst (Ipv4 ifc) bootp_server bootp_client) = Some fb ->
       sends = [RawFrame fb (CHAddr p)]) /\
  (msgType element ∉ [Discover; Offer; Request; ACK] -> sends = []).
Proof.
  intros p Hr Hp Hi He. set (ans0 := mkAnswer None [] (CHAddr p) (Ipv4 ifc)).
  assert (Hserve : ServeDHCP ByteToString e fuel ifc p (msgType element) (srvAddr element) w =
    Some (serve_relay e ifc p (msgType element) ans0, w)) by (unfold ServeDHCP; by rewrite Hr).
  pose proof (serve_relay_forwards e ifc p (msgType element) ans0 Hp Hi He eq_refl) as Hf.
  exists (send_answer socket_ok raw_ok MarshalBinary ifc element (serve_relay e ifc p (msgType element) ans0)).
  split; [unfold Server.doWork; fold p; by rewrite Hserve | split; [ | split]].
  - intros Hm Hsock Hrel. assert (Hc : msgType element = Discover \/ msgType element = Request) by set_solver.
    destruct (ans_D (serve_relay e ifc p (msgType element) ans0)) as [d|] eqn:Hd; [ | set_solver].
    exists d. split; [ | by apply relay_upstream; try done; apply GIAddr_length].
    destruct Hf as [[_ Hf]|[Hf _]]; [done | ]. destruct Hc as [Hc | Hc]; rewrite Hc in Hf; set_solver.
  - intros Hm Hraw. assert (Hc : msgType element = Offer \/ msgType element = ACK) by set_solver.
    destruct (ans_D (serve_relay e ifc p (msgType element) ans0)) as [d|] eqn:Hd; [ | set_solver].
    exists d. split.
    { destruct Hf as [[Hf _]|[_ Hf]]; [ | done]. destruct Hc as [Hc | Hc]; rewrite Hc in Hf; set_solver. }
    intros fb dst Hb. unfold send_answer. rewrite Hd, Hr.
    assert (Hans : ans_MAC (serve_relay e ifc p (msgType element) ans0) = CHAddr p /\
                   ans_IP (serve_relay e ifc p (msgType element) ans0) = dst).
    { unfold dst, serve_relay. by destruct Hc as [-> | ->]. }
    destruct Hans as [E1 E2]. rewrite <- E1, <- E2 in Hb.
    pose proof (send_raw_frame raw_ok MarshalBinary ifc _ d fb Hraw Hb) as Hs. rewrite E1 in Hs.
    destruct Hc as [Hc | Hc]; rewrite Hc in *; exact Hs.
  - intros Hm. unfold send_answer. destruct (ans_D _) as [d|]; [ | done]. rewrite Hr.
    rewrite !(proj2 (Z.eqb_neq _ _)) by set_solver. done.
Qed.

End Relay.

(** ** Witnesses *)

Section Witnesses.

Import Wire WireFields Mem.

Definition w_agent : Interface := mkInterface "eth1" [192; 168; 1; 2] "relay" [192; 168; 1; 1] [2; 0; 0; 0; 0; 2].

(** A DISCOVER with the broadcast flag and an option. *)
Definition w_client : Packet :=
  SetFlags [128; 0] (lab_packet lab_hw lab_xid [(OptionDHCPMessageType, [Discover]); (OptionHostName, [104; 49])]).

Definition w_networks : world :=
  mkWorld [mkNetwork (mkIPNet [192; 168; 1; 0] [255; 255; 255; 0]) (lab_scope lab_pool ∅)]
    (New 0 0) (New 0 0) (New 0 0) (New 0 0) w_store [].

Definition packet_okb (p : Packet) : bool :=
  (240 <=? length p)%nat && forallb (fun b => (0 <=? b) && (b <? 256)) p.

Lemma packet_okb_ok p : packet_okb p = true -> packet_ok p.
Proof. intros [Hl Hb]%andb_prop. split; [by apply Nat.leb_le | by apply lab_bytes]. Qed.

Definition w_forwarded : Packet := relay_discover (lab_env lab_t) w_agent w_client.

Lemma w_client_ok : packet_ok w_client /\ packet_ok w_forwarded.
Proof. split; apply packet_okb_ok; vm_compute; reflexivity. Qed.

Lemma lab_order t o : range_options (lab_env t) o ≡ₚ map_to_list o.
Proof. reflexivity. Qed.

Definition w_relayed : job := mkJob w_client Discover "0.0.0.0:68" [].

Lemma relay_forwards_witness :
  exists d, doWork true true w_encode lab_key (lab_env lab_t) 0 w_agent w_relayed w_networks =
      Some ([Unicast (build_packet d [192; 168; 1; 1] [192; 168; 1; 2] 68 67) [192; 168; 1; 1] 67], w_networks) /\
    GIAddr d = [192; 168; 1; 2] /\ Flags d = [0; 0] /\ ParseOptions d !! OptionHostName = Some [104; 49].
Proof.
  destruct (relay_forwards lab_key true true w_encode (lab_env lab_t) 0 w_agent w_relayed w_networks eq_refl
    (proj1 w_client_ok) eq_refl (lab_order lab_t)) as (sends & Hs & H & _).
  destruct H as (d & [Hh Ho] & ->); [left | reflexivity | discriminate | ].
  exists d. split; [exact Hs | ]. rewrite Ho.
  split; [exact (f_equal hd_gi Hh) | split; [exact (f_equal hd_flags Hh) | vm_compute; reflexivity]].
Defined.

Definition w_offered := ServeDHCP lab_key (lab_env lab_t) 2 lab_if w_forwarded Discover [] w_networks.

Lemma w_offered_ok :
  match w_offered with Some (a, _) => match ans_D a with Some r => packet_okb r | None => false end | None => false end
    = true.
Proof. vm_compute. reflexivity. Qed.

Lemma w_networks_ok : world_ok w_networks.
Proof. split; [ | apply Forall_nil_2]. intros [|n] v Hn; [ | done]. injection Hn as <-. apply lab_fresh_ok. Qed.

Lemma w_forwarded_client : client_ok (lab_env lab_t) w_forwarded.
Proof.
  split; [intros k; apply fixed_choice_ok | split; [ | apply w_client_ok]].
  apply lab_client. vm_compute. reflexivity.
Qed.

Lemma relayed_exchange_witness :
  exists r a3 d3, ServeDHCP lab_key (lab_env lab_t) 0 w_agent r Offer [] w_networks = Some (a3, w_networks) /\
    ans_D a3 = Some d3 /\ XId d3 = lab_xid /\ CHAddr d3 = lab_hw /\ GIAddr d3 = [192; 168; 1; 2].
Proof.
  pose proof w_offered_ok as Hok. destruct w_offered as [[a2 w2']|] eqn:E2; [ | discriminate Hok].
  destruct (ans_D a2) as [r|] eqn:Er; [ | discriminate Hok].
  destruct (relayed_exchange lab_key (lab_env lab_t) 0 w_agent w_client Discover [] w_networks
    (with_D w_forwarded (mkAnswer None [] (CHAddr w_client) (Ipv4 w_agent))) w_forwarded
    (lab_env lab_t) 2 lab_if [] w_networks a2 w2' r (lab_env lab_t) 0 Offer [] w_networks)
    as (i & v & h' & a3 & d3 & _ & _ & _ & H1 & H2 & H3 & H4 & H5 & _);
    [reflexivity | apply w_client_ok | reflexivity | discriminate | apply lab_order | apply lab_order
    | by left | by left | reflexivity | reflexivity | reflexivity | apply w_forwarded_client | apply w_networks_ok
    | | exact E2 | exact Er | by apply packet_okb_ok | ].
  - intros n Hn. apply list_elem_of_singleton in Hn as ->. vm_compute. reflexivity.
  - exists r, a3, d3. split; [exact H1 | split; [exact H2 | ]].
    split; [rewrite H3; vm_compute; reflexivity | split; [rewrite H4; vm_compute; reflexivity | exact H5]].
Defined.

End Witnesses.
