(* ===== verification/Config.v ===== *)
(** * Reading the configuration: src/config.go

    [AssignIP] with its regular expression, and [readConfig], which builds the
    interfaces and their scopes.  The INI file, the network interfaces of the
    host, the clock and the random generator are parameters. *)

From S2P Require Import Prelude GoStd GoNet Pool GoCache Dhcp4 Database Utils Handler Interface.
From S2P Require Import Scope Lab Discover Request System Server.
From Stdlib Require Import Ascii.

(** ** The regular expression of [AssignIP]

    [((?:[0-9A-Fa-f]{2}:){5}[0-9A-Fa-f]{2}):((?:[0-9]{1,3}.){3}(?:[0-9]{1,3}))]:
    a search for the leftmost match, greedy with backtracking. *)

Definition is_hex (c : ascii) : bool := match hex_val c with Some _ => true | None => false end.

(** Exactly [n] digits. *)
Fixpoint take_digits (n : nat) (s : string) : option (string * string) :=
  match n, s with
  | O, _ => Some (EmptyString, s)
  | S n, String c r =>
      if is_digit c then
        match take_digits n r with Some (d, r) => Some (String c d, r) | None => None end
      else None
  | S _, EmptyString => None
  end.

(** How many bytes the first character of a text takes, as UTF-8. *)
Definition rune_width (b : bytes) : nat :=
  let cont z := (128 <=? z) && (z <=? 191) in
  match b with
  | b0 :: b1 :: r =>
      if (194 <=? b0) && (b0 <=? 223) && cont b1 then 2%nat
      else match r with
           | b2 :: r =>
               let lo := if b0 =? 224 then 160 else if b0 =? 240 then 144 else 128 in
               let hi := if b0 =? 237 then 159 else if b0 =? 244 then 143 else 191 in
               let ok1 := (lo <=? b1) && (b1 <=? hi) in
               if (224 <=? b0) && (b0 <=? 239) && ok1 && cont b2 then 3%nat
               else match r with
                    | b3 :: _ => if (240 <=? b0) && (b0 <=? 244) && ok1 && cont b2 && cont b3 then 4%nat else 1%nat
                    | [] => 1%nat
                    end
           | [] => 1%nat
           end
  | _ => 1%nat
  end.

Fixpoint split_at (n : nat) (s : string) : string * string :=
  match n, s with
  | S n, String c r => let '(a, b) := split_at n r in (String c a, b)
  | _, _ => (EmptyString, s)
  end.

(** [.], any character but a newline. *)
Definition any_rune (s : string) : option (string * string) :=
  match s with
  | EmptyString => None
  | String c _ => if code c =? 10 then None else Some (split_at (rune_width (bytes_of_string s)) s)
  end.

(** [k] groups of digits and a character, then the last digits. *)
Fixpoint match_ip (k : nat) (s : string) : option string :=
  let attempt n :=
    match take_digits n s with
    | None => None
    | Some (d, r) =>
        match k with
        | O => Some d
        | S k =>
            match any_rune r with
            | None => None
            | Some (c, r) => match match_ip k r with Some t => Some (d +s+ c +s+ t)%string | None => None end
            end
        end
    end in
  match attempt 3%nat with
  | Some x => Some x
  | None => match attempt 2%nat with Some x => Some x | None => attempt 1%nat end
  end.

(** [k] pairs of hexadecimal digits, each followed by a colon. *)
Fixpoint match_pairs (k : nat) (s : string) : option (string * string) :=
  match k, s with
  | O, _ => Some (EmptyString, s)
  | S k, String a (String b (String ":" r)) =>
      if is_hex a && is_hex b then
        match match_pairs k r with
        | Some (m, r) => Some (String a (String b (String ":" m)), r)
        | None => None
        end
      else None
  | _, _ => None
  end.

(** A match at the beginning of [s]: both groups. *)
Definition match_assign (s : string) : option (string * string) :=
  match match_pairs 5 s with
  | Some (m, String a (String b (String ":" r))) =>
      if is_hex a && is_hex b then
        match match_ip 3 r with
        | Some ip => Some (m +s+ String a (String b EmptyString), ip)%string
        | None => None
        end
      else None
  | _ => None
  end.

Fixpoint find_assign (s : string) : option (string * string) :=
  match match_assign s with
  | Some x => Some x
  | None => match s with EmptyString => None | String _ r => find_assign r end
  end.

(** ** AssignIP *)

(** The loop over the entries: the assignments, the addresses and the pool. *)
Fixpoint assign_loop (start : IP) (ipRangeArray : list string) (couple : gmap string Z)
    (iplist : list IP) (available : DHCPPool) : exec (gmap string Z * list IP * DHCPPool) :=
  match ipRangeArray with
  | [] => Ret (couple, iplist, available)
  | rangeip :: rest =>
      match find_assign rangeip with
      | None => assign_loop start rest couple iplist available
      | Some (m, ip) =>
          exec_bind (Uint32 (To4 (ParseIP ip))) (fun a =>
          exec_bind (Uint32 (To4 start)) (fun b =>
            let position := u32 (a - b) in
            assign_loop start rest (<[m := position]> couple) (iplist ++ [ParseIP ip])
              (ReserveIPIndex available (safeUint32ToUint64 position) m).1))
      end
  end.

Definition AssignIP (start : IP) (available : DHCPPool) (ipRange : string)
    : exec (gmap string Z * list IP * DHCPPool) :=
  if String.eqb ipRange EmptyString then Ret (∅, [], available)
  else assign_loop start (Split ipRange ",") ∅ [] available.

(** ** readConfig *)

(** An interface of the host. *)
Record NetInterface := mkNetInterface {
  ni_name : string;
  ni_addrs : list string;
  ni_hw : HardwareAddr
}.

Section ReadConfig.

Context {CZ : GoCache Z} {D4 : Dhcp4}.

(** The INI file: section names, and the value of a key, empty when absent. *)
Context (SectionStrings : list string) (Key : string -> string -> string).
Context (InterfaceByName : string -> option NetInterface).
Context (clock : Z -> Z) (rnd : Z -> nat -> Z -> Z) (time_now : Z) (Inc : IP -> IP) (fuel : nat).

(** One entry of [intsNet]: the interface with the fields only the listeners
    read, and its networks. *)
Record IntNet := mkIntNet {
  in_if : Interface;
  in_Ipv6 : IP;
  in_layer2 : list (option IPNet);
  in_listenPort : Z;
  in_network : list Network
}.

(** The regular expression for section names: [network], a space, and the rest
    of the line. *)
Definition network_name (key : string) : option string :=
  match strip_prefix (bytes_of_string "network ") (bytes_of_string key) with
  | Some rest => if has_char (char 10) (string_of_bytes rest) then None else Some (string_of_bytes rest)
  | None => None
  end.

Definition scope_options (sec : string -> string) : Options :=
  <[OptionDomainName := bytes_of_string (sec "domain-name"%string)]>
  (<[OptionRouter := ShuffleGateway (sec "gateway"%string)]>
  (<[OptionDomainNameServer := ShuffleDNS rnd time_now (sec "dns"%string)]>
  (<[OptionSubnetMask := To4 (ParseIP (sec "netmask"%string))]> ∅))).

(** A scope, once its range is known to be sound.  The outer option is the fuel
    of [ExcludeIP]. *)
Definition new_scope (ip : IP) (sec : string -> string) (dhcpStart dhcpEnd : IP)
    : option (exec DHCPHandler) :=
  match IPRange dhcpStart dhcpEnd with
  | Panic => Some Panic
  | Ret n =>
      let leaseDuration := i64 (Atoi (sec "dhcp_default_lease_time"%string) * Second) in
      let available := NewDHCPPool clock (safeIntToUint64 n) (Atoi (sec "algorithm"%string)) in
      let hwcache := New leaseDuration (10 * Second) in
      let xid := New (4 * Second) (2 * Second) in
      match ExcludeIP Inc fuel dhcpStart available (sec "ip_reserved"%string) with
      | None => None
      | Some r =>
          Some (exec_bind r (fun available =>
            exec_bind (AssignIP dhcpStart available (sec "ip_assigned"%string)) (fun '(couple, _, available) =>
              Ret (mkHandler (To4 ip) [] (scope_options sec) dhcpStart n leaseDuration hwcache xid
                     available true "none" (sec "ip_reserved"%string) couple))))
      end
  end.

(** The body of the loop over the sections, for one address of an interface. *)
Definition read_section (ip : IP) (NetIP : IPNet) (key : string) : option (exec (list Network)) :=
  match network_name key with
  | None => Some (Ret [])
  | Some name =>
      let sec := Key key in
      if String.eqb (sec "dhcpd"%string) "disabled" then Some (Ret [])
      else
        let dhcpStart := ParseIP (sec "dhcp_start"%string) in
        let dhcpEnd := ParseIP (sec "dhcp_end"%string) in
        if (Contains NetIP dhcpStart && Contains NetIP dhcpEnd)
           || Contains NetIP (ParseIP (sec "next_hop"%string)) then
          match Uint32 (To4 dhcpStart), Uint32 (To4 dhcpEnd) with
          | Ret a, Ret b =>
              if b <? a then Some (Ret [])
              else
                match new_scope ip sec dhcpStart dhcpEnd with
                | None => None
                | Some r =>
                    Some (exec_bind r (fun h =>
                      Ret [mkNetwork (mkIPNet (ParseIP name) (ParseIP (sec "netmask"%string))) h]))
                end
          | _, _ => Some (Ret [])
          end
        else Some (Ret [])
  end.

(** Sequencing in the monad of fuel and panics. *)
Definition run_bind {A B : Type} (m : option (exec A)) (k : A -> option (exec B)) : option (exec B) :=
  match m with None => None | Some Panic => Some Panic | Some (Ret a) => k a end.

Fixpoint read_sections (ip : IP) (NetIP : IPNet) (keys : list string) (nets : list Network)
    : option (exec (list Network)) :=
  match keys with
  | [] => Some (Ret nets)
  | key :: keys =>
      run_bind (read_section ip NetIP key) (fun new => read_sections ip NetIP keys (nets ++ new))
  end.

Definition set_Ipv4 (ip : IP) (i : Interface) : Interface :=
  mkInterface (Name i) ip (InterfaceType i) (relayIP i) (hw_addr i).
Definition set_relayIP (ip : IP) (i : Interface) : Interface :=
  mkInterface (Name i) (Ipv4 i) (InterfaceType i) ip (hw_addr i).

(** The addresses of a listening interface; [NetIP] is [nil] when an address
    does not parse, and its mask is read at once. *)
Fixpoint read_addresses (adresses : list string) (ethIf : IntNet) : option (exec IntNet) :=
  match adresses with
  | [] => Some (Ret ethIf)
  | adresse :: rest =>
      match ParseCIDR adresse with
      | None => Some Panic
      | Some (ip, NetIP) =>
          let '(a, b) := Mask_Size (net_Mask NetIP) in
          if a =? b then read_addresses rest ethIf
          else if IsIPv6 ip then
            read_addresses rest (mkIntNet (in_if ethIf) ip (in_layer2 ethIf) (in_listenPort ethIf) (in_network ethIf))
          else
            let ifc := if IsIPv4 ip then set_Ipv4 ip (in_if ethIf) else in_if ethIf in
            run_bind (read_sections ip NetIP SectionStrings (in_network ethIf)) (fun nets =>
              read_addresses rest
                (mkIntNet ifc (in_Ipv6 ethIf) (in_layer2 ethIf ++ [Some NetIP]) (in_listenPort ethIf) nets))
      end
  end.

Fixpoint read_listeners (names : list string) (intsNet : list IntNet) : option (exec (list IntNet)) :=
  match names with
  | [] => Some (Ret intsNet)
  | v :: rest =>
      match InterfaceByName v with
      | None => read_listeners rest intsNet
      | Some eth =>
          run_bind (read_addresses (ni_addrs eth)
                      (mkIntNet (mkInterface (ni_name eth) [] "server" [] (ni_hw eth)) [] [] bootp_server []))
            (fun ethIf =>
               read_listeners rest (if (0 <? length (in_network ethIf))%nat then intsNet ++ [ethIf] else intsNet))
      end
  end.

(** The addresses of a relay interface. *)
Fixpoint relay_addresses (target : string) (addrs : list string) (ethIf : IntNet) : exec IntNet :=
  match addrs with
  | [] => Ret ethIf
  | a :: rest =>
      let '(ip, NetIP) := match ParseCIDR a with
                          | Some (ip, n) => (ip, Some n)
                          | None => ([], None)
                          end in
      if IsIPv6 ip then
        relay_addresses target rest
          (mkIntNet (in_if ethIf) ip (in_layer2 ethIf) (in_listenPort ethIf) (in_network ethIf))
      else
        let ifc := if IsIPv4 ip then set_Ipv4 ip (in_if ethIf) else in_if ethIf in
        relay_addresses target rest
          (mkIntNet (set_relayIP (ParseIP target) ifc) (in_Ipv6 ethIf) (in_layer2 ethIf ++ [NetIP])
             (in_listenPort ethIf) (in_network ethIf))
  end.

Fixpoint read_relays (entries : list string) (intsNet : list IntNet) : exec (list IntNet) :=
  match entries with
  | [] => Ret intsNet
  | entry :: rest =>
      if String.eqb entry EmptyString then read_relays rest intsNet
      else
        match Split entry ":" with
        | name :: target :: _ =>
            match InterfaceByName name with
            | None => read_relays rest intsNet
            | Some iface =>
                exec_bind (relay_addresses target (ni_addrs iface)
                  (mkIntNet (mkInterface (ni_name iface) [] "relay" [] (ni_hw iface)) [] [] bootp_client []))
                  (fun ethIf => read_relays rest (intsNet ++ [ethIf]))
            end
        | _ => read_relays rest intsNet
        end
  end.

Definition readConfig : option (exec (list IntNet)) :=
  run_bind (read_listeners (Split (Key "interfaces"%string "listen"%string) ",") []) (fun intsNet =>
    Some (read_relays (Split (Key "interfaces"%string "relay"%string) ",") intsNet)).

End ReadConfig.

(** ** Lemmas *)

Lemma To4_Uint32 ip v :
  is_bytes ip -> Uint32 (To4 ip) = Ret v -> To4 ip = be32 v /\ is_u32 v.
Proof.
  intros Hb Hu. apply To4_bytes in Hb. split; [ | by eapply Uint32_range].
  destruct (To4_length ip) as [E|E]; [by rewrite E in Hu | ].
  destruct (To4 ip) as [|b0 [|b1 [|b2 [|b3 [|? ?]]]]]; try done. symmetry. by apply be32_Uint32.
Qed.

Lemma exclude_loop_wf start dp l dp' :
  exclude_loop start dp l = Ret dp' -> pool_wf dp -> pool_wf dp' /\ capacity dp' = capacity dp.
Proof.
  revert dp. induction l as [|ip l IH]; intros dp; cbn [exclude_loop]; [by intros [= <-] | ].
  destruct ip as [|z ip]; [apply IH | ].
  destruct (Uint32 (To4 (z :: ip))); [ | done]. destruct (Uint32 (To4 start)); [ | done]. cbn [exec_bind].
  intros H Hwf. apply IH in H as [H1 H2]; [ | by apply ReserveIPIndex_wf].
  split; [done | ]. by rewrite H2, ReserveIPIndex_capacity.
Qed.

Lemma assign_loop_wf start l couple ips dp couple' ips' dp' :
  assign_loop start l couple ips dp = Ret (couple', ips', dp') -> pool_wf dp ->
  pool_wf dp' /\ capacity dp' = capacity dp.
Proof.
  revert couple ips dp. induction l as [|s l IH]; intros couple ips dp; cbn [assign_loop];
    [by intros [= <- <- <-] | ].
  destruct (find_assign s) as [[m ip]|]; [ | apply IH].
  destruct (Uint32 (To4 (ParseIP ip))); [ | done]. destruct (Uint32 (To4 start)); [ | done]. cbn [exec_bind].
  intros H Hwf. apply IH in H as [H1 H2]; [ | by apply ReserveIPIndex_wf].
  split; [done | ]. by rewrite H2, ReserveIPIndex_capacity.
Qed.

Lemma AssignIP_wf start dp s couple ips dp' :
  AssignIP start dp s = Ret (couple, ips, dp') -> pool_wf dp -> pool_wf dp' /\ capacity dp' = capacity dp.
Proof.
  unfold AssignIP. destruct (String.eqb s EmptyString); [by intros [= <- <- <-] | apply assign_loop_wf].
Qed.

(** *** Entries the expression accepts *)

(** One to three digits. *)
Definition octet_shape (s : string) : bool :=
  match s with
  | String a EmptyString => is_digit a
  | String a (String b EmptyString) => is_digit a && is_digit b
  | String a (String b (String c EmptyString)) => is_digit a && is_digit b && is_digit c
  | _ => false
  end.

Lemma Utoa_octet x : is_byte x -> octet_shape (Utoa x) = true.
Proof. apply (Forall_lt_256 (fun x => octet_shape (Utoa x) = true)). by each_byte. Qed.

Lemma any_rune_dot r : any_rune (String "." r) = Some ("."%string, r).
Proof.
  unfold any_rune. cbn [bytes_of_string]. change (code ".") with 46.
  assert (Hw : rune_width (46 :: bytes_of_string r) = 1%nat).
  { by destruct (bytes_of_string r) as [|b1 [|b2 [|b3 l]]]. }
  rewrite Hw. by destruct r.
Qed.

(** Digits followed by a dot, or at the end, are taken whole. *)
Lemma match_ip_dot k d r t :
  octet_shape d = true -> match_ip k r = Some t ->
  match_ip (S k) (d +s+ String "." r) = Some (d +s+ String "." t)%string.
Proof.
  intros Hd Hr. destruct d as [|a [|b [|c [|? ?]]]]; try done; cbn [octet_shape] in Hd;
    repeat match goal with H : _ && _ = true |- _ => apply andb_prop in H as [? ?] end;
    cbn [match_ip sapp take_digits];
    repeat match goal with H : is_digit _ = true |- _ => rewrite H; clear H end;
    change (is_digit ".") with false; cbn beta iota; rewrite any_rune_dot, Hr; done.
Qed.

Lemma match_ip_last d : octet_shape d = true -> match_ip 0 d = Some d.
Proof.
  intros Hd. destruct d as [|a [|b [|c [|? ?]]]]; try done; cbn [octet_shape] in Hd;
    repeat match goal with H : _ && _ = true |- _ => apply andb_prop in H as [? ?] end;
    cbn [match_ip take_digits];
    repeat match goal with H : is_digit _ = true |- _ => rewrite H; clear H end; done.
Qed.

Lemma match_ip_v4 n : is_u32 n -> match_ip 3 (IP_String (be32 n)) = Some (IP_String (be32 n)).
Proof.
  intros Hn. destruct (be32_inv n Hn) as (b0 & b1 & b2 & b3 & Hb & E & _). rewrite E.
  unfold is_bytes in Hb. rewrite !Forall_cons in Hb. destruct Hb as (H0 & H1 & H2 & H3 & _).
  unfold IP_String. rewrite decide_True by auto. rewrite To4_v4 by done.
  unfold v4_string. cbn [map Join sapp].
  by apply match_ip_dot, match_ip_dot, match_ip_dot, match_ip_last; try apply Utoa_octet.
Qed.

Definition entry (hw : HardwareAddr) (n : Z) : string :=
  (HardwareAddr_String hw +s+ ":" +s+ IP_String (be32 n))%string.

Lemma hex_digit_is_hex d : 0 <= d < 16 -> is_hex (hex_digit d) = true.
Proof. intros H. unfold is_hex. by rewrite hex_val_digit. Qed.

Lemma find_assign_entry hw n :
  length hw = 6%nat -> is_bytes hw -> is_u32 n ->
  find_assign (entry hw n) = Some (HardwareAddr_String hw, IP_String (be32 n)).
Proof.
  intros Hl Hb Hn.
  assert (Hm : match_assign (entry hw n) = Some (HardwareAddr_String hw, IP_String (be32 n))).
  { destruct hw as [|h0 [|h1 [|h2 [|h3 [|h4 [|h5 [|? ?]]]]]]]; try done.
    unfold is_bytes in Hb. rewrite !Forall_cons in Hb. unfold is_byte in Hb.
    unfold entry, HardwareAddr_String, match_assign. cbn [map Join sapp hex_byte match_pairs].
    rewrite !hex_digit_is_hex by zdiv. cbn [andb].
    rewrite !hex_digit_is_hex, match_ip_v4 by (zdiv || done). done. }
  revert Hm. generalize (entry hw n). intros s Hm. destruct s; cbn [find_assign]; by rewrite Hm.
Qed.

Section ConfigLaws.

Context {CZ : GoCache Z} {LZ : GoCacheLaws Z} {D4 : Dhcp4} {LD : Dhcp4Laws}.
Context (SectionStrings : list string) (Key : string -> string -> string).
Context (InterfaceByName : string -> option NetInterface).
Context (clock : Z -> Z) (rnd : Z -> nat -> Z -> Z) (time_now : Z) (Inc : IP -> IP) (fuel : nat).

(** A scope nobody has used yet.  Its lease time is the only field of the file
    that is taken as it is: [new_scope] builds a scope for a negative one too. *)
Definition fresh (h : DHCPHandler) : Prop :=
  (0 <= h_leaseDuration h -> scope_ok h) /\ (forall t k, Get t (h_hwcache h) k = None) /\ h_layer2 h = true /\
  h_ip h = To4 (h_ip h).

Lemma new_scope_fresh ip sec dhcpStart dhcpEnd a b h :
  is_bytes dhcpStart -> is_bytes dhcpEnd ->
  Uint32 (To4 dhcpStart) = Ret a -> Uint32 (To4 dhcpEnd) = Ret b -> a <= b ->
  new_scope clock rnd time_now Inc fuel ip sec dhcpStart dhcpEnd = Some (Ret h) -> fresh h.
Proof.
  intros Hb1 Hb2 Ha Hb Hab. unfold new_scope.
  apply To4_Uint32 in Ha as [Ea Ra]; [ | done]. apply To4_Uint32 in Hb as [Eb Rb]; [ | done].
  rewrite (IPRange_spec _ _ a b) by done. unfold is_u32 in *.
  assert (En : safeIntToUint64 (b - a + 1) = b - a + 1) by (rewrite safeIntToUint64_max; unfold MaxInt; lia).
  rewrite En. set (dp0 := NewDHCPPool _ _ _).
  destruct (ExcludeIP _ _ _ _ _) as [[dp1|]|] eqn:Ex; [ | done | done]. cbn [exec_bind].
  destruct (AssignIP dhcpStart dp1 (sec "ip_assigned"%string)) as [[[couple ips] dp2]|] eqn:As; [ | done].
  cbn [exec_bind]. intros [= <-].
  unfold ExcludeIP in Ex. destruct (IPsFromRange _ _ _) as [[l n]|]; [ | done]. injection Ex as Ex.
  apply exclude_loop_wf in Ex as [W1 C1]; [ | apply NewDHCPPool_wf].
  apply AssignIP_wf in As as [W2 C2]; [ | done].
  assert (C0 : capacity dp0 = b - a + 1) by apply NewDHCPPool_fields.
  split; [ | split; [intros t k; apply get_new | split; [done | symmetry; apply To4_idem]]].
  intros Hlease. split; simpl.
  - done.
  - congruence.
  - exists a. split; [done | lia].
  - intros t k x. by rewrite get_new.
  - exact Hlease.
Qed.

(** *** Every scope that is built *)

Section Built.

(** A property of the scopes [new_scope] builds from a section of the file. *)
Context (P : DHCPHandler -> Prop).

Definition built : Prop := forall ip key dhcpStart dhcpEnd a b h,
  is_bytes dhcpStart -> is_bytes dhcpEnd ->
  Uint32 (To4 dhcpStart) = Ret a -> Uint32 (To4 dhcpEnd) = Ret b -> a <= b ->
  new_scope clock rnd time_now Inc fuel ip (Key key) dhcpStart dhcpEnd = Some (Ret h) -> P h.

Definition all_networks (l : list Network) : Prop := Forall (fun v => P (dhcpHandler v)) l.

Abbreviation section_of := (read_section Key clock rnd time_now Inc fuel).

Lemma read_section_built ip NetIP key nets :
  built -> section_of ip NetIP key = Some (Ret nets) -> all_networks nets.
Proof.
  intros Hb. unfold read_section. destruct (network_name key); [ | intros [= <-]; apply Forall_nil_2].
  destruct (String.eqb _ _); [intros [= <-]; apply Forall_nil_2 | ].
  destruct (_ || _); [ | intros [= <-]; apply Forall_nil_2].
  destruct (Uint32 (To4 (ParseIP (Key key "dhcp_start")))) as [a|] eqn:Ha; [ | intros [= <-]; apply Forall_nil_2].
  destruct (Uint32 (To4 (ParseIP (Key key "dhcp_end")))) as [b|] eqn:Hb'; [ | intros [= <-]; apply Forall_nil_2].
  destruct (Z.ltb_spec b a) as [_|Hab]; [intros [= <-]; apply Forall_nil_2 | ].
  destruct (new_scope _ _ _ _ _ _ _ _ _) as [[h|]|] eqn:Hn; [ | done | done].
  intros [= <-]. apply Forall_singleton. simpl.
  eapply Hb; [ | | exact Ha | exact Hb' | exact Hab | exact Hn]; apply ParseIP_bytes.
Qed.

Lemma read_sections_built ip NetIP keys nets nets' :
  built -> all_networks nets ->
  read_sections Key clock rnd time_now Inc fuel ip NetIP keys nets = Some (Ret nets') -> all_networks nets'.
Proof.
  intros Hl. revert nets. induction keys as [|key keys IH]; intros nets Hn; cbn [read_sections];
    [by intros [= <-] | ].
  destruct (section_of ip NetIP key) as [[new|]|] eqn:S; cbn [run_bind]; [ | done | done].
  apply IH. apply Forall_app. split; [done | by eapply read_section_built].
Qed.

Lemma read_addresses_built adresses ethIf ethIf' :
  built -> all_networks (in_network ethIf) ->
  read_addresses SectionStrings Key clock rnd time_now Inc fuel adresses ethIf = Some (Ret ethIf') ->
  all_networks (in_network ethIf').
Proof.
  intros Hl. revert ethIf. induction adresses as [|ad adresses IH]; intros ethIf Hn; cbn [read_addresses];
    [by intros [= <-] | ].
  destruct (ParseCIDR ad) as [[ip NetIP]|]; [ | done]. destruct (Mask_Size (net_Mask NetIP)) as [x y].
  destruct (x =? y); [by apply IH | ]. destruct (IsIPv6 ip); [by apply IH | ].
  destruct (read_sections _ _ _ _ _ _ _ _ _ _) as [[nets|]|] eqn:S; cbn [run_bind]; [ | done | done].
  apply IH. simpl. by eapply read_sections_built.
Qed.

Definition all_interfaces (l : list IntNet) : Prop := Forall (fun i => all_networks (in_network i)) l.

Lemma read_listeners_built names ints ints' :
  built -> all_interfaces ints ->
  read_listeners SectionStrings Key InterfaceByName clock rnd time_now Inc fuel names ints = Some (Ret ints') ->
  all_interfaces ints'.
Proof.
  intros Hl. revert ints. induction names as [|v names IH]; intros ints Hi; cbn [read_listeners];
    [by intros [= <-] | ].
  destruct (InterfaceByName v) as [eth|]; [ | by apply IH].
  destruct (read_addresses _ _ _ _ _ _ _ _ _) as [[i|]|] eqn:A; cbn [run_bind]; [ | done | done].
  apply IH. apply read_addresses_built in A; [ | done | apply Forall_nil_2].
  case_match; [ | done]. apply Forall_app. split; [done | by apply Forall_singleton].
Qed.

Lemma relay_addresses_networks target addrs ethIf ethIf' :
  relay_addresses target addrs ethIf = Ret ethIf' -> in_network ethIf' = in_network ethIf.
Proof.
  revert ethIf. induction addrs as [|a addrs IH]; intros ethIf; cbn [relay_addresses]; [by intros [= <-] | ].
  destruct (match ParseCIDR a with Some (ip, n) => (ip, Some n) | None => ([], None) end) as [ip NetIP].
  destruct (IsIPv6 ip); intros H; by apply IH in H.
Qed.

Lemma read_relays_built entries ints ints' :
  all_interfaces ints -> read_relays InterfaceByName entries ints = Ret ints' -> all_interfaces ints'.
Proof.
  revert ints. induction entries as [|x entries IH]; intros ints Hi; cbn [read_relays]; [by intros [= <-] | ].
  destruct (String.eqb x EmptyString); [by apply IH | ].
  destruct (Split x ":") as [|name [|target rest]]; [by apply IH | by apply IH | ].
  destruct (InterfaceByName name) as [i|]; [ | by apply IH].
  destruct (relay_addresses _ _ _) as [i'|] eqn:R; cbn [exec_bind]; [ | done].
  apply IH, Forall_app. split; [done | ]. apply Forall_singleton.
  apply relay_addresses_networks in R. rewrite R. apply Forall_nil_2.
Qed.

Abbreviation config := (readConfig SectionStrings Key InterfaceByName clock rnd time_now Inc fuel).

(** What holds of every scope that is built holds of every scope of a
    configuration. *)
Lemma readConfig_built ints : built -> config = Some (Ret ints) -> all_interfaces ints.
Proof.
  intros Hl. unfold readConfig.
  destruct (read_listeners _ _ _ _ _ _ _ _ _ _) as [[ints1|]|] eqn:L; cbn [run_bind]; [ | done | done].
  apply read_listeners_built in L; [ | done | apply Forall_nil_2].
  intros [= H]. by eapply read_relays_built.
Qed.

End Built.

Abbreviation config := (readConfig SectionStrings Key InterfaceByName clock rnd time_now Inc fuel).

Lemma fresh_built : built fresh.
Proof.
  intros ip key dhcpStart dhcpEnd a b h H1 H2 Ha Hb Hab Hn.
  exact (new_scope_fresh ip (Key key) dhcpStart dhcpEnd a b h H1 H2 Ha Hb Hab Hn).
Qed.

(** ** Properties *)

Section StartsSafe.

Context {CS : GoCache string} {SQL : SqlDB} {JSON : JSONCodec}.

(** No lease time of a scope is negative. *)
Definition leases_positive (w : world) : Prop :=
  forall n v, networks w !! n = Some v -> 0 <= h_leaseDuration (dhcpHandler v).

Lemma fresh_world (w : world) :
  Forall (fun v => fresh (dhcpHandler v)) (networks w) -> w_timers w = [] ->
  (forall t, all_owned t w) /\ (world_ok w <-> leases_positive w).
Proof.
  intros Hf Ht. split; [ | split].
  - intros t n v k Hv. apply owned_none. intros t'. by apply (proj1 (Forall_lookup _ _) Hf n v Hv).
  - intros [Hw _] n v Hv. apply (scope_lease _ (Hw n v Hv)).
  - intros Hl. split; [ | rewrite Ht; apply Forall_nil_2]. intros n v Hv.
    apply (proj1 (Forall_lookup _ _) Hf n v Hv), (Hl n v Hv).
Qed.


End StartsSafe.

End ConfigLaws.

(** The effect of one static assignment. *)
Definition assign_one (s : Z) (acc : gmap string Z * DHCPPool) (x : HardwareAddr * Z)
    : gmap string Z * DHCPPool :=
  let position := u32 (x.2 - s) in
  (<[HardwareAddr_String x.1 := position]> acc.1,
   (ReserveIPIndex acc.2 position (HardwareAddr_String x.1)).1).

Lemma assign_loop_entries start s l couple ips dp :
  To4 start = be32 s -> is_u32 s ->
  Forall (fun x : HardwareAddr * Z => length x.1 = 6%nat /\ is_bytes x.1 /\ is_u32 x.2) l ->
  assign_loop start (map (fun x => entry x.1 x.2) l) couple ips dp =
    Ret ((foldl (assign_one s) (couple, dp) l).1,
         ips ++ map (fun x => v4InV6Prefix ++ be32 x.2) l,
         (foldl (assign_one s) (couple, dp) l).2).
Proof.
  intros Hs Hr Hl. revert couple ips dp. induction Hl as [|[hw n] l (H6 & Hb & Hn) _ IH]; intros couple ips dp.
  { simpl. by rewrite app_nil_r. }
  cbn [map assign_loop]. simpl in H6, Hb, Hn. rewrite find_assign_entry by done.
  rewrite ParseIP_String by (done || apply be32_bytes). rewrite To4_mapped, Hs by done.
  rewrite <- (app_nil_r (be32 n)) at 1. rewrite <- (app_nil_r (be32 s)), !Uint32_be32 by done.
  cbn [exec_bind]. rewrite IH, safeUint32ToUint64_id by apply u32_range.
  cbn [map foldl]. rewrite <- app_assoc. done.
Qed.

Lemma entry_no_comma hw n : is_bytes hw -> has_char "," (entry hw n) = false.
Proof.
  intros Hb. unfold entry. rewrite !has_char_app. cbn [has_char].
  rewrite IP_String_no_char by done. rewrite orb_false_r.
  assert (Hh : forall z, is_byte z -> has_char "," (hex_byte z) = false).
  { apply (Forall_lt_256 (fun z => has_char "," (hex_byte z) = false)). by each_byte. }
  unfold HardwareAddr_String. induction Hb as [|z hw Hz Hb IH]; [done | ]. cbn [map].
  destruct hw as [|z2 hw]; cbn [map Join] in *; [by rewrite Hh | ].
  rewrite !has_char_app, Hh by done. cbn [has_char]. exact IH.
Qed.

(** Static assignments written as [mac:address], separated by commas, are
    all understood: each client gets the index of its address, reserved in the
    pool under its hardware address, in the order they are written. *)
Theorem AssignIP_entries start s l dp :
  To4 start = be32 s -> is_u32 s -> l <> [] ->
  Forall (fun x : HardwareAddr * Z => length x.1 = 6%nat /\ is_bytes x.1 /\ is_u32 x.2) l ->
  AssignIP start dp (Join (map (fun x => entry x.1 x.2) l) ",") =
    Ret ((foldl (assign_one s) (∅, dp) l).1,
         map (fun x => v4InV6Prefix ++ be32 x.2) l,
         (foldl (assign_one s) (∅, dp) l).2).
Proof.
  intros Hs Hr Hne Hl. unfold AssignIP.
  assert (Hsplit : Split (Join (map (fun x => entry x.1 x.2) l) ",") "," = map (fun x => entry x.1 x.2) l).
  { apply Split_Join; [by destruct l | ]. apply Forall_map. eapply Forall_impl; [exact Hl | ].
    intros [hw n] (_ & Hb & _). by apply entry_no_comma. }
  destruct (String.eqb_spec (Join (map (fun x => entry x.1 x.2) l) ",") EmptyString) as [E|_].
  - exfalso. rewrite E in Hsplit. destruct l as [|[hw n] [|? ?]]; try done.
    apply Forall_singleton in Hl as (H6 & Hb & Hn). injection Hsplit as Hsplit. simpl in *.
    pose proof (find_assign_entry hw n H6 Hb Hn) as Hf. by rewrite <- Hsplit in Hf.
  - by rewrite Hsplit, (assign_loop_entries start s).
Qed.

Lemma assign_loop_panics start l rangeip m ip couple ips dp :
  rangeip ∈ l -> find_assign rangeip = Some (m, ip) -> To4 (ParseIP ip) = [] ->
  assign_loop start l couple ips dp = Panic.
Proof.
  intros Hin Hf Hip. revert couple ips dp.
  induction l as [|s l IH]; intros couple ips dp; [by apply not_elem_of_nil in Hin | ]. cbn [assign_loop].
  apply elem_of_cons in Hin as [<-|Hin].
  - by rewrite Hf, Hip.
  - destruct (find_assign s) as [[m' ip']|]; [ | by apply IH].
    destruct (Uint32 (To4 (ParseIP ip'))); [ | done]. destruct (Uint32 (To4 start)); [ | done].
    by apply IH.
Qed.

(** An entry that has the form of an assignment but no valid IPv4 address,
    such as [00:11:22:33:44:55:192.168.1.300], panics while the configuration is
    read, whatever the other entries are. *)
Theorem AssignIP_panics start dp ipRange rangeip m ip :
  rangeip ∈ Split ipRange "," -> find_assign rangeip = Some (m, ip) -> To4 (ParseIP ip) = [] ->
  AssignIP start dp ipRange = Panic.
Proof.
  intros Hin Hf Hip. unfold AssignIP. destruct (String.eqb_spec ipRange EmptyString) as [->|_].
  - simpl in Hin. apply list_elem_of_singleton in Hin as ->. done.
  - by eapply assign_loop_panics.
Qed.

(** A static assignment whose hardware address is written with an upper-case
    digit reserves its index but never applies: the table is searched with
    lower-case addresses only, so no client finds an entry in it. *)
Theorem AssignIP_uppercase start dp rangeip m ip couple ips dp' :
  has_char "," rangeip = false -> find_assign rangeip = Some (m, ip) -> ToLower m <> m ->
  AssignIP start dp rangeip = Ret (couple, ips, dp') ->
  (forall hw, is_bytes hw -> couple !! HardwareAddr_String hw = None) /\
  (exists position, couple = {[ m := position ]} /\ dp' = (ReserveIPIndex dp position m).1).
Proof.
  intros Hno Hf Hup. unfold AssignIP.
  destruct (String.eqb_spec rangeip EmptyString) as [->|_]; [by simpl in Hf | ].
  rewrite Split_no_sep by done. cbn [assign_loop]. rewrite Hf.
  destruct (Uint32 (To4 (ParseIP ip))) as [a|]; [ | done].
  destruct (Uint32 (To4 start)) as [b|]; [ | done]. cbn [exec_bind].
  rewrite safeUint32ToUint64_id by apply u32_range. intros [= <- <- <-].
  split; [ | by eexists].
  intros hw Hb. rewrite lookup_insert_ne; [apply lookup_empty | ].
  intros ->. by apply Hup, HardwareAddr_String_lower.
Qed.

(** ** Witnesses *)

Section Witnesses.

Import Wire Mem.

Definition w_section : gmap string string := list_to_map
  [("dhcp_start", "192.168.1.10"); ("dhcp_end", "192.168.1.20"); ("netmask", "255.255.255.0");
   ("gateway", "192.168.1.1"); ("dns", "8.8.8.8,8.8.4.4"); ("dhcp_default_lease_time", "3600");
   ("ip_reserved", "192.168.1.10-192.168.1.11"); ("ip_assigned", "00:11:22:33:44:55:192.168.1.15")]%string.

Definition w_key (s k : string) : string :=
  if String.eqb s "interfaces" then if String.eqb k "listen" then "eth0"%string else EmptyString
  else if String.eqb s "network 192.168.1.0" then default EmptyString (w_section !! k)
  else EmptyString.

Definition w_interfaces (n : string) : option NetInterface :=
  if String.eqb n "eth0" then Some (mkNetInterface "eth0" ["192.168.1.1/24"; "fe80::1/64"]%string [2; 0; 0; 0; 0; 1])
  else None.

Definition w_config : option (exec (list IntNet)) :=
  readConfig ["interfaces"; "network 192.168.1.0"]%string w_key w_interfaces (fun _ => 0) (fun _ _ _ => 0) 0
    inc_bytes 300.

Lemma w_config_leases i :
  w_config = Some (Ret [i]) -> Forall (fun v => 0 <= h_leaseDuration (dhcpHandler v)) (in_network i).
Proof.
  intros E. assert (H : match w_config with
    | Some (Ret [i]) => forallb (fun v => 0 <=? h_leaseDuration (dhcpHandler v)) (in_network i)
    | _ => false end = true) by (vm_compute; reflexivity).
  rewrite E in H. apply Forall_forall. intros v Hv. apply list_elem_of_In in Hv.
  apply Z.leb_le. exact (proj1 (forallb_forall _ _) H v Hv).
Qed.


Lemma AssignIP_entries_witness :
  exists couple dp, AssignIP [192; 168; 1; 10] lab_pool (Join [entry lab_hw 3232235788; entry lab_hw2 3232235790] ",")
    = Ret (couple, [IPv4 192 168 1 12; IPv4 192 168 1 14], dp) /\ couple !! w_mac = Some 2 /\ couple !! w_mac2 = Some 4.
Proof.
  do 2 eexists. split.
  - apply (AssignIP_entries [192; 168; 1; 10] 3232235786 [(lab_hw, 3232235788); (lab_hw2, 3232235790)] lab_pool).
    + reflexivity.
    + unfold is_u32. lia.
    + discriminate.
    + repeat (apply Forall_cons; split); try apply Forall_nil_2;
        (split; [reflexivity | split; [apply lab_bytes; reflexivity | simpl; unfold is_u32; lia]]).
  - split; vm_compute; reflexivity.
Defined.

Lemma AssignIP_uppercase_witness :
  exists couple ips dp, AssignIP [192; 168; 1; 10] lab_pool "AA:BB:CC:DD:EE:FF:192.168.1.12" = Ret (couple, ips, dp) /\
    couple !! HardwareAddr_String [170; 187; 204; 221; 238; 255] = None.
Proof.
  assert (Hr : match AssignIP [192; 168; 1; 10] lab_pool "AA:BB:CC:DD:EE:FF:192.168.1.12" with
               | Ret _ => true | Panic => false end = true) by (vm_compute; reflexivity).
  destruct (AssignIP [192; 168; 1; 10] lab_pool "AA:BB:CC:DD:EE:FF:192.168.1.12") as [[[couple ips] dp]|] eqn:E;
    [ | discriminate Hr].
  exists couple, ips, dp. split; [reflexivity | ].
  apply (AssignIP_uppercase [192; 168; 1; 10] lab_pool "AA:BB:CC:DD:EE:FF:192.168.1.12"
    "AA:BB:CC:DD:EE:FF" "192.168.1.12" couple ips dp);
    [reflexivity | vm_compute; reflexivity | vm_compute; discriminate | exact E | apply lab_bytes; reflexivity].
Defined.

End Witnesses.
