(* ===== verification/Regexp.v ===== *)
(** * Regular expressions: what the sources use of package regexp

    An expression maps a text to what may be left of it after a match at its
    beginning, the preferred remainder first: greedy repetitions prefer more.
    A pattern is a sequence of literals, expressions and named groups; its
    matches come in the order of preference too, and the first is the one Go
    finds.  The matcher of [AssignIP] in Config.v is the one of this semantics. *)

From S2P Require Import Prelude GoStd GoNet Pool GoCache Dhcp4 Database Utils Handler Interface.
From S2P Require Import Scope Lab Discover Request System Server Config.
From Stdlib Require Import Ascii.

(** [Times r lo more] is [r{lo,lo+more}].  The body of [Star] never matches the
    empty text. *)
Inductive regex :=
| Chars (f : ascii -> bool)
| Dot
| Then (r1 r2 : regex)
| Times (r : regex) (lo more : nat)
| Star (r : regex).

Fixpoint upto (f : string -> list string) (n : nat) (s : string) : list string :=
  match n with
  | O => [s]
  | S n => (f s ≫= upto f n) ++ [s]
  end.

Fixpoint times (f : string -> list string) (lo more : nat) (s : string) : list string :=
  match lo with
  | O => upto f more s
  | S lo => f s ≫= times f lo more
  end.

Fixpoint leaves (r : regex) (s : string) : list string :=
  match r with
  | Chars f => match s with String c t => if f c then [t] else [] | EmptyString => [] end
  | Dot => match any_rune s with Some (_, t) => [t] | None => [] end
  | Then r1 r2 => leaves r1 s ≫= leaves r2
  | Times r lo more => times (leaves r) lo more s
  | Star r => upto (leaves r) (String.length s) s
  end.

(** The text in front of a remainder. *)
Definition front (s t : string) : string := (split_at (String.length s - String.length t) s).1.

Inductive seg :=
| Lit (s : string)
| Var (name : string) (r : regex).

Fixpoint strip (l s : string) : option string :=
  match l, s with
  | EmptyString, _ => Some s
  | String a l, String b s => if Ascii.eqb a b then strip l s else None
  | String _ _, EmptyString => None
  end.

(** The groups and the remainder of every match at the beginning of [s]. *)
Fixpoint submatch (p : list seg) (s : string) : list (list (string * string) * string) :=
  match p with
  | [] => [([], s)]
  | Lit l :: p => match strip l s with Some t => submatch p t | None => [] end
  | Var name r :: p => t ← leaves r s; (prod_map (cons (name, front s t)) id) <$> submatch p t
  end.

(** [FindStringSubmatch]: the leftmost match. *)
Fixpoint FindStringSubmatch (p : list seg) (s : string) : option (list (string * string)) :=
  match submatch p s with
  | (groups, _) :: _ => Some groups
  | [] => match s with EmptyString => None | String _ r => FindStringSubmatch p r end
  end.

(** [^p$] *)
Definition MatchAll (p : list seg) (s : string) : option (list (string * string)) :=
  fst <$> head (filter (fun m => m.2 = EmptyString) (submatch p s)).

(** ** The expressions of the sources *)

Definition is_char (c : ascii) (a : ascii) : bool := Ascii.eqb a c.

(** [[0-9A-Fa-f]{2}:] five times, then [[0-9A-Fa-f]{2}] *)
Definition hex2 : regex := Times (Chars is_hex) 2 0.
Definition mac_regex : regex := Then (Times (Then hex2 (Chars (is_char ":"))) 5 0) hex2.

(** [[0-9]{1,3}.] three times, then [[0-9]{1,3}]; the dots are not escaped. *)
Definition digits3 : regex := Times (Chars is_digit) 1 2.
Definition ip_regex : regex := Then (Times (Then digits3 Dot) 3 0) digits3.

(** The expression of [AssignIP]. *)
Definition assign_regex : list seg := [Var "mac" mac_regex; Lit ":"; Var "ip" ip_regex].

Example assign_example :
  FindStringSubmatch assign_regex "x00:11:22:33:44:55:192.168.1.1234" =
    Some [("mac", "00:11:22:33:44:55"); ("ip", "192.168.1.123")]%string.
Proof. reflexivity. Qed.

(** ** Lemmas *)

Lemma sapp_length a b : String.length (a +s+ b) = (String.length a + String.length b)%nat.
Proof. induction a as [|c a IH]; [done | ]. change (String c a +s+ b)%string with (String c (a +s+ b)%string). simpl. by rewrite IH. Qed.

Lemma split_at_app v t : split_at (String.length v) (v +s+ t) = (v, t).
Proof.
  induction v as [|c v IH]; [by destruct t | ]. change (String c v +s+ t)%string with (String c (v +s+ t)%string).
  cbn [String.length split_at]. by rewrite IH.
Qed.

Lemma split_at_sapp n s : s = ((split_at n s).1 +s+ (split_at n s).2)%string.
Proof.
  revert s. induction n as [|n IH]; intros [|c s]; try done. cbn [split_at]. specialize (IH s).
  destruct (split_at n s) as [a b]. simpl in *. change (String c a +s+ b)%string with (String c (a +s+ b)%string). congruence.
Qed.

Lemma front_app v t : front (v +s+ t) t = v.
Proof. unfold front. rewrite sapp_length. replace (_ + _ - _)%nat with (String.length v) by lia. by rewrite split_at_app. Qed.

Lemma any_rune_app s c r : any_rune s = Some (c, r) -> s = (c +s+ r)%string.
Proof.
  intros E. assert (Hn : exists n, split_at n s = (c, r)).
  { destruct s as [|a s]; [done | ]. unfold any_rune in E. destruct (code a =? 10); [done | ].
    eexists. apply (inj Some), E. }
  destruct Hn as [n Hn]. pose proof (split_at_sapp n s) as H. by rewrite Hn in H.
Qed.

Lemma take_digits_app n s d r : take_digits n s = Some (d, r) -> s = (d +s+ r)%string.
Proof.
  revert s d. induction n as [|n IH]; intros [|c s] d; cbn [take_digits]; try (by intros [= <- <-]); try done.
  destruct (is_digit c); [ | done]. destruct (take_digits n s) as [[d' r']|] eqn:E; [ | done]. intros [= <- <-].
  rewrite (IH _ _ E) at 1. done.
Qed.

(** A remainder is the end of the text. *)
Definition ends (s t : string) : Prop := exists v, s = (v +s+ t)%string.

Lemma ends_refl s : ends s s.
Proof. by exists EmptyString. Qed.

Lemma ends_trans s t u : ends s t -> ends t u -> ends s u.
Proof. intros [v ->] [w ->]. exists (v +s+ w)%string. by rewrite sapp_assoc. Qed.

Lemma upto_ends f n s t : (forall s t, t ∈ f s -> ends s t) -> t ∈ upto f n s -> ends s t.
Proof.
  intros Hf. revert s. induction n as [|n IH]; intros s; cbn [upto].
  - intros ->%list_elem_of_singleton. apply ends_refl.
  - rewrite elem_of_app, list_elem_of_bind, list_elem_of_singleton. intros [(u & Hu & Hs)| ->]; [ | apply ends_refl].
    eapply ends_trans; [by apply Hf | by apply IH].
Qed.

Lemma leaves_ends r s t : t ∈ leaves r s -> ends s t.
Proof.
  revert s t. induction r as [f| |r1 IH1 r2 IH2|r IH lo more|r IH]; intros s t; cbn [leaves].
  - destruct s as [|c s]; [by intros ?%not_elem_of_nil | ]. destruct (f c); [ | by intros ?%not_elem_of_nil].
    intros ->%list_elem_of_singleton. by exists (String c EmptyString).
  - destruct (any_rune s) as [[c u]|] eqn:E; [ | by intros ?%not_elem_of_nil].
    intros ->%list_elem_of_singleton. exists c. by apply any_rune_app.
  - intros (u & Hu & Hs)%list_elem_of_bind. eapply ends_trans; eauto.
  - revert s. induction lo as [|lo IHlo]; intros s; cbn [times]; [by apply upto_ends | ].
    intros (u & Hu & Hs)%list_elem_of_bind. eapply ends_trans; eauto.
  - by apply upto_ends.
Qed.

(** *** The expression of [AssignIP] *)

Lemma head_bind {A B : Type} (f : A -> list B) x l :
  head ((x :: l) ≫= f) = match head (f x) with Some y => Some y | None => head (l ≫= f) end.
Proof. rewrite bind_cons. by destruct (f x). Qed.

Lemma list_bind_assoc {A B C : Type} (f : A -> list B) (g : B -> list C) l :
  (l ≫= f) ≫= g = l ≫= fun x => f x ≫= g.
Proof. induction l as [|x l IH]; [done | ]. by rewrite !bind_cons, bind_app, IH. Qed.

Lemma list_bind_ext {A B : Type} (f g : A -> list B) l : (forall x, f x = g x) -> l ≫= f = l ≫= g.
Proof. intros H. induction l as [|x l IH]; [done | ]. by rewrite !bind_cons, H, IH. Qed.

Lemma digits3_leaves s : leaves digits3 s = omap (fun n => snd <$> take_digits n s) [3; 2; 1]%nat.
Proof.
  destruct s as [|a [|b [|c s]]]; cbn; try (destruct (is_digit a); cbn); try (destruct (is_digit b); cbn);
    try (destruct (is_digit c); cbn); done.
Qed.

(** What [k] groups and the last digits leave. *)
Definition ip_rest (k : nat) (s : string) : list string := times (leaves (Then digits3 Dot)) k 0 s ≫= leaves digits3.

Lemma ip_rest_step k s : ip_rest (S k) s = leaves digits3 s ≫= fun r => leaves Dot r ≫= ip_rest k.
Proof.
  unfold ip_rest. cbn [times]. change (leaves (Then digits3 Dot) s) with (leaves digits3 s ≫= leaves Dot).
  rewrite !list_bind_assoc. done.
Qed.

Lemma ip_rest_ends k s t : t ∈ ip_rest k s -> ends s t.
Proof. exact (leaves_ends (Then (Times (Then digits3 Dot) k 0) digits3) s t). Qed.

(** The first of three attempts. *)
Lemma head_attempts {B : Type} (h : nat -> option string) (g : string -> list B) :
  head (omap h [3; 2; 1]%nat ≫= g) =
  match (h 3%nat ≫= fun r => head (g r)) with
  | Some x => Some x
  | None => match (h 2%nat ≫= fun r => head (g r)) with
            | Some x => Some x
            | None => h 1%nat ≫= fun r => head (g r)
            end
  end.
Proof.
  cbn [omap list_omap]. destruct (h 3%nat) as [r3|], (h 2%nat) as [r2|], (h 1%nat) as [r1|];
    rewrite ?head_bind; cbn [mbind option_bind]; try (destruct (head (g r3)); [done | ]);
    try (destruct (head (g r2)); [done | ]); try (destruct (head (g r1)); [done | ]); done.
Qed.

Lemma head_elem {A : Type} (l : list A) x : head l = Some x -> x ∈ l.
Proof. destruct l; [done | ]. intros [= ->]. constructor. Qed.

(** One attempt of [match_ip]. *)
Definition attempt (k n : nat) (s : string) : option string :=
  match take_digits n s with
  | None => None
  | Some (d, r) =>
      match k with
      | O => Some d
      | S k =>
          match any_rune r with
          | None => None
          | Some (c, r) => match match_ip k r with Some t => Some (d +s+ c +s+ t)%string | None => None end
          end
      end
  end.

Lemma match_ip_attempts k s :
  match_ip k s = match attempt k 3 s with
                 | Some x => Some x
                 | None => match attempt k 2 s with Some x => Some x | None => attempt k 1 s end
                 end.
Proof. by destruct k. Qed.

Lemma match_ip_rest k s : match_ip k s = front s <$> head (ip_rest k s).
Proof.
  revert s. induction k as [|k IH]; intros s; rewrite match_ip_attempts.
  - unfold ip_rest. cbn [times upto]. rewrite bind_cons, app_nil_r.
    assert (Ha : forall n, attempt 0 n s = front s <$> (snd <$> take_digits n s)).
    { intros n. unfold attempt. destruct (take_digits n s) as [[d r]|] eqn:E; [ | done]. simpl. f_equal.
      rewrite (take_digits_app _ _ _ _ E). by rewrite front_app. }
    rewrite digits3_leaves, !Ha. cbn [omap list_omap].
    by destruct (take_digits 3 s), (take_digits 2 s), (take_digits 1 s).
  - rewrite ip_rest_step, digits3_leaves, head_attempts.
    assert (Ha : forall n, attempt (S k) n s =
      front s <$> ((snd <$> take_digits n s) ≫= fun r => head (leaves Dot r ≫= ip_rest k))).
    { intros n. unfold attempt. destruct (take_digits n s) as [[d r]|] eqn:E; [ | done]. cbn [fmap option_fmap option_map snd mbind option_bind leaves].
      destruct (any_rune r) as [[c u]|] eqn:R; [ | done]. rewrite head_bind. rewrite (IH u).
      destruct (head (ip_rest k u)) as [t|] eqn:H; [ | done]. simpl. f_equal.
      destruct (ip_rest_ends k u t (head_elem _ _ H)) as [v ->].
      rewrite (take_digits_app _ _ _ _ E), (any_rune_app _ _ _ R), !front_app.
      replace (d +s+ c +s+ v +s+ t)%string with ((d +s+ c +s+ v) +s+ t)%string by (by rewrite <- !sapp_assoc).
      by rewrite front_app. }
    rewrite !Ha. do 2 (destruct (_ ≫= _); [done | ]; cbn [fmap option_fmap option_map]). done.
Qed.

Lemma hex2_leaves s :
  leaves hex2 s = match s with String a (String b t) => if is_hex a && is_hex b then [t] else [] | _ => [] end.
Proof.
  destruct s as [|a [|b t]]; cbn [leaves hex2 times upto]; [done | by destruct (is_hex a) | ].
  destruct (is_hex a); [ | done]. rewrite bind_cons, app_nil_r. by destruct (is_hex b).
Qed.

(** One pair and its colon. *)
Lemma pair_leaves s :
  leaves (Then hex2 (Chars (is_char ":"))) s =
    match s with String a (String b (String ":" t)) => if is_hex a && is_hex b then [t] else [] | _ => [] end.
Proof.
  change (leaves (Then hex2 (Chars (is_char ":"))) s) with (leaves hex2 s ≫= leaves (Chars (is_char ":"))).
  rewrite hex2_leaves. destruct s as [|a [|b [|c t]]]; try done.
  - by destruct (is_hex a && is_hex b).
  - destruct (is_hex a && is_hex b); [ | by destruct c as [[] [] [] [] [] [] [] []]].
    rewrite bind_cons, app_nil_r. by destruct c as [[] [] [] [] [] [] [] []].
Qed.

Lemma pairs_leaves k s :
  times (leaves (Then hex2 (Chars (is_char ":")))) k 0 s =
    match match_pairs k s with Some (_, r) => [r] | None => [] end.
Proof.
  revert s. induction k as [|k IH]; intros s; [done | ]. cbn [times match_pairs]. rewrite pair_leaves.
  destruct s as [|a [|b [|c t]]]; try done. destruct (Ascii.eqb c ":") eqn:Ec.
  - apply Ascii.eqb_eq in Ec as ->. destruct (is_hex a && is_hex b); [ | done].
    rewrite bind_cons, app_nil_r, IH. by destruct (match_pairs k t) as [[m r]|].
  - destruct c as [[] [] [] [] [] [] [] []]; done.
Qed.

Lemma match_pairs_app k s m r : match_pairs k s = Some (m, r) -> s = (m +s+ r)%string.
Proof.
  revert s m. induction k as [|k IH]; intros s m; [by intros [= <- <-] | ]. cbn [match_pairs].
  destruct s as [|a [|b [|c t]]]; try done. destruct (Ascii.eqb c ":") eqn:Ec.
  2: { destruct c as [[] [] [] [] [] [] [] []]; done. }
  apply Ascii.eqb_eq in Ec as ->. destruct (is_hex a && is_hex b); [ | done].
  destruct (match_pairs k t) as [[m' r']|] eqn:E; [ | done]. intros [= <- <-]. by rewrite (IH _ _ E) at 1.
Qed.

Lemma mac_leaves s :
  leaves mac_regex s = match match_pairs 5 s with Some (_, r) => leaves hex2 r | None => [] end.
Proof.
  change (leaves mac_regex s) with (times (leaves (Then hex2 (Chars (is_char ":")))) 5 0 s ≫= leaves hex2).
  rewrite pairs_leaves. destruct (match_pairs 5 s) as [[m r]|]; [ | done]. by rewrite bind_cons, app_nil_r.
Qed.

Lemma submatch_var name r p s :
  submatch (Var name r :: p) s = leaves r s ≫= fun t => prod_map (cons (name, front s t)) id <$> submatch p t.
Proof. done. Qed.

Lemma submatch_lit l p s :
  submatch (Lit l :: p) s = match strip l s with Some t => submatch p t | None => [] end.
Proof. done. Qed.

Definition pair_groups (x : string * string) : list (string * string) := [("mac"%string, x.1); ("ip"%string, x.2)].

Lemma ip_groups s :
  fst <$> head (submatch [Var "ip" ip_regex] s) = (fun i => [("ip"%string, i)]) <$> match_ip 3 s.
Proof.
  rewrite match_ip_rest, submatch_var. change (leaves ip_regex s) with (ip_rest 3 s).
  by destruct (ip_rest 3 s) as [|t l].
Qed.

Lemma submatch_assign s :
  fst <$> head (submatch assign_regex s) = pair_groups <$> match_assign s.
Proof.
  unfold match_assign, assign_regex. rewrite submatch_var, mac_leaves.
  destruct (match_pairs 5 s) as [[m r]|] eqn:E; [ | done]. rewrite hex2_leaves. destruct r as [|a [|b r]]; try done.
  assert (Hs : s = ((m +s+ String a (String b EmptyString)) +s+ r)%string).
  { rewrite (match_pairs_app _ _ _ _ E), <- sapp_assoc. done. }
  destruct (is_hex a && is_hex b).
  2: { destruct r as [|c r]; [done | ]. by destruct c as [[] [] [] [] [] [] [] []]. }
  rewrite bind_cons, app_nil_r, submatch_lit. destruct r as [|c r]; [done | ]. cbn [strip]. destruct (Ascii.eqb ":" c) eqn:Ec.
  2: { destruct c as [[] [] [] [] [] [] [] []]; done. }
  apply Ascii.eqb_eq in Ec as <-. pose proof (ip_groups r) as Hg.
  destruct (submatch [Var "ip" ip_regex] r) as [|[g t] l]; destruct (match_ip 3 r) as [i|]; try done.
  assert (g = [("ip"%string, i)]) as -> by (by injection Hg). rewrite Hs at 1. rewrite front_app. done.
Qed.

(** C37: [AssignIP] parses an assignment as its regular expression says: the
    matcher of the configuration finds, in every text, the leftmost match of
    [((?:[0-9A-Fa-f]{2}:){5}[0-9A-Fa-f]{2}):((?:[0-9]{1,3}.){3}(?:[0-9]{1,3}))]
    that Go prefers, with the same groups, or none when there is none. *)
Theorem find_assign_regexp s : FindStringSubmatch assign_regex s = pair_groups <$> find_assign s.
Proof.
  induction s as [|c s IH]; cbn [FindStringSubmatch find_assign].
  - done.
  - pose proof (submatch_assign (String c s)) as H. destruct (submatch assign_regex (String c s)) as [|[g t] l].
    + destruct (match_assign (String c s)); [done | exact IH].
    + destruct (match_assign (String c s)) as [x|]; [ | done]. cbn in H. by injection H as ->.
Qed.
