(* ===== verification/Api.v ===== *)
(** * The REST API: leases and option overrides (src/api.go, src/utils.go)

    The handlers that look leases up, release them and edit option overrides.
    A handler takes the path variables and the decoded body of a request and
    returns its response, a status and the data it encodes as JSON; the router
    and the JSON text are not modelled.  A body is the result of the decoder:
    the options, or the error text. *)

From S2P Require Import Prelude GoStd GoNet Pool GoCache Dhcp4 Database Utils Handler Interface.
From S2P Require Import Scope Lab Discover Request.

Definition StatusOK : Z := 200.
Definition StatusBadRequest : Z := 400.
Definition StatusNotFound : Z := 404.
Definition StatusInternalServerError : Z := 500.

Record Node := mkNode { node_Mac : string; node_IP : string; node_EndsAt : Z }.

Record Info := mkInfo { info_Status : string; info_Mac : string; info_Network : string }.

(** The statistics of a network. *)
Record Stats := mkStats {
  EthernetName : string;
  Net : string;
  Free : Z;
  PercentFree : Z;
  Used : Z;
  PercentUsed : Z;
  Category : string;
  st_Options : gmap string string;
  Members : list Node;
  st_Status : string;
  Size : Z
}.

Record ApiReq := mkApiReq {
  Req : string;
  req_NetInterface : string;
  req_NetWork : string;
  req_Mac : string;
  req_Role : string
}.

(** A section of the configuration file, and the file, as the API shows them. *)
Record ConfigSection := mkConfigSection {
  cs_Network : string;
  DNS : string;
  Gateway : string;
  DHCPStart : string;
  DHCPEnd : string;
  Netmask : string;
  DomainName : string;
  DHCPDefaultLeaseTime : string;
  DHCPMaxLeaseTime : string;
  DHCPEnabled : string;
  IPReserved : string;
  IPAssigned : string;
  Algorithm : string;
  NextHop : string
}.

Record ConfigResponse := mkConfigResponse {
  Interfaces : list string;
  Relay : list string;
  Networks : list ConfigSection
}.

(** The data of a response. *)
Inductive body :=
| BError (msg : string)
| BNode (n : Node)
| BInfo (i : Info)
| BSaved (kind target : string) (options : list DHCPOption)
| BRemoved (kind target : string)
| BOverrides (count : Z) (overrides : list OptionOverride)
| BOverride (o : OptionOverride)
| BStats (stats : option (list Stats))
| BItems (items : list Stats) (status : string)
| BConfig (c : ConfigResponse)
| BMessage (status message : string).

Record response := mkResponse { status : Z; content : body }.

Definition Error (msg : string) (code : Z) : response := mkResponse code (BError msg).

Section Api.

Context {CZ : GoCache Z} {CS : GoCache string} {SQL : SqlDB} {JSON : JSONCodec}.

(** ** Leases *)

Definition handleIP2Mac (now : Z) (GlobalIpCache : cache string) (ip : string) : response :=
  match GetWithExpiration now GlobalIpCache ip with
  | Some (index, expiresAt) => mkResponse StatusOK (BNode (mkNode index ip expiresAt))
  | None => Error "Cannot find match for this IP address" StatusNotFound
  end.

Definition handleMac2Ip (now : Z) (GlobalMacCache : cache string) (mac : string) : response :=
  match GetWithExpiration now GlobalMacCache mac with
  | Some (index, expiresAt) => mkResponse StatusOK (BNode (mkNode mac index expiresAt))
  | None => Error "Cannot find match for this MAC address" StatusNotFound
  end.

(** One network of [InterfaceScopeFromMac]: the lease ends in three seconds. *)
Definition shorten (now : Z) (MAC : string) (v : Network) : Network :=
  let h := dhcpHandler v in
  match Get now (h_hwcache h) MAC with
  | Some x => mkNetwork (network v) (set_hwcache (Replace now (h_hwcache h) MAC x (3 * Second)).1 h)
  | None => v
  end.

Fixpoint scope_networks (now : Z) (MAC : string) (ip : IP) (nets : list Network) (NetWork : string)
    : list Network * string :=
  match nets with
  | [] => ([], NetWork)
  | v :: rest =>
      let '(v, NetWork) :=
        if Contains (network v) ip then (shorten now MAC v, IPNet_String (network v)) else (v, NetWork) in
      let '(rest, NetWork) := scope_networks now MAC ip rest NetWork in
      (v :: rest, NetWork)
  end.

Fixpoint scope_interfaces (now : Z) (MAC : string) (ip : IP) (ints : list (list Network))
    (NetWork : string) : list (list Network) * string :=
  match ints with
  | [] => ([], NetWork)
  | nets :: rest =>
      let '(nets, NetWork) := scope_networks now MAC ip nets NetWork in
      let '(rest, NetWork) := scope_interfaces now MAC ip rest NetWork in
      (nets :: rest, NetWork)
  end.

(** The networks of every interface of [DHCPConfig]. *)
Definition InterfaceScopeFromMac (now : Z) (GlobalMacCache : cache string)
    (intsNet : list (list Network)) (MAC : string) : list (list Network) * string :=
  match Get now GlobalMacCache MAC with
  | Some index => scope_interfaces now MAC (ParseIP index) intsNet EmptyString
  | None => (intsNet, EmptyString)
  end.

Definition handleReleaseIP (now : Z) (GlobalMacCache : cache string) (intsNet : list (list Network))
    (mac : string) : response * list (list Network) :=
  let '(intsNet, network) := InterfaceScopeFromMac now GlobalMacCache intsNet mac in
  if String.eqb network EmptyString then
    (Error "Cannot find an active lease for this MAC address" StatusNotFound, intsNet)
  else (mkResponse StatusOK (BInfo (mkInfo "ACK" mac network)), intsNet).

(** ** Option overrides *)

(** The loop that validates the options of a request. *)
Fixpoint validate (options : list DHCPOption) : option response :=
  match options with
  | [] => None
  | opt :: rest =>
      if (OptionCode opt <? 0) || (255 <? OptionCode opt) then
        Some (Error ("Invalid option code: " +s+ Itoa (OptionCode opt)) StatusBadRequest)
      else if String.eqb (OptionValue opt) EmptyString then
        Some (Error ("Empty value for option " +s+ Itoa (OptionCode opt)) StatusBadRequest)
      else validate rest
  end.

Definition save_response (kind target : string) (options : list DHCPOption) (r : store * error)
    : response * store :=
  match r with
  | (st, Some e) => (Error ("Failed to save option override: " +s+ e) StatusInternalServerError, st)
  | (st, None) => (mkResponse StatusOK (BSaved kind target options), st)
  end.

Definition handleOverrideNetworkOptions (now : Z) (st : store) (network : string)
    (body : list DHCPOption + string) : response * store :=
  match body with
  | inr e => (Error ("Invalid JSON: " +s+ e) StatusBadRequest, st)
  | inl options =>
      match validate options with
      | Some r => (r, st)
      | None => save_response "network" network options (SaveOptionOverride now st "network" network options)
      end
  end.

Definition handleOverrideOptions (now : Z) (st : store) (mac : string)
    (body : list DHCPOption + string) : response * store :=
  match body with
  | inr e => (Error ("Invalid JSON: " +s+ e) StatusBadRequest, st)
  | inl options =>
      match validate options with
      | Some r => (r, st)
      | None =>
          let mac := ToLower mac in
          save_response "mac" mac options (SaveOptionOverride now st "mac" mac options)
      end
  end.

Definition remove_response (kind label target : string) (r : store * error) : response * store :=
  match r with
  | (st, Some e) =>
      if String.eqb e ErrNoRows then
        (Error ("No option overrides found for " +s+ label +s+ " " +s+ target) StatusNotFound, st)
      else (Error ("Failed to delete option override: " +s+ e) StatusInternalServerError, st)
  | (st, None) => (mkResponse StatusOK (BRemoved kind target), st)
  end.

Definition handleRemoveNetworkOptions (st : store) (network : string) : response * store :=
  remove_response "network" "network" network (DeleteOptionOverride st "network" network).

Definition handleRemoveOptions (st : store) (mac : string) : response * store :=
  let mac := ToLower mac in
  remove_response "mac" "MAC" mac (DeleteOptionOverride st "mac" mac).

Definition handleListOptionOverrides (st : store) (overrideType : string) : response :=
  if negb (String.eqb overrideType EmptyString) && negb (String.eqb overrideType "network")
     && negb (String.eqb overrideType "mac") then
    Error "Invalid type parameter. Must be 'network' or 'mac'" StatusBadRequest
  else
    match ListOptionOverrides st overrideType with
    | (_, Some e) => Error ("Failed to list option overrides: " +s+ e) StatusInternalServerError
    | (overrides, None) => mkResponse StatusOK (BOverrides (Z.of_nat (length overrides)) overrides)
    end.

Definition handleGetOptionOverride (st : store) (overrideType target : string) : response :=
  if negb (String.eqb overrideType "network") && negb (String.eqb overrideType "mac") then
    Error "Invalid type. Must be 'network' or 'mac'" StatusBadRequest
  else
    let target := if String.eqb overrideType "mac" then ToLower target else target in
    match GetOptionOverride st overrideType target with
    | (_, Some e) => Error ("Failed to get option override: " +s+ e) StatusInternalServerError
    | (None, None) =>
        Error ("No option override found for " +s+ overrideType +s+ " " +s+ target) StatusNotFound
    | (Some override, None) => mkResponse StatusOK (BOverride override)
    end.

End Api.

(** ** Lemmas *)

Section Lemmas.

Context {CZ : GoCache Z} {LZ : GoCacheLaws Z} {CS : GoCache string} {LS : GoCacheLaws string}.

Lemma IPNet_String_not_empty n : IPNet_String n <> EmptyString.
Proof.
  unfold IPNet_String. destruct (networkNumberAndMask n) as [nn mask].
  assert (Hs : forall a b, (a +s+ "/" +s+ b)%string <> EmptyString) by (intros [|? ?] b; done).
  destruct nn as [|z nn]; [done | ]. destruct mask as [|k mask]; [done | ]. case_match; apply Hs.
Qed.

(** The loops visit every network once, independently. *)
Definition visit (now : Z) (MAC : string) (ip : IP) (v : Network) : Network :=
  if Contains (network v) ip then shorten now MAC v else v.

Definition last_match (ip : IP) (nets : list Network) (NetWork : string) : string :=
  foldl (fun n v => if Contains (network v) ip then IPNet_String (network v) else n) NetWork nets.

Lemma scope_networks_spec now MAC ip nets NetWork :
  scope_networks now MAC ip nets NetWork = (map (visit now MAC ip) nets, last_match ip nets NetWork).
Proof.
  revert NetWork. induction nets as [|v nets IH]; intros NetWork; cbn [scope_networks map]; [done | ].
  unfold visit at 1, last_match. cbn [foldl].
  destruct (Contains (network v) ip); rewrite IH; done.
Qed.

Lemma scope_interfaces_spec now MAC ip ints NetWork :
  scope_interfaces now MAC ip ints NetWork =
    (map (map (visit now MAC ip)) ints, last_match ip (mjoin ints) NetWork).
Proof.
  revert NetWork. induction ints as [|nets ints IH]; intros NetWork; cbn [scope_interfaces map]; [done | ].
  rewrite scope_networks_spec, IH. unfold last_match. cbn [mjoin list_join]. by rewrite foldl_app.
Qed.

Lemma last_match_found ip nets NetWork :
  (exists v, v ∈ nets /\ Contains (network v) ip = true) -> last_match ip nets NetWork <> EmptyString.
Proof.
  assert (Hkeep : forall nets n, n <> EmptyString -> last_match ip nets n <> EmptyString).
  { intros l. induction l as [|v l IH]; intros n Hn; [done | ]. unfold last_match. cbn [foldl].
    apply IH. case_match; [apply IPNet_String_not_empty | done]. }
  revert NetWork. induction nets as [|v nets IH]; intros NetWork (v0 & Hin & Hc).
  { by apply not_elem_of_nil in Hin. }
  unfold last_match. cbn [foldl]. apply elem_of_cons in Hin as [->|Hin].
  - rewrite Hc. apply Hkeep, IPNet_String_not_empty.
  - apply IH. by exists v0.
Qed.

Lemma shorten_spec now MAC v :
  let v' := shorten now MAC v in
  network v' = network v /\ h_available (dhcpHandler v') = h_available (dhcpHandler v) /\
  (forall t k, k <> MAC -> Get t (h_hwcache (dhcpHandler v')) k = Get t (h_hwcache (dhcpHandler v)) k) /\
  match Get now (h_hwcache (dhcpHandler v)) MAC with
  | Some x => forall t, Get t (h_hwcache (dhcpHandler v')) MAC = cached_until (now + 3 * Second) x t
  | None => v' = v
  end.
Proof.
  unfold shorten. destruct (Get now (h_hwcache (dhcpHandler v)) MAC) as [x|] eqn:G; [ | done].
  rewrite (replace_found _ _ _ x x) by done. simpl. split; [done | split; [done | split]].
  - intros t k Hk. apply get_set_ne. congruence.
  - intros t. by apply get_set_until.
Qed.

Lemma GetWithExpiration_None t (c : cache string) k : Get t c k = None -> GetWithExpiration t c k = None.
Proof. rewrite <- get_with_expiration_eq. by destruct (GetWithExpiration t c k). Qed.

(** ** Properties *)

(** Releasing a lease by the API cuts it to three seconds: in every network
    that contains the client's address the hardware-cache entry of the client,
    if it has one, expires three seconds later; the entries of other clients,
    the pools and the other networks are untouched. *)
Theorem release_shortens now gm ints MAC ip i nets j v :
  Get now gm MAC = Some ip -> ints !! i = Some nets -> nets !! j = Some v ->
  exists nets' v',
    (handleReleaseIP now gm ints MAC).2 !! i = Some nets' /\ nets' !! j = Some v' /\
    network v' = network v /\ h_available (dhcpHandler v') = h_available (dhcpHandler v) /\
    (forall t k, k <> MAC -> Get t (h_hwcache (dhcpHandler v')) k = Get t (h_hwcache (dhcpHandler v)) k) /\
    (forall x, Contains (network v) (ParseIP ip) = true ->
       Get now (h_hwcache (dhcpHandler v)) MAC = Some x ->
       forall t, Get t (h_hwcache (dhcpHandler v')) MAC = cached_until (now + 3 * Second) x t) /\
    (Contains (network v) (ParseIP ip) = false -> v' = v).
Proof.
  intros G Hi Hj. unfold handleReleaseIP, InterfaceScopeFromMac. rewrite G, scope_interfaces_spec.
  exists (map (visit now MAC (ParseIP ip)) nets), (visit now MAC (ParseIP ip) v).
  split; [ | split; [by rewrite list_lookup_fmap, Hj | ]].
  { case_match; cbn [snd]; by rewrite list_lookup_fmap, Hi. }
  unfold visit. destruct (Contains (network v) (ParseIP ip)) eqn:C.
  - pose proof (shorten_spec now MAC v) as (H1 & H2 & H3 & H4).
    do 3 (split; [done | ]). split; [ | done]. intros x _ Gx. by rewrite Gx in H4.
  - do 4 (split; [done | ]). done.
Qed.

(** The API reports a release that did not happen: when the global cache
    still knows the client's address, a network contains it and no such network
    has a live entry for the client, the request succeeds and nothing changes. *)
Theorem release_reports_nothing_released now gm ints MAC ip :
  Get now gm MAC = Some ip ->
  (exists v, v ∈ mjoin ints /\ Contains (network v) (ParseIP ip) = true) ->
  (forall v, v ∈ mjoin ints -> Contains (network v) (ParseIP ip) = true ->
     Get now (h_hwcache (dhcpHandler v)) MAC = None) ->
  exists n, handleReleaseIP now gm ints MAC = (mkResponse StatusOK (BInfo (mkInfo "ACK" MAC n)), ints).
Proof.
  intros G Hex Hnone. unfold handleReleaseIP, InterfaceScopeFromMac. rewrite G, scope_interfaces_spec.
  pose proof (last_match_found (ParseIP ip) (mjoin ints) EmptyString Hex) as Hne.
  apply String.eqb_neq in Hne. rewrite Hne. eexists. f_equal.
  rewrite <- (map_id ints) at 2. apply map_ext_in. intros nets Hnets.
  rewrite <- (map_id nets) at 2. apply map_ext_in. intros v Hv. unfold visit.
  destruct (Contains (network v) (ParseIP ip)) eqn:C; [ | done]. unfold shorten.
  rewrite Hnone; [done | | done]. apply list_elem_of_In in Hnets, Hv.
  apply list_elem_of_join. by exists nets.
Qed.

End Lemmas.

Section Lookup.

Context {CZ : GoCache Z} {LZ : GoCacheLaws Z} {CS : GoCache string} {LS : GoCacheLaws string}
  {SQL : SqlDB} {JSON : JSONCodec} {D4 : Dhcp4}.

(** Once a lease is acknowledged and until fifteen seconds after its end the
    API finds it both ways, by address and by hardware address, with the instant
    it ends; but only under the lower-case spelling of the hardware address,
    although the route accepts both: on a server with no other lease any other
    spelling is not found. *)
Theorem api_finds_lease e p x c t :
  0 <= h_leaseDuration (hdl c) -> t <= now e + (h_leaseDuration (hdl c) + 15 * Second) ->
  let c' := record_lease e p x c in
  let ends := now e + (h_leaseDuration (hdl c) + 15 * Second) in
  let node := mkNode (mac_of p) (IP_String (reqIP p)) ends in
  handleIP2Mac t (GlobalIpCache c') (IP_String (reqIP p)) = mkResponse StatusOK (BNode node) /\
  handleMac2Ip t (GlobalMacCache c') (mac_of p) = mkResponse StatusOK (BNode node) /\
  (forall k, k <> mac_of p -> Get t (GlobalMacCache c) k = None ->
     status (handleMac2Ip t (GlobalMacCache c') k) = StatusNotFound).
Proof.
  intros Hl Ht. cbn zeta. unfold handleIP2Mac, handleMac2Ip, record_lease. simpl.
  assert (Hd : 0 < h_leaseDuration (hdl c) + 15 * Second) by (unfold Second; lia).
  rewrite !get_with_expiration_set by done. split; [done | split; [done | ]].
  intros k Hk G. rewrite GetWithExpiration_None; [done | ]. by rewrite get_set_ne by congruence.
Qed.

End Lookup.

Section Overrides.

Context {SQL : SqlDB} {SQLL : SqlDBLaws} {JSON : JSONCodec} {JSONL : JSONLaws}.

Lemma apply_level_coherent st ty tg result :
  override_type ty -> cache_coherent st ->
  cache_coherent (apply_level st ty tg result).1 /\ db (apply_level st ty tg result).1 = db st.
Proof.
  intros Hty Hc. unfold apply_level. destruct (String.eqb tg ""); [done | ].
  pose proof (cachedGet_coherent st ty tg Hty Hc) as H1. pose proof (cachedGet_db st ty tg) as H2.
  destruct (cachedGetOptionOverride st ty tg) as [st' [o [er|]]]; simpl in *; [done | ].
  by destruct o.
Qed.

(** A POST that succeeds has saved its options. *)
Lemma posted_saved now st mac opts r st' :
  handleOverrideOptions now st mac (inl opts) = (r, st') -> status r = StatusOK ->
  validate opts = None /\ SaveOptionOverride now st "mac" (ToLower mac) opts = (st', None).
Proof.
  unfold handleOverrideOptions. destruct (validate opts) as [r0|] eqn:V.
  - intros [= -> ->] Hok. exfalso. induction opts as [|o opts IH]; cbn [validate] in V; [done | ].
    case_match; [by injection V as <- | ]. case_match; [by injection V as <- | auto].
  - destruct (SaveOptionOverride now st "mac" (ToLower mac) opts) as [st1 [er|]]; by intros [= <- <-].
Qed.

Lemma ToLower_not_empty s t : ToLower s = t -> s <> EmptyString -> t <> EmptyString.
Proof. intros <- Hs. by destruct s. Qed.

(** What a successful POST leaves for the client's next reply: whatever options it
    is built from, each posted option that converts is in the result. *)
Lemma posted_applied now st opts st' m options networkIP k v :
  cache_coherent st -> Forall ascii_option opts -> m <> EmptyString ->
  SaveOptionOverride now st "mac" m opts = (st', None) -> overridden opts k = Some v ->
  (ApplyOptionOverrides st' options networkIP m).2 !! k = Some v.
Proof.
  intros Hc Ha Hne Sv Hk. destruct (Save_ok_shape now st "mac" m opts st' Ha Sv) as (o & Hg & _ & _ & Ho & _).
  assert (Hc1 : cache_coherent st').
  { pose proof (Save_coherent now st "mac" m opts ltac:(by right) Hc) as H. by rewrite Sv in H. }
  unfold ApplyOptionOverrides.
  destruct (apply_level_coherent st' "network" networkIP options ltac:(by left) Hc1) as [Hc2 Hdb].
  destruct (apply_level st' "network" networkIP options) as [st2 res]. simpl in Hc2, Hdb.
  assert (Hg2 : GetOptionOverride st2 "mac" m = (Some o, None)).
  { rewrite <- Hg. destruct st2 as [d2 c2]. simpl in Hdb. apply GetOptionOverride_ext. by rewrite Hdb. }
  pose proof (apply_level_lookup st2 "mac" m (Some o) res k ltac:(by right) Hc2 Hne Hg2) as Hr.
  destruct (apply_level st2 "mac" m res) as [st3 res3].
  destruct Hr as (_ & _ & Hr). simpl in *. by rewrite Hr, Ho, Hk.
Qed.

Lemma validate_ok opts :
  validate opts = None -> Forall (fun o => 0 <= OptionCode o <= 255 /\ OptionValue o <> EmptyString) opts.
Proof.
  intros V. induction opts as [|o opts IH]; [apply Forall_nil_2 | ]. cbn [validate] in V.
  destruct ((OptionCode o <? 0) || (255 <? OptionCode o)) eqn:B; [done | ].
  destruct (String.eqb_spec (OptionValue o) EmptyString) as [|Hv]; [done | ].
  apply Forall_cons. split; [ | auto]. apply orb_false_elim in B as [B1 B2]. zbool. split; [lia | done].
Qed.

Context {CZ : GoCache Z} {CS : GoCache string} {D4 : Dhcp4} {LD : Dhcp4Laws}.

(** Which of the options [G] of a reply are sent. *)
Lemma sent_iff (G : Options) k v :
  G !! k = Some v ->
  (k, v) ∈ SelectOrderOrAll G (G !! OptionParameterRequestList) <->
  (forall order, G !! OptionParameterRequestList = Some order -> k ∈ order).
Proof.
  intros Hk. destruct (G !! OptionParameterRequestList) as [order|].
  - rewrite select_order. split; [by intros [H _] order' [= <-] | by auto].
  - rewrite select_all. by split; [intros _ order | ].
Qed.

(** C25: an override posted for a hardware address, in any letter case, reaches the
    client.  When the POST of options in ASCII succeeds the options are valid, a GET
    in any case returns them, and the next OFFER or ACK built for the client (with a
    hardware address of at least six bytes), from any scope and whatever its network's
    overrides say, has an option set [G] with every posted option that converts.  Such
    an option is in the packet if and only if [G] has no parameter request list
    (option 55) or has one that names it: a posted override of option 55 leaves out
    every option it does not list. *)
Theorem posted_override_served now st mac opts r st' p e mt c networkIP ip :
  cache_coherent st -> Forall ascii_option opts ->
  handleOverrideOptions now st mac (inl opts) = (r, st') -> status r = StatusOK ->
  ToLower mac = mac_of p -> mac <> EmptyString -> (6 <= length (CHAddr p))%nat -> overrides c = st' ->
  (exists o, handleGetOptionOverride st' "mac" mac = mkResponse StatusOK (BOverride o) /\ ov_Options o = opts) /\
  Forall (fun o => 0 <= OptionCode o <= 255 /\ OptionValue o <> EmptyString) opts /\
  exists c' G,
    let sent := SelectOrderOrAll G (G !! OptionParameterRequestList) in
    reply_packet e p mt c networkIP ip =
      (c', Ret (ReplyPacket p mt (To4 (h_ip (hdl c))) ip (h_leaseDuration (hdl c)) sent)) /\
    (forall k v, overridden opts k = Some v -> G !! k = Some v /\
       ((k, v) ∈ sent <-> forall order, G !! OptionParameterRequestList = Some order -> k ∈ order)).
Proof.
  intros Hc Ha Hpost Hok Hmac Hne Hl Hst. apply posted_saved in Hpost as [V Sv]; [ | done]. rewrite Hmac in Sv.
  destruct (Save_ok_shape now st "mac" (mac_of p) opts st' Ha Sv) as (o & Hg & _ & _ & Ho & _).
  split; [ | split; [by apply validate_ok | ]].
  - exists o. split; [ | done]. unfold handleGetOptionOverride. cbn [String.eqb Ascii.eqb negb andb].
    simpl. by rewrite Hmac, Hg.
  - unfold reply_packet, buildReplyOptions. rewrite Hst.
    destruct (lookup_lt_is_Some_2 (CHAddr p) 5 ltac:(lia)) as [seed ->].
    set (base := map_imap _ _).
    pose proof (fun k v => posted_applied now st opts st' (mac_of p) base networkIP k v Hc Ha
      (ToLower_not_empty mac _ Hmac Hne) Sv) as HG.
    destruct (ApplyOptionOverrides st' base networkIP (mac_of p)) as [st2 G]. simpl in HG.
    exists (set_overrides st2 c), G. split; [done | ]. intros k v Hk. specialize (HG k v Hk).
    split; [done | by apply sent_iff].
Qed.

End Overrides.

(** ** Witnesses *)

Section Witnesses.

Import Wire Mem.

Definition w_gm : cache string := SetItem lab_t (New 0 0) w_mac "192.168.1.12"%string (3600 * Second).
Definition w_network (h : DHCPHandler) : Network := mkNetwork (mkIPNet [192; 168; 1; 0] [255; 255; 255; 0]) h.

Lemma release_shortens_witness :
  exists nets' v',
    (handleReleaseIP lab_t w_gm [[w_network (lab_leased 2 (lab_t + 3600 * Second))]] w_mac).2 !! 0%nat = Some nets' /\
    nets' !! 0%nat = Some v' /\
    forall t, Get t (h_hwcache (dhcpHandler v')) w_mac = cached_until (lab_t + 3 * Second) 2 t.
Proof.
  destruct (release_shortens lab_t w_gm [[w_network (lab_leased 2 (lab_t + 3600 * Second))]] w_mac
    "192.168.1.12" 0 [w_network (lab_leased 2 (lab_t + 3600 * Second))] 0
    (w_network (lab_leased 2 (lab_t + 3600 * Second))))
    as (nets' & v' & H1 & H2 & _ & _ & _ & H3 & _); [by vm_compute | done | done | ].
  exists nets', v'. split; [exact H1 | split; [exact H2 | ]]. apply H3; by vm_compute.
Defined.

Lemma release_reports_nothing_released_witness :
  exists n, handleReleaseIP lab_t w_gm [[w_network (lab_scope lab_pool ∅)]] w_mac =
    (mkResponse StatusOK (BInfo (mkInfo "ACK" w_mac n)), [[w_network (lab_scope lab_pool ∅)]]).
Proof.
  apply (release_reports_nothing_released lab_t w_gm [[w_network (lab_scope lab_pool ∅)]] w_mac "192.168.1.12").
  - by vm_compute.
  - exists (w_network (lab_scope lab_pool ∅)). split; [left | by vm_compute].
  - intros v Hv _. apply list_elem_of_singleton in Hv as ->. reflexivity.
Defined.

Lemma api_finds_lease_witness :
  status (handleMac2Ip lab_t (GlobalMacCache (record_lease (lab_env lab_t) w_ask 2 w_leased)) (mac_of w_ask))
    = StatusOK.
Proof.
  destruct (api_finds_lease (lab_env lab_t) w_ask 2 w_leased lab_t) as (_ & H & _);
    [by vm_compute | by vm_compute | ]. rewrite H. reflexivity.
Defined.

(** The client's address in upper case; an ACK is built for it. *)
Definition w_owner : Packet := lab_packet [170; 187; 204; 221; 238; 255] lab_xid [].
Definition w_posted := handleOverrideOptions 10 w_store "AA:BB:CC:DD:EE:FF" (inl [w_lease]).

Lemma posted_override_served_witness :
  exists c' G, reply_packet (lab_env lab_t) w_owner ACK (set_overrides w_posted.2 w_fresh) "192.168.1.0" [192; 168; 1; 12]
      = (c', Ret (ReplyPacket w_owner ACK [192; 168; 1; 1] [192; 168; 1; 12] (3600 * Second)
                    (SelectOrderOrAll G (G !! OptionParameterRequestList)))) /\
    G !! 51 = Some (be32 7200).
Proof.
  destruct (posted_override_served 10 w_store "AA:BB:CC:DD:EE:FF" [w_lease] w_posted.1 w_posted.2 w_owner
    (lab_env lab_t) ACK (set_overrides w_posted.2 w_fresh) "192.168.1.0" [192; 168; 1; 12])
    as (_ & _ & c' & G & H1 & H2).
  - apply w_store_coherent.
  - apply Forall_singleton. by split.
  - apply surjective_pairing.
  - vm_compute. reflexivity.
  - vm_compute. reflexivity.
  - discriminate.
  - apply Nat.leb_le. vm_compute. reflexivity.
  - reflexivity.
  - exists c', G. split; [exact H1 | ]. apply H2. vm_compute. reflexivity.
Defined.

End Witnesses.
