(* ===== verification/Dictionary.v ===== *)
(** * The option dictionary: src/dictionary.go

    The table of DHCP options, and how the API prints the value of each: one
    [DataType] per Go type that implements the interface of that name. *)

From S2P Require Import Prelude GoStd GoNet Pool GoCache Dhcp4 Database Utils.

(** ** Data types *)

(** The implementations of the interface [DataType]. *)
Inductive DataType :=
| tlvIpAddr | tlvNstring | tlvBlob | tlvSTime | tlvZeroSize | tlvShort | tlvBool
| tlvRangeShort | tlvOverload | tlvMessage | tlvInt8 | TlvTypeCn | tlvRangeByte.

(** What [Value] returns as [interface{}]. *)
Inductive tlv_value := VBytes (a : bytes) | VBool (b : bool).

Definition first_byte (a : bytes) : exec Z := match a with b :: _ => Ret b | [] => Panic end.

Definition tlv_Value (d : DataType) (a : bytes) : exec tlv_value :=
  match d with
  | tlvBool => exec_bind (first_byte a) (fun b => Ret (VBool (b =? 1)))
  | _ => Ret (VBytes a)
  end.

(** The loop of [tlvIpAddrt.String]: [temp] is the one buffer of four bytes,
    [i] the next position in it, [j] is 1 once an address has been printed. *)
Fixpoint ip_loop (a : bytes) (temp : bytes) (i : nat) (j : Z) (IPS : string) : string :=
  match a with
  | [] => IPS
  | x :: a =>
      let temp := <[i := x]> temp in
      let i := S i in
      if (i =? 4)%nat then
        if j =? 0 then ip_loop a temp 0 (j + 1) (IP_String temp)
        else ip_loop a temp 0 j (IPS +s+ "," +s+ IP_String temp)%string
      else ip_loop a temp i j IPS
  end.

Definition tlvIpAddr_String (a : bytes) : string := ip_loop a [0; 0; 0; 0] 0 0 EmptyString.

Definition tlvBool_String (a : bytes) : exec string :=
  exec_bind (first_byte a) (fun b => Ret (if b =? 1 then "1"%string else "0"%string)).

Definition tlvInt8_String (a : bytes) : string :=
  match a with b :: _ => Utoa b | [] => "0"%string end.

(** The method [String] of each type. *)
Definition tlv_String (d : DataType) (a : bytes) : exec string :=
  match d with
  | tlvIpAddr => Ret (tlvIpAddr_String a)
  | tlvNstring | tlvSTime => Ret (string_of_bytes a)
  | tlvBool => tlvBool_String a
  | tlvInt8 => Ret (tlvInt8_String a)
  | tlvBlob | tlvZeroSize | tlvShort | tlvRangeShort | tlvOverload | tlvMessage
  | TlvTypeCn | tlvRangeByte => Ret "string"%string
  end.

(** ** The table *)

Record TlvType := mkTlvType { tlv_Option : string; Decode : DataType }.

Definition Tlv_entries : list (Z * TlvType) :=
  [(0, mkTlvType "Pad" tlvIpAddr);
   (1, mkTlvType "OptionSubnetMask" tlvIpAddr);
   (2, mkTlvType "OptionTimeOffset" tlvSTime);
   (3, mkTlvType "OptionRouter" tlvIpAddr);
   (4, mkTlvType "OptionTimeServer" tlvIpAddr);
   (5, mkTlvType "OptionNameServer" tlvIpAddr);
   (6, mkTlvType "OptionDomainNameServer" tlvIpAddr);
   (7, mkTlvType "OptionLogServer" tlvIpAddr);
   (8, mkTlvType "OptionCookieServer" tlvIpAddr);
   (9, mkTlvType "OptionLPRServer" tlvIpAddr);
   (10, mkTlvType "OptionImpressServer" tlvIpAddr);
   (11, mkTlvType "OptionResourceLocationServer" tlvIpAddr);
   (12, mkTlvType "OptionHostName" tlvNstring);
   (13, mkTlvType "OptionBootFileSize" tlvShort);
   (14, mkTlvType "OptionMeritDumpFile" tlvNstring);
   (15, mkTlvType "OptionDomainName" tlvNstring);
   (16, mkTlvType "OptionSwapServer" tlvIpAddr);
   (17, mkTlvType "OptionRootPath" tlvNstring);
   (18, mkTlvType "OptionExtensionsPath" tlvNstring);
   (19, mkTlvType "OptionIPForwardingEnableDisable" tlvBool);
   (20, mkTlvType "OptionNonLocalSourceRoutingEnableDisable" tlvBool);
   (21, mkTlvType "OptionPolicyFilter" tlvIpAddr);
   (22, mkTlvType "OptionMaximumDatagramReassemblySize" tlvShort);
   (23, mkTlvType "OptionDefaultIPTimeToLive" tlvRangeByte);
   (24, mkTlvType "OptionPathMTUAgingTimeout" tlvSTime);
   (25, mkTlvType "OptionPathMTUPlateauTable" tlvRangeShort);
   (26, mkTlvType "OptionInterfaceMTU" tlvRangeShort);
   (27, mkTlvType "OptionAllSubnetsAreLocal" tlvBool);
   (28, mkTlvType "OptionBroadcastAddress" tlvIpAddr);
   (29, mkTlvType "OptionPerformMaskDiscovery" tlvBool);
   (30, mkTlvType "OptionMaskSupplier" tlvBool);
   (31, mkTlvType "OptionPerformRouterDiscovery" tlvBool);
   (32, mkTlvType "OptionRouterSolicitationAddress" tlvIpAddr);
   (33, mkTlvType "OptionStaticRoute" tlvIpAddr);
   (34, mkTlvType "OptionTrailerEncapsulation" tlvBool);
   (35, mkTlvType "OptionARPCacheTimeout" tlvSTime);
   (36, mkTlvType "OptionEthernetEncapsulation" tlvBool);
   (37, mkTlvType "OptionTCPDefaultTTL" tlvRangeByte);
   (38, mkTlvType "OptionTCPKeepaliveInterval" tlvSTime);
   (39, mkTlvType "OptionTCPKeepaliveGarbage" tlvBool);
   (40, mkTlvType "OptionNetworkInformationServiceDomain" tlvNstring);
   (41, mkTlvType "OptionNetworkInformationServers" tlvIpAddr);
   (42, mkTlvType "OptionNetworkTimeProtocolServers" tlvIpAddr);
   (43, mkTlvType "OptionVendorSpecificInformation" tlvBlob);
   (44, mkTlvType "OptionNetBIOSOverTCPIPNameServer" tlvIpAddr);
   (45, mkTlvType "OptionNetBIOSOverTCPIPDatagramDistributionServer" tlvIpAddr);
   (46, mkTlvType "OptionNetBIOSOverTCPIPNodeType" tlvRangeByte);
   (47, mkTlvType "OptionNetBIOSOverTCPIPScope" tlvNstring);
   (48, mkTlvType "OptionXWindowSystemFontServer" tlvIpAddr);
   (49, mkTlvType "OptionXWindowSystemDisplayManager" tlvIpAddr);
   (50, mkTlvType "OptionRequestedIPAddress" tlvIpAddr);
   (51, mkTlvType "OptionIPAddressLeaseTime" tlvSTime);
   (52, mkTlvType "OptionOverload" tlvOverload);
   (53, mkTlvType "OptionDHCPMessageType" tlvMessage);
   (54, mkTlvType "OptionServerIdentifier" tlvIpAddr);
   (55, mkTlvType "OptionParameterRequestList" tlvInt8);
   (56, mkTlvType "OptionMessage" tlvNstring);
   (57, mkTlvType "OptionMaximumDHCPMessageSize" tlvShort);
   (58, mkTlvType "OptionRenewalTimeValue" tlvSTime);
   (59, mkTlvType "OptionRebindingTimeValue" tlvSTime);
   (60, mkTlvType "OptionVendorClassIdentifier" tlvSTime);
   (61, mkTlvType "OptionClientIdentifier" tlvBlob);
   (62, mkTlvType "OptionNetwareIPDomain" tlvNstring);
   (63, mkTlvType "OptionNetwareIPInformation" tlvBlob);
   (64, mkTlvType "OptionNetworkInformationServicePlusDomain" tlvNstring);
   (65, mkTlvType "OptionNetworkInformationServicePlusServers" tlvIpAddr);
   (66, mkTlvType "OptionTFTPServerName" tlvNstring);
   (67, mkTlvType "OptionBootFileName" tlvNstring);
   (68, mkTlvType "OptionMobileIPHomeAgent" tlvIpAddr);
   (69, mkTlvType "OptionSimpleMailTransportProtocol" tlvIpAddr);
   (70, mkTlvType "OptionPostOfficeProtocolServer" tlvIpAddr);
   (71, mkTlvType "OptionNetworkNewsTransportProtocol" tlvIpAddr);
   (72, mkTlvType "OptionDefaultWorldWideWebServer" tlvIpAddr);
   (73, mkTlvType "OptionDefaultFingerServer" tlvIpAddr);
   (74, mkTlvType "OptionDefaultInternetRelayChatServer" tlvIpAddr);
   (75, mkTlvType "OptionStreetTalkServer" tlvIpAddr);
   (76, mkTlvType "OptionStreetTalkDirectoryAssistance" tlvIpAddr);
   (77, mkTlvType "OptionUserClass" TlvTypeCn);
   (82, mkTlvType "OptionRelayAgentInformation" tlvBlob);
   (93, mkTlvType "OptionClientArchitecture" tlvShort);
   (100, mkTlvType "OptionTZPOSIXString" tlvNstring);
   (101, mkTlvType "OptionTZDatabaseString" tlvNstring);
   (121, mkTlvType "OptionClasslessRouteFormat" tlvBlob);
   (255, mkTlvType "end" tlvZeroSize)]%string.

Definition Tlvlist : gmap Z TlvType := list_to_map Tlv_entries.

(** [Tlv.Tlvlist[int(option)].Decode.String(value)]: an option that is not in
    the table has the zero [TlvType], whose [Decode] is a nil interface. *)
Definition Tlv_decode (option : Z) (value : bytes) : exec string :=
  match Tlvlist !! option with
  | Some t => tlv_String (Decode t) value
  | None => Panic
  end.

(** ** Lemmas *)

(** The text of a list of addresses. *)
Definition addr_list (l : list IP) : string := Join (map IP_String l) ",".

(** What follows addresses already printed. *)
Definition addr_rest (l : list IP) : string :=
  match l with [] => EmptyString | _ => ("," +s+ addr_list l)%string end.

Lemma addr_list_rest ip l : addr_list (ip :: l) = (IP_String ip +s+ addr_rest l)%string.
Proof. destruct l as [|ip' l]; [by rewrite sapp_nil_r | done]. Qed.

Lemma addr_rest_cons ip l : addr_rest (ip :: l) = ("," +s+ IP_String ip +s+ addr_rest l)%string.
Proof. cbn [addr_rest]. by rewrite addr_list_rest. Qed.

Lemma chunks4_cons a0 a1 a2 a3 a : chunks4 (a0 :: a1 :: a2 :: a3 :: a) = [a0; a1; a2; a3] :: chunks4 a.
Proof. done. Qed.

(** At the start of an address the contents of the buffer do not matter: the
    four positions are overwritten before they are printed. *)
Lemma ip_loop_rest n a temp IPS :
  (length a <= n)%nat -> length temp = 4%nat ->
  ip_loop a temp 0 1 IPS = (IPS +s+ addr_rest (chunks4 a))%string.
Proof.
  revert a temp IPS. induction n as [|n IH]; intros a temp IPS Hn Ht.
  { destruct a; [by rewrite sapp_nil_r | simpl in Hn; lia]. }
  destruct temp as [|t0 [|t1 [|t2 [|t3 [|? ?]]]]]; try done.
  destruct a as [|a0 [|a1 [|a2 [|a3 a]]]]; [by rewrite sapp_nil_r.. | ].
  change (ip_loop (a0 :: a1 :: a2 :: a3 :: a) [t0; t1; t2; t3] 0 1 IPS) with
    (ip_loop a [a0; a1; a2; a3] 0 1 (IPS +s+ "," +s+ IP_String [a0; a1; a2; a3])%string).
  rewrite IH by (simpl in *; lia || done).
  rewrite chunks4_cons, addr_rest_cons. by rewrite !sapp_assoc'.
Qed.

Lemma tlvIpAddr_String_spec a : tlvIpAddr_String a = addr_list (chunks4 a).
Proof.
  unfold tlvIpAddr_String. destruct a as [|a0 [|a1 [|a2 [|a3 a]]]]; try done.
  change (ip_loop (a0 :: a1 :: a2 :: a3 :: a) [0; 0; 0; 0] 0 0 EmptyString) with
    (ip_loop a [a0; a1; a2; a3] 0 1 (IP_String [a0; a1; a2; a3])).
  rewrite (ip_loop_rest (length a)) by done.
  by rewrite chunks4_cons, addr_list_rest.
Qed.

(** The value of a list of addresses prints as that list. *)
Lemma tlvIpAddr_String_join l :
  Forall (fun ip => length ip = 4%nat) l -> tlvIpAddr_String (mjoin l) = addr_list l.
Proof. intros H. by rewrite tlvIpAddr_String_spec, chunks4_join. Qed.

(** The options the table prints as addresses, as text and so on. *)
Lemma Tlv_decode_ip option value :
  Decode <$> Tlvlist !! option = Some tlvIpAddr -> Tlv_decode option value = Ret (tlvIpAddr_String value).
Proof. unfold Tlv_decode. destruct (Tlvlist !! option) as [t|]; [ | done]. simpl. by intros [= ->]. Qed.

Lemma Tlv_decode_text option value :
  Decode <$> Tlvlist !! option = Some tlvNstring -> Tlv_decode option value = Ret (string_of_bytes value).
Proof. unfold Tlv_decode. destruct (Tlvlist !! option) as [t|]; [ | done]. simpl. by intros [= ->]. Qed.

(** ** Properties *)

(** The printer of address options, which fills one buffer of four bytes over
    and over, prints exactly the addresses the value consists of, in order and
    separated by commas: it agrees with cutting the value in pieces of four
    bytes and printing each.  Bytes left over at the end are ignored. *)
Theorem tlvIpAddr_String_chunks a : tlvIpAddr_String a = Join (map IP_String (chunks4 a)) ",".
Proof. apply tlvIpAddr_String_spec. Qed.

(** Printing an option panics in exactly two cases: the option is not in the
    table, or the table has it as a boolean and its value is empty.  Every other
    value, however malformed, is printed. *)
Theorem Tlv_decode_panics option value :
  Tlv_decode option value = Panic <->
    Tlvlist !! option = None \/ (Decode <$> Tlvlist !! option = Some tlvBool /\ value = []).
Proof.
  unfold Tlv_decode. destruct (Tlvlist !! option) as [[name d]|]; cbn [fmap option_fmap option_map Decode].
  2: { split; auto. }
  split.
  - destruct d; try done. destruct value; [by right | done].
  - intros [H|[[= ->] ->]]; done.
Qed.
