(* ===== verification/GoFloat.v ===== *)
(** * Go's float64

    What the server uses of floating point: the conversion of an [int] to
    [float64], division, multiplication and the conversion back, which
    truncates.  [float64] is IEEE 754 binary64 with rounding to nearest even,
    here the specification of the Standard Library, which computes on integers;
    a rounding-error bound is proved for one rounding and composed. *)

From S2P Require Import Prelude.
From Stdlib Require Import SpecFloat.

(** ** Operations *)

Definition prec : Z := 53.
Definition emax : Z := 1024.

Definition float64 (n : Z) : spec_float := binary_normalize prec emax n 0 false.
Definition fdiv : spec_float -> spec_float -> spec_float := SFdiv prec emax.
Definition fmul : spec_float -> spec_float -> spec_float := SFmul prec emax.

(** The conversion to [int] discards the fraction.  Go leaves it to the
    implementation for a NaN, an infinity or a value [int] cannot hold: [other]. *)
Definition float_to_int (other : spec_float -> Z) (f : spec_float) : Z :=
  match f with
  | S754_zero _ => 0
  | S754_finite s m e =>
      let a := if 0 <=? e then Zpos m * 2 ^ e else Zpos m / 2 ^ (- e) in
      let v := if s then - a else a in
      if (- 2 ^ 63 <=? v) && (v <=? MaxInt) then v else other f
  | _ => other f
  end.

(** ** One rounding *)

(** Case analysis on the comparisons of the goal. *)
Ltac zcases :=
  repeat match goal with
  | |- context [?a <=? ?b] => destruct (Z.leb_spec a b)
  | |- context [?a =? ?b] => destruct (Z.eqb_spec a b)
  end; try lia; try done.

(** The record of a quotient [N / D]: integer part, first bit of the fraction,
    whether other bits follow. *)
Definition quotient (N D : Z) : shr_record :=
  Build_shr_record (N / D) (D <=? 2 * (N mod D)) (negb ((2 * (N mod D)) mod D =? 0)).

Lemma quotient_1 N : quotient N 1 = shr_record_of_loc N loc_Exact.
Proof. unfold quotient. rewrite Z.mod_1_r, Z.div_1_r. done. Qed.

(** The remainder against half of the divisor. *)
Lemma double_mod r D : 0 <= r < D -> (2 * r) mod D = if D <=? 2 * r then 2 * r - D else 2 * r.
Proof.
  intros H. destruct (Z.leb_spec D (2 * r)).
  - symmetry. apply Z.mod_unique_pos with 1; lia.
  - apply Z.mod_small. lia.
Qed.

Lemma quotient_location N D :
  0 < D -> quotient N D = shr_record_of_loc (N / D) (new_location D (N mod D)).
Proof.
  intros HD. pose proof (Z.mod_pos_bound N D HD) as Hr. unfold quotient. rewrite double_mod by done.
  set (r := N mod D) in *. unfold new_location, new_location_even, new_location_odd.
  destruct (Z.even D) eqn:Ev; destruct (Z.eqb_spec r 0) as [->|Hr0].
  - rewrite Z.mul_0_r. zcases.
  - destruct (Z.compare_spec (2 * r) D); zcases.
  - rewrite Z.mul_0_r. zcases.
  - assert (Ho : 2 * r <> D).
    { intros E. rewrite <- E in Ev. rewrite Z.even_mul in Ev. done. }
    destruct (Z.compare_spec (2 * r + 1) D); zcases.
Qed.

(** The two halves of a positive number. *)
Lemma div2_odd p : Zpos p~1 / 2 = Zpos p.
Proof. symmetry. apply Z.div_unique with 1; lia. Qed.
Lemma mod2_odd p : Zpos p~1 mod 2 = 1.
Proof. symmetry. apply Z.mod_unique with (Zpos p); lia. Qed.
Lemma div2_even p : Zpos p~0 / 2 = Zpos p.
Proof. symmetry. apply Z.div_unique with 0; lia. Qed.
Lemma mod2_even p : Zpos p~0 mod 2 = 0.
Proof. symmetry. apply Z.mod_unique with (Zpos p); lia. Qed.

(** Shifting by one bit doubles the divisor. *)
Lemma shr_1_quotient N D : 0 <= N -> 0 < D -> shr_1 (quotient N D) = quotient N (2 * D).
Proof.
  intros HN HD. pose proof (Z.mod_pos_bound N D HD) as Hr.
  pose proof (Z.div_pos N D HN HD) as Hq. pose proof (Z.div_mod N D ltac:(lia)) as Hdm.
  set (q := N / D) in *. set (r := N mod D) in *.
  assert (Hd2 : N / (2 * D) = q / 2).
  { rewrite Z.mul_comm. by rewrite <- Z.div_div by lia. }
  assert (Hm2 : N mod (2 * D) = D * (q mod 2) + r).
  { rewrite (Z.mul_comm 2 D), Z.rem_mul_r by lia. fold q r. lia. }
  assert (Hq2 : q mod 2 = 0 \/ q mod 2 = 1) by (pose proof (Z.mod_pos_bound q 2); lia).
  assert (Hs : (D <=? 2 * r) || negb ((2 * r) mod D =? 0) = negb (r =? 0)).
  { rewrite double_mod by done. zcases. }
  assert (Hs2 : negb ((2 * (N mod (2 * D))) mod (2 * D) =? 0) = negb (r =? 0)).
  { rewrite Hm2. destruct Hq2 as [-> | ->]; rewrite double_mod by lia; zcases. }
  unfold quotient at 2. rewrite Hs2, Hd2, Hm2. unfold quotient. fold q r. cbn [shr_1]. rewrite Hs.
  destruct q as [|[p|p|]|p]; [ | | | | lia]; cbn [shr_1].
  - rewrite Z.mod_0_l by lia. zcases.
  - rewrite div2_odd, mod2_odd. zcases.
  - rewrite div2_even, mod2_even. zcases.
  - change (1 / 2) with 0. change (1 mod 2) with 1. zcases.
Qed.

Lemma iter_shr_quotient p N D :
  0 <= N -> 0 < D -> iter_pos shr_1 p (quotient N D) = quotient N (2 ^ Zpos p * D).
Proof.
  intros HN. revert D. induction p as [p IH|p IH|]; intros D HD; cbn [iter_pos].
  - rewrite shr_1_quotient, !IH by lia. f_equal.
    replace (Zpos p~1) with (1 + Zpos p + Zpos p) by lia. rewrite !Z.pow_add_r by lia. lia.
  - rewrite !IH by lia. f_equal.
    replace (Zpos p~0) with (Zpos p + Zpos p) by lia. rewrite !Z.pow_add_r by lia. lia.
  - rewrite shr_1_quotient by done. f_equal.
Qed.

Lemma shr_quotient n N D e :
  0 <= N -> 0 < D -> 0 <= n -> shr (quotient N D) e n = (quotient N (2 ^ n * D), e + n).
Proof.
  intros HN HD Hn. destruct n as [|p|p]; [ | | lia]; cbn [shr].
  - rewrite Z.add_0_r. f_equal. f_equal. lia.
  - by rewrite iter_shr_quotient.
Qed.

(** Rounding to nearest is off by at most half of the divisor. *)
Lemma round_quotient N D :
  0 < D -> let m := round_nearest_even (N / D) (loc_of_shr_record (quotient N D)) in
  N / D <= m <= N / D + 1 /\ 2 * Z.abs (m * D - N) <= D.
Proof.
  intros HD. pose proof (Z.mod_pos_bound N D HD) as Hr. pose proof (Z.div_mod N D ltac:(lia)) as Hdm.
  unfold quotient. rewrite double_mod by done. set (q := N / D) in *. set (r := N mod D) in *.
  zcases; simpl; try nia.
  destruct (Z.even q); nia.
Qed.

Lemma Zdigits2_log2 n : 0 < n -> Zdigits2 n = Z.log2 n + 1.
Proof.
  destruct n as [|p|p]; [done | intros _ | done]. cbn [Zdigits2].
  assert (H : digits2_pos p = Pos.size p) by (induction p; simpl; congruence).
  rewrite H. destruct p; cbn [Z.log2 Pos.size]; lia.
Qed.

Lemma fexp_normal d e : -1000 <= e -> 53 <= d -> fexp prec emax (d + e) - e = d - 53.
Proof. intros. unfold fexp, emin, prec, emax. lia. Qed.

(** A mantissa of 53 bits, or just above, is normalized exactly. *)
Lemma renormalize m e :
  2 ^ 52 <= m <= 2 ^ 53 -> -1000 <= e -> exists m' k,
  shr_fexp prec emax m e loc_Exact = (quotient m (2 ^ k), e + k) /\ 0 <= k <= 1 /\
  m / 2 ^ k = m' /\ 2 ^ 52 <= m' < 2 ^ 53 /\ m = m' * 2 ^ k.
Proof.
  intros Hm He. unfold shr_fexp. rewrite <- quotient_1, Zdigits2_log2 by lia.
  destruct (decide (m = 2 ^ 53)) as [->|Hne].
  - exists (2 ^ 52), 1. rewrite Z.log2_pow2, fexp_normal, shr_quotient by lia.
    repeat split; (lia || done).
  - assert (Hl : Z.log2 m = 52) by (apply Z.log2_unique; lia).
    exists m, 0. rewrite Hl, fexp_normal, shr_quotient by lia.
    change (2 ^ 0) with 1. rewrite Z.div_1_r. repeat split; lia.
Qed.

(** The relative error of one rounding is at most 2^-53. *)
Lemma round_error N D e :
  0 < D -> 2 ^ 52 * D <= N -> N < 2 ^ 200 * D -> -1000 <= e <= 500 -> exists m' e',
  binary_round_aux prec emax false (N / D) e (new_location D (N mod D)) = S754_finite false m' e' /\
  2 ^ 52 <= Zpos m' < 2 ^ 53 /\ e <= e' /\ 2 ^ 53 * Z.abs (Zpos m' * 2 ^ (e' - e) * D - N) <= N.
Proof.
  intros HD Hlo Hhi He. assert (HN : 0 <= N) by nia.
  assert (Hq : 2 ^ 52 <= N / D) by (apply Z.div_le_lower_bound; lia).
  assert (Hq' : N / D < 2 ^ 200) by (apply Z.div_lt_upper_bound; lia).
  set (l := Z.log2 (N / D)).
  assert (Hl : 52 <= l < 200).
  { split; [apply (Z.log2_le_mono (2 ^ 52)) in Hq; rewrite Z.log2_pow2 in Hq; lia | ].
    apply Z.log2_lt_pow2; lia. }
  pose proof (Z.log2_spec (N / D) ltac:(lia)) as Hls. fold l in Hls.
  set (n := l - 52). assert (Hn : 0 <= n < 148) by lia. assert (HK : 0 < 2 ^ n) by lia.
  assert (E1 : 2 ^ l = 2 ^ 52 * 2 ^ n) by (rewrite <- Z.pow_add_r by lia; f_equal; lia).
  assert (E2 : 2 ^ Z.succ l = 2 ^ 53 * 2 ^ n) by (rewrite <- Z.pow_add_r by lia; f_equal; lia).
  assert (Hfirst : shr_fexp prec emax (N / D) e (new_location D (N mod D)) = (quotient N (2 ^ n * D), e + n)).
  { unfold shr_fexp. rewrite <- quotient_location, Zdigits2_log2, fexp_normal by lia. fold l.
    replace (l + 1 - 53) with n by lia. apply shr_quotient; lia. }
  pose proof (round_quotient N (2 ^ n * D) ltac:(lia)) as Hround.
  unfold binary_round_aux. rewrite Hfirst. cbn [shr_m quotient] in *.
  change (Build_shr_record (N / (2 ^ n * D)) (2 ^ n * D <=? 2 * (N mod (2 ^ n * D)))
            (negb ((2 * (N mod (2 ^ n * D))) mod (2 ^ n * D) =? 0))) with (quotient N (2 ^ n * D)) in *.
  set (m := round_nearest_even (N / (2 ^ n * D)) (loc_of_shr_record (quotient N (2 ^ n * D)))) in *.
  destruct Hround as [Hm Herr].
  assert (Hq1 : 2 ^ 52 <= N / (2 ^ n * D) < 2 ^ 53).
  { rewrite (Z.mul_comm (2 ^ n) D), <- Z.div_div by lia. split.
    - apply Z.div_le_lower_bound; lia.
    - apply Z.div_lt_upper_bound; lia. }
  destruct (renormalize m (e + n)) as (m' & k & Hr & Hk & Hdiv & Hm' & Hmk); [lia.. | ].
  rewrite Hr. unfold quotient at 1. rewrite Hdiv. destruct m' as [|p|p]; [lia | | lia].
  destruct (Z.leb_spec (e + n + k) (emax - prec)) as [_|Hbad]; [ | unfold emax, prec in Hbad; lia].
  exists p, (e + n + k). split; [done | split; [done | split; [lia | ]]].
  replace (e + n + k - e) with (k + n) by lia. rewrite Z.pow_add_r, Z.mul_assoc, <- Hmk by lia.
  assert (HND : 2 ^ 52 * (2 ^ n * D) <= N).
  { pose proof (Z.mul_div_le N D HD). nia. }
  replace (m * 2 ^ n * D) with (m * (2 ^ n * D)) by lia. lia.
Qed.

(** A mantissa of 53 bits is not rounded. *)
Lemma round_exact p e :
  2 ^ 52 <= Zpos p < 2 ^ 53 -> -1000 <= e <= 900 ->
  binary_round_aux prec emax false (Zpos p) e loc_Exact = S754_finite false p e.
Proof.
  intros Hp He. assert (Hl : Z.log2 (Zpos p) = 52) by (apply Z.log2_unique; lia).
  assert (Hs : shr_fexp prec emax (Zpos p) e loc_Exact = (shr_record_of_loc (Zpos p) loc_Exact, e)).
  { unfold shr_fexp. rewrite Zdigits2_log2, Hl, fexp_normal by lia. done. }
  unfold binary_round_aux. rewrite Hs. cbn [shr_record_of_loc shr_m loc_of_shr_record round_nearest_even].
  rewrite Hs. cbn [shr_record_of_loc shr_m].
  destruct (Z.leb_spec e (emax - prec)) as [_|Hbad]; [done | unfold emax, prec in Hbad; lia].
Qed.

Lemma iter_xO p k : Zpos (Pos.iter xO p k) = Zpos p * 2 ^ Zpos k.
Proof.
  revert p. induction k as [|k IH] using Pos.peano_ind; intros p; [simpl; lia | ].
  rewrite Pos.iter_succ, Pos2Z.inj_succ, Z.pow_succ_r, (Pos2Z.inj_xO (Pos.iter _ _ _)), IH by lia. lia.
Qed.

(** Integers of at most 53 bits are exact. *)
Lemma float64_exact n :
  0 < n < 2 ^ 53 -> exists m k,
  float64 n = S754_finite false m (- k) /\ 0 <= k <= 52 /\ Zpos m = n * 2 ^ k /\ 2 ^ 52 <= Zpos m < 2 ^ 53.
Proof.
  intros Hn. destruct n as [|p|p]; [lia | | lia].
  pose proof (Z.log2_spec (Zpos p) ltac:(lia)) as Hl. set (l := Z.log2 (Zpos p)) in *.
  assert (Hlr : 0 <= l <= 52).
  { split; [apply Z.log2_nonneg | ]. apply Z.lt_succ_r, Z.log2_lt_pow2; lia. }
  assert (Hd : Zpos (digits2_pos p) = l + 1) by (unfold l; rewrite <- Zdigits2_log2 by lia; done).
  assert (E1 : 2 ^ 52 = 2 ^ l * 2 ^ (52 - l)) by (rewrite <- Z.pow_add_r by lia; f_equal; lia).
  assert (E2 : 2 ^ 53 = 2 ^ Z.succ l * 2 ^ (52 - l)) by (rewrite <- Z.pow_add_r by lia; f_equal; lia).
  assert (HK : 0 < 2 ^ (52 - l)) by lia.
  unfold float64, binary_normalize, binary_round. rewrite Hd.
  replace (fexp prec emax (l + 1 + 0)) with (- (52 - l)) by (unfold fexp, emin, prec, emax; lia).
  unfold shl_align. rewrite Z.sub_0_r. destruct (52 - l) as [|k|k] eqn:Ek; [ | | lia].
  - change (- 0) with 0. cbn iota beta. exists p, 0. rewrite round_exact by lia. repeat split; lia.
  - pose proof (iter_xO p k) as Hi. change (- Zpos k) with (Zneg k). cbn iota beta.
    exists (Pos.iter xO p k), (Zpos k). rewrite round_exact by nia. repeat split; (lia || nia).
Qed.

(** ** Quotients of integers and multiples *)

(** A positive value [m * 2 ^ - k]. *)
Definition is_float (f : spec_float) (m k : Z) : Prop :=
  exists p, f = S754_finite false p (- k) /\ Zpos p = m /\ 2 ^ 52 <= m < 2 ^ 53.

Lemma fdiv_error a b :
  0 < a <= b -> b < 2 ^ 53 -> exists m k,
  is_float (fdiv (float64 a) (float64 b)) m k /\ 0 <= k <= 105 /\
  2 ^ 53 * Z.abs (m * b - a * 2 ^ k) <= a * 2 ^ k.
Proof.
  intros Ha Hb. destruct (float64_exact a ltac:(lia)) as (ma & ka & -> & Hka & Ea & Hma).
  destruct (float64_exact b ltac:(lia)) as (mb & kb & -> & Hkb & Eb & Hmb).
  unfold fdiv, SFdiv, SFdiv_core_binary. rewrite !Zdigits2_log2 by lia.
  assert (Hl : forall x, 2 ^ 52 <= x < 2 ^ 53 -> Z.log2 x = 52) by (intros; apply Z.log2_unique; lia).
  rewrite !Hl by done.
  replace (52 + 1 + - ka - (52 + 1 + - kb)) with (kb - ka) by lia.
  replace (- ka - - kb) with (kb - ka) by lia.
  replace (Z.min (fexp prec emax (kb - ka)) (kb - ka)) with (kb - ka - 53)
    by (unfold fexp, emin, prec, emax; lia).
  replace (kb - ka - (kb - ka - 53)) with 53 by lia. cbn iota. rewrite Z.shiftl_mul_pow2 by lia.
  set (N := Zpos ma * 2 ^ 53).
  assert (Hdm : Z.div_eucl N (Zpos mb) = (N / Zpos mb, N mod Zpos mb)).
  { unfold Z.div, Z.modulo. by destruct (Z.div_eucl N (Zpos mb)). }
  rewrite Hdm. cbn [xorb].
  destruct (round_error N (Zpos mb) (kb - ka - 53)) as (m & e & -> & Hm & He & Herr); [lia.. | ].
  exists (Zpos m), (- e). split; [exists m; by rewrite Z.opp_involutive | ].
  (* both sides in units of 2 ^ (ka + 53) *)
  assert (Ex : Zpos m * 2 ^ (e - (kb - ka - 53)) * Zpos mb = Zpos m * b * 2 ^ (e + (ka + 53))).
  { rewrite Eb. replace (e + (ka + 53)) with (e - (kb - ka - 53) + kb) by lia.
    rewrite Z.pow_add_r by lia. lia. }
  assert (EN : N = a * 2 ^ (ka + 53)) by (unfold N; rewrite Ea, Z.pow_add_r by lia; lia).
  rewrite Ex, EN in Herr. clear Ex EN Hdm N.
  assert (Hneg : e <= 0).
  { apply Z.nlt_ge. intros Hpos. replace (e + (ka + 53)) with ((e - 1) + (ka + 53) + 1) in Herr by lia.
    rewrite !Z.pow_add_r in Herr by lia.
    assert (1 <= 2 ^ (e - 1)) by lia. set (u := 2 ^ (e - 1)) in *. set (w := 2 ^ ka * 2 ^ 53) in *.
    assert (0 < w) by lia. assert (a * w <= Zpos m * b * u * w) by (apply Z.mul_le_mono_nonneg_r; nia). nia. }
  split; [lia | ].
  replace (ka + 53) with (- e + (e + (ka + 53))) in Herr at 2 3 by lia.
  rewrite (Z.pow_add_r 2 (- e)) in Herr by lia. set (w := 2 ^ (e + (ka + 53))) in *.
  assert (Hw : 0 < w) by (apply Z.pow_pos_nonneg; lia).
  replace (Zpos m * b * w - a * (2 ^ (- e) * w)) with ((Zpos m * b - a * 2 ^ (- e)) * w) in Herr by lia.
  rewrite Z.abs_mul, (Z.abs_eq w) in Herr by lia. nia.
Qed.

(** ** Percentages *)

(** The value of [int((float64(a) / float64(b)) * 100)]. *)
Definition percent (other : spec_float -> Z) (a b : Z) : Z :=
  float_to_int other (fmul (fdiv (float64 a) (float64 b)) (float64 100)).

(** Truncation of [X / 2 ^ n] written as a mantissa and an exponent. *)
Lemma truncate other p e n :
  0 <= n -> 0 <= e + n -> Zpos p * 2 ^ (e + n) < 2 ^ n * 2 ^ 20 ->
  float_to_int other (S754_finite false p e) = Zpos p * 2 ^ (e + n) / 2 ^ n.
Proof.
  intros Hn He Hx. assert (H2n : 0 < 2 ^ n) by lia.
  assert (Hv : (if 0 <=? e then Zpos p * 2 ^ e else Zpos p / 2 ^ (- e)) = Zpos p * 2 ^ (e + n) / 2 ^ n).
  { destruct (Z.leb_spec 0 e).
    - rewrite Z.pow_add_r, Z.mul_assoc, Z.div_mul by lia. done.
    - replace n with (- e + (e + n)) at 2 by lia. rewrite (Z.pow_add_r 2 (- e)) by lia.
      by rewrite Z.div_mul_cancel_r by lia. }
  cbn [float_to_int]. rewrite Hv.
  assert (0 <= Zpos p * 2 ^ (e + n) / 2 ^ n) by (apply Z.div_pos; lia).
  assert (Zpos p * 2 ^ (e + n) / 2 ^ n < 2 ^ 20) by (apply Z.div_lt_upper_bound; lia).
  unfold MaxInt. zcases.
Qed.

Lemma fmul_100_error f m k :
  is_float f m k -> 0 <= k <= 105 -> exists X,
  0 <= X /\ 2 ^ 53 * Z.abs (X - m * 100 * 2 ^ 46) <= m * 100 * 2 ^ 46 /\
  (forall other, X < 2 ^ (k + 46) * 2 ^ 20 -> float_to_int other (fmul f (float64 100)) = X / 2 ^ (k + 46)).
Proof.
  intros (p & -> & Hp & Hm) Hk.
  assert (E100 : float64 100 = S754_finite false 7036874417766400 (-46)) by (vm_compute; reflexivity).
  rewrite E100. unfold fmul, SFmul. cbn [xorb].
  set (N := Zpos (p * 7036874417766400)).
  assert (EN : N = m * 100 * 2 ^ 46) by (unfold N; rewrite Pos2Z.inj_mul, Hp; lia).
  destruct (round_error N 1 (- k + -46)) as (m2 & e2 & Hround & Hm2 & He2 & Herr); [lia.. | ].
  rewrite Z.div_1_r, Z.mod_1_r in Hround. change (new_location 1 0) with loc_Exact in Hround.
  rewrite Hround. rewrite Z.mul_1_r, EN in Herr. replace (e2 - (- k + -46)) with (e2 + (k + 46)) in Herr by lia.
  exists (Zpos m2 * 2 ^ (e2 + (k + 46))). split; [lia | split; [exact Herr | ]].
  intros other Hx. apply truncate; lia.
Qed.

(** The printed percentage never exceeds the exact one and is less than it by at
    most one, and only when the exact one is a whole number: two roundings move
    the value by less than [1 / b] but may take it below a whole number. *)
Lemma percent_spec other a b :
  0 <= a <= b -> 0 < b <= 2 ^ 32 ->
  Z.max 0 (100 * a / b - 1) <= percent other a b <= 100 * a / b /\
  ((100 * a) mod b <> 0 -> percent other a b = 100 * a / b).
Proof.
  intros Ha Hb. destruct (decide (a = 0)) as [->|Ha0].
  { assert (E : percent other 0 b = 0).
    { unfold percent. destruct (float64_exact b ltac:(lia)) as (mb & kb & -> & _). reflexivity. }
    rewrite E, Z.mul_0_r, Z.div_0_l by lia. lia. }
  destruct (fdiv_error a b ltac:(lia) ltac:(lia)) as (m & k & Hf & Hk & Hdiv).
  destruct (fmul_100_error _ m k Hf Hk) as (X & HX & Hmul & Htrunc).
  destruct Hf as (_ & _ & _ & Hm). set (T := 2 ^ k) in *. assert (HT : 0 < T) by (unfold T; lia).
  assert (ET : 2 ^ (k + 46) = T * 2 ^ 46) by (rewrite Z.pow_add_r by lia; done).
  rewrite ET in Htrunc. pose proof (Z.div_mod (100 * a) b ltac:(lia)) as Hdm.
  pose proof (Z.mod_pos_bound (100 * a) b ltac:(lia)) as Hr.
  assert (HF : 0 <= 100 * a / b <= 100).
  { split; [apply Z.div_pos; lia | ]. apply Z.div_le_upper_bound; lia. }
  set (F := 100 * a / b) in *. set (r := (100 * a) mod b) in *.
  (* everything over the products G = F b T, R = r T, B = b T *)
  assert (HP : 0 < a * T <= 2 ^ 32 * T) by nia.
  assert (E100 : 100 * (a * T) = F * b * T + r * T) by nia.
  assert (HR : 0 <= r * T) by (apply Z.mul_nonneg_nonneg; lia).
  assert (HR1 : (r + 1) * T <= b * T) by (apply Z.mul_le_mono_nonneg_r; lia).
  assert (HR2 : r <> 0 -> 1 * T <= r * T) by (intros; apply Z.mul_le_mono_nonneg_r; lia).
  assert (HX1 : X * b * 2 ^ 53 <= 100 * 2 ^ 46 * ((2 ^ 53 + 1) * (m * b))) by nia.
  assert (HX2 : 100 * 2 ^ 46 * ((2 ^ 53 - 1) * (m * b)) <= X * b * 2 ^ 53) by nia.
  set (W := T * 2 ^ 46) in *. assert (HW : 0 < W) by lia.
  assert (U : X < (F + 1) * W).
  { apply (Z.mul_lt_mono_pos_r b); [lia | ].
    replace ((F + 1) * W * b) with ((F * b * T + b * T) * 2 ^ 46) by (unfold W; lia). lia. }
  assert (L1 : (F - 1) * W <= X).
  { apply (Z.mul_le_mono_pos_r _ _ b); [lia | ].
    replace ((F - 1) * W * b) with ((F * b * T - b * T) * 2 ^ 46) by (unfold W; lia). lia. }
  assert (L : r <> 0 -> F * W <= X).
  { intros Hr0. apply (Z.mul_le_mono_pos_r _ _ b); [lia | ].
    replace (F * W * b) with (F * b * T * 2 ^ 46) by (unfold W; lia). lia. }
  assert (HFW : (F + 1) * W <= 101 * W) by (apply Z.mul_le_mono_nonneg_r; lia).
  unfold percent. rewrite Htrunc by lia. assert (X / W < F + 1) by (apply Z.div_lt_upper_bound; lia).
  split; [split | ].
  - apply Z.max_lub; [apply Z.div_pos | apply Z.div_le_lower_bound]; lia.
  - lia.
  - intros Hr0. specialize (L Hr0). assert (F <= X / W) by (apply Z.div_le_lower_bound; lia). lia.
Qed.

(** The two percentages of a whole of [b] parts. *)
Lemma percent_sum other a b :
  0 <= a <= b -> 0 < b <= 2 ^ 32 ->
  0 <= percent other a b /\ 0 <= percent other (b - a) b /\
  98 <= percent other a b + percent other (b - a) b <= 100.
Proof.
  intros Ha Hb. destruct (percent_spec other a b Ha Hb) as [[L1 U1] E1].
  destruct (percent_spec other (b - a) b ltac:(lia) Hb) as [[L2 U2] E2].
  pose proof (Z.div_mod (100 * a) b ltac:(lia)) as D1. pose proof (Z.div_mod (100 * (b - a)) b ltac:(lia)) as D2.
  pose proof (Z.mod_pos_bound (100 * a) b ltac:(lia)) as R1.
  pose proof (Z.mod_pos_bound (100 * (b - a)) b ltac:(lia)) as R2.
  set (p := percent other a b) in *. set (p' := percent other (b - a) b) in *.
  set (q := 100 * a / b) in *. set (q' := 100 * (b - a) / b) in *.
  set (r := (100 * a) mod b) in *. set (r' := (100 * (b - a)) mod b) in *.
  assert (Hs : (q + q') * b + (r + r') = 100 * b) by lia.
  assert (Hle : q + q' <= 100) by (apply (Z.mul_le_mono_pos_r _ _ b); lia).
  assert (Hlt : 98 < q + q') by (apply (Z.mul_lt_mono_pos_r b); lia).
  split; [lia | split; [lia | ]]. destruct (decide (q + q' = 100)) as [Hq|Hq]; [lia | ].
  assert (Hq' : q + q' = 99) by lia. rewrite Hq' in Hs.
  assert (Hr1 : r <> 0) by lia. assert (Hr2 : r' <> 0) by lia.
  specialize (E1 Hr1). specialize (E2 Hr2). lia.
Qed.
