(* ===== verification/Ini.v ===== *)
(** * INI files: github.com/go-ini/ini

    A third-party package, so an interface: [Ini] has the operations the server
    calls, [IniLaws] what their documentation promises.  [own] observes which
    keys are written in a section itself: [Key] also looks in the parent
    sections, whose names are the proper prefixes of a name that end before a
    dot.  A table of keys shows that the laws can be met. *)

From S2P Require Import Prelude GoStd GoNet.
From Stdlib Require Import Ascii.

Class Ini := {
  ini : Type;
  (** the contents of a file *)
  ini_text : Type;
  Empty : ini;
  NewSection : ini -> string -> ini * error;
  (** [cfg.Section(s).Key(k).SetValue(v)] *)
  SetValue : ini -> string -> string -> string -> ini;
  (** [cfg.Section(s).Key(k).String()] *)
  KeyString : ini -> string -> string -> string;
  SectionStrings : ini -> list string;
  (** what [SaveTo] writes and [Load] reads *)
  ini_print : ini -> ini_text;
  ini_parse : ini_text -> ini + string;
  own : ini -> string -> string -> option string
}.

(** The prefixes of a section name that end before a dot. *)
Fixpoint parents (s : string) : list string :=
  match s with
  | EmptyString => []
  | String c r => (if Ascii.eqb c "." then [EmptyString] else []) ++ map (String c) (parents r)
  end.

(** Text that needs no quoting, no escaping and no expansion: letters, digits
    and the signs of addresses, names and lists. *)
Definition plain_char (c : ascii) : bool :=
  let z := code c in
  ((97 <=? z) && (z <=? 122)) || ((65 <=? z) && (z <=? 90)) || is_digit c ||
  (z =? 46) || (z =? 58) || (z =? 44) || (z =? 45) || (z =? 47) || (z =? 95).

Definition plain (s : string) : bool := all_chars plain_char s.

(** A section name: words of such text. *)
Definition plain_name (s : string) : bool :=
  negb (String.eqb s EmptyString) && forallb (fun w => negb (String.eqb w EmptyString) && plain w) (Split s " ").

Section Laws.

Context {INI : Ini}.

(** No parent of [s] is a section of the file. *)
Definition orphan (c : ini) (s : string) : Prop := Forall (fun p => p ∉ SectionStrings c) (parents s).

(** All names and values of a file are plain. *)
Definition plain_file (c : ini) : Prop :=
  Forall (fun s => plain_name s = true) (SectionStrings c) /\
  (forall s k v, own c s k = Some v -> s ∈ SectionStrings c /\ plain_name k = true /\ plain v = true).

Class IniLaws : Prop := {
  sections_empty : SectionStrings Empty = ["DEFAULT"%string];
  own_empty : forall s k, own Empty s k = None;
  new_section_unnamed : forall c, exists e, NewSection c EmptyString = (c, Some e);
  new_section_again : forall c s, s <> EmptyString -> s ∈ SectionStrings c -> NewSection c s = (c, None);
  new_section_fresh : forall c s, s <> EmptyString -> s ∉ SectionStrings c ->
    (NewSection c s).2 = None /\ SectionStrings (NewSection c s).1 = SectionStrings c ++ [s] /\
    (forall s' k, own (NewSection c s).1 s' k = own c s' k);
  set_value : forall c s k v, s ∈ SectionStrings c -> orphan c s ->
    SectionStrings (SetValue c s k v) = SectionStrings c /\
    (forall s' k', own (SetValue c s k v) s' k' =
       if decide (s' = s /\ k' = k) then Some v else own c s' k');
  key_string : forall c s k, orphan c s -> (forall v, own c s k = Some v -> plain v = true) ->
    KeyString c s k = default EmptyString (own c s k);
  parse_print : forall c, plain_file c -> exists c', ini_parse (ini_print c) = inl c' /\
    SectionStrings c' = SectionStrings c /\ (forall s k, own c' s k = own c s k)
}.

End Laws.

(** ** A table of keys *)

Module Table.

Record table := mkTable {
  names : list string;
  keys : gmap (string * string) string
}.

(** A key missing from a section is looked for in its parents, nearest first. *)
Fixpoint find_key (t : table) (sections : list string) (k : string) : string * string -> string * string :=
  fun here =>
  match sections with
  | [] => here
  | s :: r =>
      if decide (s ∈ names t /\ is_Some (keys t !! (s, k))) then (s, k) else find_key t r k here
  end.

Definition resolve (t : table) (s k : string) : string * string :=
  find_key t (s :: rev (parents s)) k (s, k).

#[export] Instance table_ini : Ini := {|
  ini := table;
  ini_text := table;
  Empty := mkTable ["DEFAULT"%string] ∅;
  NewSection c s :=
    if String.eqb s EmptyString then (c, Some "empty section name"%string)
    else if decide (s ∈ names c) then (c, None) else (mkTable (names c ++ [s]) (keys c), None);
  SetValue c s k v := mkTable (names c) (<[resolve c s k := v]> (keys c));
  KeyString c s k := default EmptyString (keys c !! resolve c s k);
  SectionStrings := names;
  ini_print c := c;
  ini_parse c := inl c;
  own c s k := keys c !! (s, k)
|}.

Lemma find_key_none t l k here : Forall (fun s => s ∉ names t) l -> find_key t l k here = here.
Proof. induction 1 as [|s l Hs Hl IH]; simpl; [done | ]. by rewrite decide_False by tauto. Qed.

Lemma resolve_orphan t s k : Forall (fun s => s ∉ names t) (parents s) -> resolve t s k = (s, k).
Proof.
  intros H. unfold resolve. cbn [find_key]. case_decide; [done | ].
  apply find_key_none. by apply Forall_rev.
Qed.

#[export] Instance table_laws : IniLaws.
Proof.
  split; simpl.
  - done.
  - intros. apply lookup_empty.
  - eauto.
  - intros c s Hs Hin. apply String.eqb_neq in Hs. rewrite Hs. by rewrite decide_True.
  - intros c s Hs Hn. apply String.eqb_neq in Hs. rewrite Hs. by rewrite decide_False.
  - intros c s k v Hs Ho. split; [done | ]. intros s' k'. rewrite resolve_orphan by done.
    case_decide as Hd; [destruct Hd as [-> ->]; apply lookup_insert_eq | ].
    apply lookup_insert_ne. intros [= -> ->]. tauto.
  - intros c s k Ho _. by rewrite resolve_orphan.
  - intros c _. by exists c.
Qed.

End Table.

(** ** Names without parents *)

Lemma parents_dots s p : p ∈ parents s -> count_char "." p < count_char "." s.
Proof.
  revert p. induction s as [|c s IH]; intros p; cbn [parents]; [by intros ?%not_elem_of_nil | ].
  rewrite elem_of_app, list_elem_of_fmap. pose proof (count_char_nonneg "." s) as Hs.
  assert (Hc : Ascii.eqb c "." = true <-> c = "."%char) by apply Ascii.eqb_eq.
  intros [Hp|(q & -> & Hq)].
  - destruct (Ascii.eqb c ".") eqn:E; [ | by apply not_elem_of_nil in Hp].
    apply list_elem_of_singleton in Hp as ->. cbn [count_char].
    rewrite decide_True by tauto. lia.
  - apply IH in Hq. cbn [count_char]. lia.
Qed.

Lemma parents_head c s p : c <> "."%char -> p ∈ parents (String c s) -> exists q, p = String c q.
Proof.
  intros Hc. cbn [parents]. apply Ascii.eqb_neq in Hc. rewrite Hc.
  intros (q & -> & _)%list_elem_of_fmap. eauto.
Qed.

Lemma no_dots_no_parents s : count_char "." s = 0 -> parents s = [].
Proof.
  intros H. destruct (parents s) as [|p l] eqn:E; [done | ].
  pose proof (parents_dots s p ltac:(rewrite E; left)). pose proof (count_char_nonneg "." p). lia.
Qed.
