(* ===== verification/ConfigApi.v ===== *)
(** * The configuration through the REST API: src/api.go

    [handleGetConfig] and [handleUpdateConfig], on the contents of the file at
    [configFilePath], [None] when there is no file.  The INI package is the
    class of Ini.v; whether a write succeeds is an argument. *)

From S2P Require Import Prelude GoStd GoNet Pool GoCache Dhcp4 Database Utils Handler Interface.
From S2P Require Import Scope Lab Discover Request System Server Config Api Ini.
From Stdlib Require Import Ascii.

Section ConfigApi.

Context {INI : Ini}.

(** [ini.Load(configFilePath)] *)
Definition Load (file : option ini_text) : ini + string :=
  match file with
  | Some text => ini_parse text
  | None => inr "open /usr/local/etc/godhcp.ini: no such file or directory"%string
  end.

(** The outcome of [SaveTo]: on an error, what it left of the file. *)
Inductive write_outcome :=
| Written
| WriteFailed (e : string) (torn : option ini_text).

(** [strings.HasPrefix] and [strings.TrimPrefix]. *)
Fixpoint cut_prefix (p s : string) : option string :=
  match p, s with
  | EmptyString, _ => Some s
  | String a p, String b s => if Ascii.eqb a b then cut_prefix p s else None
  | String _ _, EmptyString => None
  end.

(** [if s != "" { l = strings.Split(s, ",") }] *)
Definition split_list (s : string) : list string :=
  if String.eqb s EmptyString then [] else Split s ",".

Definition read_network (cfg : ini) (section : string) : option ConfigSection :=
  match cut_prefix "network " section with
  | None => None
  | Some networkIP =>
      let sec := KeyString cfg section in
      Some (mkConfigSection networkIP (sec "dns") (sec "gateway") (sec "dhcp_start") (sec "dhcp_end")
              (sec "netmask") (sec "domain-name") (sec "dhcp_default_lease_time") (sec "dhcp_max_lease_time")
              (sec "dhcpd") (sec "ip_reserved") (sec "ip_assigned") (sec "algorithm") (sec "next_hop"))%string
  end.

Definition handleGetConfig (file : option ini_text) : response :=
  match Load file with
  | inr e => Error ("Failed to load configuration: " +s+ e) StatusInternalServerError
  | inl cfg =>
      mkResponse StatusOK (BConfig (mkConfigResponse
        (split_list (KeyString cfg "interfaces" "listen"))
        (split_list (KeyString cfg "interfaces" "relay"))
        (omap (read_network cfg) (SectionStrings cfg))))
  end.

(** [if v != "" { sec.Key(k).SetValue(v) }] *)
Definition set_key (sec : string) (cfg : ini) (kv : string * string) : ini :=
  if String.eqb kv.2 EmptyString then cfg else SetValue cfg sec kv.1 kv.2.

Definition section_keys (network : ConfigSection) : list (string * string) :=
  [("dns", DNS network); ("gateway", Gateway network); ("dhcp_start", DHCPStart network);
   ("dhcp_end", DHCPEnd network); ("netmask", Netmask network); ("domain-name", DomainName network);
   ("dhcp_default_lease_time", DHCPDefaultLeaseTime network);
   ("dhcp_max_lease_time", DHCPMaxLeaseTime network); ("dhcpd", DHCPEnabled network);
   ("ip_reserved", IPReserved network); ("ip_assigned", IPAssigned network);
   ("algorithm", Algorithm network); ("next_hop", NextHop network)]%string.

Definition section_name (network : ConfigSection) : string := ("network " +s+ cs_Network network)%string.

(** The loop over the networks of the request. *)
Fixpoint add_networks (networks : list ConfigSection) (cfg : ini) : ini + string :=
  match networks with
  | [] => inl cfg
  | network :: rest =>
      match NewSection cfg (section_name network) with
      | (_, Some e) => inr ("Failed to create network section: " +s+ e)%string
      | (cfg, None) => add_networks rest (foldl (set_key (section_name network)) cfg (section_keys network))
      end
  end.

(** [if len(l) > 0 { interfacesSec.Key(k).SetValue(strings.Join(l, ",")) }] *)
Definition set_list (k : string) (l : list string) (cfg : ini) : ini :=
  match l with [] => cfg | _ => SetValue cfg "interfaces" k (Join l ",") end.

(** The INI file of a request. *)
Definition config_file (r : ConfigResponse) : ini + string :=
  match NewSection Empty "interfaces" with
  | (_, Some e) => inr ("Failed to create interfaces section: " +s+ e)%string
  | (cfg, None) => add_networks (Networks r) (set_list "relay" (Relay r) (set_list "listen" (Interfaces r) cfg))
  end.

Definition handleUpdateConfig (body : ConfigResponse + string) (saved : write_outcome)
    (file : option ini_text) : response * option ini_text :=
  match body with
  | inr e => (Error ("Invalid JSON: " +s+ e) StatusBadRequest, file)
  | inl r =>
      match config_file r with
      | inr e => (Error e StatusInternalServerError, file)
      | inl cfg =>
          match saved with
          | WriteFailed e torn => (Error ("Failed to save configuration: " +s+ e) StatusInternalServerError, torn)
          | Written =>
              (mkResponse StatusOK (BMessage "success"
                 "Configuration updated successfully. Restart the service to apply changes."),
               Some (ini_print cfg))
          end
      end
  end.

End ConfigApi.

(** ** Requests that come back as they are *)

(** A list of names, each without a comma. *)
Definition names_ok (l : list string) : Prop :=
  Forall (fun s => s <> EmptyString /\ plain s = true /\ has_char "," s = false) l.

(** Networks named by their address, each once, with plain values. *)
Record request_ok (r : ConfigResponse) : Prop := {
  request_interfaces : names_ok (Interfaces r);
  request_relay : names_ok (Relay r);
  request_distinct : NoDup (map cs_Network (Networks r));
  request_named : Forall (fun n => exists ip, length ip = 4%nat /\ cs_Network n = IP_String ip) (Networks r);
  request_plain : Forall (fun n => Forall (fun kv => plain kv.2 = true) (section_keys n)) (Networks r)
}.

(** The value a request has for a key of a network, [None] when it is not
    written. *)
Definition written (acc : option string) (k : string) (kv : string * string) : option string :=
  if String.eqb k kv.1 && negb (String.eqb kv.2 EmptyString) then Some kv.2 else acc.

Definition key_of (n : ConfigSection) (k : string) : option string :=
  foldl (fun acc kv => written acc k kv) None (section_keys n).

(** What a request has for a key of the section of the interfaces. *)
Definition interfaces_key (r : ConfigResponse) (k : string) : option string :=
  if String.eqb k "relay" && (0 <? length (Relay r))%nat then Some (Join (Relay r) ",")
  else if String.eqb k "listen" && (0 <? length (Interfaces r))%nat then Some (Join (Interfaces r) ",")
  else None.

Section Laws.

Context {INI : Ini} {LI : IniLaws}.

Lemma set_key_spec sec cfg kv :
  sec ∈ SectionStrings cfg -> orphan cfg sec ->
  SectionStrings (set_key sec cfg kv) = SectionStrings cfg /\
  (forall k, own (set_key sec cfg kv) sec k = written (own cfg sec k) k kv) /\
  (forall s k, s <> sec -> own (set_key sec cfg kv) s k = own cfg s k).
Proof.
  intros Hs Ho. destruct kv as [k0 v]. unfold set_key, written. cbn [fst snd].
  destruct (String.eqb v EmptyString).
  { split; [done | split; [ | done]]. intros k. by rewrite andb_false_r. }
  destruct (set_value cfg sec k0 v Hs Ho) as [E1 E2]. split; [done | ]. cbn [negb]. split.
  - intros k. rewrite E2, andb_true_r. destruct (String.eqb_spec k k0) as [->|Hk].
    + by rewrite decide_True.
    + rewrite decide_False by naive_solver. done.
  - intros s k Hne. rewrite E2, decide_False by naive_solver. done.
Qed.

Lemma set_keys_spec sec kvs cfg :
  sec ∈ SectionStrings cfg -> orphan cfg sec ->
  let cfg' := foldl (set_key sec) cfg kvs in
  SectionStrings cfg' = SectionStrings cfg /\
  (forall k, own cfg' sec k = foldl (fun acc kv => written acc k kv) (own cfg sec k) kvs) /\
  (forall s k, s <> sec -> own cfg' s k = own cfg s k).
Proof.
  revert cfg. induction kvs as [|kv kvs IH]; intros cfg Hs Ho; cbn [foldl]; [done | ].
  destruct (set_key_spec sec cfg kv Hs Ho) as (E1 & E2 & E3).
  destruct (IH (set_key sec cfg kv)) as (F1 & F2 & F3).
  { by rewrite E1. }
  { unfold orphan. by rewrite E1. }
  split; [congruence | split].
  - intros k. by rewrite F2, E2.
  - intros s k Hne. by rewrite F3, E3.
Qed.

Lemma section_name_not_empty n : section_name n <> EmptyString.
Proof. done. Qed.

Lemma section_name_inj n n' : section_name n = section_name n' -> cs_Network n = cs_Network n'.
Proof. unfold section_name. cbn [sapp]. by intros [= ->]. Qed.

(** The loop, when the names are new and none is a parent of another. *)
Lemma add_networks_spec nets cfg :
  NoDup (map cs_Network nets) ->
  Forall (fun n => section_name n ∉ SectionStrings cfg) nets ->
  (forall n s, n ∈ nets -> s ∈ SectionStrings cfg ++ map section_name nets -> s ∉ parents (section_name n)) ->
  (forall n k, n ∈ nets -> own cfg (section_name n) k = None) ->
  exists cfg', add_networks nets cfg = inl cfg' /\
    SectionStrings cfg' = SectionStrings cfg ++ map section_name nets /\
    (forall n k, n ∈ nets -> own cfg' (section_name n) k = key_of n k) /\
    (forall s k, s ∉ map section_name nets -> own cfg' s k = own cfg s k).
Proof.
  revert cfg. induction nets as [|n nets IH]; intros cfg Hd Hf Hp Hn; cbn [add_networks map].
  { exists cfg. rewrite app_nil_r. split; [done | split; [done | split; [ | done]]].
    by intros n k ?%not_elem_of_nil. }
  apply NoDup_cons in Hd as [Hnin Hd]. apply Forall_cons in Hf as [Hf0 Hf].
  destruct (new_section_fresh cfg (section_name n) (section_name_not_empty n) Hf0) as (N1 & N2 & N3).
  destruct (NewSection cfg (section_name n)) as [c1 e1]. cbn [fst snd] in N1, N2, N3. subst e1.
  assert (Ho : orphan c1 (section_name n)).
  { unfold orphan. apply Forall_forall. intros p Hpp. rewrite N2. intros Hin. eapply Hp; [left | | exact Hpp].
    cbn [map]. apply elem_of_app in Hin as [?|?%list_elem_of_singleton]; apply elem_of_app; [by left | subst; right; left]. }
  destruct (set_keys_spec (section_name n) (section_keys n) c1) as (S1 & S2 & S3); [ | done | ].
  { rewrite N2. apply elem_of_app. right. left. }
  set (c2 := foldl (set_key (section_name n)) c1 (section_keys n)) in *.
  assert (Hother : forall n', n' ∈ nets -> section_name n' <> section_name n).
  { intros n' Hin E. apply Hnin. rewrite <- (section_name_inj _ _ E). by apply list_elem_of_fmap_2. }
  assert (Hself : section_name n ∉ map section_name nets).
  { intros (n' & E & Hin)%list_elem_of_fmap. by apply (Hother n' Hin). }
  destruct (IH c2 Hd) as (c3 & A1 & A2 & A3 & A4).
  - rewrite S1, N2. apply Forall_forall. intros n' Hin'. rewrite not_elem_of_app. split.
    + by apply (proj1 (Forall_forall _ _) Hf).
    + intros ?%list_elem_of_singleton. by apply (Hother n').
  - intros n' s Hin' Hs'. apply Hp; [by right | ]. rewrite S1, N2 in Hs'. cbn [map].
    rewrite <- app_assoc in Hs'. exact Hs'.
  - intros n' k Hin'. rewrite S3 by (by apply Hother). rewrite N3. apply Hn. by right.
  - exists c3. split; [done | ]. split; [by rewrite A2, S1, N2, <- app_assoc | ]. split.
    + intros n' k [->|Hin']%elem_of_cons; [ | by apply A3].
      rewrite A4 by done. rewrite S2, N3, Hn by left. done.
    + intros s k [Hs1 Hs2]%not_elem_of_cons. by rewrite A4, S3, N3.
Qed.

(** *** The whole file *)

Lemma set_list_spec k l cfg :
  "interfaces"%string ∈ SectionStrings cfg ->
  SectionStrings (set_list k l cfg) = SectionStrings cfg /\
  (forall s k', own (set_list k l cfg) s k' =
     if String.eqb s "interfaces" && String.eqb k' k && (0 <? length l)%nat then Some (Join l ",")
     else own cfg s k').
Proof.
  intros Hs. destruct l as [|x l]; cbn [set_list].
  { split; [done | ]. intros s k'. by rewrite andb_false_r. }
  destruct (set_value cfg "interfaces" k (Join (x :: l) ",") Hs) as [E1 E2].
  { unfold orphan. by rewrite no_dots_no_parents. }
  split; [done | ]. intros s k'. rewrite E2. cbn [length Nat.ltb Nat.leb]. rewrite andb_true_r.
  destruct (String.eqb_spec s "interfaces"); destruct (String.eqb_spec k' k); cbn [andb];
    case_decide; naive_solver.
Qed.

Lemma dots_v4 ip : length ip = 4%nat -> count_char "." (IP_String ip) = 3.
Proof.
  intros Hl. destruct ip as [|x [|y [|z [|w [|]]]]]; try done.
  assert (HU : forall n, count_char "." (Utoa n) = 0).
  { intros n. pose proof (Utoa_digits n) as H. revert H. generalize (Utoa n).
    induction s as [|c s IH]; simpl; [done | ]. intros H. zbool. rewrite IH by done.
    rewrite decide_False; [done | ]. by intros ->. }
  unfold IP_String. rewrite decide_True by auto. rewrite To4_v4 by done.
  unfold v4_string. cbn [map Join sapp]. repeat (rewrite count_char_app || cbn [count_char]).
  rewrite !HU. by rewrite !decide_True.
Qed.

Definition base_sections : list string := ["DEFAULT"; "interfaces"]%string.

Definition named (n : ConfigSection) : Prop := exists ip, length ip = 4%nat /\ cs_Network n = IP_String ip.

(** No section of the file is a parent of another. *)
Lemma sections_no_parents nets n s :
  Forall named nets -> n ∈ nets -> s ∈ base_sections ++ map section_name nets -> s ∉ parents (section_name n).
Proof.
  intros Hn Hin Hs Hp. rewrite Forall_forall in Hn.
  assert (Hdots : forall n, n ∈ nets -> count_char "." (section_name n) = 3).
  { intros n' Hn'. destruct (Hn n' Hn') as (ip & Hl & E). unfold section_name.
    rewrite count_char_app, E, dots_v4 by done. done. }
  apply elem_of_app in Hs as [Hs|Hs].
  - destruct (parents_head "n" _ s ltac:(done) Hp) as [q ->]. unfold base_sections in Hs. set_solver.
  - apply list_elem_of_fmap in Hs as (n' & -> & Hn'). apply parents_dots in Hp.
    rewrite !Hdots in Hp by done. lia.
Qed.

(** The sections and the keys of the file written for a request. *)
Lemma config_file_spec r :
  request_ok r -> exists cfg, config_file r = inl cfg /\
    SectionStrings cfg = base_sections ++ map section_name (Networks r) /\
    (forall n k, n ∈ Networks r -> own cfg (section_name n) k = key_of n k) /\
    (forall k, own cfg "interfaces" k = interfaces_key r k) /\
    (forall s k, s ∉ "interfaces"%string :: map section_name (Networks r) -> own cfg s k = None).
Proof.
  intros [_ _ Hd Hnamed _]. unfold config_file.
  destruct (new_section_fresh Empty "interfaces") as (N1 & N2 & N3); [done | | ].
  { rewrite sections_empty. by intros ?%list_elem_of_singleton. }
  destruct (NewSection Empty "interfaces") as [c0 e0]. cbn [fst snd] in N1, N2, N3. subst e0.
  rewrite sections_empty in N2.
  destruct (set_list_spec "listen" (Interfaces r) c0) as [A1 A2]; [rewrite N2; right; left | ].
  set (c1 := set_list "listen" (Interfaces r) c0) in *.
  destruct (set_list_spec "relay" (Relay r) c1) as [B1 B2]; [rewrite A1, N2; right; left | ].
  set (c2 := set_list "relay" (Relay r) c1) in *.
  assert (Hs2 : SectionStrings c2 = base_sections) by (rewrite B1, A1, N2; done).
  assert (Hnot : forall n, section_name n ∉ base_sections).
  { intros n. unfold base_sections, section_name. cbn [sapp]. set_solver. }
  assert (Ho2 : forall s k, own c2 s k = if String.eqb s "interfaces" then interfaces_key r k else None).
  { intros s k. rewrite B2, A2, N3, own_empty. unfold interfaces_key. destruct (String.eqb s "interfaces"); done. }
  destruct (add_networks_spec (Networks r) c2) as (c3 & C1 & C2 & C3 & C4); [done | | | | ].
  - apply Forall_forall. intros n _. rewrite Hs2. apply Hnot.
  - rewrite Hs2. intros n s. by apply sections_no_parents.
  - intros n k _. rewrite Ho2. done.
  - exists c3. split; [done | split; [by rewrite C2, Hs2 | split; [done | ]]].
    assert (Hi : "interfaces"%string ∉ map section_name (Networks r)).
    { intros (n & E & _)%list_elem_of_fmap. discriminate E. }
    split; [intros k; by rewrite C4, Ho2 | ].
    intros s k [Hs1 Hs3]%not_elem_of_cons. rewrite C4, Ho2 by done. by apply String.eqb_neq in Hs1 as ->.
Qed.

(** *** Reading it back *)

Lemma key_of_written n k v : key_of n k = Some v -> (k, v) ∈ section_keys n.
Proof.
  unfold key_of. assert (H : forall kvs acc, foldl (fun acc kv => written acc k kv) acc kvs = Some v ->
    acc = Some v \/ (k, v) ∈ kvs).
  { induction kvs as [|[k0 v0] kvs IH]; intros acc; cbn [foldl]; [by left | ]. intros H.
    apply IH in H as [H|H]; [ | right; by right]. unfold written in H. cbn [fst snd] in H.
    destruct (String.eqb_spec k k0) as [->|_]; [ | by left].
    destruct (String.eqb v0 EmptyString); cbn [andb negb] in H; [by left | ].
    injection H as ->. right. left. }
  intros Hf. by apply H in Hf as [|].
Qed.

(** Each field of a request is the value of its key. *)
Lemma key_of_keys n : Forall (fun kv => default EmptyString (key_of n kv.1) = kv.2) (section_keys n).
Proof.
  unfold key_of, section_keys, written.
  repeat (apply Forall_cons; split); try apply Forall_nil_2; cbn -[String.eqb]; cbn [String.eqb Ascii.eqb Bool.eqb andb];
    match goal with |- context [String.eqb ?v EmptyString] => destruct (String.eqb_spec v EmptyString) as [E|E] end;
    done.
Qed.

Lemma plain_name_keys n kv : kv ∈ section_keys n -> plain_name kv.1 = true.
Proof.
  assert (H : Forall (fun kv => plain_name kv.1 = true) (section_keys n)).
  { repeat (apply Forall_cons; split; [by vm_compute | ]). apply Forall_nil_2. }
  intros Hin. exact (proj1 (Forall_forall _ _) H kv Hin).
Qed.

Lemma plain_Join l : Forall (fun s => plain s = true) l -> plain (Join l ",") = true.
Proof.
  induction 1 as [|x l Hx Hl IH]; [done | ]. destruct l as [|y l]; [done | ].
  change (Join (x :: y :: l) ",") with (x +s+ "," +s+ Join (y :: l) ",")%string.
  unfold plain in *. rewrite !all_chars_app, Hx, IH. done.
Qed.

Lemma plain_addr s : all_chars addr_char s = true -> plain s = true.
Proof.
  unfold plain. induction s as [|c s IH]; [done | ]. cbn [all_chars]. intros [Hc Hs]%andb_prop.
  rewrite IH by done. rewrite andb_true_r. unfold addr_char in Hc. unfold plain_char.
  apply orb_true_iff in Hc as [Hc|Hc].
  - rewrite Hc. by rewrite !orb_true_r.
  - by apply bool_decide_eq_true in Hc as ->.
Qed.

Lemma plain_name_section n : named n -> plain_name (section_name n) = true.
Proof.
  intros (ip & Hl & E). unfold plain_name, section_name. rewrite E.
  change ("network " +s+ IP_String ip)%string with ("network" +s+ String " " (IP_String ip))%string.
  rewrite Split_app_sep, Split_no_sep by (done || by apply IP_String_no_char). cbn [forallb].
  rewrite (plain_addr (IP_String ip)) by (by apply IP_String_addr).
  assert (Hne : IP_String ip <> EmptyString).
  { intros He. pose proof (dots_v4 ip Hl) as Hd. by rewrite He in Hd. }
  apply String.eqb_neq in Hne. by rewrite Hne.
Qed.

Lemma names_ok_plain l : names_ok l -> Forall (fun s => plain s = true) l.
Proof. intros H. eapply Forall_impl; [exact H | ]. naive_solver. Qed.

Lemma interfaces_key_plain r k v :
  request_ok r -> interfaces_key r k = Some v -> plain_name k = true /\ plain v = true.
Proof.
  intros [Hi Hr _ _ _]. unfold interfaces_key.
  destruct (String.eqb_spec k "relay") as [->|_]; cbn [andb].
  - destruct (0 <? length (Relay r))%nat; [ | done].
    intros [= <-]. split; [by vm_compute | by apply plain_Join, names_ok_plain].
  - destruct (String.eqb_spec k "listen") as [->|_]; cbn [andb]; [ | done].
    destruct (0 <? length (Interfaces r))%nat; [ | done].
    intros [= <-]. split; [by vm_compute | by apply plain_Join, names_ok_plain].
Qed.

(** The file as it is loaded again: its sections and what each key reads as. *)
Lemma loaded_spec r :
  request_ok r -> exists cfg c, config_file r = inl cfg /\ Load (Some (ini_print cfg)) = inl c /\
    SectionStrings c = base_sections ++ map section_name (Networks r) /\
    (forall n k, n ∈ Networks r -> KeyString c (section_name n) k = default EmptyString (key_of n k)) /\
    (forall k, KeyString c "interfaces" k = default EmptyString (interfaces_key r k)) /\
    (forall k, KeyString c "DEFAULT" k = EmptyString).
Proof.
  intros Hok. pose proof Hok as [Hi Hr _ Hnamed Hplain].
  destruct (config_file_spec r Hok) as (cfg & E1 & E2 & E3 & E4 & E5).
  assert (Hvals : forall s k v, own cfg s k = Some v ->
            s ∈ SectionStrings cfg /\ plain_name k = true /\ plain v = true).
  { intros s k v Hv. destruct (decide (s ∈ "interfaces"%string :: map section_name (Networks r))) as [Hs|Hs].
    2: { rewrite E5 in Hv by done. discriminate Hv. }
    rewrite E2. unfold base_sections. split; [set_solver | ].
    apply elem_of_cons in Hs as [->|Hs]; [rewrite E4 in Hv; by eapply interfaces_key_plain | ].
    apply list_elem_of_fmap in Hs as (n & -> & Hn). rewrite E3 in Hv by done. apply key_of_written in Hv.
    split; [by apply (plain_name_keys n (k, v)) | ].
    rewrite Forall_forall in Hplain. specialize (Hplain n Hn). rewrite Forall_forall in Hplain.
    exact (Hplain (k, v) Hv). }
  destruct (parse_print cfg) as (c & P1 & P2 & P3).
  { split; [ | exact Hvals]. rewrite E2. apply Forall_app. split.
    - repeat (apply Forall_cons; split; [by vm_compute | ]). apply Forall_nil_2.
    - apply Forall_map. eapply Forall_impl; [exact Hnamed | ]. exact plain_name_section. }
  exists cfg, c. split; [done | split; [exact P1 | split; [congruence | split]]].
  - intros n k Hn. rewrite key_string, P3, E3 by (done || (intros v; rewrite P3; apply Hvals)
      || (unfold orphan; rewrite P2, E2; apply Forall_forall; intros p Hp Hs;
          exact (sections_no_parents (Networks r) n p Hnamed Hn Hs Hp))). done.
  - assert (Hbase : forall s k, parents s = [] -> KeyString c s k = default EmptyString (own cfg s k)).
    { intros s k Hs. rewrite key_string, P3; [done | by unfold orphan; rewrite Hs | ].
      intros v. rewrite P3. apply Hvals. }
    split; intros k; rewrite Hbase by done; [by rewrite E4 | ]. rewrite E5; [done | ].
    intros [?|(n & ? & _)%list_elem_of_fmap]%elem_of_cons; discriminate.
Qed.

(** ** Properties *)

Lemma split_list_Join l : names_ok l -> split_list (default EmptyString (if (0 <? length l)%nat then Some (Join l ",") else None)) = l.
Proof.
  intros Hl. destruct l as [|x l]; [done | ]. change (split_list (Join (x :: l) ",") = x :: l). unfold split_list.
  assert (Hs : Split (Join (x :: l) ",") "," = x :: l).
  { apply Split_Join; [done | ]. eapply Forall_impl; [exact Hl | ]. naive_solver. }
  destruct (String.eqb_spec (Join (x :: l) ",") EmptyString) as [E|_]; [ | done].
  rewrite E in Hs. cbn [Split] in Hs. injection Hs as <- <-.
  apply Forall_singleton in Hl as [Hne _]. by destruct Hne.
Qed.

Lemma read_network_section c n :
  (forall k, KeyString c (section_name n) k = default EmptyString (key_of n k)) ->
  read_network c (section_name n) = Some n.
Proof.
  intros Hk. unfold read_network, section_name at 1. cbn [cut_prefix sapp]. cbn [Ascii.eqb Bool.eqb].
  rewrite !Hk. pose proof (key_of_keys n) as H. unfold section_keys in H. rewrite !Forall_cons in H.
  cbn [fst snd] in H. destruct H as (-> & -> & -> & -> & -> & -> & -> & -> & -> & -> & -> & -> & -> & _).
  by destruct n.
Qed.

(** C22: a configuration posted to the API is the one the API returns afterwards:
    every interface, relay and network, in order, with every field.  Networks must be
    named by distinct addresses, interface names must have no comma, and the values
    must be plain text. *)
Theorem config_roundtrip r file :
  request_ok r ->
  let '(resp, file') := handleUpdateConfig (inl r) Written file in
  status resp = StatusOK /\ handleGetConfig file' = mkResponse StatusOK (BConfig r).
Proof.
  intros Hok. pose proof Hok as [Hi Hr _ _ _].
  destruct (loaded_spec r Hok) as (cfg & c & E1 & E2 & E3 & E4 & E5 & E6).
  unfold handleUpdateConfig. rewrite E1. split; [done | ]. unfold handleGetConfig. rewrite E2, !E5, E3.
  unfold interfaces_key. cbn [String.eqb Ascii.eqb Bool.eqb andb]. rewrite !split_list_Join by done.
  rewrite omap_app. change (omap (read_network c) base_sections) with (@nil ConfigSection). cbn [app].
  assert (Hn : forall nets, (forall n, n ∈ nets -> n ∈ Networks r) -> omap (read_network c) (map section_name nets) = nets).
  { induction nets as [|n nets IH]; intros Hin; [done | ]. cbn [map omap list_omap].
    rewrite read_network_section by (intros k; apply E4, Hin; left). rewrite IH; [done | ].
    intros n' Hn'. apply Hin. by right. }
  rewrite Hn by done. by destruct r.
Qed.

End Laws.

(** ** Restarting on a posted configuration *)

Section Restart.

Context {CZ : GoCache Z} {D4 : Dhcp4}.
Context (InterfaceByName : string -> option NetInterface).
Context (clock : Z -> Z) (rnd : Z -> nat -> Z -> Z) (time_now : Z) (Inc : IP -> IP) (fuel : nat).

Abbreviation read_with ss key := (readConfig ss key InterfaceByName clock rnd time_now Inc fuel).

(** Two views of the file that agree on its sections. *)
Definition same_keys (ss : list string) (K1 K2 : string -> string -> string) : Prop :=
  forall s k, s ∈ "interfaces"%string :: ss -> K1 s k = K2 s k.

Lemma new_scope_ext ip sec1 sec2 a b :
  (forall k, sec1 k = sec2 k) ->
  new_scope clock rnd time_now Inc fuel ip sec1 a b = new_scope clock rnd time_now Inc fuel ip sec2 a b.
Proof. intros H. unfold new_scope, scope_options. by rewrite !H. Qed.

Lemma read_section_ext K1 K2 ip NetIP key :
  (forall k, K1 key k = K2 key k) ->
  read_section K1 clock rnd time_now Inc fuel ip NetIP key = read_section K2 clock rnd time_now Inc fuel ip NetIP key.
Proof.
  intros H. unfold read_section. destruct (network_name key); [ | done]. rewrite !H.
  by rewrite (new_scope_ext ip (K1 key) (K2 key)).
Qed.

Lemma read_sections_ext K1 K2 ip NetIP keys nets :
  (forall s k, s ∈ keys -> K1 s k = K2 s k) ->
  read_sections K1 clock rnd time_now Inc fuel ip NetIP keys nets =
  read_sections K2 clock rnd time_now Inc fuel ip NetIP keys nets.
Proof.
  revert nets. induction keys as [|key keys IH]; intros nets H; cbn [read_sections]; [done | ].
  rewrite (read_section_ext K1 K2) by (intros k; apply H; left).
  destruct (read_section _ _ _ _ _ _ _ _ _) as [[new|]|]; cbn [run_bind]; [ | done..].
  apply IH. intros s k Hs. apply H. by right.
Qed.

Lemma read_addresses_ext ss K1 K2 adresses ethIf :
  same_keys ss K1 K2 ->
  read_addresses ss K1 clock rnd time_now Inc fuel adresses ethIf =
  read_addresses ss K2 clock rnd time_now Inc fuel adresses ethIf.
Proof.
  intros H. revert ethIf. induction adresses as [|ad adresses IH]; intros ethIf; cbn [read_addresses]; [done | ].
  destruct (ParseCIDR ad) as [[ip NetIP]|]; [ | done]. destruct (Mask_Size _) as [x y].
  destruct (x =? y); [apply IH | ]. destruct (IsIPv6 ip); [apply IH | ].
  rewrite (read_sections_ext K1 K2) by (intros s k Hs; apply H; by right).
  destruct (read_sections _ _ _ _ _ _ _ _ _ _) as [[nets|]|]; cbn [run_bind]; [apply IH | done..].
Qed.

Lemma readConfig_ext ss K1 K2 : same_keys ss K1 K2 -> read_with ss K1 = read_with ss K2.
Proof.
  intros H. unfold readConfig. rewrite !(H "interfaces"%string) by left.
  assert (Hl : forall names ints, read_listeners ss K1 InterfaceByName clock rnd time_now Inc fuel names ints =
                                  read_listeners ss K2 InterfaceByName clock rnd time_now Inc fuel names ints).
  { induction names as [|v names IH]; intros ints; cbn [read_listeners]; [done | ].
    destruct (InterfaceByName v); [ | apply IH]. rewrite (read_addresses_ext ss K1 K2) by done.
    destruct (read_addresses _ _ _ _ _ _ _ _ _) as [[i|]|]; cbn [run_bind]; [apply IH | done..]. }
  by rewrite Hl.
Qed.

(** The request as [readConfig] sees it. *)
Fixpoint find_network (nets : list ConfigSection) (s : string) : option ConfigSection :=
  match nets with
  | [] => None
  | n :: nets => if String.eqb (section_name n) s then Some n else find_network nets s
  end.

Definition posted_key (r : ConfigResponse) (s k : string) : string :=
  if String.eqb s "interfaces" then default EmptyString (interfaces_key r k)
  else match find_network (Networks r) s with
       | Some n => default EmptyString (key_of n k)
       | None => EmptyString
       end.

Definition posted_sections (r : ConfigResponse) : list string := base_sections ++ map section_name (Networks r).

Lemma find_network_found nets n :
  NoDup (map cs_Network nets) -> n ∈ nets -> find_network nets (section_name n) = Some n.
Proof.
  induction nets as [|n0 nets IH]; intros Hd Hn; [by apply not_elem_of_nil in Hn | ].
  cbn [find_network map] in *. apply NoDup_cons in Hd as [Hnin Hd].
  destruct (String.eqb_spec (section_name n0) (section_name n)) as [E|E].
  - apply elem_of_cons in Hn as [->|Hn]; [done | ]. exfalso. apply Hnin.
    rewrite (section_name_inj _ _ E). by apply list_elem_of_fmap_2.
  - apply elem_of_cons in Hn as [->|Hn]; [done | by apply IH].
Qed.

Context {INI : Ini} {LI : IniLaws}.

(** [readConfig] at the start of the program; [None] is [os.Exit(1)]. *)
Definition startup (file : option ini_text) : option (option (exec (list IntNet))) :=
  match Load file with
  | inl cfg => Some (read_with (SectionStrings cfg) (KeyString cfg))
  | inr _ => None
  end.

Lemma startup_posted r file :
  request_ok r ->
  startup (handleUpdateConfig (inl r) Written file).2 = Some (read_with (posted_sections r) (posted_key r)).
Proof.
  intros Hok. pose proof Hok as [_ _ Hd _ _].
  destruct (loaded_spec r Hok) as (cfg & c & E1 & E2 & E3 & E4 & E5 & E6).
  unfold handleUpdateConfig. rewrite E1. cbn [snd]. unfold startup. rewrite E2. f_equal.
  rewrite E3. apply readConfig_ext. intros s k Hs. unfold posted_key.
  destruct (String.eqb_spec s "interfaces") as [->|Hne]; [apply E5 | ].
  apply elem_of_cons in Hs as [->|Hs]; [done | ]. apply elem_of_app in Hs as [Hs|Hs].
  - unfold base_sections in Hs. assert (s = "DEFAULT"%string) as -> by set_solver. rewrite E6.
    assert (Hf : forall nets, find_network nets "DEFAULT" = None) by (induction nets; done). by rewrite Hf.
  - apply list_elem_of_fmap in Hs as (n & -> & Hn). rewrite find_network_found by done. by apply E4.
Qed.

(** C21: a restart reads exactly what was posted: the interfaces, scopes, pools and
    relays the server starts with after an update are those [readConfig] builds from
    the fields of the request, whatever the file was before, when networks are named
    by distinct addresses, interface names have no comma and the values are plain text
    ([request_ok]). *)
Theorem restart_reads_posted r file :
  request_ok r ->
  startup (handleUpdateConfig (inl r) Written file).2 = Some (read_with (posted_sections r) (posted_key r)).
Proof. apply startup_posted. Qed.

End Restart.

(** ** Witnesses *)

Section Witnesses.

Import Wire Table.

Definition w_net (assigned : string) : ConfigSection :=
  mkConfigSection "192.168.1.0" "8.8.8.8,8.8.4.4" "192.168.1.1" "192.168.1.10" "192.168.1.20" "255.255.255.0"
    "example.org" "3600" "7200" "enabled" "192.168.1.10-192.168.1.11" assigned "1" "".

Definition w_post (assigned : string) : ConfigResponse := mkConfigResponse ["eth0"%string] [] [w_net assigned].

Lemma w_post_ok assigned : plain assigned = true -> request_ok (w_post assigned).
Proof.
  intros Ha. split; cbn [w_post Interfaces Relay Networks map].
  - apply Forall_singleton. by vm_compute.
  - apply Forall_nil_2.
  - apply NoDup_singleton.
  - apply Forall_singleton. exists [192; 168; 1; 0]. by vm_compute.
  - apply Forall_singleton. repeat (apply Forall_cons; split; [cbn; try done | ]); try apply Forall_nil_2;
      by vm_compute.
Qed.

Definition w_assigned : string := "00:11:22:33:44:55:192.168.1.15".

Lemma config_roundtrip_witness :
  handleGetConfig (handleUpdateConfig (inl (w_post w_assigned)) Written None).2
    = mkResponse StatusOK (BConfig (w_post w_assigned)).
Proof.
  pose proof (config_roundtrip (w_post w_assigned) None (w_post_ok w_assigned eq_refl)) as H.
  destruct (handleUpdateConfig _ _ _) as [resp file']. apply H.
Defined.

Abbreviation w_startup := (startup w_interfaces (fun _ => 0) (fun _ _ _ => 0) 0 inc_bytes 300).
Abbreviation w_read r := (readConfig (posted_sections r) (posted_key r) w_interfaces (fun _ => 0) (fun _ _ _ => 0) 0
  inc_bytes 300).

Lemma restart_reads_posted_witness :
  exists i, w_startup (handleUpdateConfig (inl (w_post w_assigned)) Written None).2 = Some (Some (Ret [i])) /\
    length (in_network i) = 1%nat.
Proof.
  assert (Hl : match w_read (w_post w_assigned) with
               | Some (Ret [i]) => Nat.eqb (length (in_network i)) 1 | _ => false end = true)
    by (vm_compute; reflexivity).
  pose proof (restart_reads_posted w_interfaces (fun _ => 0) (fun _ _ _ => 0) 0 inc_bytes 300
    (w_post w_assigned) None (w_post_ok w_assigned eq_refl)) as H.
  destruct (w_read (w_post w_assigned)) as [[[|i [|? ?]]|]|] eqn:E; [discriminate Hl | | discriminate Hl..].
  exists i. split; [exact H | by apply Nat.eqb_eq].
Defined.

End Witnesses.

(** A configuration the API accepts can keep the server from starting again: no
    address is checked, and a static assignment with an octet above 255 panics
    when the file is read. *)
Theorem accepted_config_panics :
  let r := w_post "00:11:22:33:44:55:192.168.1.300" in
  let '(resp, file) := @handleUpdateConfig Table.table_ini (inl r) Written None in
  status resp = StatusOK /\
  startup (D4 := Wire.wire) w_interfaces (fun _ => 0) (fun _ _ _ => 0) 0 inc_bytes 300 file = Some (Some Panic).
Proof.
  set (r := w_post _). pose proof (startup_posted (D4 := Wire.wire) (INI := Table.table_ini) (LI := Table.table_laws) w_interfaces
    (fun _ => 0) (fun _ _ _ => 0) 0 inc_bytes 300 r None (w_post_ok "00:11:22:33:44:55:192.168.1.300" eq_refl)) as H.
  assert (Hc : match config_file (INI := Table.table_ini) r with inl _ => true | inr _ => false end = true)
    by (vm_compute; reflexivity).
  unfold handleUpdateConfig in *. destruct (config_file r) as [cfg|]; [ | discriminate Hc].
  split; [done | ]. cbn [snd] in H. rewrite H.
  assert (Hp : match readConfig (D4 := Wire.wire) (posted_sections r) (posted_key r) w_interfaces (fun _ => 0)
                       (fun _ _ _ => 0) 0 inc_bytes 300 with Some Panic => true | _ => false end = true)
    by (vm_compute; reflexivity).
  destruct (readConfig _ _ _ _ _ _ _ _) as [[|]|]; [discriminate Hp | reflexivity | discriminate Hp].
Qed.
