(* ===== verification/Stats.v ===== *)
(** * Statistics: src/api.go

    [handleApiReq], which reports the networks of an interface, and the handlers
    [handleStats], [handleAllStats] and [handleDebug] on top of it.  A panic
    ends the request: the HTTP server recovers it and sends no answer. *)

From S2P Require Import Prelude GoStd GoNet Pool GoCache Dhcp4 Database Utils Handler Interface.
From S2P Require Import Scope Lab Discover Request System Server Config Api Dictionary GoFloat Ini ConfigApi.
From Stdlib Require Import Ascii SpecFloat.

(** ** time.Duration.String *)

(** [fmtFrac]: the fraction of [v / 10 ^ prec] before [buf], without its
    trailing zeros, and the integer part. *)
Fixpoint fmt_frac (prec : nat) (v : Z) (print : bool) (buf : string) : string * Z :=
  match prec with
  | O => (if print then String "." buf else buf, v)
  | S prec =>
      let d := v mod 10 in
      let print := print || negb (d =? 0) in
      fmt_frac prec (v / 10) print (if print then String (digit d) buf else buf)
  end.

Definition fmt_unit (prec : nat) (u : Z) (unit_name : string) : string :=
  let '(buf, u) := fmt_frac prec u false unit_name in (Utoa u +s+ buf)%string.

Definition micro : string := string_of_bytes [194; 181].

Definition Duration_String (d : Z) : string :=
  let u := Z.abs d in
  let buf :=
    if u <? Second then
      if u =? 0 then "0s"%string
      else if u <? 1000 then fmt_unit 0 u "ns"
      else if u <? 1000000 then fmt_unit 3 u (micro +s+ "s")
      else fmt_unit 6 u "ms"
    else
      let '(buf, u) := fmt_frac 9 u false "s" in
      let buf := (Utoa (u mod 60) +s+ buf)%string in
      let u := u / 60 in
      if 0 <? u then
        let buf := (Utoa (u mod 60) +s+ String "m" buf)%string in
        let u := u / 60 in
        if 0 <? u then (Utoa u +s+ String "h" buf)%string else buf
      else buf in
  if d <? 0 then String "-" buf else buf.

(** ** The names of options *)

(** [OptionCode.String] of package dhcp4: the name of the constant. *)
Class OptionNames := { OptionCode_String : Z -> string }.

Class OptionNamesLaws `{!OptionNames} : Prop := {
  name_mask : OptionCode_String OptionSubnetMask = "OptionSubnetMask"%string;
  name_router : OptionCode_String OptionRouter = "OptionRouter"%string;
  name_dns : OptionCode_String OptionDomainNameServer = "OptionDomainNameServer"%string;
  name_domain : OptionCode_String OptionDomainName = "OptionDomainName"%string
}.

(** The first character in lower case when it is an upper-case letter. *)
Definition lower_first (optionStr : string) : string :=
  match optionStr with
  | String c r => if (65 <=? code c) && (code c <=? 90) then String (lower_char c) r else optionStr
  | EmptyString => EmptyString
  end.

Section Stats.

Context {CZ : GoCache Z} {CS : GoCache string} {INI : Ini} {ON : OptionNames}.

(** The order of iteration over maps, [sharedutils.Inc], the fuel of
    [IPsFromRange] and the conversions Go does not define. *)
Context (range_options : Options -> list (Z * bytes)).
Context (range_items : gmap string (Z * Z) -> list (string * (Z * Z))).
Context (Inc : IP -> IP) (fuel : nat) (other : spec_float -> Z).

(** ** handleApiReq *)

(** [for option, value := range v.dhcpHandler.options] *)
Fixpoint option_texts (l : list (Z * bytes)) (Options : gmap string string) : exec (gmap string string) :=
  match l with
  | [] => Ret Options
  | (option, value) :: l =>
      exec_bind (Tlv_decode option value) (fun text =>
        option_texts l (<[lower_first (OptionCode_String option) := text]> Options))
  end.

(** [for i, item := range members] *)
Fixpoint member_nodes (start : IP) (members : list (string * (Z * Z))) (Members : list Node) : exec (list Node) :=
  match members with
  | [] => Ret Members
  | (i, (object, expiration)) :: members =>
      exec_bind (Uint32 (To4 start)) (fun first =>
        let result := be32 (u32 (first + u32 object)) in
        member_nodes start members (Members ++ [mkNode i (IP_String result) expiration]))
  end.

Definition status_text (leaseRange Count availableCount : Z) : string :=
  if Count =? leaseRange - availableCount then "Normal"%string
  else ("Calculated available IP " +s+ Itoa (leaseRange - Count)
        +s+ " is different than what we have available in the pool " +s+ Itoa availableCount)%string.

(** The report on one network. *)
Definition network_stats (now : Z) (Request : ApiReq) (v : Network) : option (exec Stats) :=
  let h := dhcpHandler v in
  let Options := {[ "optionIPAddressLeaseTime"%string := Duration_String (h_leaseDuration h) ]} in
  run_bind (Some (option_texts (range_options (h_options h)) Options)) (fun Options =>
  let members := Items now (h_hwcache h) in
  run_bind (Some (member_nodes (h_start h) (range_items members) [])) (fun Members =>
  match IPsFromRange Inc fuel (h_ipReserved h) with
  | None => None
  | Some (_, reserved) =>
      let Count := Z.of_nat (length (range_items members)) in
      let Count := if negb (reserved =? 1) then Count + reserved else Count in
      let availableCount := safeUint64ToInt (FreeIPsRemaining (h_available h)) in
      let usedCount := h_leaseRange h - availableCount in
      Some (Ret (mkStats (req_NetInterface Request) (IPNet_String (network v)) availableCount
        (percent other availableCount (h_leaseRange h)) usedCount (percent other usedCount (h_leaseRange h))
        (h_role h) Options Members (status_text (h_leaseRange h) Count availableCount) (h_leaseRange h)))
  end)).

(** A network the request asks for: all when it names none. *)
Definition selected (Request : ApiReq) (v : Network) : bool :=
  match ParseCIDR (req_NetWork Request +s+ "/32") with
  | Some (ipv4Addr, _) => Contains (network v) ipv4Addr
  | None => true
  end.

Fixpoint stats_loop (now : Z) (Request : ApiReq) (nets : list Network) (stats : list Stats)
    : option (exec (list Stats)) :=
  match nets with
  | [] => Some (Ret stats)
  | v :: nets =>
      if selected Request v then
        run_bind (network_stats now Request v) (fun s => stats_loop now Request nets (stats ++ [s]))
      else stats_loop now Request nets stats
  end.

Definition debug_stats (Request : ApiReq) (v : Network) : option Stats :=
  let h := dhcpHandler v in
  if String.eqb (req_Role Request) (h_role h) then
    Some (mkStats (req_NetInterface Request) (IPNet_String (network v))
      (safeUint64ToInt (FreeIPsRemaining (h_available h))) 0 0 0 (h_role h) ∅ [] "Debug finished" 0)
  else None.

(** [None] is the nil the method returns for other requests. *)
Definition handleApiReq (now : Z) (Request : ApiReq) (nets : list Network) : option (exec (option (list Stats))) :=
  if String.eqb (Req Request) "stats" then
    run_bind (stats_loop now Request nets []) (fun stats => Some (Ret (Some stats)))
  else if String.eqb (Req Request) "debug" then Some (Ret (Some (omap (debug_stats Request) nets)))
  else Some (Ret None).

(** ** The handlers *)

(** [intNametoInterface]: the networks of each interface. *)
Context (intNametoInterface : gmap string (list Network)).

Definition handleStats (now : Z) (var_int var_network : string) : option (exec response) :=
  match intNametoInterface !! var_int with
  | Some nets =>
      run_bind (handleApiReq now (mkApiReq "stats" var_int var_network "" "") nets) (fun stat =>
        Some (Ret (mkResponse StatusOK (BStats stat))))
  | None => Some (Ret (Error "Interface not found" StatusNotFound))
  end.

Definition handleDebug (now : Z) (var_int var_role : string) : option (exec response) :=
  match intNametoInterface !! var_int with
  | Some nets =>
      run_bind (handleApiReq now (mkApiReq "debug" var_int "" "" var_role) nets) (fun stat =>
        Some (Ret (mkResponse StatusOK (BStats stat))))
  | None => Some (Ret (Error "Interface not found" StatusNotFound))
  end.

Definition empty_stats : Stats := mkStats "" "" 0 0 0 0 "" ∅ [] "" 0.

Fixpoint all_stats (now : Z) (NetInterfaces : list string) (items : list Stats) : option (exec (list Stats)) :=
  match NetInterfaces with
  | [] => Some (Ret items)
  | i :: rest =>
      match intNametoInterface !! i with
      | Some nets =>
          run_bind (handleApiReq now (mkApiReq "stats" i "" "" "") nets) (fun stat =>
            all_stats now rest (items ++ default [] stat))
      | None => all_stats now rest items
      end
  end.

Definition handleAllStats (now : Z) (file : option ini_text) : option (exec response) :=
  match Load file with
  | inr e => Some (Ret (Error ("Failed to load configuration: " +s+ e) StatusInternalServerError))
  | inl cfg =>
      let Interfaces := KeyString cfg "interfaces" "listen" in
      let items := if String.eqb Interfaces EmptyString then [empty_stats] else [] in
      run_bind (all_stats now (Split Interfaces ",") items) (fun items =>
        Some (Ret (mkResponse StatusOK (BItems items "200"))))
  end.

End Stats.

Example duration_examples :
  map Duration_String [0; 3600 * Second; 90 * Second + 500000000; 1500; -42; 86400 * Second]
    = ["0s"; "1h0m0s"; "1m30.5s"; "1.5" +s+ micro +s+ "s"; "-42ns"; "24h0m0s"]%string.
Proof. vm_compute. reflexivity. Qed.

(** ** Lemmas *)

Section Laws.

Context {CZ : GoCache Z} {LZ : GoCacheLaws Z} {CS : GoCache string} {ON : OptionNames}.
Context (range_options : Options -> list (Z * bytes)) (range_items : gmap string (Z * Z) -> list (string * (Z * Z))).
Context (Inc : IP -> IP) (fuel : nat) (other : spec_float -> Z).
Context (Hoptions : forall o, range_options o ≡ₚ map_to_list o).
Context (Hitems : forall m, range_items m ≡ₚ map_to_list m).

Abbreviation stats_of := (network_stats range_options range_items Inc fuel other).
Abbreviation api := (handleApiReq range_options range_items Inc fuel other).

(** What [handleApiReq] needs of a scope: a start, options it can print and
    reserved ranges that end. *)
Record reportable (h : DHCPHandler) : Prop := {
  rep_start : exists first, Uint32 (To4 (h_start h)) = Ret first;
  rep_options : map_Forall (fun o v => Tlv_decode o v <> Panic) (h_options h);
  rep_reserved : is_Some (IPsFromRange Inc fuel (h_ipReserved h))
}.

Lemma option_texts_total l acc :
  Forall (fun kv => Tlv_decode kv.1 kv.2 <> Panic) l -> exists texts, option_texts l acc = Ret texts.
Proof.
  intros H. revert acc. induction H as [|[o v] l Hv _ IH]; intros acc; cbn [option_texts]; [by eexists | ].
  cbn [fst snd] in Hv. destruct (Tlv_decode o v); [apply IH | done].
Qed.

(** The entry of a live lease. *)
Definition member_of (first : Z) (kv : string * (Z * Z)) : Node :=
  mkNode kv.1 (IP_String (be32 (u32 (first + u32 kv.2.1)))) kv.2.2.

Lemma member_nodes_spec start first members acc :
  Uint32 (To4 start) = Ret first -> member_nodes start members acc = Ret (acc ++ map (member_of first) members).
Proof.
  intros Hs. revert acc. induction members as [|[k [x ends]] members IH]; intros acc; cbn [member_nodes map].
  - by rewrite app_nil_r.
  - rewrite Hs. cbn [exec_bind]. rewrite IH, <- app_assoc. done.
Qed.

(** The fields of a report. *)
Record report (now : Z) (Request : ApiReq) (v : Network) (s : Stats) : Prop := {
  report_net : Net s = IPNet_String (network v);
  report_interface : EthernetName s = req_NetInterface Request;
  report_size : Size s = h_leaseRange (dhcpHandler v);
  report_free : Free s = safeUint64ToInt (FreeIPsRemaining (h_available (dhcpHandler v)));
  report_used : Used s = Size s - Free s;
  report_percent : PercentFree s = percent other (Free s) (Size s) /\ PercentUsed s = percent other (Used s) (Size s);
  report_members : exists first, Uint32 (To4 (h_start (dhcpHandler v))) = Ret first /\
    Members s ≡ₚ map (member_of first) (map_to_list (Items now (h_hwcache (dhcpHandler v))));
  report_status : exists l reserved, IPsFromRange Inc fuel (h_ipReserved (dhcpHandler v)) = Some (l, reserved) /\
    st_Status s = status_text (Size s) (Z.of_nat (size (Items now (h_hwcache (dhcpHandler v))))
                    + (if reserved =? 1 then 0 else reserved)) (Free s);
  report_options : exists texts, st_Options s = texts /\
    option_texts (range_options (h_options (dhcpHandler v)))
      {[ "optionIPAddressLeaseTime"%string := Duration_String (h_leaseDuration (dhcpHandler v)) ]} = Ret texts
}.

Lemma range_items_length m : length (range_items m) = size m.
Proof. rewrite (Hitems m). apply length_map_to_list. Qed.

Lemma network_stats_report now Request v :
  reportable (dhcpHandler v) -> exists s, stats_of now Request v = Some (Ret s) /\ report now Request v s.
Proof.
  intros [[first Hf] Ho [[l reserved] Hr]]. unfold network_stats.
  destruct (option_texts_total (range_options (h_options (dhcpHandler v)))
    {[ "optionIPAddressLeaseTime"%string := Duration_String (h_leaseDuration (dhcpHandler v)) ]}) as [texts Ht].
  { rewrite (Hoptions _). apply Forall_forall. intros [o x] Hin%elem_of_map_to_list. exact (Ho o x Hin). }
  rewrite Ht. cbn [run_bind]. rewrite (member_nodes_spec _ first) by done. cbn [run_bind app]. rewrite Hr.
  eexists. split; [reflexivity | ]. split; cbn [Net EthernetName Size Free Used PercentFree PercentUsed Members
    st_Status st_Options]; try done.
  - exists first. split; [done | ]. by rewrite (Hitems _).
  - exists l, reserved. split; [done | ]. rewrite range_items_length. f_equal.
    destruct (reserved =? 1); cbn [negb]; lia.
  - by exists texts.
Qed.

(** A request reports the networks it selects, in order. *)
Lemma stats_loop_report now Request nets acc :
  Forall (fun v => reportable (dhcpHandler v)) nets ->
  exists l, stats_loop range_options range_items Inc fuel other now Request nets acc = Some (Ret (acc ++ l)) /\
    Forall2 (report now Request) (filter (fun v => selected Request v = true) nets) l.
Proof.
  intros H. revert acc. induction H as [|v nets Hv _ IH]; intros acc; cbn [stats_loop].
  { exists []. by rewrite app_nil_r. }
  rewrite filter_cons. destruct (selected Request v) eqn:S.
  - destruct (network_stats_report now Request v Hv) as (s & -> & Hrep). cbn [run_bind].
    destruct (IH (acc ++ [s])) as (l & -> & Hl). exists (s :: l). rewrite <- app_assoc.
    split; [done | ]. rewrite decide_True by done. by constructor.
  - rewrite decide_False by done. apply IH.
Qed.

(** The options of a scope that was read from a section. *)
Lemma scope_options_printable clock rnd sec :
  map_Forall (fun o v => Tlv_decode o v <> Panic) (scope_options rnd clock sec).
Proof.
  assert (Hp : forall o, is_Some (Tlvlist !! o) -> Decode <$> Tlvlist !! o <> Some tlvBool ->
            forall v, Tlv_decode o v <> Panic).
  { intros o [[name d] Ht] Hb v. unfold Tlv_decode. rewrite Ht in *. cbn [Decode fmap option_fmap option_map] in *.
    by destruct d. }
  unfold scope_options. repeat apply map_Forall_insert_2; try apply map_Forall_empty;
    apply Hp; vm_compute; (by eexists) || done.
Qed.

(** *** The options of a report *)

(** An entry every option of that name agrees on, and at least one has. *)
Lemma option_texts_lookup l acc texts k text :
  option_texts l acc = Ret texts ->
  (forall o v, (o, v) ∈ l -> lower_first (OptionCode_String o) = k -> Tlv_decode o v = Ret text) ->
  (exists o v, (o, v) ∈ l /\ lower_first (OptionCode_String o) = k) \/ acc !! k = Some text ->
  texts !! k = Some text.
Proof.
  revert acc. induction l as [|[o v] l IH]; intros acc; cbn [option_texts].
  { intros [= <-] _ [(o & v & Hin & _)|H]; [by apply not_elem_of_nil in Hin | done]. }
  destruct (Tlv_decode o v) as [text0|] eqn:D; [ | done]. cbn [exec_bind]. intros Hrun Hall Hor.
  apply (IH _ Hrun); [intros o' v' Hin; apply Hall; by right | ].
  destruct (decide (lower_first (OptionCode_String o) = k)) as [<-|Hne].
  - right. rewrite lookup_insert_eq. specialize (Hall o v ltac:(left) eq_refl). congruence.
  - rewrite lookup_insert_ne by done. destruct Hor as [(o' & v' & Hin & Hk)|]; [ | by right].
    apply elem_of_cons in Hin as [[= -> ->]|Hin]; [done | ]. left. by exists o', v'.
Qed.

Lemma network_stats_options now Request v s :
  stats_of now Request v = Some (Ret s) ->
  option_texts (range_options (h_options (dhcpHandler v)))
    {[ "optionIPAddressLeaseTime"%string := Duration_String (h_leaseDuration (dhcpHandler v)) ]} = Ret (st_Options s).
Proof.
  unfold network_stats. destruct (option_texts _ _) as [texts|]; [ | done]. cbn [run_bind].
  destruct (member_nodes _ _ _) as [nodes|]; [ | done]. cbn [run_bind].
  destruct (IPsFromRange _ _ _) as [[l reserved]|]; [ | done]. by intros [= <-].
Qed.

(** The four options of a scope and their names. *)
Lemma scope_options_elem rnd clock sec o v :
  (o, v) ∈ range_options (scope_options rnd clock sec) <->
  (o, v) = (OptionDomainName, bytes_of_string (sec "domain-name"%string)) \/
  (o, v) = (OptionRouter, ShuffleGateway (sec "gateway"%string)) \/
  (o, v) = (OptionDomainNameServer, ShuffleDNS rnd clock (sec "dns"%string)) \/
  (o, v) = (OptionSubnetMask, To4 (ParseIP (sec "netmask"%string))).
Proof.
  rewrite (Hoptions _), elem_of_map_to_list. unfold scope_options. rewrite !lookup_insert_Some, lookup_empty. split.
  - intros [[<- <-]|[_ [[<- <-]|[_ [[<- <-]|[_ [[<- <-]|[_ H]]]]]]]]; [by left | right; by left |
      right; right; by left | by right; right; right | discriminate H].
  - intros [[= -> ->]|[[= -> ->]|[[= -> ->]|[= -> ->]]]]; [by left | right; split; [done | by left] |
      right; split; [done | right; split; [done | by left]] |
      right; split; [done | right; split; [done | right; split; [done | by left]]]].
Qed.

Lemma reportable_config h h' : reportable h -> same_config h h' -> reportable h'.
Proof.
  intros [Hs Ho Hr] (_ & E1 & E2 & _ & _ & _ & _ & _ & E3). split; [by rewrite E2 | by rewrite E1 | by rewrite E3].
Qed.

Section Started.

Context {D4 : Dhcp4}.
Context (clock : Z -> Z) (rnd : Z -> nat -> Z -> Z) (time_now : Z).

(** The parts of a new scope. *)
Lemma new_scope_parts ip sec dhcpStart dhcpEnd h :
  new_scope clock rnd time_now Inc fuel ip sec dhcpStart dhcpEnd = Some (Ret h) ->
  exists n l reserved dp couple ips,
    IPRange dhcpStart dhcpEnd = Ret n /\
    IPsFromRange Inc fuel (sec "ip_reserved"%string) = Some (l, reserved) /\
    exclude_loop dhcpStart (NewDHCPPool clock (safeIntToUint64 n) (Atoi (sec "algorithm"%string))) l = Ret dp /\
    AssignIP dhcpStart dp (sec "ip_assigned"%string) = Ret (couple, ips, h_available h) /\
    h_start h = dhcpStart /\ h_leaseRange h = n /\ h_options h = scope_options rnd time_now sec /\
    h_ipReserved h = sec "ip_reserved"%string /\
    h_hwcache h = New (i64 (Atoi (sec "dhcp_default_lease_time"%string) * Second)) (10 * Second).
Proof.
  unfold new_scope, ExcludeIP. destruct (IPRange dhcpStart dhcpEnd) as [n|]; [ | done].
  destruct (IPsFromRange Inc fuel (sec "ip_reserved"%string)) as [[l reserved]|]; [ | done].
  destruct (exclude_loop _ _ _) as [dp|] eqn:Ex; [ | done]. cbn [exec_bind].
  destruct (AssignIP _ _ _) as [[[couple ips] dp2]|] eqn:As; [ | done]. cbn [exec_bind]. intros [= <-].
  exists n, l, reserved, dp, couple, ips. by rewrite As.
Qed.

Lemma reportable_built Key : built Key clock rnd time_now Inc fuel reportable.
Proof.
  intros ip key dhcpStart dhcpEnd a b h Hb1 Hb2 Ha Hb Hab Hn.
  destruct (new_scope_parts _ _ _ _ _ Hn)
    as (n & l & reserved & dp & couple & ips & _ & Hl & _ & _ & E1 & _ & E2 & E3 & _).
  split.
  - exists a. by rewrite E1.
  - rewrite E2. apply scope_options_printable.
  - rewrite E3, Hl. by eexists.
Qed.

(** ** Properties *)

Context {LD : Dhcp4Laws} {SQL : SqlDB} {JSON : JSONCodec}.

Lemma FreeIPsRemaining_range h : scope_ok h ->
  0 <= FreeIPsRemaining (h_available h) <= h_leaseRange h /\ h_leaseRange h <= 2 ^ 32.
Proof.
  intros [Hwf Hc (first & _ & Hf & Hr & Hm) _ _]. pose proof (size_free_mac (h_available h) Hwf) as Hs.
  unfold FreeIPsRemaining. lia.
Qed.

Definition is_v4 (ip : IP) : Prop := length ip = 4%nat /\ is_bytes ip.

Lemma ParseIP_v4 ip : is_v4 ip -> To4 (ParseIP (IP_String ip)) = ip.
Proof. intros [Hl Hb]. by rewrite ParseIP_String, To4_mapped. Qed.

(** The text printed for an option of a new scope. *)
Lemma scope_option_text `{!OptionNamesLaws} sec texts acc o v k text :
  option_texts (range_options (scope_options rnd time_now sec)) acc = Ret texts ->
  (o, v) ∈ range_options (scope_options rnd time_now sec) ->
  lower_first (OptionCode_String o) = k -> Tlv_decode o v = Ret text -> texts !! k = Some text.
Proof.
  intros Hrun Hin Hk Hd. eapply option_texts_lookup; [exact Hrun | | left; by exists o, v].
  intros o' v' Hin' Hk'. rewrite scope_options_elem in Hin, Hin'.
  destruct Hin as [[= -> ->]|[[= -> ->]|[[= -> ->]|[= -> ->]]]];
    destruct Hin' as [[= -> ->]|[[= -> ->]|[[= -> ->]|[= -> ->]]]];
    first [exfalso; revert Hk'; rewrite <- Hk, ?name_mask, ?name_router, ?name_dns, ?name_domain; discriminate
          | exact Hd].
Qed.

(** The statistics show what the configuration says: the gateway, the mask,
    the domain name and the lease time of the section a scope was read from, and
    its name servers in some order, printed as they are written there. *)
Theorem stats_show_configuration `{!OptionNamesLaws} ip sec dhcpStart dhcpEnd h nw t Request st gateway mask dns :
  new_scope clock rnd time_now Inc fuel ip sec dhcpStart dhcpEnd = Some (Ret h) ->
  stats_of t Request (mkNetwork nw h) = Some (Ret st) ->
  is_v4 gateway -> sec "gateway"%string = IP_String gateway ->
  is_v4 mask -> sec "netmask"%string = IP_String mask ->
  dns <> [] -> Forall is_v4 dns -> sec "dns"%string = Join (map IP_String dns) "," ->
  st_Options st !! "optionRouter"%string = Some (sec "gateway"%string) /\
  st_Options st !! "optionSubnetMask"%string = Some (sec "netmask"%string) /\
  st_Options st !! "optionDomainName"%string = Some (sec "domain-name"%string) /\
  exists dns', dns' ≡ₚ dns /\
    st_Options st !! "optionDomainNameServer"%string = Some (Join (map IP_String dns') ",").
Proof.
  intros Hn Hst Hg Eg Hm Em Hne Hd Ed.
  apply network_stats_options in Hst. cbn [dhcpHandler] in Hst.
  destruct (new_scope_parts _ _ _ _ _ Hn) as (n & l & reserved & dp & couple & ips & _ & _ & _ & _ & _ & _ & Eo & _).
  rewrite Eo in Hst. clear n l reserved dp couple ips Eo Hn.
  assert (Hin : forall o v, _ -> (o, v) ∈ range_options (scope_options rnd time_now sec))
    by (intros o v; apply scope_options_elem).
  assert (Hv4 : forall o x, Decode <$> Tlvlist !! o = Some tlvIpAddr -> is_v4 x ->
            Tlv_decode o x = Ret (IP_String x)).
  { intros o x Ho [Hl _]. rewrite Tlv_decode_ip by done. f_equal.
    pose proof (tlvIpAddr_String_join [x]) as Hj. cbn [mjoin list_join] in Hj. rewrite app_nil_r in Hj.
    rewrite Hj by (by apply Forall_singleton). done. }
  split; [ | split; [ | split]].
  - eapply scope_option_text; [exact Hst | apply Hin; right; by left | by rewrite name_router | ].
    unfold ShuffleGateway. rewrite Eg, ParseIP_v4 by done. by apply Hv4.
  - eapply scope_option_text; [exact Hst | apply Hin; by right; right; right | by rewrite name_mask | ].
    rewrite Em, ParseIP_v4 by done. by apply Hv4.
  - eapply scope_option_text; [exact Hst | apply Hin; by left | by rewrite name_domain | ].
    rewrite Tlv_decode_text by done. by rewrite string_of_bytes_of_string.
  - exists (shuffle (rnd time_now) dns). split; [apply shuffle_perm | ].
    eapply scope_option_text; [exact Hst | apply Hin; right; right; by left | by rewrite name_dns | ].
    unfold ShuffleDNS, Shuffle. rewrite Ed, Split_Join.
    2: { by destruct dns. }
    2: { apply Forall_map. eapply Forall_impl; [exact Hd | ]. intros x [Hl _]. by apply IP_String_no_char. }
    rewrite map_map. replace (map (fun x => To4 (ParseIP (IP_String x))) dns) with dns.
    2: { rewrite <- (map_id dns) at 1. apply map_ext_in. intros x Hx%list_elem_of_In. symmetry.
         apply ParseIP_v4. exact (proj1 (Forall_forall _ _) Hd x Hx). }
    rewrite Tlv_decode_ip by done. do 2 f_equal. apply tlvIpAddr_String_join.
    rewrite shuffle_perm. eapply Forall_impl; [exact Hd | ]. by intros x [Hl _].
Qed.

Section Running.

Context {LS : GoCacheLaws string}.
Context (Key : string -> string -> string) (SectionStrings : list string).
Context (InterfaceByName : string -> option NetInterface) (ByteToString : bytes -> string).

(** C14: the statistics of a running server are always answered and always consistent.
    Whatever was read from the configuration, lease times that are not negative, and
    whatever happened since, packets of the hardware address 00:00:00:00:00:00 apart,
    a request returns, without a panic and in the fuel the configuration was read
    with, one report per network it selects, in their order; in each, free and used
    addresses add up to the size of the range, both percentages are between 0 and 100
    and add up to between 98 and 100. *)
Theorem stats_always_answered ints i w t evs t' w' answers iface net :
  readConfig SectionStrings Key InterfaceByName clock rnd time_now Inc fuel = Some (Ret ints) -> i ∈ ints ->
  networks w = in_network i -> w_timers w = [] -> leases_positive w -> Forall event_ok evs ->
  run ByteToString (t, w) evs = Some ((t', w'), answers) ->
  exists l, api t' (mkApiReq "stats" iface net "" "") (networks w') = Some (Ret (Some l)) /\
    Forall2 (fun v s => Net s = IPNet_String (network v) /\ Size s = h_leaseRange (dhcpHandler v) /\
        0 <= Free s /\ 0 <= Used s /\ Free s + Used s = Size s /\
        0 <= PercentFree s /\ 0 <= PercentUsed s /\ 98 <= PercentFree s + PercentUsed s <= 100)
      (filter (fun v => selected (mkApiReq "stats" iface net "" "") v = true) (networks w')) l.
Proof.
  intros Hc Hi Hn Ht Hl Hevs Hrun.
  assert (Hw : world_ok w).
  { pose proof (readConfig_built SectionStrings Key InterfaceByName clock rnd time_now Inc fuel fresh ints
      (fresh_built Key clock rnd time_now Inc fuel) Hc) as Hf.
    apply fresh_world; [rewrite Hn; exact (proj1 (Forall_forall _ _) Hf i Hi) | done | exact Hl]. }
  assert (Hr : Forall (fun v => reportable (dhcpHandler v)) (networks w)).
  { pose proof (readConfig_built SectionStrings Key InterfaceByName clock rnd time_now Inc fuel reportable ints
      (reportable_built Key) Hc) as Hf. rewrite Hn. exact (proj1 (Forall_forall _ _) Hf i Hi). }
  destruct (run_config ByteToString (t, w) evs (t', w') answers Hevs Hw Hrun) as [[Hok _] Hkeep].
  assert (Hr' : Forall (fun v => reportable (dhcpHandler v)) (networks w')).
  { apply Forall_lookup. intros n v' Hv'. destruct (Hkeep n v' Hv') as (v & Hv & _ & Hsc).
    eapply reportable_config; [exact (proj1 (Forall_lookup _ _) Hr n v Hv) | exact Hsc]. }
  destruct (stats_loop_report t' (mkApiReq "stats" iface net "" "") (networks w') [] Hr') as (l & Hloop & Hf2).
  exists l. unfold handleApiReq. cbn [Req String.eqb Ascii.eqb Bool.eqb]. rewrite Hloop. split; [done | ].
  apply Forall2_same_length_lookup_2; [by eapply Forall2_length | ].
  intros n v s Hv Hs. pose proof (Forall2_lookup_lr _ _ _ _ _ _ Hf2 Hv Hs) as [R1 _ R3 R4 R5 [R6 R7] _ _ _].
  assert (Hsc : scope_ok (dhcpHandler v)).
  { apply list_elem_of_lookup_2 in Hv. apply list_elem_of_filter in Hv as [_ Hv].
    apply list_elem_of_lookup in Hv as [k Hk]. by eapply Hok. }
  pose proof (FreeIPsRemaining_range _ Hsc) as Hrange. destruct (scope_range _ Hsc) as (first & _ & _ & Hpos & _).
  rewrite safeUint64ToInt_min, Z.min_l in R4 by (unfold MaxInt; lia).
  split; [done | split; [done | ]]. rewrite R6, R7, R5, R3, R4.
  pose proof (percent_sum other (FreeIPsRemaining (h_available (dhcpHandler v))) (h_leaseRange (dhcpHandler v))
    ltac:(lia) ltac:(lia)) as (P1 & P2 & P3).
  repeat split; lia.
Qed.

End Running.

(** Once a lease is recorded and until fifteen seconds after its end, the
    statistics of its network list the client exactly once, under its hardware
    address, with the address it was given and the instant the entry ends. *)
Theorem acked_lease_listed e p x c nw t Request :
  scope_ok (hdl c) -> reportable (hdl c) -> 0 <= x < h_leaseRange (hdl c) ->
  IPAdd (h_start (hdl c)) x = Ret (reqIP p) ->
  t <= now e + (h_leaseDuration (hdl c) + 15 * Second) ->
  let c' := record_lease e p x c in
  exists s, stats_of t Request (mkNetwork nw (hdl c')) = Some (Ret s) /\
    mkNode (mac_of p) (IP_String (reqIP p)) (now e + (h_leaseDuration (hdl c) + 15 * Second)) ∈ Members s /\
    NoDup (map node_Mac (Members s)).
Proof.
  intros Hs Hrep Hx Hip Ht c'. pose proof (scope_lease _ Hs) as Hl.
  assert (Hrep' : reportable (dhcpHandler (mkNetwork nw (hdl c')))) by (by apply (reportable_config (hdl c))).
  destruct (network_stats_report t Request (mkNetwork nw (hdl c')) Hrep') as (s & E & [_ _ _ _ _ _ (first & Hf & Hm) _ _]).
  exists s. split; [exact E | ]. cbn [dhcpHandler] in *.
  change (h_start (hdl c')) with (h_start (hdl c)) in Hf.
  set (ends := now e + (h_leaseDuration (hdl c) + 15 * Second)) in *.
  assert (Hitem : Items t (h_hwcache (hdl c')) !! mac_of p = Some (x, ends)).
  { unfold c', record_lease. simpl. apply items_set; unfold Second in *; lia. }
  destruct (scope_range _ Hs) as (first' & F' & Hf0 & _ & Hf1).
  assert (Hr : is_u32 first') by (unfold is_u32; lia).
  assert (first = first') as ->.
  { rewrite F', <- (app_nil_r (be32 first')), Uint32_be32 in Hf by done. congruence. }
  split.
  - rewrite Hm. apply list_elem_of_fmap. exists (mac_of p, (x, ends)). split; [ | by apply elem_of_map_to_list].
    unfold member_of. cbn [fst snd]. do 2 f_equal.
    rewrite (IPAdd_spec _ first' x) in Hip by (unfold is_u32 in *; lia || done). injection Hip as <-.
    by rewrite (u32_small x), u32_small by (unfold is_u32 in *; lia).
  - rewrite Hm, map_map. change (map (fun kv => node_Mac (member_of first' kv))) with
      (map (@fst string (Z * Z))). apply NoDup_fst_map_to_list.
Qed.

(** The held indexes of a new pool once a range is excluded. *)
Lemma excluded_used dp0 start s a b dp :
  pool_wf dp0 -> mac dp0 = ∅ -> To4 start = be32 s -> is_u32 s -> s <= a -> a <= b -> b - s < capacity dp0 ->
  capacity dp0 + s <= 2 ^ 32 ->
  exclude_loop start dp0 (map (fun n => v4InV6Prefix ++ be32 n) (seqZ a (b - a + 1))) = Ret dp ->
  pool_wf dp /\ capacity dp = capacity dp0 /\ FreeIPsRemaining dp = capacity dp0 - (b - a + 1).
Proof.
  intros Hwf Hm Hs Hr Hsa Hab Hb Hcap Hex.
  destruct (exclude_loop_v4 start dp0 s (seqZ a (b - a + 1)) Hwf Hs Hr) as (dp' & Hrun & Hwf' & Hc & Hj).
  { apply Forall_seqZ. unfold is_u32 in *. lia. }
  rewrite Hrun in Hex. injection Hex as ->. split; [done | split; [done | ]].
  pose proof (size_free_mac dp Hwf') as Hsize. unfold FreeIPsRemaining.
  assert (Hdom : dom (mac dp) = list_to_set (seqZ (a - s) (b - a + 1))).
  { apply set_eq. intros j. rewrite elem_of_dom, elem_of_list_to_set, elem_of_seqZ.
    destruct (Hj j) as [_ ->]. rewrite Hm, lookup_empty.
    assert (Hin : j + s ∈ seqZ a (b - a + 1) <-> a - s <= j < a - s + (b - a + 1)) by (rewrite elem_of_seqZ; lia).
    case_decide as Hd; [split; [intros _; by apply Hin, Hd | by eexists] | ]. split; [by intros [? ?] | ].
    intros Hr'. exfalso. apply Hd. split; [by apply Hin | ]. apply not_eq_None_Some. intros Hnone.
    destruct (proj2 (wf_mac dp0 Hwf j)) as [y Hy]; [split; [lia | done] | ]. by rewrite Hm, lookup_empty in Hy. }
  assert (Hsz : Z.of_nat (size (mac dp)) = b - a + 1).
  { rewrite <- size_dom, Hdom, size_list_to_set, length_seqZ by apply NoDup_seqZ. lia. }
  lia.
Qed.

(** The consistency check of the statistics is wrong for a single reserved
    address.  On a new scope with the addresses from [a] to [b] reserved and no
    static assignment the status is Normal when there are two or more of them
    and reports a difference when there is one, although the pool is the same
    as what was reserved in both cases. *)
Theorem reserved_status `{!IncLaws Inc} ip sec dhcpStart dhcpEnd s stop a b h nw t Request :
  To4 dhcpStart = be32 s -> To4 dhcpEnd = be32 stop -> is_u32 s -> is_u32 stop ->
  s <= a -> a <= b -> b <= stop -> b - a < Z.of_nat fuel ->
  sec "ip_assigned"%string = EmptyString -> sec "ip_reserved"%string = range_string a b ->
  new_scope clock rnd time_now Inc fuel ip sec dhcpStart dhcpEnd = Some (Ret h) ->
  exists st, stats_of t Request (mkNetwork nw h) = Some (Ret st) /\
    Size st = stop - s + 1 /\ Used st = b - a + 1 /\
    (st_Status st = "Normal"%string <-> a < b).
Proof.
  intros Hs He Rs Re Hsa Hab Hb Hfuel Hno Hres Hn.
  destruct (new_scope_parts _ _ _ _ _ Hn)
    as (n & l & reserved & dp & couple & ips & En & Hl & Hex & Has & E1 & E2 & E3 & E4 & E5).
  rewrite (IPRange_spec _ _ s stop) in En by done. injection En as <-.
  assert (Ra : is_u32 a /\ is_u32 b) by (unfold is_u32 in *; lia).
  rewrite Hres, IPsFromRange_v4 in Hl by (tauto || done). injection Hl as <- <-.
  assert (Hcap : safeIntToUint64 (stop - s + 1) = stop - s + 1)
    by (rewrite safeIntToUint64_max; unfold MaxInt, is_u32 in *; lia).
  rewrite Hcap in Hex. set (dp0 := NewDHCPPool _ _ _) in Hex.
  destruct (NewDHCPPool_fields clock (stop - s + 1) (Atoi (sec "algorithm"%string))) as (M0 & C0 & _). fold dp0 in M0, C0.
  destruct (excluded_used dp0 dhcpStart s a b dp) as (Hwf & Hc & Hfree); try done;
    [apply NewDHCPPool_wf | rewrite C0; lia | rewrite C0; unfold is_u32 in *; lia | ].
  rewrite Hno in Has. unfold AssignIP in Has. cbn [String.eqb] in Has. injection Has as _ _ Hav.
  assert (Hrep : reportable (dhcpHandler (mkNetwork nw h))).
  { split; cbn [dhcpHandler].
    - exists s. by rewrite E1, Hs, <- (app_nil_r (be32 s)), Uint32_be32.
    - rewrite E3. apply scope_options_printable.
    - rewrite E4, Hres, IPsFromRange_v4 by (tauto || done). by eexists. }
  destruct (network_stats_report t Request (mkNetwork nw h) Hrep)
    as (st & Hst & [_ _ R3 R4 R5 _ _ (l' & r' & Hl' & R8) _]).
  exists st. split; [exact Hst | ]. cbn [dhcpHandler] in *.
  rewrite E4, Hres, IPsFromRange_v4 in Hl' by (tauto || done). injection Hl' as <- <-.
  assert (Hitems0 : Items t (h_hwcache h) = ∅).
  { apply map_empty. intros k. apply fmap_None with fst. rewrite items_get, E5. apply get_new. }
  rewrite Hitems0, map_size_empty in R8. rewrite <- Hav, Hfree, C0 in R4.
  rewrite safeUint64ToInt_min, Z.min_l in R4 by (unfold MaxInt, is_u32 in *; lia).
  rewrite R5, R3, E2, R4. split; [done | split; [lia | ]].
  rewrite R8. unfold status_text. rewrite R3, E2, R4.
  destruct (Z.eqb_spec (b - a + 1) 1) as [Hone|Hmany]; zcases; split; (done || lia).
Qed.

End Started.

End Laws.

(** The percentages.  The value printed for [a] of [b] addresses, computed in
    double precision and truncated, is the exact percentage rounded down, or one
    less; it is one less only when the exact percentage is a whole number, and
    for 29 of 100 it is. *)
Theorem percent_exact other a b :
  0 <= a <= b -> 0 < b <= 2 ^ 32 ->
  Z.max 0 (100 * a / b - 1) <= percent other a b <= 100 * a / b /\
  ((100 * a) mod b <> 0 -> percent other a b = 100 * a / b) /\
  percent other 29 100 = 28.
Proof.
  intros Ha Hb. destruct (percent_spec other a b Ha Hb) as [H1 H2].
  split; [done | split; [done | by vm_compute]].
Qed.

(** ** Witnesses *)

Section Witnesses.

Import Wire Mem.

#[local] Existing Instance inc_bytes_laws.

(** The names of the table. *)
#[local] Instance table_names : OptionNames := {|
  OptionCode_String o := match Tlvlist !! o with Some t => tlv_Option t | None => "OptionCode"%string end
|}.

#[local] Instance table_names_laws : OptionNamesLaws.
Proof. split; vm_compute; reflexivity. Qed.

Definition w_other (f : spec_float) : Z := 0.

Definition w_sec (k : string) : string := w_key "network 192.168.1.0" k.

Abbreviation w_order := (fun o : Options => map_to_list o).
Abbreviation w_items := (fun m : gmap string (Z * Z) => map_to_list m).

Lemma stats_always_answered_witness :
  exists i w' l, handleApiReq w_order w_items inc_bytes 300 w_other (lab_t + Second)
      (mkApiReq "stats" "eth0" "" "" "") (networks w') = Some (Ret (Some l)) /\
    length (in_network i) = 1%nat.
Proof.
  assert (Hl : match w_config with Some (Ret [i]) => Nat.eqb (length (in_network i)) 1 | _ => false end = true)
    by (vm_compute; reflexivity).
  destruct w_config as [[[|i [|? ?]]|]|] eqn:E; [discriminate Hl | | discriminate Hl..].
  set (w := mkWorld (in_network i) (New 0 0) (New 0 0) (New 0 0) (New 0 0) w_store []).
  destruct (stats_always_answered w_order w_items inc_bytes 300 w_other (fun _ => reflexivity _) (fun _ => reflexivity _)
    (fun _ => 0) (fun _ _ _ => 0) 0 w_key ["interfaces"; "network 192.168.1.0"]%string w_interfaces lab_key
    [i] i w lab_t [EWait Second] (lab_t + Second) w [] "eth0" "")
    as (l & Hst & Hf); [exact E | by apply list_elem_of_singleton | done | done | | | done | ].
  { intros n v Hv. exact (proj1 (Forall_lookup _ _) (w_config_leases i E) n v Hv). }
  { by apply Forall_singleton. }
  exists i, w, l. split; [exact Hst | by apply Nat.eqb_eq].
Defined.

Lemma w_reportable : reportable inc_bytes 300 (lab_scope lab_pool ∅).
Proof.
  split.
  - by eexists.
  - apply map_Forall_singleton. vm_compute. discriminate.
  - vm_compute. by eexists.
Qed.

(** A REQUEST for the third address of the laboratory. *)
Definition w_req : Packet := lab_packet lab_hw lab_xid [(OptionRequestedIPAddress, [192; 168; 1; 12])].

Lemma acked_lease_listed_witness :
  let c' := record_lease (lab_env lab_t) w_req 2 (lab_ctx (lab_scope lab_pool ∅)) in
  exists s, network_stats w_order w_items inc_bytes 300 w_other lab_t (mkApiReq "stats" "eth0" "" "" "")
      (mkNetwork (mkIPNet [192; 168; 1; 0] [255; 255; 255; 0]) (hdl c')) = Some (Ret s) /\
    mkNode w_mac "192.168.1.12" (lab_t + 3615 * Second) ∈ Members s.
Proof.
  destruct (acked_lease_listed w_order w_items inc_bytes 300 w_other (fun _ => reflexivity _) (fun _ => reflexivity _)
    (lab_env lab_t) w_req 2 (lab_ctx (lab_scope lab_pool ∅)) (mkIPNet [192; 168; 1; 0] [255; 255; 255; 0]) lab_t
    (mkApiReq "stats" "eth0" "" "" "")) as (s & Hs & Hin & _).
  - apply lab_fresh_ok.
  - apply w_reportable.
  - simpl. lia.
  - vm_compute. reflexivity.
  - vm_compute. discriminate.
  - exists s. split; [exact Hs | ]. exact Hin.
Defined.

(** A section with one reserved address. *)
Definition w_one (k : string) : string :=
  if String.eqb k "ip_reserved" then "192.168.1.12-192.168.1.12"%string
  else if String.eqb k "ip_assigned" then EmptyString
  else if String.eqb k "netmask" then "255.255.255.0"%string
  else if String.eqb k "gateway" then "192.168.1.1"%string
  else if String.eqb k "dns" then "8.8.8.8,8.8.4.4"%string
  else if String.eqb k "domain-name" then "example.org"%string else EmptyString.

Definition w_scope : option (exec DHCPHandler) :=
  new_scope (fun _ => 0) (fun _ _ _ => 0) 0 inc_bytes 300 [192; 168; 1; 1] w_one [192; 168; 1; 10] [192; 168; 1; 20].

Lemma reserved_status_witness :
  exists h st, network_stats w_order w_items inc_bytes 300 w_other lab_t (mkApiReq "stats" "eth0" "" "" "")
      (mkNetwork (mkIPNet [192; 168; 1; 0] [255; 255; 255; 0]) h) = Some (Ret st) /\
    Used st = 1 /\ st_Status st <> "Normal"%string.
Proof.
  assert (Hl : match w_scope with Some (Ret _) => true | _ => false end = true) by (vm_compute; reflexivity).
  destruct w_scope as [[h|]|] eqn:E; [ | discriminate Hl..].
  destruct (reserved_status w_order w_items inc_bytes 300 w_other (fun _ => reflexivity _) (fun _ => reflexivity _)
    (fun _ => 0) (fun _ _ _ => 0) 0 [192; 168; 1; 1] w_one [192; 168; 1; 10] [192; 168; 1; 20]
    3232235786 3232235796 3232235788 3232235788 h (mkIPNet [192; 168; 1; 0] [255; 255; 255; 0]) lab_t
    (mkApiReq "stats" "eth0" "" "" "")) as (st & Hst & _ & Hu & Hn);
    [by vm_compute | by vm_compute | unfold is_u32; lia | unfold is_u32; lia | lia | lia | lia | lia
    | reflexivity | by vm_compute | exact E | ].
  exists h, st. split; [exact Hst | split; [exact Hu | ]]. rewrite Hn. lia.
Defined.

Lemma stats_show_configuration_witness :
  exists h st, network_stats w_order w_items inc_bytes 300 w_other lab_t (mkApiReq "stats" "eth0" "" "" "")
      (mkNetwork (mkIPNet [192; 168; 1; 0] [255; 255; 255; 0]) h) = Some (Ret st) /\
    st_Options st !! "optionRouter"%string = Some "192.168.1.1"%string.
Proof.
  assert (Hl : match w_scope with
               | Some (Ret h) =>
                   match network_stats w_order w_items inc_bytes 300 w_other lab_t (mkApiReq "stats" "eth0" "" "" "")
                     (mkNetwork (mkIPNet [192; 168; 1; 0] [255; 255; 255; 0]) h) with
                   | Some (Ret _) => true | _ => false end
               | _ => false end = true) by (vm_compute; reflexivity).
  destruct w_scope as [[h|]|] eqn:E; [ | discriminate Hl..].
  destruct (network_stats _ _ _ _ _ _ _ _) as [[st|]|] eqn:Hst; [ | discriminate Hl..].
  destruct (stats_show_configuration w_order w_items inc_bytes 300 w_other (fun _ => reflexivity _)
    (fun _ => 0) (fun _ _ _ => 0) 0 [192; 168; 1; 1] w_one [192; 168; 1; 10] [192; 168; 1; 20] h
    (mkIPNet [192; 168; 1; 0] [255; 255; 255; 0]) lab_t (mkApiReq "stats" "eth0" "" "" "") st
    [192; 168; 1; 1] [255; 255; 255; 0] [[8; 8; 8; 8]; [8; 8; 4; 4]] E Hst) as (Hr & _).
  - split; [done | by apply lab_bytes].
  - by vm_compute.
  - split; [done | by apply lab_bytes].
  - by vm_compute.
  - discriminate.
  - repeat (apply Forall_cons; split; [split; [done | by apply lab_bytes] | ]). apply Forall_nil_2.
  - by vm_compute.
  - exists h, st. split; [exact Hst | exact Hr].
Defined.

Lemma percent_exact_witness : 0 <= percent w_other 3 7 <= 42.
Proof. destruct (percent_exact w_other 3 7) as [H _]; [lia | lia | ]. vm_compute in H |- *. exact H. Defined.

End Witnesses.
