(* ===== verification/Serverif.v ===== *)
(** * Listeners and their sockets: src/serverif.go

    The descriptors of the process and the system calls that open, configure,
    bind and close sockets.  Any call may fail: [fails] says which do.  A
    failure keeps the state reached, as in the kernel.  The packages net and
    ipv4 only wrap the descriptor; [net.FilePacketConn] duplicates it.  Also the
    raw clients of src/rawClient.go and the two listeners of src/interface.go. *)

From S2P Require Import Prelude GoStd GoNet Pool RawClient GoCache Dhcp4 Database Utils Handler Interface.
From S2P Require Import Scope Lab Discover Request System Server Config.

(** ** The kernel *)

(** A socket: its options, the device it is bound to, its address and port. *)
Record socket := mkSocket {
  so_reuseaddr : bool;
  so_broadcast : bool;
  so_bindtodevice : option string;
  so_bound : option (bytes * Z);
  so_pktinfo : bool
}.

Record kernel := mkKernel { fds : gmap Z socket; calls : nat }.

(** Calls that may fail, and leave a state behind when they do. *)
Definition sys (A : Type) : Type := kernel -> (A + string) * kernel.

Definition sys_ret {A : Type} (a : A) : sys A := fun k => (inl a, k).
Definition sys_bind {A B : Type} (m : sys A) (f : A -> sys B) : sys B := fun k =>
  match m k with
  | (inl a, k) => f a k
  | (inr e, k) => (inr e, k)
  end.
Notation "x '<-$' m ';;' f" := (sys_bind m (fun x => f))
  (at level 100, m at next level, right associativity) : go_scope.

Section Kernel.

(** The descriptor of a new socket, and the error of the [n]-th call. *)
Context (alloc : gset Z -> Z) (fails : nat -> error).

Definition syscall {A : Type} (run : gmap Z socket -> A * gmap Z socket) : sys A := fun k =>
  match fails (calls k) with
  | Some e => (inr e, mkKernel (fds k) (S (calls k)))
  | None => let '(a, fds) := run (fds k) in (inl a, mkKernel fds (S (calls k)))
  end.

Definition Socket : sys Z := syscall (fun fds =>
  let s := alloc (dom fds) in (s, <[s := mkSocket false false None None false]> fds)).

Definition configure (f : socket -> socket) (s : Z) : sys unit := syscall (fun fds => (tt, alter f s fds)).

Definition set_reuseaddr (x : socket) : socket :=
  mkSocket true (so_broadcast x) (so_bindtodevice x) (so_bound x) (so_pktinfo x).
Definition set_broadcast (x : socket) : socket :=
  mkSocket (so_reuseaddr x) true (so_bindtodevice x) (so_bound x) (so_pktinfo x).
Definition set_device (ifname : string) (x : socket) : socket :=
  mkSocket (so_reuseaddr x) (so_broadcast x) (Some ifname) (so_bound x) (so_pktinfo x).
Definition set_bound (addr : bytes) (port : Z) (x : socket) : socket :=
  mkSocket (so_reuseaddr x) (so_broadcast x) (so_bindtodevice x) (Some (addr, port)) (so_pktinfo x).
Definition set_pktinfo (x : socket) : socket :=
  mkSocket (so_reuseaddr x) (so_broadcast x) (so_bindtodevice x) (so_bound x) true.

(** [syscall.Close], whose error nobody reads: the descriptor is gone. *)
Definition Close (s : Z) (k : kernel) : kernel := mkKernel (delete s (fds k)) (S (calls k)).

(** [net.FilePacketConn]: a duplicate of the descriptor. *)
Definition FilePacketConn (s : Z) : sys Z := syscall (fun fds =>
  let c := alloc (dom fds) in
  (c, match fds !! s with Some x => <[c := x]> fds | None => fds end)).

(** [if err = m; err != nil { syscall.Close(s); return nil, err }] *)
Definition or_close {A : Type} (s : Z) (m : sys A) : sys A := fun k =>
  match m k with
  | (inr e, k) => (inr e, Close s k)
  | r => r
  end.

(** [f := os.NewFile(s); c, err := net.FilePacketConn(f); f.Close()] *)
Definition packet_conn (s : Z) : sys Z := fun k =>
  let '(r, k) := FilePacketConn s k in (r, Close s k).

Open Scope go_scope.

(** ** Opening *)

Definition broadcastOpen (bindAddr : IP) (port : Z) (ifname : string) : sys Z :=
  s <-$ Socket;;
  _ <-$ or_close s (configure set_reuseaddr s);;
  _ <-$ or_close s (configure set_broadcast s);;
  _ <-$ or_close s (configure (set_device ifname) s);;
  _ <-$ or_close s (configure (set_bound (copy4 bindAddr) port) s);;
  packet_conn s.

Definition UnicastOpen (I : Interface) (listenPort : Z) : sys Z :=
  s <-$ Socket;;
  _ <-$ or_close s (configure set_reuseaddr s);;
  _ <-$ (if negb (String.eqb (InterfaceType I) "relay") then or_close s (configure (set_device (Name I)) s)
         else sys_ret tt);;
  _ <-$ or_close s (configure (set_bound (copy4 (Ipv4 I)) listenPort) s);;
  packet_conn s.

(** ** Listening *)

Context {D4 : Dhcp4}.

(** A listener that returned, with its error, or that still reads from [fd]. *)
Inductive listener :=
| Running (fd : Z)
| Returned (e : string).

(** [ServeIf], then the deferred [p.Close()]: [reads] are the reads so far. *)
Definition ServeIf (p : Z) (cap : nat) (reads : list read) (jobs : list job) (k : kernel)
    : list job * listener * kernel :=
  match configure set_pktinfo p k with
  | (inr e, k) => (jobs, Returned e, Close p k)
  | (inl _, k) =>
      match Serve cap reads jobs with
      | (jobs, Some e) => (jobs, Returned e, Close p k)
      | (jobs, None) => (jobs, Running p, k)
      end
  end.

(** [net.InterfaceByName], then the open function, then [ServeIf]. *)
Definition listen (find : error) (open : sys Z) (cap : nat) (reads : list read) (jobs : list job) (k : kernel)
    : list job * listener * kernel :=
  match find with
  | Some e => (jobs, Returned e, k)
  | None =>
      match open k with
      | (inr e, k) => (jobs, Returned e, k)
      | (inl p, k) => ServeIf p cap reads jobs k
      end
  end.

Definition ListenAndServeIf (I : Interface) (find : error) :=
  listen find (broadcastOpen IPv4zero 67 (Name I)).

Definition ListenAndServeIfUnicast (I : Interface) (listenPort : Z) (find : error) :=
  listen find (UnicastOpen I listenPort).

(** [run] and [runUnicast] of an interface: what they log in the end. *)
Definition stopped (what : string) (I : Interface) (l : listener) : option string :=
  match l with
  | Returned e => Some (what +s+ " listener on " +s+ Name I +s+ " stopped: " +s+ e)%string
  | Running _ => None
  end.

Definition run_broadcast (I : Interface) (find : error) (cap : nat) (reads : list read) (jobs : list job)
    (k : kernel) : option string * list job * kernel :=
  let '(jobs, l, k) := ListenAndServeIf I find cap reads jobs k in (stopped "Broadcast" I l, jobs, k).

Definition run_unicast (I : Interface) (listenPort : Z) (find : error) (cap : nat) (reads : list read)
    (jobs : list job) (k : kernel) : option string * list job * kernel :=
  let '(jobs, l, k) := ListenAndServeIfUnicast I listenPort find cap reads jobs k in (stopped "Unicast" I l, jobs, k).

(** ** Connections *)

Section Conn.

(** Control messages and addresses of package ipv4; a read of a connection into
    a buffer of a given length fills a first part of it. *)
Context (ControlMessage Addr : Type).
Context (recv : Z -> nat -> bytes * option ControlMessage * Addr * error).
Context (send : Z -> bytes -> option ControlMessage -> Addr -> Z * error).

Record serveIfConn := mkServeIfConn { ifIndex : Z; conn : Z; cm : option ControlMessage }.

(** [ReadFrom] keeps the control message, which [WriteTo] hands back; the bytes
    returned are [b[:n]]. *)
Definition ReadFrom (s : serveIfConn) (len_b : nat) : bytes * Addr * error * serveIfConn :=
  let '(b, cm, addr, err) := recv (conn s) len_b in (b, addr, err, mkServeIfConn (ifIndex s) (conn s) cm).

Definition ReadFromRaw (s : serveIfConn) (len_b : nat) : bytes * option ControlMessage * Addr * error :=
  recv (conn s) len_b.

Definition WriteTo (s : serveIfConn) (b : bytes) (addr : Addr) : Z * error := send (conn s) b (cm s) addr.

End Conn.

(** ** Raw clients *)

(** [raw.ListenPacket] opens one socket, which [Close] closes. *)
Definition NewRawClient : sys Z := Socket.

Definition RawClient_Close (c : Z) (k : kernel) : kernel := Close c k.

(** ** Lemmas *)

Context (alloc_fresh : forall S, alloc S ∉ S).

(** A call leaves the descriptors as they are, or adds one. *)
Definition opens (m : sys Z) (sock : socket) : Prop := forall k,
  match m k with
  | (inl fd, k') => fds k !! fd = None /\ fds k' = <[fd := sock]> (fds k)
  | (inr _, k') => fds k' = fds k
  end.

(** What follows once [s] is open as [x], on top of the descriptors [F]. *)
Definition continues (F : gmap Z socket) (s : Z) (x : socket) (m : sys Z) (sock : socket) : Prop := forall k,
  F !! s = None -> fds k = <[s := x]> F ->
  match m k with
  | (inl fd, k') => F !! fd = None /\ fds k' = <[fd := sock]> F
  | (inr _, k') => fds k' = F
  end.

Lemma continues_configure F s x f m sock :
  continues F s (f x) m sock -> continues F s x (_ <-$ or_close s (configure f s);; m) sock.
Proof.
  intros Hm k Hs Hk. unfold sys_bind, or_close, configure, syscall.
  destruct (fails (calls k)) as [e|]; cbn [Close fds].
  - rewrite Hk. by apply delete_insert_id.
  - apply Hm; [done | ]. cbn [fds]. rewrite Hk. apply alter_insert_eq.
Qed.

Lemma continues_packet_conn F s x : continues F s x (packet_conn s) x.
Proof.
  intros k Hs Hk. unfold packet_conn, FilePacketConn, syscall.
  destruct (fails (calls k)) as [e|]; cbn [Close fds]; [rewrite Hk; by apply delete_insert_id | ].
  assert (Hf : fds k !! alloc (dom (fds k)) = None) by (apply not_elem_of_dom, alloc_fresh).
  rewrite Hk, lookup_insert_eq. rewrite Hk in Hf. set (c := alloc _) in *.
  apply lookup_insert_None in Hf as [Hc Hne]. split; [done | ].
  rewrite delete_insert_ne by done. f_equal. by apply delete_insert_id.
Qed.

Lemma opens_socket (f : Z -> sys Z) sock :
  (forall F s, continues F s (mkSocket false false None None false) (f s) sock) ->
  opens (s <-$ Socket;; f s) sock.
Proof.
  intros Hf k. unfold sys_bind, Socket, syscall. destruct (fails (calls k)) as [e|]; [done | ].
  apply Hf; [apply not_elem_of_dom, alloc_fresh | done].
Qed.

Definition broadcast_socket (bindAddr : IP) (port : Z) (ifname : string) : socket :=
  mkSocket true true (Some ifname) (Some (copy4 bindAddr, port)) false.

Lemma broadcastOpen_opens bindAddr port ifname :
  opens (broadcastOpen bindAddr port ifname) (broadcast_socket bindAddr port ifname).
Proof. apply opens_socket. intros F s. do 4 apply continues_configure. apply continues_packet_conn. Qed.

Definition unicast_socket (I : Interface) (listenPort : Z) : socket :=
  mkSocket true false (if isRelay I then None else Some (Name I)) (Some (copy4 (Ipv4 I), listenPort)) false.

Lemma UnicastOpen_opens I listenPort : opens (UnicastOpen I listenPort) (unicast_socket I listenPort).
Proof.
  apply opens_socket. intros F s. apply continues_configure. unfold unicast_socket, isRelay.
  destruct (String.eqb (InterfaceType I) "relay"); cbn [negb].
  - unfold sys_bind at 1, sys_ret. intros k. apply (continues_configure F s). apply continues_packet_conn.
  - do 2 apply continues_configure. apply continues_packet_conn.
Qed.

(** A worker's raw client leaves no descriptor behind. *)
Lemma raw_client_balanced k :
  match NewRawClient k with
  | (inl c, k') => fds (RawClient_Close c k') = fds k
  | (inr _, k') => fds k' = fds k
  end.
Proof.
  unfold NewRawClient, Socket, syscall. destruct (fails (calls k)) as [e|]; [done | ]. cbn [RawClient_Close Close fds].
  apply delete_insert_id, not_elem_of_dom, alloc_fresh.
Qed.

Lemma listen_descriptors find open sock cap reads jobs k :
  opens open sock ->
  let '(_, l, k') := listen find open cap reads jobs k in
  match l with
  | Returned _ => fds k' = fds k
  | Running fd => fds k !! fd = None /\ fds k' = <[fd := set_pktinfo sock]> (fds k)
  end.
Proof.
  intros Ho. unfold listen. destruct find as [e|]; [done | ]. specialize (Ho k).
  destruct (open k) as [[p|e] k1]; [ | done]. destruct Ho as [Hp Hk].
  unfold ServeIf, configure, syscall. destruct (fails (calls k1)) as [e|].
  - cbn [Close fds]. rewrite Hk. by apply delete_insert_id.
  - destruct (Serve cap reads jobs) as [jobs' [e|]]; cbn [Close fds]; rewrite Hk, alter_insert_eq.
    + by apply delete_insert_id.
    + done.
Qed.

(** ** Properties *)

(** C23: listeners do not leak descriptors, whichever system calls fail: when one
    returns, the open descriptors are those from before it started, and while it
    runs there is exactly one more, of a socket with the address reuse option and
    packet information.  The broadcast listener's is bound to the device, to
    port 67 of every address and may broadcast; the unicast listener's is bound
    to the interface's address and port, and to the device unless the interface
    is a relay. *)
Theorem listeners_descriptors I listenPort find cap reads jobs k :
  let '(_, l, k') := ListenAndServeIf I find cap reads jobs k in
  let '(_, lu, ku) := ListenAndServeIfUnicast I listenPort find cap reads jobs k in
  match l with
  | Returned _ => fds k' = fds k
  | Running fd => fds k !! fd = None /\
      fds k' = <[fd := mkSocket true true (Some (Name I)) (Some ([0; 0; 0; 0], 67)) true]> (fds k)
  end /\
  match lu with
  | Returned _ => fds ku = fds k
  | Running fd => fds k !! fd = None /\
      fds ku = <[fd := mkSocket true false (if isRelay I then None else Some (Name I))
                         (Some (copy4 (Ipv4 I), listenPort)) true]> (fds k)
  end.
Proof.
  pose proof (listen_descriptors find _ _ cap reads jobs k (broadcastOpen_opens IPv4zero 67 (Name I))) as H1.
  pose proof (listen_descriptors find _ _ cap reads jobs k (UnicastOpen_opens I listenPort)) as H2.
  unfold ListenAndServeIf, ListenAndServeIfUnicast.
  destruct (listen find (broadcastOpen _ _ _) _ _ _ _) as [[j l] k'].
  destruct (listen find (UnicastOpen _ _) _ _ _ _) as [[ju lu] ku]. split; [exact H1 | exact H2].
Qed.

End Kernel.

(** ** Witness *)

Lemma listeners_descriptors_witness :
  let alloc (S : gset Z) := base.fresh S in
  let fails n := if Nat.eqb n 4 then Some "address already in use"%string else None in
  let '(_, l, k') := ListenAndServeIf alloc fails (D4 := Wire.wire) lab_if None 100 [] [] (mkKernel ∅ 0) in
  l = Returned "address already in use" /\ fds k' = ∅.
Proof.
  pose proof (listeners_descriptors (fun S : gset Z => base.fresh S)
    (fun n => if Nat.eqb n 4 then Some "address already in use"%string else None) (D4 := Wire.wire)
    (fun S : gset Z => is_fresh S) lab_if 67 None 100 [] [] (mkKernel ∅ 0)) as H.
  cbv zeta. assert (Hl : (ListenAndServeIf (fun S : gset Z => base.fresh S)
    (fun n => if Nat.eqb n 4 then Some "address already in use"%string else None) (D4 := Wire.wire)
    lab_if None 100 [] [] (mkKernel ∅ 0)).1.2 = Returned "address already in use") by (vm_compute; reflexivity).
  destruct (ListenAndServeIf _ _ _ _ _ _ _ _) as [[j l] k']. cbn [fst snd] in Hl. subst l.
  destruct (ListenAndServeIfUnicast _ _ _ _ _ _ _ _ _) as [[ju lu] ku]. split; [done | apply H].
Defined.
