(* ===== verification/Main.v ===== *)
(** * The program: src/main.go

    What [main] sets up before it serves: the override store, the global
    caches, the interfaces of the configuration, the table by which the API finds
    them, and the job queue with its workers.  Serving itself is Server.v and
    Api.v, the routes of the REST API are Routes.v. *)

From S2P Require Import Prelude GoStd GoNet Pool GoCache Dhcp4 Database Utils Handler Interface.
From S2P Require Import Scope Lab Discover Request System Server Config Api Dictionary GoFloat Ini ConfigApi Stats.

Definition maxQueueSize : nat := 100.
Definition maxWorkers : nat := 100.

(** ** Start-up *)

Section Main.

Context {CZ : GoCache Z} {CS : GoCache string} {SQL : SqlDB} {JSON : JSONCodec} {D4 : Dhcp4} {INI : Ini}.
Context (InterfaceByName : string -> option NetInterface).
Context (clock : Z -> Z) (rnd : Z -> nat -> Z -> Z) (time_now : Z) (Inc : IP -> IP) (fuel : nat).

(** The package variables, once [main] has set them.  [intNametoInterface] holds
    pointers into [intsNet], here positions. *)
Record server := mkServer {
  srv_overrides : store;
  srv_ip : cache string;
  srv_macs : cache string;
  srv_transactions : cache Z;
  srv_request : cache Z;
  intsNet : list IntNet;
  intNametoInterface : gmap string nat
}.

(** [for i := range DHCPConfig.intsNet] *)
Fixpoint register (i : nat) (ints : list IntNet) (table : gmap string nat) : gmap string nat :=
  match ints with
  | [] => table
  | iface :: ints => register (S i) ints (<[Name (in_if iface) := i]> table)
  end.

Inductive start_result :=
| Exited (code : Z)
| Crashed
| NeverStarts
| Started (s : server).

Definition main_start (opened : sqldb + string) (schema : sqldb -> sqldb * error) (st : store)
    (file : option ini_text) : start_result :=
  match InitDatabase opened schema st with
  | (_, Some _) => Exited 1
  | (st, None) =>
      match startup InterfaceByName clock rnd time_now Inc fuel file with
      | None => Exited 1
      | Some None => NeverStarts
      | Some (Some Panic) => Crashed
      | Some (Some (Ret ints)) =>
          Started (mkServer st (New (5 * Minute) (10 * Minute)) (New (5 * Minute) (10 * Minute))
            (New (5 * Minute) (10 * Minute)) (New (1 * Second) (2 * Second)) ints (register 0 ints ∅))
      end
  end.

(** [CloseDatabase]: [db] is nil until [InitDatabase] has opened it. *)
Definition CloseDatabase (close : sqldb -> error) (db : option sqldb) : error :=
  match db with Some d => close d | None => None end.

(** The state the packets of one interface work on. *)
Definition world_of (s : server) (i : IntNet) : world :=
  mkWorld (in_network i) (srv_transactions s) (srv_request s) (srv_ip s) (srv_macs s) (srv_overrides s) [].

(** The networks the API finds under a name. *)
Definition api_networks (s : server) : gmap string (list Network) :=
  omap (fun i => in_network <$> intsNet s !! i) (intNametoInterface s).

(** ** Lemmas *)

(** The last interface of a name. *)
Lemma register_spec ints i table name :
  (forall j, register i ints table !! name = Some j ->
     (exists n x, j = (i + n)%nat /\ ints !! n = Some x /\ Name (in_if x) = name /\
        forall n' x', (n < n')%nat -> ints !! n' = Some x' -> Name (in_if x') <> name) \/
     (table !! name = Some j /\ forall n x, ints !! n = Some x -> Name (in_if x) <> name)) /\
  (register i ints table !! name = None -> table !! name = None /\
     forall n x, ints !! n = Some x -> Name (in_if x) <> name).
Proof.
  revert i table. induction ints as [|x0 ints IH]; intros i table; cbn [register].
  { split; [intros j Hj; right; split; [done | ] | intros H; split; [done | ]]; by intros n x Hn. }
  destruct (IH (S i) (<[Name (in_if x0) := i]> table)) as [IH1 IH2]. split.
  - intros j Hj. destruct (IH1 j Hj) as [(n & x & -> & Hn & Hx & Hlast)|[Ht Hno]].
    + left. exists (S n), x. split; [lia | split; [done | split; [done | ]]].
      intros [|n'] x' Hlt Hn'; [lia | ]. apply (Hlast n'); [lia | done].
    + rewrite lookup_insert in Ht. case_decide as Hd.
      * injection Ht as <-. left. exists 0%nat, x0. split; [lia | split; [done | split; [done | ]]].
        intros [|n'] x' Hlt Hn'; [lia | ]. by eapply Hno.
      * right. split; [done | ]. intros [|n] x Hn; [by injection Hn as -> | by eapply Hno].
  - intros H. destruct (IH2 H) as [Ht Hno]. rewrite lookup_insert in Ht. case_decide as Hd; [done | ].
    split; [done | ]. intros [|n] x Hn; [by injection Hn as -> | by eapply Hno].
Qed.

Lemma register_last ints j x :
  ints !! j = Some x -> (forall n' x', (j < n')%nat -> ints !! n' = Some x' -> Name (in_if x') <> Name (in_if x)) ->
  register 0 ints ∅ !! Name (in_if x) = Some j.
Proof.
  intros Hj Hlast. destruct (register_spec ints 0 ∅ (Name (in_if x))) as [H1 H2].
  destruct (register 0 ints ∅ !! Name (in_if x)) as [k|].
  - destruct (H1 k eq_refl) as [(n & y & -> & Hn & Hy & Hl)|[Ht _]]; [ | by rewrite lookup_empty in Ht].
    f_equal. destruct (Nat.lt_trichotomy n j) as [Hlt|[->|Hgt]]; [ | done | ].
    + by destruct (Hl j x Hlt Hj).
    + by destruct (Hlast n y Hgt Hn).
  - destruct (H2 eq_refl) as [_ Hno]. by destruct (Hno j x Hj).
Qed.

Lemma main_start_registers opened schema st file s :
  main_start opened schema st file = Started s -> intNametoInterface s = register 0 (intsNet s) ∅.
Proof.
  unfold main_start. destruct (InitDatabase _ _ _) as [st' [e|]]; [done | ].
  destruct (startup _ _ _ _ _ _ _) as [[[ints|]|]|]; [ | done..]. by intros [= <-].
Qed.

Context {LZ : GoCacheLaws Z} {LS : GoCacheLaws string} {LD : Dhcp4Laws} {SQLL : SqlDBLaws}.

(** ** Properties *)


(** *** A relay hides a server *)

Section Hidden.

Context {ON : OptionNames} (range_options : Options -> list (Z * bytes)).
Context (range_items : gmap string (Z * Z) -> list (string * (Z * Z))) (other : SpecFloat.spec_float -> Z).

(** An interface that both serves and relays cannot be seen by the API of a
    started server: the relay is registered last under the same name, so a
    request for the statistics of the interface succeeds and reports no network,
    although it serves some. *)
Theorem relay_hides_server opened schema st file s i j x y now net :
  main_start opened schema st file = Started s ->
  intsNet s !! i = Some x -> intsNet s !! j = Some y -> (i < j)%nat -> Name (in_if x) = Name (in_if y) ->
  (forall j' z, (j < j')%nat -> intsNet s !! j' = Some z -> Name (in_if z) <> Name (in_if y)) ->
  in_network x <> [] -> in_network y = [] ->
  handleStats range_options range_items Inc fuel other (api_networks s) now (Name (in_if x)) net
    = Some (Ret (mkResponse StatusOK (BStats (Some [])))).
Proof.
  intros Hreg%main_start_registers Hi Hj Hlt Hname Hlast Hx Hy. unfold handleStats, api_networks.
  rewrite lookup_omap, Hreg, Hname, (register_last (intsNet s) j y) by done.
  cbn [mbind option_bind]. rewrite Hj. cbn [fmap option_fmap option_map]. by rewrite Hy.
Qed.

End Hidden.

End Main.

(** ** Workers *)

(** The queue, what each worker serves, and what has been accepted, started and
    finished so far. *)
Record workers := mkWorkers {
  waiting : list job;
  serving : gmap nat job;
  accepted : list job;
  started : list job;
  finished : list job
}.

(** [work w w']: one step; a listener queues or drops a job, an idle worker
    receives the first job of the channel, a worker finishes. *)
Inductive work : workers -> workers -> Prop :=
| work_enqueue w j :
    (length (waiting w) < maxQueueSize)%nat ->
    work w (mkWorkers (waiting w ++ [j]) (serving w) (accepted w ++ [j]) (started w) (finished w))
| work_drop w :
    (maxQueueSize <= length (waiting w))%nat -> work w w
| work_receive w i j rest :
    (1 <= i <= maxWorkers)%nat -> serving w !! i = None -> waiting w = j :: rest ->
    work w (mkWorkers rest (<[i := j]> (serving w)) (accepted w) (started w ++ [j]) (finished w))
| work_finish w i j :
    serving w !! i = Some j ->
    work w (mkWorkers (waiting w) (delete i (serving w)) (accepted w) (started w) (finished w ++ [j])).

Definition workers_start : workers := mkWorkers [] ∅ [] [] [].

Record workers_ok (w : workers) : Prop := {
  wk_queue : (length (waiting w) <= maxQueueSize)%nat;
  wk_ids : forall i, is_Some (serving w !! i) -> (1 <= i <= maxWorkers)%nat;
  wk_order : accepted w = started w ++ waiting w;
  wk_served : started w ≡ₚ finished w ++ (map_to_list (serving w)).*2
}.

Lemma work_ok w w' : workers_ok w -> work w w' -> workers_ok w'.
Proof.
  intros [Hq Hi Ho Hs] H. destruct H as [w j Hlt|w Hge|w i j rest Hr Hidle Hw|w i j Hj].
  - split; cbn [waiting serving accepted started finished]; [ | done | | done].
    + rewrite length_app. simpl. lia.
    + by rewrite Ho, app_assoc.
  - by split.
  - split; cbn [waiting serving accepted started finished].
    + rewrite Hw in Hq. simpl in Hq. lia.
    + intros i' Hi'. destruct (decide (i' = i)) as [->|Hne]; [done | ].
      rewrite lookup_insert_ne in Hi' by done. by apply Hi.
    + by rewrite Ho, Hw, <- app_assoc.
    + rewrite map_to_list_insert by done. rewrite Hs. cbn [fmap list_fmap snd]. solve_Permutation.
  - split; cbn [waiting serving accepted started finished]; [done | | done | ].
    + intros i' Hi'. apply Hi. destruct (decide (i' = i)) as [->|Hne]; [by rewrite Hj | ].
      by rewrite lookup_delete_ne in Hi'.
    + rewrite Hs. rewrite <- (map_to_list_delete (serving w) i j) by done. cbn [fmap list_fmap snd].
      solve_Permutation.
Qed.

Lemma work_reachable w : rtc work workers_start w -> workers_ok w.
Proof.
  intros H. cut (workers_ok workers_start -> workers_ok w).
  { intros Hw. apply Hw. split; cbn; [unfold maxQueueSize; lia | by intros i [? ?] | done | by rewrite map_to_list_empty]. }
  induction H as [|w1 w2 w3 Hstep _ IH]; [done | ]. intros Hok. by apply IH, (work_ok w1).
Qed.

(** A worker is idle when fewer than [maxWorkers] serve. *)
Lemma idle_worker w :
  workers_ok w -> (size (serving w) < maxWorkers)%nat ->
  exists i, (1 <= i <= maxWorkers)%nat /\ serving w !! i = None.
Proof.
  intros [_ Hi _ _] Hsz.
  destruct (decide (Exists (fun i => serving w !! i = None) (seq 1 maxWorkers))) as [He|He].
  - apply Exists_exists in He as (i & Hin & Hn). apply elem_of_seq in Hin. exists i. split; [lia | done].
  - exfalso. rewrite <- Forall_Exists_neg, Forall_forall in He.
    assert (Hsub : list_to_set (seq 1 maxWorkers) ⊆ dom (serving w)).
    { intros i Hin. apply elem_of_list_to_set in Hin. apply elem_of_dom. apply not_eq_None_Some. by apply He. }
    apply subseteq_size in Hsub. rewrite size_list_to_set, length_seq, size_dom in Hsub by apply NoDup_seq. lia.
Qed.

(** A listener alone makes such steps. *)
Lemma Serve_works {D4 : Dhcp4} reads w jobs' er :
  Serve maxQueueSize reads (waiting w) = (jobs', er) -> exists new,
  rtc work w (mkWorkers jobs' (serving w) (accepted w ++ new) (started w) (finished w)) /\
  jobs' = waiting w ++ new.
Proof.
  revert w. induction reads as [|[d addr|e] reads IH]; intros w; cbn [Serve].
  - intros [= <- <-]. exists []. rewrite !app_nil_r. destruct w. split; [apply rtc_refl | done].
  - destruct (accept (firstn 1500 d)) as [t|]; [ | apply IH].
    destruct (Nat.ltb_spec (length (waiting w)) maxQueueSize) as [Hlt|Hge]; [ | apply IH].
    set (j := mkJob _ _ _ _). set (w1 := mkWorkers (waiting w ++ [j]) (serving w) (accepted w ++ [j]) (started w) (finished w)).
    intros Hrun. destruct (IH w1 Hrun) as (new & Hrtc & ->). exists (j :: new). cbn [waiting w1].
    rewrite <- app_assoc. split; [ | done]. eapply rtc_l; [by apply work_enqueue | ].
    fold j. fold w1. subst w1. cbn [waiting serving accepted started finished] in Hrtc.
    by rewrite <- !app_assoc in Hrtc.
  - intros [= <- <-]. exists []. rewrite !app_nil_r. destruct w. split; [apply rtc_refl | done].
Qed.

(** C16: the queue and its workers, in every interleaving.  At most 100 jobs wait and
    at most 100 are being served; jobs are started in the order they were accepted,
    each accepted job is waiting, being served or finished, and is served once; and a
    job waits only while every worker is busy: with an idle worker the next step can
    start it. *)
Theorem workers_invariant w :
  rtc work workers_start w ->
  (length (waiting w) <= 100)%nat /\ (size (serving w) <= 100)%nat /\
  accepted w = started w ++ waiting w /\
  started w ≡ₚ finished w ++ (map_to_list (serving w)).*2 /\
  (forall j rest, waiting w = j :: rest -> (size (serving w) < 100)%nat ->
     exists w' i, work w w' /\ serving w' !! i = Some j /\ waiting w' = rest).
Proof.
  intros H. apply work_reachable in H. pose proof H as [Hq Hi Ho Hs].
  split; [done | split; [ | split; [done | split; [done | ]]]].
  - assert (Hsub : dom (serving w) ⊆ list_to_set (seq 1 100)).
    { intros i Hin. apply elem_of_dom in Hin. apply Hi in Hin. apply elem_of_list_to_set, elem_of_seq.
      unfold maxWorkers in Hin. lia. }
    apply subseteq_size in Hsub. by rewrite size_list_to_set, length_seq, size_dom in Hsub by apply NoDup_seq.
  - intros j rest Hw Hlt. destruct (idle_worker w H Hlt) as (i & Hr & Hidle).
    eexists _, i. split; [by apply (work_receive w i j rest) | ]. cbn [serving waiting].
    by rewrite lookup_insert_eq.
Qed.

(** ** Witnesses *)

Section Witnesses.

Import Wire Mem Table.

#[local] Existing Instance table_names.

(** A file with one network, on an interface that is also a relay. *)
Definition w_relayed : ConfigResponse :=
  mkConfigResponse ["eth0"%string] ["eth0:10.0.0.1"%string] [w_net w_assigned].

Definition w_file : option ini_text := (handleUpdateConfig (inl w_relayed) Written None).2.

Abbreviation w_start := (main_start w_interfaces (fun _ => 0) (fun _ _ _ => 0) 0 inc_bytes 300
  (inl (db w_store)) (fun d => (d, None)) w_store w_file).

Definition two_interfaces (r : start_result) : bool :=
  match r with
  | Started s =>
      match intsNet s with
      | [x; y] => String.eqb (Name (in_if x)) (Name (in_if y)) && Nat.eqb (length (in_network x)) 1
                  && Nat.eqb (length (in_network y)) 0
      | _ => false
      end
  | _ => false
  end.

Lemma w_start_two : two_interfaces w_start = true.
Proof. vm_compute. reflexivity. Qed.

Definition leases_of (r : start_result) : bool :=
  match r with
  | Started s => forallb (fun i => forallb (fun v => 0 <=? h_leaseDuration (dhcpHandler v)) (in_network i)) (intsNet s)
  | _ => false
  end.

Lemma w_start_leases s i : w_start = Started s -> i ∈ intsNet s -> leases_positive (world_of s i).
Proof.
  intros E Hi n v Hv. assert (H : leases_of w_start = true) by (vm_compute; reflexivity).
  rewrite E in H. cbn [leases_of] in H. apply list_elem_of_In in Hi.
  pose proof (proj1 (forallb_forall _ _) H i Hi) as Hl. apply Z.leb_le.
  apply (proj1 (forallb_forall _ _) Hl v), list_elem_of_In. by eapply list_elem_of_lookup_2.
Qed.


Lemma relay_hides_server_witness :
  exists s x y, w_start = Started s /\ intsNet s = [x; y] /\ in_network x <> [] /\
    handleStats (fun o => map_to_list o) (fun m => map_to_list m) inc_bytes 300 w_other (api_networks s) 0 (Name (in_if x)) ""
      = Some (Ret (mkResponse StatusOK (BStats (Some [])))).
Proof.
  pose proof w_start_two as Ht. destruct w_start as [| | |s] eqn:E; [discriminate Ht.. | ].
  cbn [two_interfaces] in Ht. destruct (intsNet s) as [|x [|y [|? ?]]] eqn:Ei; [discriminate Ht.. | | discriminate Ht].
  apply andb_prop in Ht as [Ht Hy]. apply andb_prop in Ht as [Hn Hx].
  apply String.eqb_eq in Hn. apply Nat.eqb_eq in Hx, Hy. apply nil_length_inv in Hy.
  assert (Hx' : in_network x <> []) by (intros Hnil; rewrite Hnil in Hx; discriminate Hx).
  exists s, x, y. split; [reflexivity | split; [exact Ei | split; [exact Hx' | ]]].
  apply (relay_hides_server w_interfaces (fun _ => 0) (fun _ _ _ => 0) 0 inc_bytes 300 (fun o => map_to_list o)
    (fun m => map_to_list m) w_other (inl (db w_store)) (fun d => (d, None)) w_store w_file s 0 1 x y); rewrite ?Ei;
    [exact E | reflexivity | reflexivity | lia | exact Hn | | exact Hx' | exact Hy].
  intros [|[|j]] z Hj Hz; [lia | lia | discriminate Hz].
Defined.

Definition w_job (n : Z) : job := mkJob [n] 1 "0.0.0.0:68" (IPv4 0 0 0 0).

(** Two jobs are queued and the first is handed to worker 7. *)
Definition w_busy : workers := mkWorkers [w_job 2] {[7%nat := w_job 1]} [w_job 1; w_job 2] [w_job 1] [].

Lemma w_busy_reached : rtc work workers_start w_busy.
Proof.
  eapply rtc_l; [apply (work_enqueue _ (w_job 1)); unfold maxQueueSize; simpl; lia | ].
  eapply rtc_l; [apply (work_enqueue _ (w_job 2)); unfold maxQueueSize; simpl; lia | ].
  eapply rtc_l; [apply (work_receive _ 7 (w_job 1) [w_job 2]); [unfold maxWorkers; lia | reflexivity | reflexivity] | ].
  apply rtc_refl.
Qed.

Lemma workers_invariant_witness :
  exists w' i, work w_busy w' /\ serving w' !! i = Some (w_job 2) /\ waiting w' = [].
Proof.
  destruct (workers_invariant w_busy w_busy_reached) as (_ & _ & _ & _ & H).
  apply (H (w_job 2) []); [reflexivity | ]. vm_compute. lia.
Defined.

End Witnesses.
