(* ===== verification/Routes.v ===== *)
(** * The REST API as it is served: src/main.go, lines 116-143

    The route table and the dispatch of a request to the handlers of Api.v,
    Stats.v and ConfigApi.v, on the state of a started server and its
    configuration file.  Which route serves a request is the business of the
    package gorilla/mux, a class with the documented law that the first route
    whose method and pattern match wins. *)

From S2P Require Import Prelude GoStd GoNet Pool GoCache Dhcp4 Database Utils Handler Interface.
From S2P Require Import Scope Lab Discover Request System Server Config Regexp Api Dictionary GoFloat Ini ConfigApi Stats Main.
From Stdlib Require Import Ascii.

(** ** The route table *)

(** The handlers, by the names of the functions without [handle]. *)
Inductive endpoint :=
| Mac2Ip | ReleaseIP | IP2Mac | AllStats | Stats_ | Debug_ | GetConfig | UpdateConfig
| OverrideNetworkOptions | RemoveNetworkOptions | OverrideOptions | RemoveOptions
| ListOverrides | GetOverride | WebUI.

(** [r_method] is [None] for a route without [Methods]; [r_prefix] tells
    [PathPrefix] from [HandleFunc]. *)
Record Route := mkRoute { r_template : list seg; r_method : option string; r_prefix : bool; r_handler : endpoint }.

Definition HandleFunc (template : list seg) (h : endpoint) (method : string) : Route :=
  mkRoute template (Some method) false h.

(** [{name}] stands for [{name:[^/]+}]. *)
Definition not_slash (c : ascii) : bool := negb (Ascii.eqb c "/").
Definition segment_regex : regex := Then (Chars not_slash) (Star (Chars not_slash)).

Definition mac_var : seg := Var "mac" mac_regex.
Definition network_var : seg := Var "network" ip_regex.
Definition int_var : seg := Var "int" (Star Dot).

Definition routes : list Route :=
  [HandleFunc [Lit "/api/v1/dhcp/mac/"; mac_var] Mac2Ip "GET";
   HandleFunc [Lit "/api/v1/dhcp/mac/"; mac_var] ReleaseIP "DELETE";
   HandleFunc [Lit "/api/v1/dhcp/ip/"; Var "ip" ip_regex] IP2Mac "GET";
   HandleFunc [Lit "/api/v1/dhcp/stats"] AllStats "GET";
   HandleFunc [Lit "/api/v1/dhcp/stats/"; int_var; Lit "/"; network_var] Stats_ "GET";
   HandleFunc [Lit "/api/v1/dhcp/stats/"; int_var] Stats_ "GET";
   HandleFunc [Lit "/api/v1/dhcp/debug/"; int_var; Lit "/"; Var "role" (Star (Chars not_slash))] Debug_ "GET";
   HandleFunc [Lit "/api/v1/config"] GetConfig "GET";
   HandleFunc [Lit "/api/v1/config"] UpdateConfig "POST";
   HandleFunc [Lit "/api/v1/dhcp/options/network/"; network_var] OverrideNetworkOptions "POST";
   HandleFunc [Lit "/api/v1/dhcp/options/network/"; network_var] RemoveNetworkOptions "DELETE";
   HandleFunc [Lit "/api/v1/dhcp/options/mac/"; mac_var] OverrideOptions "POST";
   HandleFunc [Lit "/api/v1/dhcp/options/mac/"; mac_var] RemoveOptions "DELETE";
   HandleFunc [Lit "/api/v1/dhcp/options"] ListOverrides "GET";
   HandleFunc [Lit "/api/v1/dhcp/options/"; Var "type" segment_regex; Lit "/"; Var "target" segment_regex] GetOverride "GET";
   mkRoute [Lit "/"] None true WebUI].

(** ** gorilla/mux *)

Abbreviation vars := (list (string * string)).

Definition method_matches (r : Route) (method : string) : bool :=
  match r_method r with Some m => String.eqb m method | None => true end.

Definition route_vars (r : Route) (path : string) : option vars :=
  if r_prefix r then fst <$> head (submatch (r_template r) path) else MatchAll (r_template r) path.

Fixpoint first_match (rs : list Route) (method path : string) : option (endpoint * vars) :=
  match rs with
  | [] => None
  | r :: rs =>
      if method_matches r method then
        match route_vars r path with
        | Some v => Some (r_handler r, v)
        | None => first_match rs method path
        end
      else first_match rs method path
  end.

(** A path that [path.Clean] leaves alone, a trailing slash apart; the router
    answers any other with a redirect. *)
Definition clean (path : string) : bool :=
  match Split path "/" with
  | EmptyString :: segs =>
      forallb (fun s => negb (String.eqb s "") && negb (String.eqb s ".") && negb (String.eqb s "..")) (removelast segs)
      && negb (String.eqb (List.last segs "") ".") && negb (String.eqb (List.last segs "") "..")
  | _ => false
  end.

(** What the router picks for a request. *)
Class Mux := { Match : list Route -> string -> string -> option (endpoint * vars) }.

Class MuxLaws `{!Mux} : Prop := {
  match_first : forall rs method path, clean path = true -> Match rs method path = first_match rs method path
}.

(** [mux.Vars(req)[k]]: the empty string when the route has no such variable. *)
Definition Vars (v : vars) (k : string) : string := default EmptyString (snd <$> List.find (fun kv => String.eqb kv.1 k) v).

Example some_routes :
  map (fun r => first_match routes r.1 r.2)
    [("GET", "/api/v1/dhcp/stats/eth0/192.168.1.0"); ("GET", "/api/v1/dhcp/stats/eth0");
     ("GET", "/api/v1/dhcp/options/mac/00:11:22:33:44:55"); ("GET", "/api/v1/dhcp/debug/eth0/none");
     ("POST", "/api/v1/dhcp/stats"); ("GET", "/")]%string =
  [Some (Stats_, [("int", "eth0"); ("network", "192.168.1.0")]); Some (Stats_, [("int", "eth0")]);
   Some (GetOverride, [("type", "mac"); ("target", "00:11:22:33:44:55")]);
   Some (Debug_, [("int", "eth0"); ("role", "none")]); Some (WebUI, []); Some (WebUI, [])]%string.
Proof. vm_compute. reflexivity. Qed.

(** The dots of the patterns are not escaped: a text that is no address is taken
    for the network of an override. *)
Example dots_match_anything :
  first_match routes "POST" "/api/v1/dhcp/options/network/192x168x1x0" =
    Some (OverrideNetworkOptions, [("network", "192x168x1x0")]%string).
Proof. vm_compute. reflexivity. Qed.

(** ** Serving a request *)

Section Http.

Context {CZ : GoCache Z} {CS : GoCache string} {SQL : SqlDB} {JSON : JSONCodec} {INI : Ini} {ON : OptionNames} {MUX : Mux}.
Context (range_options : Options -> list (Z * bytes)).
Context (range_items : gmap string (Z * Z) -> list (string * (Z * Z))).
Context (Inc : IP -> IP) (fuel : nat) (other : SpecFloat.spec_float -> Z).

(** A request, with its body as the handler that reads it decodes it. *)
Record request := mkRequest {
  Method : string;
  URL_Path : string;
  query_type : string;
  body_options : list DHCPOption + string;
  body_config : ConfigResponse + string
}.

(** What the handlers share: the package variables and the configuration file. *)
Record site := mkSite { site_server : server; site_file : option ini_text }.

Inductive reply :=
| Answered (r : response)
| StaticFile (path : string)
| NotFound.

Definition set_store (st : store) (s : site) : site :=
  let v := site_server s in
  mkSite (mkServer st (srv_ip v) (srv_macs v) (srv_transactions v) (srv_request v) (intsNet v) (intNametoInterface v))
    (site_file s).

(** The scopes are changed through the pointers of [intsNet]. *)
Definition set_scopes (nets : list (list Network)) (s : site) : site :=
  let v := site_server s in
  let ints := zip_with (fun i n => mkIntNet (in_if i) (in_Ipv6 i) (in_layer2 i) (in_listenPort i) n) (intsNet v) nets in
  mkSite (mkServer (srv_overrides v) (srv_ip v) (srv_macs v) (srv_transactions v) (srv_request v) ints (intNametoInterface v))
    (site_file s).

Definition pure (s : site) (r : response) : option (exec (reply * site)) := Some (Ret (Answered r, s)).

(** A handler that only reads, and may panic or not end. *)
Definition reading (s : site) (r : option (exec response)) : option (exec (reply * site)) :=
  match r with
  | None => None
  | Some Panic => Some Panic
  | Some (Ret r) => pure s r
  end.

Definition storing (s : site) (r : response * store) : option (exec (reply * site)) := pure (set_store r.2 s) r.1.

Definition handle (now : Z) (saved : write_outcome) (ep : endpoint) (v : vars) (req : request) (s : site)
    : option (exec (reply * site)) :=
  let srv := site_server s in
  match ep with
  | Mac2Ip => pure s (handleMac2Ip now (srv_macs srv) (Vars v "mac"))
  | ReleaseIP =>
      let '(r, nets) := handleReleaseIP now (srv_macs srv) (in_network <$> intsNet srv) (Vars v "mac") in
      pure (set_scopes nets s) r
  | IP2Mac => pure s (handleIP2Mac now (srv_ip srv) (Vars v "ip"))
  | AllStats => reading s (handleAllStats range_options range_items Inc fuel other (api_networks srv) now (site_file s))
  | Stats_ =>
      reading s (handleStats range_options range_items Inc fuel other (api_networks srv) now (Vars v "int") (Vars v "network"))
  | Debug_ =>
      reading s (handleDebug range_options range_items Inc fuel other (api_networks srv) now (Vars v "int") (Vars v "role"))
  | GetConfig => pure s (handleGetConfig (site_file s))
  | UpdateConfig =>
      let '(r, file) := handleUpdateConfig (body_config req) saved (site_file s) in pure (mkSite srv file) r
  | OverrideNetworkOptions =>
      storing s (handleOverrideNetworkOptions now (srv_overrides srv) (Vars v "network") (body_options req))
  | RemoveNetworkOptions => storing s (handleRemoveNetworkOptions (srv_overrides srv) (Vars v "network"))
  | OverrideOptions => storing s (handleOverrideOptions now (srv_overrides srv) (Vars v "mac") (body_options req))
  | RemoveOptions => storing s (handleRemoveOptions (srv_overrides srv) (Vars v "mac"))
  | ListOverrides => pure s (handleListOptionOverrides (srv_overrides srv) (query_type req))
  | GetOverride => pure s (handleGetOptionOverride (srv_overrides srv) (Vars v "type") (Vars v "target"))
  | WebUI => Some (Ret (StaticFile (URL_Path req), s))
  end.

Definition serve_http (now : Z) (saved : write_outcome) (req : request) (s : site) : option (exec (reply * site)) :=
  match Match routes (Method req) (URL_Path req) with
  | Some (ep, v) => handle now saved ep v req s
  | None => Some (Ret (NotFound, s))
  end.

End Http.

(** ** Lemmas on patterns *)

(** What it means for a pattern to match. *)
Fixpoint parses (p : list seg) (s : string) (g : vars) (u : string) : Prop :=
  match p with
  | [] => g = [] /\ u = s
  | Lit l :: p => exists t, s = (l +s+ t)%string /\ parses p t g u
  | Var name r :: p => exists v t g', s = (v +s+ t)%string /\ t ∈ leaves r s /\ g = (name, v) :: g' /\ parses p t g' u
  end.

Lemma strip_spec l s t : strip l s = Some t <-> s = (l +s+ t)%string.
Proof.
  revert s. induction l as [|a l IH]; intros s; cbn [strip sapp]; [split; [by intros [= ->] | by intros ->] | ].
  destruct s as [|b s]; [by split; intros | ]. destruct (Ascii.eqb_spec a b) as [->|Hne].
  - rewrite IH. split; [by intros -> | by intros [= ->]].
  - split; [done | intros [=]; congruence].
Qed.

Lemma elem_submatch p s g u : (g, u) ∈ submatch p s <-> parses p s g u.
Proof.
  revert s g. induction p as [|[l|name r] p IH]; intros s g; cbn [parses].
  - cbn [submatch]. rewrite list_elem_of_singleton. split; [by intros [= -> ->] | by intros [-> ->]].
  - rewrite submatch_lit. split.
    + destruct (strip l s) as [t|] eqn:E; [ | by intros ?%not_elem_of_nil]. intros H%IH. exists t. by apply strip_spec in E.
    + intros (t & E & H). apply strip_spec in E. rewrite E. by apply IH.
  - rewrite submatch_var, list_elem_of_bind. split.
    + intros (t & Hg & Ht). apply list_elem_of_fmap in Hg as ([g' u'] & [= Eg Eu] & Hg). simpl in Eu. subst u' g.
      apply IH in Hg.
      destruct (leaves_ends _ _ _ Ht) as [v Hv]. exists v, t, g'. rewrite Hv at 3. rewrite front_app. done.
    + intros (v & t & g' & Hs & Ht & -> & H). exists t. split; [ | done]. apply list_elem_of_fmap. exists (g', u).
      split; [ | by apply IH]. unfold prod_map. simpl. rewrite Hs at 1. by rewrite front_app.
Qed.

Lemma MatchAll_unique p s g : (forall g', parses p s g' EmptyString -> g' = g) -> parses p s g EmptyString -> MatchAll p s = Some g.
Proof.
  intros Hu Hg. unfold MatchAll. destruct (head (filter _ (submatch p s))) as [[g' u]|] eqn:E.
  - apply head_elem in E. apply list_elem_of_filter in E as [Eu E]. simpl in Eu. subst u. apply elem_submatch in E. simpl. f_equal. by apply Hu.
  - exfalso. apply head_None in E. apply elem_submatch in Hg.
    assert (Hin : (g, EmptyString) ∈ filter (fun m : vars * string => m.2 = EmptyString) (submatch p s))
      by (by apply list_elem_of_filter).
    rewrite E in Hin. by apply not_elem_of_nil in Hin.
Qed.

Lemma MatchAll_none p s : (forall g, ~ parses p s g EmptyString) -> MatchAll p s = None.
Proof.
  intros H. unfold MatchAll. destruct (head (filter _ (submatch p s))) as [[g u]|] eqn:E; [ | done].
  apply head_elem in E. apply list_elem_of_filter in E as [Eu E]. simpl in Eu. subst u. apply elem_submatch in E. by destruct (H g).
Qed.

Lemma MatchAll_lit l p s : MatchAll (Lit l :: p) s = match strip l s with Some t => MatchAll p t | None => None end.
Proof. unfold MatchAll. rewrite submatch_lit. by destruct (strip l s). Qed.

Lemma MatchAll_nil s : MatchAll [] s = if String.eqb s EmptyString then Some [] else None.
Proof. by destruct s. Qed.

(** The last variable takes all there is. *)
Definition accepts (r : regex) (s : string) : Prop := EmptyString ∈ leaves r s.

#[export] Instance accepts_dec r s : Decision (accepts r s) := decide_rel elem_of EmptyString (leaves r s).

Lemma MatchAll_last name r s : accepts r s -> MatchAll [Var name r] s = Some [(name, s)].
Proof.
  intros Hr. apply MatchAll_unique.
  - intros g' (v & t & g1 & Hs & _ & -> & -> & <-). by rewrite sapp_nil_r in Hs; subst.
  - exists s, EmptyString, []. by rewrite sapp_nil_r.
Qed.

(** A text without [c], [c], and another one: the only way to cut at a [c]. *)
Lemma cut_unique c v u a b :
  has_char c a = false -> has_char c b = false ->
  (v +s+ String c u)%string = (a +s+ String c b)%string -> v = a /\ u = b.
Proof.
  intros Ha Hb. revert v. induction a as [|x a IH]; intros [|y v]; cbn [sapp]; intros E.
  - by injection E as ->.
  - injection E as <- E. exfalso. rewrite <- E in Hb. clear -Hb.
    induction v as [|x v IH]; cbn [sapp has_char] in Hb; [by rewrite bool_decide_true in Hb | ].
    apply orb_false_iff in Hb as [_ Hb]. auto.
  - injection E as -> _. cbn [has_char] in Ha. by rewrite bool_decide_true in Ha.
  - injection E as -> E. cbn [has_char] in Ha. apply orb_false_iff in Ha as [_ Ha].
    destruct (IH Ha v E) as [-> ->]. done.
Qed.

(** Repetitions reach what is behind a run of characters. *)
Lemma upto_reach (f : string -> list string) (P : ascii -> bool) n v t :
  (forall c s, P c = true -> s ∈ f (String c s)) -> all_chars P v = true -> (String.length v <= n)%nat ->
  t ∈ upto f n (v +s+ t).
Proof.
  intros Hf. revert n. induction v as [|c v IH]; intros n Hv Hn; cbn [all_chars String.length sapp] in *.
  - destruct n; cbn [upto]; [by apply list_elem_of_singleton | ]. apply elem_of_app. right. by apply list_elem_of_singleton.
  - apply andb_prop in Hv as [Hc Hv]. destruct n as [|n]; [lia | ]. cbn [upto]. apply elem_of_app. left.
    apply list_elem_of_bind. exists (v +s+ t)%string. split; [apply IH; [done | lia] | by apply Hf].
Qed.

(** Characters of one byte, but no newline. *)
Definition plain_char (c : ascii) : bool := (code c <? 128) && negb (code c =? 10).

Lemma dot_plain c s : plain_char c = true -> s ∈ leaves Dot (String c s).
Proof.
  intros [Hc Hn]%andb_prop. apply negb_true_iff in Hn. cbn [leaves]. unfold any_rune. rewrite Hn.
  assert (Hw : rune_width (bytes_of_string (String c s)) = 1%nat).
  { cbn [bytes_of_string]. zbool. unfold rune_width. split_matches; zbool; lia. }
  rewrite Hw. cbn [split_at]. by apply list_elem_of_singleton.
Qed.

Lemma star_dot v t : all_chars plain_char v = true -> t ∈ leaves (Star Dot) (v +s+ t).
Proof. intros Hv. cbn [leaves]. eapply upto_reach; [apply dot_plain | done | rewrite sapp_length; lia]. Qed.

Lemma star_chars f v t : all_chars f v = true -> t ∈ leaves (Star (Chars f)) (v +s+ t).
Proof.
  intros Hv. cbn [leaves]. eapply (upto_reach _ f); [ | done | rewrite sapp_length; lia].
  intros c s Hc. rewrite Hc. by apply list_elem_of_singleton.
Qed.


(** ** The calls of the API *)

Inductive call :=
| CMac2Ip (mac : string) | CReleaseIP (mac : string) | CIP2Mac (ip : string)
| CAllStats | CStats (int : string) | CNetworkStats (int network : string) | CDebug (int role : string)
| CGetConfig | CUpdateConfig
| COverrideNetwork (network : string) | CRemoveNetwork (network : string)
| COverrideMac (mac : string) | CRemoveMac (mac : string)
| CListOverrides | CGetOverride (type target : string).

(** Method and path of a call, as the documentation of the API spells them. *)
Definition call_request (c : call) : string * string :=
  match c with
  | CMac2Ip mac => ("GET", "/api/v1/dhcp/mac/" +s+ mac)
  | CReleaseIP mac => ("DELETE", "/api/v1/dhcp/mac/" +s+ mac)
  | CIP2Mac ip => ("GET", "/api/v1/dhcp/ip/" +s+ ip)
  | CAllStats => ("GET", "/api/v1/dhcp/stats")
  | CStats int => ("GET", "/api/v1/dhcp/stats/" +s+ int)
  | CNetworkStats int network => ("GET", "/api/v1/dhcp/stats/" +s+ int +s+ "/" +s+ network)
  | CDebug int role => ("GET", "/api/v1/dhcp/debug/" +s+ int +s+ "/" +s+ role)
  | CGetConfig => ("GET", "/api/v1/config")
  | CUpdateConfig => ("POST", "/api/v1/config")
  | COverrideNetwork network => ("POST", "/api/v1/dhcp/options/network/" +s+ network)
  | CRemoveNetwork network => ("DELETE", "/api/v1/dhcp/options/network/" +s+ network)
  | COverrideMac mac => ("POST", "/api/v1/dhcp/options/mac/" +s+ mac)
  | CRemoveMac mac => ("DELETE", "/api/v1/dhcp/options/mac/" +s+ mac)
  | CListOverrides => ("GET", "/api/v1/dhcp/options")
  | CGetOverride type target => ("GET", "/api/v1/dhcp/options/" +s+ type +s+ "/" +s+ target)
  end%string.

Definition call_target (c : call) : endpoint * vars :=
  match c with
  | CMac2Ip mac => (Mac2Ip, [("mac", mac)])
  | CReleaseIP mac => (ReleaseIP, [("mac", mac)])
  | CIP2Mac ip => (IP2Mac, [("ip", ip)])
  | CAllStats => (AllStats, [])
  | CStats int => (Stats_, [("int", int)])
  | CNetworkStats int network => (Stats_, [("int", int); ("network", network)])
  | CDebug int role => (Debug_, [("int", int); ("role", role)])
  | CGetConfig => (GetConfig, [])
  | CUpdateConfig => (UpdateConfig, [])
  | COverrideNetwork network => (OverrideNetworkOptions, [("network", network)])
  | CRemoveNetwork network => (RemoveNetworkOptions, [("network", network)])
  | COverrideMac mac => (OverrideOptions, [("mac", mac)])
  | CRemoveMac mac => (RemoveOptions, [("mac", mac)])
  | CListOverrides => (ListOverrides, [])
  | CGetOverride type target => (GetOverride, [("type", type); ("target", target)])
  end%string.

(** A name that fits between two slashes. *)
Definition segment (s : string) : Prop := s <> EmptyString /\ has_char "/" s = false /\ all_chars plain_char s = true.

Definition call_ok (c : call) : Prop :=
  match c with
  | CMac2Ip mac | CReleaseIP mac | COverrideMac mac | CRemoveMac mac => accepts mac_regex mac
  | CIP2Mac ip => accepts ip_regex ip
  | COverrideNetwork network | CRemoveNetwork network => accepts ip_regex network
  | CStats int => segment int
  | CNetworkStats int network => segment int /\ accepts ip_regex network /\ has_char "/" network = false
  | CDebug int role => segment int /\ has_char "/" role = false
  | CGetOverride type target => segment type /\ segment target
  | CAllStats | CGetConfig | CUpdateConfig | CListOverrides => True
  end.

Lemma no_slash s : has_char "/" s = false -> all_chars not_slash s = true.
Proof.
  induction s as [|c s IH]; cbn [has_char all_chars]; [done | ]. intros [Hc Hs]%orb_false_iff.
  apply bool_decide_eq_false in Hc. rewrite IH by done. unfold not_slash. by rewrite (proj2 (Ascii.eqb_neq _ _) Hc).
Qed.

Lemma segment_accepts s t : segment s -> t ∈ leaves segment_regex (s +s+ t).
Proof.
  intros (Hne & Hs & _). apply no_slash in Hs. destruct s as [|c s]; [done | ]. cbn [all_chars] in Hs.
  apply andb_prop in Hs as [Hc Hs]. change (leaves segment_regex (String c s +s+ t)) with
    (leaves (Chars not_slash) (String c (s +s+ t)) ≫= leaves (Star (Chars not_slash))).
  cbn [leaves]. rewrite Hc, bind_cons, app_nil_r. by apply star_chars.
Qed.

(** Two variables with a slash between them. *)
Lemma MatchAll_two n1 r1 n2 r2 a b :
  has_char "/" a = false -> has_char "/" b = false ->
  String "/" b ∈ leaves r1 (a +s+ String "/" b) -> accepts r2 b ->
  MatchAll [Var n1 r1; Lit "/"; Var n2 r2] (a +s+ String "/" b) = Some [(n1, a); (n2, b)].
Proof.
  intros Ha Hb H1 H2. apply MatchAll_unique.
  - intros g (v & t & g1 & Hs & _ & -> & u & -> & v2 & t2 & g2 & -> & _ & -> & -> & <-).
    rewrite sapp_nil_r in Hs. cbn [sapp] in Hs. symmetry in Hs. apply cut_unique in Hs as [-> ->]; done.
  - exists a, (String "/" b), [(n2, b)]. do 3 (split; [done | ]). exists b. split; [done | ].
    exists b, EmptyString, []. rewrite sapp_nil_r. done.
Qed.

(** Without a slash there is no second variable. *)
Lemma MatchAll_one_only n1 r1 n2 r2 a :
  has_char "/" a = false -> MatchAll [Var n1 r1; Lit "/"; Var n2 r2] a = None.
Proof.
  intros Ha. apply MatchAll_none. intros g (v & t & g1 & -> & _ & _ & u & -> & _). clear -Ha.
  induction v as [|c v IH]; cbn [sapp has_char] in Ha; [by rewrite bool_decide_true in Ha | ].
  apply orb_false_iff in Ha as [_ Ha]. auto.
Qed.

Lemma accepts_star_dot s : all_chars plain_char s = true -> accepts (Star Dot) s.
Proof. intros H. pose proof (star_dot s EmptyString H) as E. by rewrite sapp_nil_r in E. Qed.

Lemma accepts_star_not_slash s : has_char "/" s = false -> accepts (Star (Chars not_slash)) s.
Proof. intros H%no_slash. pose proof (star_chars not_slash s EmptyString H) as E. by rewrite sapp_nil_r in E. Qed.

Lemma accepts_segment s : segment s -> accepts segment_regex s.
Proof. intros H. pose proof (segment_accepts s EmptyString H) as E. by rewrite sapp_nil_r in E. Qed.

(** The first route, when its method and literal part fit, and the others. *)
Lemma first_match_skip r rs method path :
  method_matches r method = false \/ route_vars r path = None ->
  first_match (r :: rs) method path = first_match rs method path.
Proof. intros [H|H]; cbn [first_match]; rewrite H; [done | by destruct (method_matches r method)]. Qed.

Lemma first_match_take r rs method path v :
  method_matches r method = true -> route_vars r path = Some v ->
  first_match (r :: rs) method path = Some (r_handler r, v).
Proof. intros H1 H2. cbn [first_match]. by rewrite H1, H2. Qed.

Lemma route_vars_func template h method path : route_vars (HandleFunc template h method) path = MatchAll template path.
Proof. done. Qed.

(** Skips a route whose method or literal part differs. *)
Ltac skip_route :=
  rewrite first_match_skip;
  [ | first [left; reflexivity
            | right; rewrite route_vars_func, MatchAll_lit; cbn [strip sapp Ascii.eqb Bool.eqb]; reflexivity
            | right; rewrite route_vars_func, MatchAll_lit; cbn [strip sapp Ascii.eqb Bool.eqb]; by apply MatchAll_one_only]].

Ltac take_route :=
  apply first_match_take; [reflexivity | rewrite route_vars_func, MatchAll_lit; cbn [strip sapp Ascii.eqb Bool.eqb]].

Lemma first_match_call c : call_ok c -> first_match routes (call_request c).1 (call_request c).2 = Some (call_target c).
Proof.
  assert (Hseg : forall s, segment s -> has_char "/" s = false /\ all_chars plain_char s = true) by (by intros s (_ & ? & ?)).
  destruct c as [mac|mac|ip| |int|int network|int role| | |network|network|mac|mac| |type target];
    cbn [call_ok call_request call_target fst snd]; intros H; unfold routes.
  5: { destruct (Hseg _ H). repeat skip_route. take_route. by apply MatchAll_last, accepts_star_dot. }
  5: { destruct H as (H1 & H2 & H3). destruct (Hseg _ H1). repeat skip_route. take_route. apply MatchAll_two; [done | done | | done].
       by apply star_dot. }
  5: { destruct H as (H1 & H2). destruct (Hseg _ H1). repeat skip_route. take_route. apply MatchAll_two; [done | done | | ].
       - by apply star_dot.
       - by apply accepts_star_not_slash. }
  12: { destruct H as (H1 & H2). destruct (Hseg _ H1), (Hseg _ H2). repeat skip_route. take_route.
        apply MatchAll_two; [done | done | by apply segment_accepts | by apply accepts_segment]. }
  all: repeat skip_route; take_route; first [reflexivity | by apply MatchAll_last].
Qed.

(** Every route the router picks is in the table, with the method asked for. *)
Lemma first_match_in rs method path ep v :
  first_match rs method path = Some (ep, v) -> exists r, r ∈ rs /\ method_matches r method = true /\ r_handler r = ep.
Proof.
  induction rs as [|r rs IH]; cbn [first_match]; [done | ]. intros H.
  assert (Hnext : first_match rs method path = Some (ep, v) -> exists r', r' ∈ r :: rs /\ method_matches r' method = true /\ r_handler r' = ep).
  { intros H'. destruct (IH H') as (r' & Hr & H2). exists r'. split; [by constructor | done]. }
  destruct (method_matches r method) eqn:M; [ | auto]. destruct (route_vars r path); [ | auto].
  injection H as <- <-. exists r. split; [constructor | done].
Qed.

(** *** Hardware addresses in paths *)

Definition mac_char (c : ascii) : bool := is_hex c || is_char ":" c.

Lemma match_pairs_chars k s m r : match_pairs k s = Some (m, r) -> all_chars mac_char m = true.
Proof.
  revert s m. induction k as [|k IH]; intros s m; [by intros [= <- _] | ]. cbn [match_pairs].
  destruct s as [|a [|b [|c t]]]; try done. destruct (Ascii.eqb c ":") eqn:Ec.
  2: { destruct c as [[] [] [] [] [] [] [] []]; done. }
  apply Ascii.eqb_eq in Ec as ->. destruct (is_hex a && is_hex b) eqn:Hx; [ | done].
  destruct (match_pairs k t) as [[m' r']|] eqn:E; [ | done]. intros [= <- ->]. cbn [all_chars].
  apply andb_prop in Hx as [Ha Hb]. unfold mac_char at 1 2 3. by rewrite Ha, Hb, (IH _ _ E).
Qed.

Lemma all_chars_impl P Q s : (forall c, P c = true -> Q c = true) -> all_chars P s = true -> all_chars Q s = true.
Proof. intros H. induction s as [|c s IH]; cbn [all_chars]; [done | ]. intros [Hc Hs]%andb_prop. by rewrite H, IH. Qed.

Lemma all_chars_has P c s : all_chars P s = true -> P c = false -> has_char c s = false.
Proof.
  intros Hs Hc. induction s as [|a s IH]; cbn [all_chars has_char] in *; [done | ]. apply andb_prop in Hs as [Ha Hs].
  rewrite IH by done. rewrite bool_decide_false; [done | ]. intros ->. congruence.
Qed.

Lemma mac_char_plain c : mac_char c = true -> plain_char c = true.
Proof. destruct c as [[] [] [] [] [] [] [] []]; by vm_compute. Qed.

Lemma accepts_mac_segment s : accepts mac_regex s -> segment s.
Proof.
  unfold accepts. rewrite mac_leaves. destruct (match_pairs 5 s) as [[m r]|] eqn:E; [ | by intros ?%not_elem_of_nil].
  rewrite hex2_leaves. destruct r as [|a [|b t]]; try (by intros ?%not_elem_of_nil).
  destruct (is_hex a && is_hex b) eqn:Hx; [ | by intros ?%not_elem_of_nil]. intros <-%list_elem_of_singleton.
  assert (Hs : all_chars mac_char s = true).
  { rewrite (match_pairs_app _ _ _ _ E), all_chars_app, (match_pairs_chars _ _ _ _ E). cbn [all_chars].
    apply andb_prop in Hx as [Ha Hb]. unfold mac_char. by rewrite Ha, Hb. }
  split; [ | split].
  - intros ->. by destruct m.
  - by eapply all_chars_has.
  - eapply all_chars_impl; [apply mac_char_plain | done].
Qed.

(** ** Properties *)

Section Properties.

Context {CZ : GoCache Z} {CS : GoCache string} {SQL : SqlDB} {JSON : JSONCodec} {INI : Ini} {ON : OptionNames} {MUX : Mux}.
Context {LZ : GoCacheLaws Z} {LS : GoCacheLaws string} {SQLL : SqlDBLaws} {JSONL : JSONLaws} {MUXL : MuxLaws}.
Context (range_options : Options -> list (Z * bytes)).
Context (range_items : gmap string (Z * Z) -> list (string * (Z * Z))).
Context (Inc : IP -> IP) (fuel : nat) (other : SpecFloat.spec_float -> Z).

Abbreviation serve := (serve_http range_options range_items Inc fuel other).
Abbreviation run_handler := (handle range_options range_items Inc fuel other).

Lemma serve_call c now saved req s :
  call_ok c -> clean (URL_Path req) = true -> (Method req, URL_Path req) = call_request c ->
  serve now saved req s = run_handler now saved (call_target c).1 (call_target c).2 req s.
Proof.
  intros Hok Hclean E. unfold serve_http. rewrite match_first by done. pose proof (first_match_call c Hok) as H.
  rewrite <- E in H. cbn [fst snd] in H. rewrite H. by destruct (call_target c).
Qed.

(** What the handlers rely on and keep. *)
Definition site_sound (t : Z) (s : site) : Prop :=
  (forall i, i ∈ intsNet (site_server s) -> world_ok (world_of (site_server s) i) /\ all_owned t (world_of (site_server s) i)) /\
  cache_coherent (srv_overrides (site_server s)).

Lemma store_sound t s st : site_sound t s -> cache_coherent st -> site_sound t (set_store st s).
Proof.
  intros [Hi _] Hc. split; [ | done]. intros i Hin. destruct (Hi i Hin) as [[Hw _] Ho].
  split; [split; [exact Hw | apply Forall_nil_2] | exact Ho].
Qed.

Lemma override_coherent now st kind mac b :
  cache_coherent st ->
  cache_coherent (handleOverrideOptions now st mac b).2 /\
  cache_coherent (handleOverrideNetworkOptions now st kind b).2.
Proof.
  intros Hc. unfold handleOverrideOptions, handleOverrideNetworkOptions. destruct b as [opts|e]; [ | done].
  destruct (validate opts); [done | ].
  pose proof (Save_coherent now st "mac" (ToLower mac) opts ltac:(by right) Hc) as H1.
  pose proof (Save_coherent now st "network" kind opts ltac:(by left) Hc) as H2. split.
  - by destruct (SaveOptionOverride now st "mac" (ToLower mac) opts) as [st' [er|]].
  - by destruct (SaveOptionOverride now st "network" kind opts) as [st' [er|]].
Qed.

Lemma remove_coherent st ty label tg :
  override_type ty -> cache_coherent st -> cache_coherent (remove_response ty label tg (DeleteOptionOverride st ty tg)).2.
Proof.
  intros Hty Hc. pose proof (Delete_coherent st ty tg Hty Hc) as H.
  destruct (DeleteOptionOverride st ty tg) as [st' [er|]]; [ | done]. unfold remove_response. by case_match.
Qed.

Lemma visit_sound t MAC ip v :
  scope_ok (dhcpHandler v) -> (forall k, owned t k (dhcpHandler v)) ->
  scope_ok (dhcpHandler (visit t MAC ip v)) /\ (forall k, owned t k (dhcpHandler (visit t MAC ip v))).
Proof.
  intros Hs Ho. unfold visit. destruct (Contains (network v) ip); [ | done].
  pose proof (shorten_spec t MAC v) as (_ & Hp & Hoth & Hmac). unfold shorten in *.
  destruct (Get t (h_hwcache (dhcpHandler v)) MAC) as [x|] eqn:G; [ | done].
  destruct Hs as [H1 H2 H3 H4 H5]. split.
  - split; [done | done | done | | done]. intros t' k y. destruct (decide (k = MAC)) as [->|Hk].
    + rewrite Hmac. unfold cached_until. case_match; [ | done]. intros [= <-]. exact (H4 _ _ _ G).
    + rewrite Hoth by done. apply H4.
  - intros k t' y Ht. destruct (decide (k = MAC)) as [->|Hk].
    + rewrite Hmac. unfold cached_until. case_match; [ | done]. intros [= <-]. simpl. eapply (Ho MAC t); [lia | exact G].
    + rewrite Hoth by done. by apply Ho.
Qed.

Lemma release_sound t s mac :
  site_sound t s ->
  site_sound t (set_scopes (handleReleaseIP t (srv_macs (site_server s)) (in_network <$> intsNet (site_server s)) mac).2 s).
Proof.
  intros [Hi Hc]. split; [ | done]. set (nets := in_network <$> intsNet (site_server s)).
  assert (Hn : exists f, (handleReleaseIP t (srv_macs (site_server s)) nets mac).2 = map (map f) nets /\
    forall v, scope_ok (dhcpHandler v) -> (forall k, owned t k (dhcpHandler v)) ->
      scope_ok (dhcpHandler (f v)) /\ (forall k, owned t k (dhcpHandler (f v)))).
  { unfold handleReleaseIP, InterfaceScopeFromMac. destruct (Get t (srv_macs (site_server s)) mac) as [ip|].
    - rewrite scope_interfaces_spec. exists (visit t mac (ParseIP ip)). split; [by case_match | intros; by apply visit_sound].
    - exists id. split; [ | done]. case_match; simpl; rewrite <- (map_id nets) at 1; apply map_ext; intros l; by rewrite map_id. }
  destruct Hn as (f & -> & Hf). intros i Hin. cbn [set_scopes site_server intsNet] in Hin.
  apply list_elem_of_lookup in Hin as [j Hj]. rewrite lookup_zip_with in Hj. subst nets.
  destruct (intsNet (site_server s) !! j) as [i0|] eqn:Hj0; [ | done]. cbn [mbind option_bind] in Hj.
  rewrite list_lookup_fmap, list_lookup_fmap, Hj0 in Hj. injection Hj as <-.
  destruct (Hi i0 (list_elem_of_lookup_2 _ _ _ Hj0)) as [[Hw _] Ho].
  assert (Hv : forall n v, map f (in_network i0) !! n = Some v -> scope_ok (dhcpHandler v) /\ forall k, owned t k (dhcpHandler v)).
  { intros n v Hn. rewrite list_lookup_fmap in Hn. destruct (in_network i0 !! n) as [v0|] eqn:Hv0; [ | done].
    injection Hn as <-. apply Hf; [exact (Hw n v0 Hv0) | intros k; exact (Ho n v0 k Hv0)]. }
  split; [split; [ | apply Forall_nil_2] | ].
  - intros n v Hn. by apply (Hv n v).
  - intros n v k Hn. by apply (Hv n v).
Qed.

Lemma handle_sound t saved ep v req s r s' :
  run_handler t saved ep v req s = Some (Ret (r, s')) -> site_sound t s -> site_sound t s'.
Proof.
  intros H Hs. pose proof (proj2 Hs) as Hc. assert (Hsame : s' = s -> site_sound t s') by (by intros ->).
  assert (Hread : forall q, reading s q = Some (Ret (r, s')) -> s' = s)
    by (intros [[q|]|]; cbn [reading pure]; [by intros [= _ <-] | done | done]).
  destruct ep; cbn [handle] in H; try (by apply Hsame, (Hread _ H)); try (injection H as _ <-; done).
  - pose proof (release_sound t s (Vars v "mac") Hs) as Hr. destruct (handleReleaseIP _ _ _ _) as [q nets].
    injection H as _ <-. exact Hr.
  - destruct (handleUpdateConfig _ _ _) as [q file]. injection H as _ <-. exact Hs.
  - injection H as _ <-. apply store_sound; [done | ]. exact (proj2 (override_coherent t _ _ EmptyString _ Hc)).
  - injection H as _ <-. apply store_sound; [done | ]. apply remove_coherent; [by left | done].
  - injection H as _ <-. apply store_sound; [done | ]. exact (proj1 (override_coherent t _ EmptyString _ _ Hc)).
  - injection H as _ <-. apply store_sound; [done | ]. apply remove_coherent; [by right | done].
Qed.

(** C17: the REST API never breaks the server.  Whatever request is sent and
    whichever route serves it, every scope stays well formed, every cached index
    stays held by its client and the override memo keeps agreeing with the
    database. *)
Theorem http_keeps_sound t saved req s r s' :
  serve t saved req s = Some (Ret (r, s')) -> site_sound t s -> site_sound t s'.
Proof.
  unfold serve_http. destruct (Match _ _ _) as [[ep v]|]; [apply handle_sound | ]. by intros [= _ <-].
Qed.

(** C18: every call of the API reaches its handler.  For each of the fifteen
    operations, with any hardware address, network, interface or role its pattern
    is meant for, the request is served by the handler of this operation with
    exactly these variables: no route shadows another. *)
Theorem api_calls_served c now saved req s :
  call_ok c -> clean (URL_Path req) = true -> (Method req, URL_Path req) = call_request c ->
  serve now saved req s = run_handler now saved (call_target c).1 (call_target c).2 req s.
Proof. apply serve_call. Qed.

(** C20: GET requests are safe: a request with method GET, whatever its path,
    changes neither the state of the server nor the configuration file. *)
Theorem get_read_only now saved req s r s' :
  Method req = "GET"%string -> clean (URL_Path req) = true ->
  serve now saved req s = Some (Ret (r, s')) -> s' = s.
Proof.
  intros Hm Hc. unfold serve_http. rewrite match_first by done. rewrite Hm.
  destruct (first_match routes "GET" (URL_Path req)) as [[ep v]|] eqn:E; [ | by intros [= _ <-]].
  apply first_match_in in E as (rt & Hin & Hmeth & <-). intros H.
  assert (Hread : forall q, reading s q = Some (Ret (r, s')) -> s' = s)
    by (intros [[q|]|]; cbn [reading pure]; [by intros [= _ <-] | done | done]).
  unfold routes in Hin. repeat (apply elem_of_cons in Hin as [->|Hin]; [try done; cbn [r_handler HandleFunc handle] in H;
    try (by apply (Hread _ H)); by injection H as _ <- | ]). by apply not_elem_of_nil in Hin.
Qed.

(** C19: an override posted over HTTP is what a GET returns.  After a successful
    POST to [/api/v1/dhcp/options/mac/<mac>] a GET of the path of the same
    hardware address, in any letter case, returns the options of the POST, at any
    later time as long as the overrides are not changed. *)
Theorem override_over_http now now' saved saved' mac mac' opts post get s r s1 :
  accepts mac_regex mac -> accepts mac_regex mac' -> ToLower mac' = ToLower mac ->
  Forall ascii_option opts -> body_options post = inl opts ->
  (Method post, URL_Path post) = call_request (COverrideMac mac) -> clean (URL_Path post) = true ->
  (Method get, URL_Path get) = call_request (CGetOverride "mac" mac') -> clean (URL_Path get) = true ->
  serve now saved post s = Some (Ret (Answered r, s1)) -> status r = StatusOK ->
  exists o, serve now' saved' get s1 = Some (Ret (Answered (mkResponse StatusOK (BOverride o)), s1)) /\ ov_Options o = opts.
Proof.
  intros Hmac Hmac' Hlow Ha Hb Hp Hpc Hg Hgc Hserve Hok.
  rewrite (serve_call (COverrideMac mac) _ _ _ _ Hmac Hpc Hp) in Hserve. cbn [call_target fst snd handle] in Hserve. rewrite Hb in Hserve.
  unfold storing, pure in Hserve. destruct (handleOverrideOptions _ _ _ _) as [r0 st'] eqn:Ho.
  injection Hserve as <- <-. cbn [fst snd] in Hok. change (Vars [("mac"%string, mac)] "mac") with mac in Ho.
  destruct (posted_saved _ _ _ _ _ _ Ho Hok) as [_ Hsave].
  destruct (Save_ok_shape _ _ _ _ _ _ Ha Hsave) as (o & Hget & _ & _ & Hopts & _). exists o. split; [ | done].
  assert (Hseg : segment "mac") by done.
  rewrite (serve_call (CGetOverride "mac" mac') now' saved' get _ (conj Hseg (accepts_mac_segment _ Hmac')) Hgc Hg).
  cbn [call_target fst snd handle]. unfold pure. do 3 f_equal. unfold handleGetOptionOverride.
  change (Vars [("type"%string, "mac"%string); ("target"%string, mac')] "type") with "mac"%string.
  change (Vars [("type"%string, "mac"%string); ("target"%string, mac')] "target") with mac'.
  cbn [String.eqb Ascii.eqb Bool.eqb negb andb]. rewrite Hlow. cbn [fst snd set_store site_server srv_overrides].
  by rewrite Hget.
Qed.

End Properties.

(** ** Witnesses *)

Section Witnesses.

Import Wire Mem Table.

#[local] Existing Instance table_names.

(** A router that is the law itself. *)
#[local] Instance first_mux : Mux := {| Match := first_match |}.
#[local] Instance first_mux_laws : MuxLaws.
Proof. by split. Qed.

(** One interface, the first client on it and its lease. *)
Definition w_int : IntNet := mkIntNet lab_if [] [] 67 [w_network (lab_leased 2 (lab_t + 3600 * Second))].
Definition w_site : site :=
  mkSite (mkServer w_store (New 0 0) w_gm (New 0 0) (New 0 0) [w_int] {[ "eth0"%string := 0%nat ]}) None.

Abbreviation w_serve :=
  (serve_http (fun o => map_to_list o) (fun m => map_to_list m) inc_bytes 300 w_other).

Definition w_request (c : call) : request :=
  mkRequest (call_request c).1 (call_request c).2 "" (inl [w_lease]) (inr "no body"%string).

Lemma w_call c : (Method (w_request c), URL_Path (w_request c)) = call_request c.
Proof. by destruct c. Qed.

Lemma w_site_sound : site_sound lab_t w_site.
Proof.
  split; [ | exact w_store_coherent]. intros i ->%list_elem_of_singleton. split; [split; [ | apply Forall_nil_2] | ].
  - intros [|n] v Hn; [ | done]. injection Hn as <-. by apply lab_leased_ok.
  - intros [|n] v k Hn; [ | done]. injection Hn as <-. intros t' x _ G. simpl in G. unfold mc_get in G.
    destruct (decide (k = w_mac)) as [->|Hk]; [ | by rewrite lookup_singleton_ne in G].
    rewrite lookup_singleton_eq in G. destruct (live _ _); [ | done]. injection G as <-. by vm_compute.
Qed.

Definition w_release : request := w_request (CReleaseIP w_mac).
Definition answered_ok (r : option (exec (reply * site))) : bool :=
  match r with Some (Ret (Answered r, _)) => status r =? StatusOK | _ => false end.

Lemma answered_inv r : answered_ok r = true -> exists a s, r = Some (Ret (Answered a, s)) /\ status a = StatusOK.
Proof. destruct r as [[[[a| | ] s]|]|]; try done. intros H%Z.eqb_eq. by exists a, s. Qed.

Lemma w_release_ok : answered_ok (w_serve lab_t Written w_release w_site) = true.
Proof. vm_compute. reflexivity. Qed.

Lemma http_keeps_sound_witness :
  exists a s, w_serve lab_t Written w_release w_site = Some (Ret (Answered a, s)) /\ site_sound lab_t s.
Proof.
  destruct (answered_inv _ w_release_ok) as (a & s & H & _). exists a, s. split; [exact H | ].
  exact (http_keeps_sound _ _ _ _ _ lab_t Written w_release w_site (Answered a) s H w_site_sound).
Defined.

Definition w_stats_call : call := CNetworkStats "eth0" "192.168.1.0".

Lemma w_stats_call_ok : call_ok w_stats_call.
Proof. split; [done | split; [ | done]]. apply (bool_decide_eq_true_1 _). vm_compute. reflexivity. Qed.

Lemma api_calls_served_witness :
  w_serve lab_t Written (w_request w_stats_call) w_site =
  handle (fun o => map_to_list o) (fun m => map_to_list m) inc_bytes 300 w_other lab_t Written Stats_
    [("int", "eth0"); ("network", "192.168.1.0")]%string (w_request w_stats_call) w_site.
Proof.
  apply (api_calls_served _ _ _ _ _ w_stats_call lab_t Written (w_request w_stats_call) w_site);
    [exact w_stats_call_ok | by vm_compute | apply w_call].
Defined.

Lemma w_get_ok : answered_ok (w_serve lab_t Written (w_request (CMac2Ip w_mac)) w_site) = true.
Proof. vm_compute. reflexivity. Qed.

Lemma get_read_only_witness :
  exists a, w_serve lab_t Written (w_request (CMac2Ip w_mac)) w_site = Some (Ret (Answered a, w_site)).
Proof.
  destruct (answered_inv _ w_get_ok) as (a & s & H & _). exists a.
  assert (E : s = w_site).
  { apply (get_read_only (fun o => map_to_list o) (fun m => map_to_list m) inc_bytes 300 w_other lab_t Written
      (w_request (CMac2Ip w_mac)) w_site (Answered a) s); [reflexivity | by vm_compute | exact H]. }
  rewrite <- E at 2. exact H.
Defined.

Definition upper_mac : string := "AA:BB:CC:DD:EE:FF".
Definition lower_mac : string := "aa:bb:cc:dd:ee:ff".

Lemma w_macs_ok : accepts mac_regex upper_mac /\ accepts mac_regex lower_mac.
Proof. split; apply (bool_decide_eq_true_1 _); vm_compute; reflexivity. Qed.

Lemma w_posted_ok : answered_ok (w_serve 10 Written (w_request (COverrideMac upper_mac)) w_site) = true.
Proof. vm_compute. reflexivity. Qed.

Lemma override_over_http_witness :
  exists s o, w_serve 20 Written (w_request (CGetOverride "mac" lower_mac)) s =
                Some (Ret (Answered (mkResponse StatusOK (BOverride o)), s)) /\ ov_Options o = [w_lease].
Proof.
  destruct (answered_inv _ w_posted_ok) as (a & s & H & Hok). exists s.
  apply (override_over_http _ _ _ _ _ 10 20 Written Written upper_mac lower_mac [w_lease]
    (w_request (COverrideMac upper_mac)) (w_request (CGetOverride "mac" lower_mac)) w_site a s);
    [apply w_macs_ok | apply w_macs_ok | by vm_compute | apply Forall_singleton; by split | reflexivity
    | apply w_call | by vm_compute | apply w_call | by vm_compute | exact H | exact Hok].
Defined.

End Witnesses.
