(* ===== verification/Watchdog.v ===== *)
(** * The systemd watchdog: src/main.go, lines 145-171

    A goroutine asks the server for its own start page and tells systemd that
    the service is alive each time it gets an answer.  How a request ends and how
    long it takes is a list of outcomes; the result is when systemd is told. *)

From S2P Require Import Prelude GoStd GoCache.

Definition Millisecond : Z := 1000000.

(** One round of the loop: the request could not be made, it failed, or it was
    answered, after some time. *)
Inductive outcome :=
| RequestFailed
| DoFailed (took : Z)
| Responded (took : Z).

(** [interval] is the period systemd expects, [t] the time. *)
Fixpoint watchdog_loop (interval t : Z) (rounds : list outcome) : list Z :=
  match rounds with
  | [] => []
  | RequestFailed :: rounds => watchdog_loop interval t rounds
  | DoFailed took :: rounds => watchdog_loop interval (t + took + 100 * Millisecond) rounds
  | Responded took :: rounds =>
      let t := t + took + 100 * Millisecond in
      t :: watchdog_loop interval (t + interval ÷ 3) rounds
  end.

(** [SdWatchdogEnabled] gives the period, zero when there is none, or an error. *)
Definition watchdog (enabled : Z + string) (t : Z) (rounds : list outcome) : list Z :=
  match enabled with
  | inr _ => []
  | inl interval => if interval =? 0 then [] else watchdog_loop interval t rounds
  end.

Definition responded (o : outcome) : bool := match o with Responded _ => true | _ => false end.

(** Consecutive times are at most [d] apart. *)
Fixpoint spaced (d t : Z) (ts : list Z) : Prop :=
  match ts with [] => True | t' :: ts => t <= t' <= t + d /\ spaced d t' ts end.

(** An answer that comes in time. *)
Definition prompt (interval : Z) (o : outcome) : Prop :=
  match o with Responded took => 0 <= took <= interval - interval ÷ 3 - 100 * Millisecond | _ => False end.

Lemma watchdog_loop_length interval t rounds :
  length (watchdog_loop interval t rounds) = length (List.filter responded rounds).
Proof. revert t. induction rounds as [|[ | |] rounds IH]; intros t; simpl; auto. Qed.

Lemma quot3_range i : 0 <= i -> 0 <= i ÷ 3 <= i.
Proof. intros H. rewrite Z.quot_div_nonneg by lia. zdiv. Qed.

Lemma watchdog_loop_spaced interval t t0 rounds :
  0 <= interval -> Forall (prompt interval) rounds -> t0 <= t <= t0 + interval ÷ 3 ->
  spaced interval t0 (watchdog_loop interval t rounds).
Proof.
  intros Hi Hr. revert t t0. induction Hr as [|[ |took|took] rounds Ho _ IH]; intros t t0 Ht; simpl; [done.. | ].
  simpl in Ho. pose proof (quot3_range interval Hi). unfold Millisecond in *. split; [lia | ]. apply IH. lia.
Qed.

(** C40: the watchdog is fed exactly as often as the server answers.  Systemd is
    told once for each answered request and never otherwise; and when every
    request is answered within two thirds of the period less 100 ms, no gap
    between two notifications is longer than the period. *)
Theorem watchdog_fed interval t rounds :
  0 < interval ->
  length (watchdog (inl interval) t rounds) = length (List.filter responded rounds) /\
  (Forall (prompt interval) rounds -> spaced interval t (watchdog (inl interval) t rounds)).
Proof.
  intros Hi. unfold watchdog. destruct (Z.eqb_spec interval 0) as [->|]; [lia | ].
  split; [apply watchdog_loop_length | ]. intros Hr. apply watchdog_loop_spaced; [lia | done | ].
  pose proof (quot3_range interval). lia.
Qed.

(** A period of thirty seconds, answers after 5 ms and after a second. *)
Lemma watchdog_fed_witness :
  spaced (30 * Second) 0 (watchdog (inl (30 * Second)) 0 [Responded (5 * Millisecond); Responded Second]).
Proof.
  apply (watchdog_fed (30 * Second) 0 [Responded (5 * Millisecond); Responded Second]); [done | ].
  repeat (apply Forall_cons; split; [by vm_compute | ]). apply Forall_nil_2.
Defined.
